(* ===== verification/_CoqProject ===== *)
-Q . S2P
Prelude.v
Bytes.v
Streams.v
Serializer.v
Codec.v
CodecFacts.v
Types.v
Value.v
Schema.v
Tuple.v
Expressions.v
TablePage.v
Files.v
DiskManager.v
BufferPool.v
BufferPoolProps.v
PoolLiveness.v
PageGuard.v
TableMeta.v
TableHeap.v
TableHeapProps.v
TableHeapThms.v
TableScan.v
Index.v
BtreePage.v
BtreePageFacts.v
BtreeNodes.v
BtreeThms.v
Watermark.v
Transactions.v
BTreeIndex.v
BTreePool.v
BTreeShape.v
BTreeIndexThms.v
BTreeInsert.v
BTreeInsertThms.v
BTreeMap.v
BTreeFull.v
Catalog.v
CatalogFacts.v
CatalogThms.v
Binder.v
Planner.v
Database.v
PlannerThms.v
DatabaseThms.v
IndexCreation.v
Session.v
InsertSelect.v
