(* ===== verification/Prelude.v ===== *)
(** * gavin-db: a verification library

    gavin-db is a small relational database: SQL text is parsed by a third-party parser,
    bound and planned, executed by pull-based executors over tables whose rows live in
    slotted pages behind a buffer pool, and a catalog of tables and B+ tree indexes is kept
    in files by a binary serializer.  This library models the program under [src/src] and
    proves what its components promise each other.

    ** Conventions

    A C++ method that changes its object is a value of [M S A], [S -> res A * S]: the state
    is kept when the call throws.  [failure] has the program's exceptions, those of the
    standard library, failed assertions (the default build has them) and undefined
    behaviour, which is never a result that a theorem accepts.  Integers are [Z], with the
    wrap-around of their width written out ([uwrap], [swrap]; Prelude.v); bytes are
    [Byte.byte] and memory is a list of them (Bytes.v).  Definitions keep the names of the
    source; a class is a [Module], its fields a [Record].  A reference to a page is the
    number of its frame.  Hash maps are stdpp's [gmap]; where the order in which one is
    visited can be seen, that order is a parameter ([HashOrder]).

    ** Parts, from the bottom up

    - Prelude, Bytes, Types: failures and monads, wrap-around, little-endian images, and
      [common/config.hpp], [type.hpp], [page_id.hpp], [rid.hpp], [typedef.hpp].
    - Streams, Serializer, Codec, CodecFacts: [storage/serializer/].  Streams are type
      classes with laws ([ReadStream], [WriteStream]) and two instances; the overloads of
      the serializer are codecs, one per type, and [serial] composes their round trips.
    - Value, Schema, Tuple: [common/value.*], [meta/column.*], [meta/schema.*],
      [storage/table/tuple.*]: construction, storage layout, reading columns, persistence.
    - Expressions: [query/expressions/].
    - Files, DiskManager: [common/fs_utils.hpp], [storage/file_path_manager.hpp],
      [storage/disk_manager.*].  [PageStore] is what a disk promises to the pool; the
      disk manager is shown to keep it, page by page, within the offsets it can reach.
    - BufferPool, BufferPoolProps, PoolLiveness, PageGuard: [storage/buffer/], [storage/page/page.hpp],
      [page_guard.*]: frames, pins, latches, the replacer, guards with their destructors.
    - TablePage, TableMeta, TableHeap, TableHeapProps, TableHeapThms, TableScan:
      [storage/page/table_page.*], [storage/table/table_meta.hpp], [table_heap.*],
      [table_iterator.*] and [query/executors/seq_scan_executor.cpp].
    - Index, BtreePage, BtreePageFacts, BtreeNodes, BtreeThms: [index/index.hpp],
      [storage/page/btree_*.hpp]: keys and their orders, the pages byte for byte.
    - BTreeIndex: [index/bplus_tree_index.hpp], the tree over the buffer pool with its latch
      crabbing.  Its proofs: BTreePool has the buffer pool as a [world] (what is pinned,
      latched, safe to evict, unused) and rules for each call ([wp]); BTreeShape what a tree
      of pages is ([tree_at], [span]); BTreeIndexThms searches, BTreeInsert and BTreeInsertThms
      insertions, BTreeMap the index from its constructor on, BTreeFull the end of its growth.
    - Watermark, Transactions: [concurrency/].
    - Catalog, CatalogFacts, CatalogThms: [meta/catalog.*] and its files.
    - Binder, Planner, PlannerThms: [query/binder/], [query/plans/], [query/planner.cpp],
      from the parser's classes (Module [hsql]) to plans.
    - Database, DatabaseThms, IndexCreation, Session, InsertSelect: the executors, [query/executor_factory.cpp],
      [query/execution_engine.hpp] and [common/db_instance.*].  The state [db] is the
      catalog, its file system and the buffer pool.  DatabaseThms has the statements one by
      one, IndexCreation what a primary key's index takes from the pool the tables share,
      Session sequences of statements over many tables, and restarts, InsertSelect the copy
      of one table into another or into itself.

    ** What the theorems show

    - Sessions: from an empty directory on, CREATE TABLE, with or without a primary key,
      INSERT ... VALUES and restarts, in any order, are answered as a small specification of
      tables and rows answers them, and every row of every table is read back in the end
      (Session).
    - From SQL to disk: CREATE TABLE and INSERT ... VALUES, through binder, planner,
      executors, heap, pool and catalog, have the effect their text names, and a database
      opened on the files afterwards finds it (DatabaseThms, PlannerThms, CatalogThms);
      INSERT ... SELECT copies the rows a scan finds, once each, also when it reads the
      table it writes (InsertSelect); no SELECT is answered at all (DatabaseThms).
    - Tables: the page refines an append-only list of rows (TablePage), the heap a chain of
      such pages (TableHeapThms), and a scan returns the rows in order (TableScan).
    - Storage: the pool refines a map from pages to bytes under eviction and goes on serving
      as long as the replacer knows one frame (BufferPoolProps, PoolLiveness), a flush makes it
      durable, guards leave no pin and no latch behind (PageGuard), and a
      page written to disk is read back (DiskManager).
    - B+ tree: leaves refine finite maps, splits keep them, internal pages route
      (BtreeThms); an index over the buffer pool answers insertions and searches as a map
      does, through leaf splits and new roots, as long as one root suffices (BTreeMap); a full
      root is never split, so that it has to (BTreeFull).
    - Data: tuples, values and schemas survive storage and serialization up to what the
      code does not keep (Tuple, Value, Schema); expressions compute the arithmetic they
      denote and keep types (Expressions).
    - Concurrency control: the watermark is the oldest running reader (Watermark); the
      manager never advances it (Transactions).
    - The places where the code departs from what it means to do are theorems too, listed
      as findings with the code's lines.

    ** Parameters and their laws

    [StringLayout] (the bytes of a [std::string] object), [TupleInfoLayout] and
    [LeafLayout] (where the standard library and the compiler put members, with the
    documented sizes), [Allocator] (the bytes of fresh memory), [HashOrder], [PageStore],
    [ReadStream] and [WriteStream]; the parser ([parse]) and the memory a new [IndexMeta]
    finds ([index_id]) are arguments in Database.v.  Each class has an instance that
    concrete runs use.

    ** Fuel and bounds

    Loops that the source ends by a condition take fuel: a memory stream grows by doubling
    at most 64 times (sizes are 64-bit); [lower_bound] halves at most 64 times; a search in
    the watermark has a [horizon] behind which there is nothing to find, so that running
    out of it is the overflow of the counter; [find_room] needs two rounds, since a tuple
    fits the page that was just made or fails an assertion; a descent in a tree takes
    [LEVELS] = 64, more than page numbers of 32 bits allow; executors take the depth of the
    plan plus the rows of an insert.  Running out of fuel is [UndefinedBehaviour], which
    the theorems exclude.

    ** Not modelled

    - Concurrency: one thread runs at a time; mutexes are never contended, and a latch is
      what one thread can observe of it.
    - Log messages, except where building one can throw ([ToString] of values, plans and
      keys); formatters; debug printers.
    - The parser, a submodule: its classes appear as records of the fields the binder reads.
    - Aliasing of paths (links, [..]): a path is its text.  Write failures of a file that
      is open, and the write-back buffers of [std::fstream].
    - In the state [db] the page store is separate from the files of the catalog, as the
      table data files are touched by the disk manager alone once they exist.
    - Traits that select serializer overloads (SFINAE) are resolved by hand, and overloads
      that no type of the program uses are left out. *)

From Stdlib Require Export ZArith Lia Bool.
From stdpp Require Export base tactics list option gmap strings.
From stdpp Require Export list_numbers.

#[global] Set Default Proof Using "Type".
#[global] Open Scope Z_scope.
#[global] Unset Program Cases.

(** ** Failures

    The ways a call of the C++ program can fail.  The first five are the classes
    of [common/exception.hpp]; then the standard library's exceptions that the
    source can raise; then a failed [assert] (the default build is [Debug], so
    assertions are compiled in) and undefined behaviour.  Messages are not kept. *)
Inductive failure : Type :=
| Exception
| NotImplementedException
| SerializationException
| IOException
| RuntimeException
| StdRuntimeError
| BadVariantAccess
| BadCast
| OutOfRange
| InvalidArgument
| AssertionFailed
| UndefinedBehaviour.

#[export] Instance failure_eq_dec : EqDecision failure.
Proof. solve_decision. Defined.

(** ** Results and the state monad *)
Inductive res (A : Type) : Type :=
| Ok (a : A)
| Err (e : failure).
Arguments Ok {A} a.
Arguments Err {A} e.

#[export] Instance res_eq_dec {A} `{EqDecision A} : EqDecision (res A).
Proof. solve_decision. Defined.

#[export] Instance res_ret : MRet res := @Ok.
#[export] Instance res_bind : MBind res := fun A B f r =>
  match r with Ok a => f a | Err e => Err e end.
#[export] Instance res_fmap : FMap res := fun A B f r =>
  match r with Ok a => Ok (f a) | Err e => Err e end.

(** [assert(b)] of the source. *)
Definition assertion (b : bool) : res unit :=
  if b then Ok tt else Err AssertionFailed.

(** A C++ method that mutates an object of type [S]: the state is kept when the
    call throws, as it is in the source. *)
Definition M (S A : Type) : Type := S -> res A * S.

#[export] Instance M_ret {S} : MRet (M S) := fun A a s => (Ok a, s).
#[export] Instance M_bind {S} : MBind (M S) := fun A B f m s =>
  match m s with
  | (Ok a, s') => f a s'
  | (Err e, s') => (Err e, s')
  end.
#[export] Instance M_fmap {S} : FMap (M S) := fun A B f m s =>
  match m s with
  | (Ok a, s') => (Ok (f a), s')
  | (Err e, s') => (Err e, s')
  end.

Definition throw {S A} (e : failure) : M S A := fun s => (Err e, s).
Definition lift {S A} (r : res A) : M S A := fun s => (r, s).
Definition get_state {S} : M S S := fun s => (Ok s, s).
Definition modify {S} (f : S -> S) : M S unit := fun s => (Ok tt, f s).
Definition assert_that {S} (b : bool) : M S unit := lift (assertion b).

(** [m] started in [s] returns [a] and leaves [s']. *)
Definition returns {S A} (m : M S A) (s : S) (a : A) (s' : S) : Prop := m s = (Ok a, s').

Section monad_laws.
Context {S A B : Type}.

Lemma bind_returns (m : M S A) (f : A -> M S B) s a s1 b s2 :
  returns m s a s1 -> returns (f a) s1 b s2 -> returns (m ≫= f) s b s2.
Proof. unfold returns, mbind, M_bind. by intros -> ->. Qed.

Lemma bind_ok (m : M S A) (f : A -> M S B) s a s1 :
  m s = (Ok a, s1) -> (m ≫= f) s = f a s1.
Proof. unfold mbind, M_bind. by intros ->. Qed.

Lemma bind_err (m : M S A) (f : A -> M S B) s e s1 :
  m s = (Err e, s1) -> (m ≫= f) s = (Err e, s1).
Proof. unfold mbind, M_bind. by intros ->. Qed.

Lemma bind_inv (m : M S A) (f : A -> M S B) s b s2 :
  (m ≫= f) s = (Ok b, s2) -> exists a s1, m s = (Ok a, s1) /\ f a s1 = (Ok b, s2).
Proof.
  unfold mbind, M_bind. destruct (m s) as [[a|e] s1] eqn:E; intros H; [eauto|done].
Qed.

Lemma ret_returns (a : A) (s : S) : returns (mret a) s a s.
Proof. done. Qed.
End monad_laws.

(** ** Parts of the state that a computation leaves alone, whatever it answers *)
Section preserves.
Context {S X : Type} (part : S -> X).
Definition preserves {A} (m : M S A) : Prop := forall s, part (m s).2 = part s.

Lemma preserves_bind {A B} (m : M S A) (f : A -> M S B) : preserves m -> (forall a, preserves (f a)) -> preserves (m ≫= f).
Proof.
  intros Hm Hf s. unfold mbind, M_bind. specialize (Hm s). destruct (m s) as [[a|e] s1]; cbn in *; [|done].
  rewrite <- Hm. apply Hf.
Qed.
Lemma preserves_ret {A} (a : A) : preserves (mret a).
Proof. done. Qed.
Lemma preserves_lift {A} (r : res A) : preserves (lift r).
Proof. done. Qed.
Lemma preserves_get : preserves get_state.
Proof. done. Qed.
Lemma preserves_assert b : preserves (assert_that b).
Proof. done. Qed.
Lemma preserves_modify f : (forall s, part (f s) = part s) -> preserves (modify f).
Proof. intros Hf s. apply Hf. Qed.
End preserves.
Create HintDb preserves.
#[export] Hint Resolve preserves_bind preserves_ret preserves_lift preserves_get preserves_assert : preserves.

(** [injection] would also reduce the two sides; this keeps them as they are. *)
Lemma Ok_inj {A} (a b : A) : Ok a = Ok b -> a = b.
Proof. congruence. Qed.

Lemma res_bind_Ok {A B} (r : res A) (f : A -> res B) a : r = Ok a -> r ≫= f = f a.
Proof. by intros ->. Qed.

Lemma res_bind_ok {A B} (r : res A) (f : A -> res B) b :
  (r ≫= f) = Ok b <-> exists a, r = Ok a /\ f a = Ok b.
Proof. destruct r; cbn; naive_solver. Qed.

(** ** Machine integers *)
Definition uwrap (w : Z) (z : Z) : Z := z mod 2 ^ w.
Definition swrap (w : Z) (z : Z) : Z := (z + 2 ^ (w - 1)) mod 2 ^ w - 2 ^ (w - 1).

Definition in_u (w : Z) (z : Z) : Prop := 0 <= z < 2 ^ w.
Definition in_s (w : Z) (z : Z) : Prop := - 2 ^ (w - 1) <= z < 2 ^ (w - 1).

#[export] Instance in_u_dec w z : Decision (in_u w z).
Proof. unfold in_u. apply _. Defined.
#[export] Instance in_s_dec w z : Decision (in_s w z).
Proof. unfold in_s. apply _. Defined.

Lemma pow2_double w : 0 < w -> 2 ^ w = 2 * 2 ^ (w - 1).
Proof. intros. rewrite <- Z.pow_succ_r by lia. f_equal. lia. Qed.

Lemma uwrap_range w z : 0 <= w -> in_u w (uwrap w z).
Proof. intros. apply Z.mod_pos_bound, Z.pow_pos_nonneg; lia. Qed.

Lemma uwrap_id w z : in_u w z -> uwrap w z = z.
Proof. apply Z.mod_small. Qed.

Lemma swrap_range w z : 0 < w -> in_s w (swrap w z).
Proof.
  intros Hw. unfold in_s, swrap. pose proof (pow2_double w Hw).
  assert (0 < 2 ^ w) by (apply Z.pow_pos_nonneg; lia).
  pose proof (Z.mod_pos_bound (z + 2 ^ (w - 1)) (2 ^ w)). lia.
Qed.

Lemma swrap_id w z : 0 < w -> in_s w z -> swrap w z = z.
Proof.
  intros Hw Hz. unfold in_s, swrap in *. pose proof (pow2_double w Hw).
  rewrite Z.mod_small; lia.
Qed.

(** Re-interpreting the low [w] bits as signed undoes the cast to unsigned. *)
Lemma swrap_uwrap w z : 0 < w -> in_s w z -> swrap w (uwrap w z) = z.
Proof.
  intros Hw Hz. transitivity (swrap w z); [|by apply swrap_id].
  unfold swrap, uwrap. assert (0 < 2 ^ w) by (apply Z.pow_pos_nonneg; lia).
  by rewrite Zplus_mod_idemp_l.
Qed.

(** The iteration order of a [std::unordered_map]: unspecified, but it visits every
    entry once. *)
Class HashOrder (K V : Type) `{Countable K} := {
  iteration : gmap K V -> list (K * V);
  iteration_perm m : iteration m ≡ₚ map_to_list m
}.

(** ** Automation *)
Create HintDb gdb.
Create Rewrite HintDb gsimpl.
#[export] Hint Resolve ret_returns uwrap_range swrap_range : gdb.

(** Reduce [in_u]/[in_s] hypotheses at concrete widths to linear arithmetic. *)
Ltac unfold_width := unfold in_u, in_s in *;
  repeat match goal with
  | H : context [2 ^ ?e] |- _ => let v := eval vm_compute in (2 ^ e) in
      progress change (2 ^ e) with v in H
  | |- context [2 ^ ?e] => let v := eval vm_compute in (2 ^ e) in
      progress change (2 ^ e) with v
  end.
Ltac width := unfold_width; lia.

(** Case analysis on the innermost match of an equation between results. *)
Ltac step_in H :=
  match type of H with
  | context [match ?x with _ => _ end] =>
      let E := fresh "E" in destruct x eqn:E; try discriminate H
  end.
