(* ===== verification/Bytes.v ===== *)
(** * Bytes and memory

    Bytes are [Byte.byte]; a block of memory is a [list byte].  This file holds the
    little-endian images of the integer types (the target is little-endian, as
    [ConvertArrayToInt32] in [index/index.hpp] says) and the two memory primitives
    the storage code is made of: reading and overwriting a range of a block. *)
From S2P Require Import Prelude.
From Stdlib Require Export Strings.Byte.
From Stdlib Require Import NArith.

#[export] Instance byte_eq_dec : EqDecision byte := Byte.byte_eq_dec.

Definition byte_to_Z (b : byte) : Z := Z.of_N (Byte.to_N b).
Definition byte_of_Z (z : Z) : byte :=
  default x00 (Byte.of_N (Z.to_N (z mod 256))).

Lemma byte_to_Z_range b : 0 <= byte_to_Z b < 256.
Proof. unfold byte_to_Z. pose proof (Byte.to_N_bounded b). lia. Qed.

Lemma byte_of_to_Z b : byte_of_Z (byte_to_Z b) = b.
Proof.
  unfold byte_of_Z. rewrite Z.mod_small by apply byte_to_Z_range.
  unfold byte_to_Z. by rewrite N2Z.id, Byte.of_to_N.
Qed.

Lemma byte_to_of_Z z : byte_to_Z (byte_of_Z z) = z mod 256.
Proof.
  unfold byte_of_Z, byte_to_Z.
  pose proof (Z.mod_pos_bound z 256 eq_refl) as Hb.
  destruct (Byte.of_N (Z.to_N (z mod 256))) as [b|] eqn:E; cbn.
  - apply Byte.to_of_N in E. rewrite E. lia.
  - apply Byte.of_N_None_iff in E. lia.
Qed.

(** ** Little-endian integers *)
Fixpoint le_bytes (n : nat) (z : Z) : list byte :=
  match n with
  | O => []
  | S n => byte_of_Z z :: le_bytes n (z / 256)
  end.

Fixpoint le_val (l : list byte) : Z :=
  match l with
  | [] => 0
  | b :: l => byte_to_Z b + 256 * le_val l
  end.

Lemma length_le_bytes n z : length (le_bytes n z) = n.
Proof. revert z. induction n as [|n IH]; intros z; cbn; [done|]. by rewrite IH. Qed.

Lemma pow_8S (n : nat) : 2 ^ (8 * Z.of_nat (S n)) = 256 * 2 ^ (8 * Z.of_nat n).
Proof.
  replace (8 * Z.of_nat (S n)) with (8 + 8 * Z.of_nat n) by lia.
  by rewrite Z.pow_add_r by lia.
Qed.

Lemma le_val_bytes n z : le_val (le_bytes n z) = uwrap (8 * Z.of_nat n) z.
Proof.
  unfold uwrap. revert z. induction n as [|n IH]; intros z.
  - cbn. by rewrite Z.mod_1_r.
  - cbn [le_bytes le_val]. rewrite IH, byte_to_of_Z, pow_8S.
    rewrite Z.rem_mul_r; [done|lia|apply Z.pow_pos_nonneg; lia].
Qed.

Lemma le_val_range l : 0 <= le_val l < 2 ^ (8 * Z.of_nat (length l)).
Proof.
  induction l as [|b l IH]; [done|]. cbn [le_val length]. rewrite pow_8S.
  pose proof (byte_to_Z_range b). lia.
Qed.

Lemma le_bytes_val l : le_bytes (length l) (le_val l) = l.
Proof.
  induction l as [|b l IH]; [done|]. cbn [le_val length le_bytes].
  pose proof (byte_to_Z_range b). f_equal.
  - transitivity (byte_of_Z (byte_to_Z b)); [|apply byte_of_to_Z].
    unfold byte_of_Z. do 3 f_equal.
    by rewrite (Z.mul_comm 256), Z.mod_add, (Z.mod_small (byte_to_Z b)) by lia.
  - rewrite (Z.mul_comm 256), Z.div_add, Z.div_small, Z.add_0_l by lia. done.
Qed.

Definition le_u (n : nat) (l : list byte) : Z := le_val l.
Definition le_s (n : nat) (l : list byte) : Z := swrap (8 * Z.of_nat n) (le_val l).

Lemma le_u_bytes n z : in_u (8 * Z.of_nat n) z -> le_u n (le_bytes n z) = z.
Proof. intros. unfold le_u. rewrite le_val_bytes. by apply uwrap_id. Qed.

Lemma le_s_bytes n z : (0 < n)%nat -> in_s (8 * Z.of_nat n) z -> le_s n (le_bytes n z) = z.
Proof. intros. unfold le_s. rewrite le_val_bytes. apply swrap_uwrap; [lia|done]. Qed.

Lemma le_u_bytes_wrap n z : le_u n (le_bytes n z) = uwrap (8 * Z.of_nat n) z.
Proof. apply le_val_bytes. Qed.

(** The first bytes of a wider integer are the bytes of its truncation. *)
Lemma take_le_bytes n k z : (n <= k)%nat -> take n (le_bytes k z) = le_bytes n z.
Proof.
  revert k z. induction n as [|n IH]; intros k z Hnk; [done|].
  destruct k as [|k]; [lia|]. cbn [le_bytes take]. f_equal. apply IH. lia.
Qed.

(** ** Memory blocks *)
Definition rd (off n : nat) (m : list byte) : list byte := take n (drop off m).
Definition wr (off : nat) (bs m : list byte) : list byte :=
  take off m ++ bs ++ drop (off + length bs) m.

Lemma length_rd off n m : (off + n <= length m)%nat -> length (rd off n m) = n.
Proof. intros. unfold rd. rewrite length_take, length_drop. lia. Qed.

Lemma length_wr off bs m : (off + length bs <= length m)%nat -> length (wr off bs m) = length m.
Proof. intros. unfold wr. rewrite !length_app, length_take, length_drop. lia. Qed.

Lemma lookup_rd off n m i : (i < n)%nat -> rd off n m !! i = m !! (off + i)%nat.
Proof. intros. unfold rd. by rewrite lookup_take_lt, lookup_drop. Qed.

Lemma lookup_wr off bs m i : (off <= length m)%nat ->
  wr off bs m !! i =
    if decide (i < off)%nat then m !! i
    else if decide (i < off + length bs)%nat then bs !! (i - off)%nat else m !! i.
Proof.
  intros Ho. unfold wr. case_decide.
  - rewrite lookup_app_l by (rewrite length_take; lia). by rewrite lookup_take_lt.
  - rewrite lookup_app_r by (rewrite length_take; lia).
    rewrite length_take, Nat.min_l by lia. case_decide.
    + by rewrite lookup_app_l by lia.
    + rewrite lookup_app_r, lookup_drop by lia. f_equal. lia.
Qed.

Lemma rd_wr_eq off bs m : (off <= length m)%nat -> rd off (length bs) (wr off bs m) = bs.
Proof.
  intros. unfold rd, wr. rewrite drop_app_length' by (rewrite length_take; lia).
  by rewrite take_app_length.
Qed.

Lemma rd_wr_all off n bs m : length bs = n -> (off <= length m)%nat ->
  rd off n (wr off bs m) = bs.
Proof. intros <-. apply rd_wr_eq. Qed.

(** An integer written to memory and read back. *)
Lemma rd_wr_le off k z m : (off <= length m)%nat ->
  rd off k (wr off (le_bytes k z) m) = le_bytes k z.
Proof.
  intros. pose proof (rd_wr_eq off (le_bytes k z) m) as E. rewrite length_le_bytes in E. auto.
Qed.

Lemma rd_ext off n m m' :
  (forall i, (off <= i < off + n)%nat -> m !! i = m' !! i) -> rd off n m = rd off n m'.
Proof.
  intros H. apply list_eq. intros i. destruct (decide (i < n)%nat).
  - rewrite !lookup_rd by done. apply H. lia.
  - unfold rd. by rewrite !lookup_take_ge by lia.
Qed.

(** A write leaves every disjoint range alone. *)
Lemma rd_wr_ne off n off' bs m : (off' <= length m)%nat ->
  (off + n <= off' \/ off' + length bs <= off)%nat ->
  rd off n (wr off' bs m) = rd off n m.
Proof.
  intros Hl Hd. apply rd_ext. intros i Hi. rewrite lookup_wr by done.
  repeat case_decide; (done || lia).
Qed.

Lemma wr_wr_eq off bs bs' m : (off + length bs <= length m)%nat -> length bs = length bs' ->
  wr off bs (wr off bs' m) = wr off bs m.
Proof.
  intros Hl He. apply list_eq. intros i.
  rewrite !lookup_wr by (rewrite ?length_wr by lia; lia). repeat case_decide; (done || lia).
Qed.

(** Checked accesses: outside the block the behaviour is undefined. *)
Definition mem_read (off n : nat) (m : list byte) : res (list byte) :=
  if decide (off + n <= length m)%nat then Ok (rd off n m) else Err UndefinedBehaviour.
Definition mem_write (off : nat) (bs m : list byte) : res (list byte) :=
  if decide (off + length bs <= length m)%nat then Ok (wr off bs m) else Err UndefinedBehaviour.

Lemma mem_read_ok off n m : (off + n <= length m)%nat -> mem_read off n m = Ok (rd off n m).
Proof. intros. unfold mem_read. by rewrite decide_True. Qed.

Lemma mem_write_ok off bs m :
  (off + length bs <= length m)%nat -> mem_write off bs m = Ok (wr off bs m).
Proof. intros. unfold mem_write. by rewrite decide_True. Qed.

#[export] Hint Rewrite length_le_bytes : gsimpl.
#[export] Hint Resolve le_u_bytes le_s_bytes : gdb.
#[global] Arguments le_bytes : simpl never.
#[global] Arguments le_val : simpl never.

(** ** Automation for ranges of memory

    [lens] proves bounds on lengths, [ranges] moves reads through writes. *)
Ltac lens :=
  rewrite ?length_le_bytes, ?length_app, ?length_replicate;
  first [ lia | rewrite length_wr by lens; lens | rewrite length_rd by lens; lens ].
Ltac ranges :=
  repeat first [ rewrite rd_wr_ne by lens | rewrite rd_wr_le by lens | rewrite rd_wr_eq by lens ].
