(* ===== verification/Streams.v ===== *)
(** * Read and write streams

    [ReadStream] and [WriteStream] ([storage/serializer/read_stream.hpp],
    [write_stream.hpp]) as type classes with the laws the (de)serializer relies on,
    and the two implementations: [MemoryStream] and [FileStream]. *)
From S2P Require Import Prelude Bytes.

(** ** The interfaces *)
Class ReadStream (St : Type) := {
  ReadData : nat -> M St (list byte);
  (** what the client may rely on: the bytes not read yet *)
  rs_ok : St -> Prop;
  rs_remaining : St -> list byte;
  ReadData_enough s n : rs_ok s -> (n <= length (rs_remaining s))%nat ->
    exists s', ReadData n s = (Ok (take n (rs_remaining s)), s') /\
      rs_ok s' /\ rs_remaining s' = drop n (rs_remaining s);
  ReadData_short s n : rs_ok s -> (length (rs_remaining s) < n)%nat ->
    Z.of_nat n < 2 ^ 63 -> exists s', ReadData n s = (Err Exception, s')
}.

Class WriteStream (St : Type) := {
  WriteData : list byte -> M St unit;
  (** [ws_room s n]: the stream can still take [n] bytes;
      [ws_written s]: the bytes before the write position *)
  ws_room : St -> nat -> Prop;
  ws_written : St -> list byte;
  WriteData_ok s bs k : ws_room s (length bs + k) ->
    exists s', WriteData bs s = (Ok tt, s') /\
      ws_room s' k /\ ws_written s' = ws_written s ++ bs
}.

(** ** MemoryStream *)
Module MemoryStream.
Record t := mk {
  position_ : Z;          (* idx_t *)
  capacity_ : Z;          (* idx_t *)
  owns_data_ : bool;
  data_ : list byte       (* [capacity_] bytes *)
}.

(** The allocator hands out blocks with arbitrary contents: [malloc n] is the
    content of a fresh block of [n] bytes. *)
Class Allocator := {
  malloc : nat -> list byte;
  length_malloc n : length (malloc n) = n
}.

Section operations.
Context `{Allocator}.

(** [realloc] keeps the common prefix. *)
Definition realloc (p : list byte) (n : nat) : list byte :=
  take n p ++ malloc (n - length p).

Definition MemoryStream_capacity (capacity : Z) : t :=
  {| position_ := 0; capacity_ := capacity; owns_data_ := true;
     data_ := malloc (Z.to_nat capacity) |}.
Definition MemoryStream_buffer (buffer : list byte) (capacity : Z) : t :=
  {| position_ := 0; capacity_ := capacity; owns_data_ := false; data_ := buffer |}.

(** One round of the loop: [capacity_ *= 2; data_ = realloc(data_, capacity_)]. *)
Definition double_capacity (s : t) : t :=
  let capacity := uwrap 64 (capacity_ s * 2) in
  {| position_ := position_ s; capacity_ := capacity; owns_data_ := owns_data_ s;
     data_ := realloc (data_ s) (Z.to_nat capacity) |}.

(** The loop of [WriteData]; [None] is "still looping when the fuel ran out". *)
Fixpoint grow (fuel : nat) (write_size : Z) (s : t) : option (res unit * t) :=
  if uwrap 64 (position_ s + write_size) <=? capacity_ s then Some (Ok tt, s) else
  match fuel with
  | O => None
  | S fuel =>
    if owns_data_ s then grow fuel write_size (double_capacity s)
    else Some (Err Exception, s)
  end.

Definition write_after_grow (buffer : list byte) (s : t) : res unit * t :=
  match mem_write (Z.to_nat (position_ s)) buffer (data_ s) with
  | Ok d => (Ok tt, {| position_ := uwrap 64 (position_ s + Z.of_nat (length buffer));
                       capacity_ := capacity_ s; owns_data_ := owns_data_ s; data_ := d |})
  | Err e => (Err e, s)
  end.

Definition WriteData_fuel (fuel : nat) (buffer : list byte) (s : t) : option (res unit * t) :=
  match grow fuel (Z.of_nat (length buffer)) s with
  | None => None
  | Some (Err e, s) => Some (Err e, s)
  | Some (Ok _, s) => Some (write_after_grow buffer s)
  end.

(** Doubling a non-zero 64-bit capacity reaches any size in at most 64 rounds. *)
Definition WriteData (buffer : list byte) : M t unit := fun s =>
  default (Err UndefinedBehaviour, s) (WriteData_fuel 64 buffer s).

Definition ReadData (read_size : nat) : M t (list byte) := fun s =>
  if capacity_ s <? uwrap 64 (position_ s + Z.of_nat read_size) then (Err Exception, s) else
  match mem_read (Z.to_nat (position_ s)) read_size (data_ s) with
  | Ok bs => (Ok bs, {| position_ := uwrap 64 (position_ s + Z.of_nat read_size);
                        capacity_ := capacity_ s; owns_data_ := owns_data_ s;
                        data_ := data_ s |})
  | Err e => (Err e, s)
  end.

Definition Rewind (s : t) : t :=
  {| position_ := 0; capacity_ := capacity_ s; owns_data_ := owns_data_ s; data_ := data_ s |}.
Definition Release (s : t) : t :=
  {| position_ := position_ s; capacity_ := capacity_ s; owns_data_ := false; data_ := data_ s |}.
Definition GetPosition (s : t) : Z := position_ s.
Definition GetCapacity (s : t) : Z := capacity_ s.
Definition GetData (s : t) : list byte := data_ s.

(** Representation invariant. *)
Definition wf (s : t) : Prop :=
  0 <= position_ s <= capacity_ s /\ capacity_ s < 2 ^ 63 /\
  length (data_ s) = Z.to_nat (capacity_ s).

Definition written (s : t) : list byte := take (Z.to_nat (position_ s)) (data_ s).
Definition remaining (s : t) : list byte := drop (Z.to_nat (position_ s)) (data_ s).

Lemma length_realloc p n : length (realloc p n) = n.
Proof. unfold realloc. rewrite length_app, length_take, length_malloc. lia. Qed.

Lemma uwrap64 z : 0 <= z < 2 ^ 64 -> uwrap 64 z = z.
Proof. intros. by apply uwrap_id. Qed.

Lemma ReadData_enough s n : wf s -> (n <= length (remaining s))%nat ->
  exists s', ReadData n s = (Ok (take n (remaining s)), s') /\
    wf s' /\ remaining s' = drop n (remaining s).
Proof.
  intros (Hp & Hc & Hl) Hn. unfold remaining in *. rewrite length_drop in Hn.
  unfold ReadData. rewrite uwrap64 by width.
  destruct (Z.ltb_spec (capacity_ s) (position_ s + Z.of_nat n)); [lia|].
  rewrite mem_read_ok by lia. eexists; split; [done|]. unfold wf; cbn.
  split; [lia|]. rewrite drop_drop. f_equal. lia.
Qed.

Lemma ReadData_short s n : wf s -> (length (remaining s) < n)%nat -> Z.of_nat n < 2 ^ 63 ->
  ReadData n s = (Err Exception, s).
Proof.
  intros (Hp & Hc & Hl) Hn Hb. unfold remaining in *. rewrite length_drop in Hn.
  unfold ReadData. rewrite uwrap64 by width.
  destruct (Z.ltb_spec (capacity_ s) (position_ s + Z.of_nat n)); [done|lia].
Qed.

Lemma double_capacity_ok s : wf s -> capacity_ s < 2 ^ 62 ->
  wf (double_capacity s) /\ capacity_ (double_capacity s) = 2 * capacity_ s /\
  written (double_capacity s) = written s.
Proof.
  intros (Hp & Hc & Hl) Hb. unfold double_capacity, wf, written; cbn [position_ capacity_ data_].
  rewrite uwrap64, length_realloc by width. split_and!; try width.
  unfold realloc. rewrite (take_ge (data_ s)) by lia. by rewrite take_app_le by lia.
Qed.

(** The doubling loop: with a non-zero capacity, [k] rounds multiply it by [2^k]. *)
Lemma grow_enough fuel n s : wf s -> owns_data_ s = true -> 0 < capacity_ s -> 0 <= n ->
  position_ s + n < 2 ^ 62 -> position_ s + n <= capacity_ s * 2 ^ Z.of_nat fuel ->
  exists s', grow fuel n s = Some (Ok tt, s') /\ wf s' /\ owns_data_ s' = true /\
    0 < capacity_ s' /\ position_ s' = position_ s /\ position_ s + n <= capacity_ s' /\
    written s' = written s.
Proof.
  revert s. induction fuel as [|fuel IH]; intros s Hwf Ho Hc Hn Hb Hf;
    pose proof Hwf as (Hp & Hc' & Hl); cbn [grow]; rewrite uwrap64 by width;
    destruct (Z.leb_spec (position_ s + n) (capacity_ s)).
  - eexists; split; [done|]. unfold wf; split_and!; (done || lia).
  - cbn in Hf. lia.
  - eexists; split; [done|]. unfold wf; split_and!; (done || lia).
  - rewrite Ho. destruct (double_capacity_ok s) as (Hwf1 & Hc2 & Hw);
      [done|width|].
    rewrite Nat2Z.inj_succ, Z.pow_succ_r in Hf by lia.
    destruct (IH (double_capacity s)) as (s' & -> & ? & ? & ? & Hp' & Hr & Hw');
      rewrite ?Hc2; cbn [position_ owns_data_ double_capacity]; try done; try lia.
    exists s'. rewrite <- Hw, <- Hw'. split_and!; done.
Qed.

(** An owning stream of capacity 0 never gets room: the loop does not end. *)
Lemma grow_capacity_0 fuel n s : owns_data_ s = true -> capacity_ s = 0 ->
  0 < position_ s + n < 2 ^ 64 -> grow fuel n s = None.
Proof.
  revert s. induction fuel as [|fuel IH]; intros s Ho Hc Hn; cbn [grow];
    rewrite uwrap64, Hc by lia; (destruct (Z.leb_spec (position_ s + n) 0); [lia|]);
    [done|].
  rewrite Ho. apply IH; cbn [owns_data_ capacity_ position_ double_capacity];
    [done| |done]. by rewrite Hc.
Qed.

Definition room (s : t) (n : nat) : Prop :=
  wf s /\ position_ s + Z.of_nat n < 2 ^ 62 /\
  (if owns_data_ s then 0 < capacity_ s
   else position_ s + Z.of_nat n <= capacity_ s).

Lemma grow_room s n k : room s (n + k) ->
  exists s', grow 64 (Z.of_nat n) s = Some (Ok tt, s') /\ room s' (n + k) /\
    position_ s' = position_ s /\ position_ s + Z.of_nat n <= capacity_ s' /\
    written s' = written s.
Proof.
  intros (Hwf & Hb & Hr). destruct (owns_data_ s) eqn:Ho.
  - destruct (grow_enough 64 (Z.of_nat n) s) as (s' & Hg & Hwf' & Ho' & Hc & Hp & Hcap & Hw);
      try done; try (destruct Hwf; width).
    exists s'. unfold room. rewrite Ho', Hp. split_and!; try done; lia.
  - exists s. cbn [grow]. destruct Hwf as (Hp & Hc & Hl).
    rewrite uwrap64 by width.
    destruct (Z.leb_spec (position_ s + Z.of_nat n) (capacity_ s)); [|lia].
    unfold room, wf. rewrite Ho. split_and!; done || lia.
Qed.

Lemma WriteData_ok s bs k : room s (length bs + k) ->
  exists s', WriteData bs s = (Ok tt, s') /\ room s' k /\ written s' = written s ++ bs.
Proof.
  intros Hr. destruct (grow_room s (length bs) k Hr) as (s1 & Hg & Hr1 & Hp & Hcap & Hw).
  unfold WriteData, WriteData_fuel. rewrite Hg. cbn [default from_option].
  destruct Hr1 as ((Hp1 & Hc1 & Hl1) & Hb1 & Hr1).
  unfold write_after_grow. rewrite mem_write_ok by lia.
  eexists; split; [done|]. rewrite uwrap64 by width.
  unfold room, wf, written in *; cbn.
  rewrite length_wr by lia. split_and!; try lia; [by destruct (owns_data_ s1); lia|].
  rewrite <- Hw. unfold wr. rewrite app_assoc, take_app_le
    by (rewrite length_app, length_take; lia).
  rewrite take_ge by (rewrite length_app, length_take; lia). by rewrite Hp.
Qed.

Lemma grow_more fuel fuel' n s r : grow fuel n s = Some r -> (fuel <= fuel')%nat -> grow fuel' n s = Some r.
Proof.
  revert fuel' s. induction fuel as [|fuel IH]; intros [|fuel'] s Hg Hle; cbn [grow] in *;
    destruct (uwrap 64 (position_ s + n) <=? capacity_ s); try done; [lia|].
  destruct (owns_data_ s); [|done]. apply IH; [done|lia].
Qed.

(** C29: the loop of [MemoryStream::WriteData] ends, within 64 rounds, in all cases but one: an
    owning stream of capacity 0 doubles 0 for ever.  When it ends, the bytes are written if the
    stream owns its memory or had room, and the call throws otherwise. *)
Theorem WriteData_terminates s bs : wf s -> position_ s + Z.of_nat (length bs) < 2 ^ 62 ->
  if decide (owns_data_ s = true /\ capacity_ s = 0 /\ bs <> [])
  then forall fuel, WriteData_fuel fuel bs s = None
  else (forall fuel, (64 <= fuel)%nat -> WriteData_fuel fuel bs s = Some (WriteData bs s)) /\
    if owns_data_ s || (position_ s + Z.of_nat (length bs) <=? capacity_ s)
    then (WriteData bs s).1 = Ok tt /\ written (WriteData bs s).2 = written s ++ bs
    else WriteData bs s = (Err Exception, s).
Proof.
  intros Hwf Hb. pose proof Hwf as (Hp & Hc & Hl). case_decide as Hd.
  - destruct Hd as (Ho & Hc0 & Hbs). intros fuel. unfold WriteData_fuel. rewrite grow_capacity_0; [done..|].
    destruct bs; [done|]. cbn [length] in *. width.
  - assert (forall r, WriteData_fuel 64 bs s = Some r -> (forall fuel, (64 <= fuel)%nat -> WriteData_fuel fuel bs s = Some (WriteData bs s)) /\
      WriteData bs s = r) as Hmore.
    { intros r Hr. unfold WriteData. rewrite Hr. split; [|done]. intros fuel Hf. unfold WriteData_fuel in *.
      destruct (grow 64 (Z.of_nat (length bs)) s) as [g|] eqn:Hg; [|done]. by rewrite (grow_more _ _ _ _ _ Hg Hf). }
    assert (room s (length bs + 0) -> (forall fuel, (64 <= fuel)%nat -> WriteData_fuel fuel bs s = Some (WriteData bs s)) /\
      (WriteData bs s).1 = Ok tt /\ written (WriteData bs s).2 = written s ++ bs) as Hroom.
    { intros Hr. destruct (WriteData_ok s bs 0 Hr) as (s' & E & _ & Hw). destruct (grow_room s (length bs) 0 Hr) as (s1 & Hg & _).
      destruct (Hmore (write_after_grow bs s1)) as [Hall _]; [unfold WriteData_fuel; by rewrite Hg|].
      split; [exact Hall|]. by rewrite E. }
    destruct (owns_data_ s) eqn:Ho; cbn [orb].
    + destruct (decide (capacity_ s = 0)) as [Hc0|Hc0].
      * assert (bs = []) as -> by (destruct bs; [done|by destruct Hd]).
        destruct (Hmore (Ok tt, s)) as [Hall E]; [|split; [exact Hall|rewrite E; by rewrite app_nil_r]].
        assert (data_ s = []) as Hnil by (apply nil_length_inv; lia). assert (position_ s = 0) as Hp0 by lia.
        destruct s as [pos cap o d]. cbn in *. subst. done.
      * apply Hroom. split; [exact Hwf|]. rewrite Ho. lia.
    + destruct (Z.leb_spec (position_ s + Z.of_nat (length bs)) (capacity_ s)) as [Hle|Hlt].
      * apply Hroom. split; [exact Hwf|]. rewrite Ho. lia.
      * apply Hmore. unfold WriteData_fuel. cbn [grow]. rewrite uwrap64 by width.
        destruct (Z.leb_spec (position_ s + Z.of_nat (length bs)) (capacity_ s)); [lia|]. by rewrite Ho.
Qed.

#[export] Instance MemoryStream_ReadStream : ReadStream t := {
  ReadData := ReadData; rs_ok := wf; rs_remaining := remaining;
  ReadData_enough := ReadData_enough;
  ReadData_short s n Hs Hn Hb := ex_intro _ s (ReadData_short s n Hs Hn Hb)
}.
#[export] Instance MemoryStream_WriteStream : WriteStream t := {
  WriteData := WriteData; ws_room := room; ws_written := written;
  WriteData_ok := WriteData_ok
}.
End operations.

Definition zeroed : Allocator.
Proof. refine {| malloc n := replicate n x00 |}. intros n. apply length_replicate. Defined.
#[local] Existing Instance zeroed.

Lemma WriteData_terminates_witness :
  WriteData_fuel 1000 [x01] (MemoryStream_capacity 0) = None /\
  (WriteData [x01; x02; x03; x04; x05] (MemoryStream_capacity 1)).1 = Ok tt.
Proof.
  split.
  - pose proof (WriteData_terminates (MemoryStream_capacity 0) [x01] ltac:(split; [done|split; done]) ltac:(done)) as Hw.
    rewrite decide_True in Hw by done. apply Hw.
  - pose proof (WriteData_terminates (MemoryStream_capacity 1) [x01; x02; x03; x04; x05] ltac:(split; [done|split; done]) ltac:(done)) as Hw.
    rewrite decide_False in Hw by by intros (_ & ? & _). cbn [orb owns_data_ MemoryStream_capacity] in Hw. apply Hw.
Defined.
End MemoryStream.

(** ** FileStream

    A [std::fstream] over one file: a single position for reading and writing, and
    the error flags that make every operation fail until [clear]. *)
Module FileStream.
Record t := mk {
  content : list byte;    (* what the file holds *)
  pos : nat;              (* tellg = tellp *)
  failed : bool;          (* failbit, badbit or eofbit is set *)
  owns_file_ : bool
}.

(** Opening a path: [existing] is what the file holds, if there is one;
    [trunc] tells whether [std::ios::trunc] is in the mode. *)
Definition FileStream (existing : option (list byte)) (trunc : bool) : res t :=
  match existing, trunc with
  | _, true => Ok {| content := []; pos := 0; failed := false; owns_file_ := true |}
  | Some c, false => Ok {| content := c; pos := 0; failed := false; owns_file_ := true |}
  | None, false => Err Exception
  end.

(** [fstream::write] overwrites from the position and extends the file. *)
Definition overwrite (off : nat) (bs c : list byte) : list byte :=
  take off c ++ bs ++ drop (off + length bs) c.

Definition WriteData (buffer : list byte) : M t unit := fun s =>
  if failed s then (Err Exception, s)
  else (Ok tt, {| content := overwrite (pos s) buffer (content s);
                  pos := pos s + length buffer;
                  failed := false; owns_file_ := owns_file_ s |}).

Definition ReadData (read_size : nat) : M t (list byte) := fun s =>
  if failed s then (Err Exception, s)
  else if decide (pos s + read_size <= length (content s))%nat then
    (Ok (rd (pos s) read_size (content s)),
     {| content := content s; pos := pos s + read_size;
        failed := false; owns_file_ := owns_file_ s |})
  else (Err Exception,
        {| content := content s; pos := Nat.max (pos s) (length (content s));
           failed := true; owns_file_ := owns_file_ s |}).

Definition Rewind (s : t) : t :=
  {| content := content s; pos := 0; failed := false; owns_file_ := owns_file_ s |}.
Definition Release (s : t) : t :=
  {| content := content s; pos := pos s; failed := failed s; owns_file_ := false |}.
Definition GetPosition (s : t) : Z := if failed s then -1 else Z.of_nat (pos s).

Definition wf (s : t) : Prop := failed s = false /\ (pos s <= length (content s))%nat.
Definition written (s : t) : list byte := take (pos s) (content s).
Definition remaining (s : t) : list byte := drop (pos s) (content s).

Lemma FileReadData_enough s n : wf s -> (n <= length (remaining s))%nat ->
  exists s', ReadData n s = (Ok (take n (remaining s)), s') /\
    wf s' /\ remaining s' = drop n (remaining s).
Proof.
  intros (Hf & Hp) Hn. unfold remaining in *. rewrite length_drop in Hn.
  unfold ReadData. rewrite Hf, decide_True by lia.
  eexists; split; [done|]. unfold wf; cbn. rewrite drop_drop. split; [split; [done|lia]|done].
Qed.

Lemma FileReadData_short s n : wf s -> (length (remaining s) < n)%nat -> Z.of_nat n < 2 ^ 63 ->
  exists s', ReadData n s = (Err Exception, s').
Proof.
  intros (Hf & Hp) Hn _. unfold remaining in *. rewrite length_drop in Hn.
  unfold ReadData. rewrite Hf, decide_False by lia. eauto.
Qed.

Lemma FileWriteData_ok s bs (k : nat) : wf s ->
  exists s', WriteData bs s = (Ok tt, s') /\ wf s' /\ written s' = written s ++ bs.
Proof.
  intros (Hf & Hp). unfold WriteData. rewrite Hf. eexists; split; [done|].
  unfold wf, written, overwrite; cbn. rewrite !length_app, length_take, length_drop.
  split; [split; [done|lia]|].
  rewrite app_assoc, take_app_le by (rewrite length_app, length_take; lia).
  apply take_ge. rewrite length_app, length_take. lia.
Qed.

(** What lies beyond the write position stays in the file. *)
Lemma WriteData_tail s bs s' : WriteData bs s = (Ok tt, s') ->
  remaining s' = drop (length bs) (remaining s) \/ (length (content s) < pos s)%nat.
Proof.
  unfold WriteData. destruct (failed s); [done|]. intros [= <-].
  destruct (decide (pos s <= length (content s))%nat); [left|right; lia].
  unfold remaining, overwrite; cbn.
  rewrite app_assoc, drop_app_length'
    by (rewrite length_app, length_take; lia).
  rewrite drop_drop. f_equal.
Qed.

#[export] Instance FileStream_ReadStream : ReadStream t := {
  ReadData := ReadData; rs_ok := wf; rs_remaining := remaining;
  ReadData_enough := FileReadData_enough; ReadData_short := FileReadData_short
}.
#[export] Instance FileStream_WriteStream : WriteStream t := {
  WriteData := WriteData; ws_room s (_ : nat) := wf s; ws_written := written;
  WriteData_ok s bs (k : nat) := FileWriteData_ok s bs k
}.
End FileStream.
#[export] Existing Instance FileStream.FileStream_ReadStream.
#[export] Existing Instance FileStream.FileStream_WriteStream.
#[export] Existing Instance MemoryStream.MemoryStream_ReadStream.
#[export] Existing Instance MemoryStream.MemoryStream_WriteStream.
