(* ===== verification/Serializer.v ===== *)
(** * Binary serializer and deserializer

    [storage/serializer/serializer.hpp], [deserializer.hpp] and their binary
    implementations.  The overloads of [WriteValue] and [Read] selected by the C++
    type become values of type [codec]; the templates over element types become
    functions from codecs to codecs.  The writer side produces the bytes handed to
    the stream, in order; the reader side runs on any [ReadStream]. *)
From S2P Require Import Prelude Bytes Streams.

Definition MESSAGE_TERMINATOR_FIELD_ID : Z := 65535.

(** ** Writing

    A writer is the bytes it passes to [WriteData], or the failure it raises. *)
Definition W : Type := res (list byte).

Definition seqW (a b : W) : W := x ← a; y ← b; mret (x ++ y).
Definition nopW : W := Ok [].
Declare Scope writer_scope.
Delimit Scope writer_scope with W.
Infix "+++" := seqW (at level 60, right associativity) : writer_scope.
Open Scope writer_scope.

(** [BinarySerializer::Write<T>] for an integer of [n] bytes. *)
Definition Write (n : nat) (element : Z) : W := Ok (le_bytes n element).

(** The bytes reach the stream through one [WriteData] per [Write]. *)
Definition run_writer {St} `{WriteStream St} (w : W) : M St unit :=
  bs ← lift w; WriteData bs.

Module BinarySerializer.
Definition OnPropertyBegin (field_id : Z) : W :=
  _ ← assertion (negb (field_id =? MESSAGE_TERMINATOR_FIELD_ID)); Write 2 field_id.
Definition OnPropertyEnd : W := nopW.
Definition OnOptionalPropertyBegin (field_id : Z) (present : bool) : W :=
  if present then OnPropertyBegin field_id else nopW.
Definition OnOptionalPropertyEnd (present : bool) : W := nopW.
Definition OnObjectBegin : W := nopW.
Definition OnObjectEnd : W := Write 2 MESSAGE_TERMINATOR_FIELD_ID.
Definition OnListBegin (count : Z) : W := Write 8 (uwrap 64 count).
Definition OnListEnd : W := nopW.
Definition WriteBool (value : bool) : W := Write 1 (Z.b2z value).
Definition OnNullableBegin (present : bool) : W := WriteBool present.
Definition OnNullableEnd : W := nopW.
Definition WriteString (value : string) : W :=
  let bytes := String.list_byte_of_string value in
  let len := uwrap 32 (Z.of_nat (length bytes)) in
  Write 4 len +++ Ok (take (Z.to_nat len) bytes).
Definition WriteDataPtr (ptr : list byte) (count : Z) : W :=
  Write 8 (uwrap 64 count) +++ Ok (take (Z.to_nat count) ptr).
End BinarySerializer.

(** ** Reading *)
Record deser (St : Type) := mk_deser {
  stream_ : St;
  nesting_level_ : Z;
  has_buffered_field_ : bool;
  buffered_field_ : Z
}.
Arguments mk_deser {St}. Arguments stream_ {St}. Arguments nesting_level_ {St}.
Arguments has_buffered_field_ {St}. Arguments buffered_field_ {St}.

Definition new_deserializer {St} (stream : St) : deser St :=
  {| stream_ := stream; nesting_level_ := 0; has_buffered_field_ := false; buffered_field_ := 0 |}.

Definition with_stream {St} (s : deser St) (st : St) : deser St :=
  {| stream_ := st; nesting_level_ := nesting_level_ s;
     has_buffered_field_ := has_buffered_field_ s; buffered_field_ := buffered_field_ s |}.
Definition with_buffer {St} (s : deser St) (has : bool) (field : Z) : deser St :=
  {| stream_ := stream_ s; nesting_level_ := nesting_level_ s;
     has_buffered_field_ := has; buffered_field_ := field |}.
Definition with_level {St} (s : deser St) (level : Z) : deser St :=
  {| stream_ := stream_ s; nesting_level_ := level;
     has_buffered_field_ := has_buffered_field_ s; buffered_field_ := buffered_field_ s |}.

Module BinaryDeserializer.
Section reader.
Context {St} `{ReadStream St}.
Abbreviation D := (M (deser St)).

Definition ReadData (n : nat) : D (list byte) := fun s =>
  match Streams.ReadData n (stream_ s) with
  | (r, st) => (r, with_stream s st)
  end.
(** [ReadPrimitive<T>] for an unsigned, resp. signed, integer of [n] bytes. *)
Definition ReadUnsigned (n : nat) : D Z := bs ← ReadData n; mret (le_u n bs).
Definition ReadSigned (n : nat) : D Z := bs ← ReadData n; mret (le_s n bs).

Definition PeekField : D Z :=
  s ← get_state;
  (if has_buffered_field_ s then mret tt
   else f ← ReadUnsigned 2; modify (fun s => with_buffer s true f));;
  s ← get_state; mret (buffered_field_ s).
Definition ConsumeField : D unit :=
  s ← get_state;
  if has_buffered_field_ s then modify (fun s => with_buffer s false (buffered_field_ s))
  else f ← ReadUnsigned 2; modify (fun s => with_buffer s (has_buffered_field_ s) f).
Definition NextField : D Z :=
  s ← get_state;
  if has_buffered_field_ s then
    modify (fun s => with_buffer s false (buffered_field_ s));; mret (buffered_field_ s)
  else ReadUnsigned 2.

Definition OnPropertyBegin (field_id : Z) : D unit :=
  field ← NextField;
  if field =? field_id then mret tt else throw SerializationException.
Definition OnPropertyEnd : D unit := mret tt.
Definition OnOptionalPropertyBegin (field_id : Z) : D bool :=
  next_field ← PeekField;
  let present := next_field =? field_id in
  (if present then ConsumeField else mret tt);; mret present.
Definition OnOptionalPropertyEnd (present : bool) : D unit := mret tt.
Definition OnObjectBegin : D unit :=
  modify (fun s => with_level s (uwrap 64 (nesting_level_ s + 1))).
Definition OnObjectEnd : D unit :=
  next_field ← NextField;
  if next_field =? MESSAGE_TERMINATOR_FIELD_ID then
    modify (fun s => with_level s (uwrap 64 (nesting_level_ s - 1)))
  else throw SerializationException.
Definition OnListBegin : D Z := ReadUnsigned 8.
Definition OnListEnd : D unit := mret tt.
Definition ReadBool : D bool := v ← ReadUnsigned 1; mret (negb (v =? 0)).
Definition OnNullableBegin : D bool := ReadBool.
Definition OnNullableEnd : D unit := mret tt.
Definition ReadString : D string :=
  len ← ReadUnsigned 4;
  if len =? 0 then mret ""%string
  else buffer ← ReadData (Z.to_nat len); mret (String.string_of_list_byte buffer).
Definition ReadDataPtr (count : Z) : D (list byte) :=
  len ← ReadUnsigned 8;
  if len =? count then ReadData (Z.to_nat count) else throw SerializationException.
End reader.
End BinaryDeserializer.
