(* ===== verification/Codec.v ===== *)
(** * Codecs: the typed layer of the serializer

    [Serializer::WriteProperty]/[WriteValue] and [Deserializer::ReadProperty]/[Read]
    for every type the program serializes, and the round-trip logic: [serial w d x]
    says that writer [w] succeeds and that reader [d], run where those bytes start,
    returns [x] and stops exactly behind them. *)
From S2P Require Import Prelude Bytes Streams Serializer.
Import BinaryDeserializer BinarySerializer.

Record codec (St A : Type) := mk_codec {
  WriteValue : A -> W;
  Read : M (deser St) A
}.
Arguments mk_codec {St A}. Arguments WriteValue {St A}. Arguments Read {St A}.

Section codecs.
Context {St : Type} `{ReadStream St}.
Abbreviation D := (M (deser St)).
Abbreviation codec A := (codec St A).

(** ** Primitive types *)
Definition unsigned_codec (n : nat) : codec Z :=
  {| WriteValue := Write n; Read := ReadUnsigned n |}.
Definition signed_codec (n : nat) : codec Z :=
  {| WriteValue := Write n; Read := ReadSigned n |}.
Definition uint8_c : codec Z := unsigned_codec 1.
Definition uint16_c : codec Z := unsigned_codec 2.
Definition uint32_c : codec Z := unsigned_codec 4.
Definition uint64_c : codec Z := unsigned_codec 8.
Definition int8_c : codec Z := signed_codec 1.
Definition int16_c : codec Z := signed_codec 2.
Definition int32_c : codec Z := signed_codec 4.
Definition int64_c : codec Z := signed_codec 8.
Definition bool_c : codec bool := {| WriteValue := WriteBool; Read := ReadBool |}.
Definition string_c : codec string := {| WriteValue := WriteString; Read := ReadString |}.

(** Enumerations go through their underlying type: [to] and [from] are the casts. *)
Definition enum_c {A} (c : codec Z) (to : A -> Z) (from : Z -> A) : codec A :=
  {| WriteValue x := WriteValue c (to x); Read := z ← Read c; mret (from z) |}.

(** ** Properties *)
Definition WriteProperty {A} (field_id : Z) (c : codec A) (value : A) : W :=
  OnPropertyBegin field_id +++ WriteValue c value +++ OnPropertyEnd.
Definition ReadProperty {A} (field_id : Z) (c : codec A) : D A :=
  BinaryDeserializer.OnPropertyBegin field_id;;
  ret ← Read c;
  BinaryDeserializer.OnPropertyEnd;;
  mret ret.

(** [is_default] is the comparison [value == default_value]. *)
Definition WritePropertyWithDefault {A} (serialize_default_values : bool) (field_id : Z)
    (c : codec A) (value : A) (is_default : bool) : W :=
  if negb serialize_default_values && is_default then
    OnOptionalPropertyBegin field_id false +++ OnOptionalPropertyEnd false
  else
    OnOptionalPropertyBegin field_id true +++ WriteValue c value +++ OnOptionalPropertyEnd true.
Definition ReadPropertyWithDefault {A} (field_id : Z) (c : codec A) (default_value : A) : D A :=
  present ← BinaryDeserializer.OnOptionalPropertyBegin field_id;
  if negb present then
    BinaryDeserializer.OnOptionalPropertyEnd false;; mret default_value
  else
    ret ← Read c;
    BinaryDeserializer.OnOptionalPropertyEnd true;;
    mret ret.

(** ** Classes with [Serialize] and [Deserialize] *)
Definition object_c {A} (Serialize : A -> W) (Deserialize : D A) : codec A :=
  {| WriteValue value := OnObjectBegin +++ Serialize value +++ OnObjectEnd;
     Read := BinaryDeserializer.OnObjectBegin;;
             val ← Deserialize;
             BinaryDeserializer.OnObjectEnd;;
             mret val |}.

(** ** Pointers: [unique_ptr] and [shared_ptr] *)
Definition WritePtr {A} (write : A -> W) (ptr : option A) : W :=
  match ptr with
  | None => BinarySerializer.OnNullableBegin false +++ BinarySerializer.OnNullableEnd
  | Some a => BinarySerializer.OnNullableBegin true +++ write a +++ BinarySerializer.OnNullableEnd
  end.
Definition ReadPtr {A} (read : D A) : D (option A) :=
  is_present ← BinaryDeserializer.OnNullableBegin;
  ptr ← (if is_present : bool then
           BinaryDeserializer.OnObjectBegin;;
           v ← read;
           BinaryDeserializer.OnObjectEnd;;
           mret (Some v)
         else mret None);
  BinaryDeserializer.OnNullableEnd;;
  mret ptr.
(** element type with a [Deserialize] method *)
Definition ptr_c {A} (Serialize : A -> W) (Deserialize : D A) : codec (option A) :=
  {| WriteValue := WritePtr (WriteValue (object_c Serialize Deserialize));
     Read := ReadPtr Deserialize |}.
(** element type without one *)
Definition ptr_plain_c {A} (c : codec A) : codec (option A) :=
  {| WriteValue := WritePtr (WriteValue c); Read := ReadPtr (Read c) |}.

(** ** Vectors *)
Fixpoint write_items {A} (c : codec A) (items : list A) : W :=
  match items with
  | [] => nopW
  | x :: items => WriteValue c x +++ write_items c items
  end.
Fixpoint read_items {A} (c : codec A) (size : nat) : D (list A) :=
  match size with
  | O => mret []
  | S size => x ← Read c; items ← read_items c size; mret (x :: items)
  end.
Definition vector_c {A} (c : codec A) : codec (list A) :=
  {| WriteValue vec :=
       BinarySerializer.OnListBegin (Z.of_nat (length vec)) +++ write_items c vec +++
       BinarySerializer.OnListEnd;
     Read := size ← BinaryDeserializer.OnListBegin;
             vec ← read_items c (Z.to_nat size);
             BinaryDeserializer.OnListEnd;;
             mret vec |}.

(** ** Pairs (written only) and map entries *)
Definition WritePair {A B} (ca : codec A) (cb : codec B) (p : A * B) : W :=
  OnObjectBegin +++ WriteProperty 0 ca p.1 +++ WriteProperty 1 cb p.2 +++ OnObjectEnd.
Definition ReadEntry {A B} (ca : codec A) (cb : codec B) : D (A * B) :=
  BinaryDeserializer.OnObjectBegin;;
  key ← ReadProperty 0 ca;
  value ← ReadProperty 1 cb;
  BinaryDeserializer.OnObjectEnd;;
  mret (key, value).
Definition entry_c {A B} (ca : codec A) (cb : codec B) : codec (A * B) :=
  {| WriteValue := WritePair ca cb; Read := ReadEntry ca cb |}.

(** ** Maps: [map[key] = value] for every entry read, in order *)
Definition insert_entries `{Countable K} {V} (m : gmap K V) (l : list (K * V)) : gmap K V :=
  foldl (fun m p => <[p.1 := p.2]> m) m l.
Definition map_c `{Countable K} {V} `{!HashOrder K V} (ck : codec K) (cv : codec V) :
    codec (gmap K V) :=
  {| WriteValue map :=
       BinarySerializer.OnListBegin (Z.of_nat (size map)) +++
       write_items (entry_c ck cv) (iteration map) +++ BinarySerializer.OnListEnd;
     Read := size ← BinaryDeserializer.OnListBegin;
             l ← read_items (entry_c ck cv) (Z.to_nat size);
             BinaryDeserializer.OnListEnd;;
             mret (insert_entries ∅ l) |}.

(** ** Whole messages *)
Definition Serialize_root {A} (Serialize : A -> W) (value : A) : W :=
  OnObjectBegin +++ Serialize value +++ OnObjectEnd.
Definition DeserializeRaw {A} (Deserialize : D A) : D A :=
  BinaryDeserializer.OnObjectBegin;;
  result ← Deserialize;
  BinaryDeserializer.OnObjectEnd;;
  s ← get_state;
  assert_that (nesting_level_ s =? 0);;
  mret result.
End codecs.
