(* ===== verification/CodecFacts.v ===== *)
(** * Round trips of the codecs

    [ready s lvl rest]: the deserializer [s] stands between two values, with [rest]
    still to come; [at_field s lvl rest]: it stands before a field id, which may
    already sit in the one-field look-ahead buffer.  [serial] (for fields) and
    [serial_val] (for values) relate a writer, a reader and the value; the lemmas
    below compose them along the structure of the classes that are serialized. *)
From S2P Require Import Prelude Bytes Streams Serializer Codec.
Import BinaryDeserializer BinarySerializer.

Section logic.
Context {St : Type} `{ReadStream St}.
Abbreviation D := (M (deser St)).
Abbreviation codec A := (codec St A).

Definition ready (s : deser St) (lvl : Z) (rest : list byte) : Prop :=
  rs_ok (stream_ s) /\ nesting_level_ s = uwrap 64 lvl /\
  has_buffered_field_ s = false /\ rs_remaining (stream_ s) = rest.

Definition at_field (s : deser St) (lvl : Z) (rest : list byte) : Prop :=
  rs_ok (stream_ s) /\ nesting_level_ s = uwrap 64 lvl /\
  (if has_buffered_field_ s then
     in_u 16 (buffered_field_ s) /\
     rest = le_bytes 2 (buffered_field_ s) ++ rs_remaining (stream_ s)
   else rs_remaining (stream_ s) = rest).

Definition reads {A} (d : D A) (bs : list byte) (x : A) : Prop :=
  forall s lvl rest, ready s lvl (bs ++ rest) ->
    exists s', d s = (Ok x, s') /\ ready s' lvl rest.
Definition reads_fields {A} (d : D A) (bs : list byte) (x : A) : Prop :=
  forall s lvl rest, at_field s lvl (bs ++ rest) ->
    exists s', d s = (Ok x, s') /\ at_field s' lvl rest.

Definition serial_val {A} (w : W) (d : D A) (x : A) : Prop :=
  exists bs, w = Ok bs /\ reads d bs x.
Definition serial {A} (w : W) (d : D A) (x : A) : Prop :=
  exists bs, w = Ok bs /\ reads_fields d bs x.

Lemma ready_at_field s lvl rest : ready s lvl rest -> at_field s lvl rest.
Proof. intros (? & ? & Hb & ?). unfold at_field. rewrite Hb. auto. Qed.

(** *** Raw reads *)
Lemma ReadData_spec s lvl bs rest : ready s lvl (bs ++ rest) ->
  exists s', ReadData (length bs) s = (Ok bs, s') /\ ready s' lvl rest.
Proof.
  intros (Hok & Hn & Hb & Hr).
  destruct (ReadData_enough (stream_ s) (length bs)) as (st & Hd & Hok' & Hr'); [done| |].
  { rewrite Hr, length_app. lia. }
  rewrite Hr in Hd, Hr'. rewrite take_app_length in Hd. rewrite drop_app_length in Hr'.
  unfold ReadData. rewrite Hd. eexists; split; [done|]. by split_and!.
Qed.

Lemma ReadData_reads n bs : length bs = n -> reads (ReadData n) bs bs.
Proof. intros <- s lvl rest. apply ReadData_spec. Qed.

Lemma reads_bind {A B} (d : D A) (f : A -> D B) bs1 bs2 x y :
  reads d bs1 x -> reads (f x) bs2 y -> reads (d ≫= f) (bs1 ++ bs2) y.
Proof.
  intros H1 H2 s lvl rest. rewrite <- app_assoc. intros Hs.
  destruct (H1 _ _ _ Hs) as (s1 & E1 & Hs1). rewrite (bind_ok _ _ _ _ _ E1). eauto.
Qed.

Lemma reads_ret {A} (x : A) : reads (mret x) [] x.
Proof. intros s lvl rest Hs. by exists s. Qed.

Lemma reads_map {A B} (d : D A) (f : A -> B) bs x y :
  reads d bs x -> f x = y -> reads (a ← d; mret (f a)) bs y.
Proof.
  intros Hd <-. rewrite <- (app_nil_r bs). eapply reads_bind; [done|]. apply reads_ret.
Qed.

Lemma ReadUnsigned_spec n z : in_u (8 * Z.of_nat n) z -> reads (ReadUnsigned n) (le_bytes n z) z.
Proof.
  intros Hz. apply reads_map with (x := le_bytes n z); [|by apply le_u_bytes].
  by apply ReadData_reads, length_le_bytes.
Qed.

Lemma ReadSigned_spec n z : (0 < n)%nat -> in_s (8 * Z.of_nat n) z ->
  reads (ReadSigned n) (le_bytes n z) z.
Proof.
  intros Hn Hz. apply reads_map with (x := le_bytes n z); [|by apply le_s_bytes].
  by apply ReadData_reads, length_le_bytes.
Qed.

(** *** Field ids *)
Lemma le_bytes_inj n z z' : in_u (8 * Z.of_nat n) z -> in_u (8 * Z.of_nat n) z' ->
  le_bytes n z = le_bytes n z' -> z = z'.
Proof. intros Hz Hz' E. apply (f_equal (le_u n)) in E. by rewrite !le_u_bytes in E. Qed.

Lemma NextField_spec s lvl f rest : in_u 16 f -> at_field s lvl (le_bytes 2 f ++ rest) ->
  exists s', NextField s = (Ok f, s') /\ ready s' lvl rest.
Proof.
  intros Hf (Hok & Hn & Hb). unfold NextField.
  change (get_state ≫= ?k) with (k s) || rewrite (bind_ok get_state _ s s s) by done.
  destruct (has_buffered_field_ s) eqn:E.
  - destruct Hb as [Hb Hr].
    apply app_inj_1 in Hr as [Hr1 Hr2]; [|by rewrite !length_le_bytes].
    apply le_bytes_inj in Hr1; [|done..].
    eexists; split; [cbn; rewrite <- Hr1; done|]. unfold ready; cbn. by subst.
  - apply (ReadUnsigned_spec 2 f); [done|]. by split_and!.
Qed.

Lemma OnPropertyBegin_spec s lvl id rest :
  in_u 16 id -> at_field s lvl (le_bytes 2 id ++ rest) ->
  exists s', BinaryDeserializer.OnPropertyBegin id s = (Ok tt, s') /\ ready s' lvl rest.
Proof.
  intros Hid Hs. destruct (NextField_spec _ _ _ _ Hid Hs) as (s' & E & Hs').
  exists s'. split; [|done]. unfold BinaryDeserializer.OnPropertyBegin.
  by rewrite (bind_ok _ _ _ _ _ E), Z.eqb_refl.
Qed.

(** A field id other than the expected one is an error, whatever was buffered. *)
Lemma OnPropertyBegin_mismatch s lvl id id' rest :
  in_u 16 id' -> id <> id' -> at_field s lvl (le_bytes 2 id' ++ rest) ->
  exists s', BinaryDeserializer.OnPropertyBegin id s = (Err SerializationException, s').
Proof.
  intros Hid Hne Hs. destruct (NextField_spec _ _ _ _ Hid Hs) as (s' & E & Hs').
  exists s'. unfold BinaryDeserializer.OnPropertyBegin.
  rewrite (bind_ok _ _ _ _ _ E). by destruct (Z.eqb_spec id' id).
Qed.

Lemma uwrap_add_l w a b : uwrap w (uwrap w a + b) = uwrap w (a + b).
Proof. unfold uwrap. apply Zplus_mod_idemp_l. Qed.

Lemma OnObjectBegin_spec s lvl rest : ready s lvl rest ->
  exists s', BinaryDeserializer.OnObjectBegin s = (Ok tt, s') /\ ready s' (lvl + 1) rest.
Proof.
  intros (? & Hn & ? & ?). eexists; split; [done|].
  unfold ready; cbn. rewrite Hn, uwrap_add_l. auto.
Qed.

Lemma OnObjectEnd_spec s lvl rest :
  at_field s (lvl + 1) (le_bytes 2 MESSAGE_TERMINATOR_FIELD_ID ++ rest) ->
  exists s', BinaryDeserializer.OnObjectEnd s = (Ok tt, s') /\ ready s' lvl rest.
Proof.
  intros Hs. destruct (NextField_spec s (lvl + 1) MESSAGE_TERMINATOR_FIELD_ID rest)
    as (s' & E & Hs'); [done|done|].
  unfold BinaryDeserializer.OnObjectEnd. rewrite (bind_ok _ _ _ _ _ E), Z.eqb_refl.
  eexists; split; [done|]. destruct Hs' as (? & Hn & ? & ?).
  unfold ready; cbn. rewrite Hn. unfold Z.sub. rewrite uwrap_add_l.
  split_and!; try done. f_equal. lia.
Qed.

(** *** Composition *)
Lemma serial_bind {A B} (w1 w2 : W) (d : D A) (f : A -> D B) x y :
  serial w1 d x -> serial w2 (f x) y -> serial (w1 +++ w2) (d ≫= f) y.
Proof.
  intros (bs1 & -> & H1) (bs2 & -> & H2). exists (bs1 ++ bs2). split; [done|].
  intros s lvl rest. rewrite <- app_assoc. intros Hs.
  destruct (H1 _ _ _ Hs) as (s1 & E1 & Hs1). rewrite (bind_ok _ _ _ _ _ E1). eauto.
Qed.

Lemma serial_map {A B} (w : W) (d : D A) (f : A -> B) x y :
  serial w d x -> f x = y -> serial w (a ← d; mret (f a)) y.
Proof.
  intros (bs & -> & Hd) <-. exists bs. split; [done|]. intros s lvl rest Hs.
  destruct (Hd _ _ _ Hs) as (s1 & E1 & Hs1). rewrite (bind_ok _ _ _ _ _ E1). by exists s1.
Qed.

Lemma serial_val_bind {A B} (w1 w2 : W) (d : D A) (f : A -> D B) x y :
  serial_val w1 d x -> serial_val w2 (f x) y -> serial_val (w1 +++ w2) (d ≫= f) y.
Proof.
  intros (bs1 & -> & H1) (bs2 & -> & H2). exists (bs1 ++ bs2). split; [done|].
  by eapply reads_bind.
Qed.

Lemma serial_val_map {A B} (w : W) (d : D A) (f : A -> B) x y :
  serial_val w d x -> f x = y -> serial_val w (a ← d; mret (f a)) y.
Proof.
  intros (bs & -> & Hd) <-. exists bs. split; [done|]. by eapply reads_map.
Qed.

Lemma serial_val_ret {A} (x : A) : serial_val nopW (mret x) x.
Proof. exists []. split; [done|]. apply reads_ret. Qed.

(** The empty hooks of the binary format change nothing. *)
Lemma seqW_nop_r w : w +++ nopW = w.
Proof. destruct w; cbn; [by rewrite app_nil_r|done]. Qed.
Lemma seqW_nop_l w : nopW +++ w = w.
Proof. by destruct w. Qed.
Lemma seqW_assoc a b c : (a +++ b) +++ c = a +++ b +++ c.
Proof. destruct a, b, c; cbn; by rewrite <- ?app_assoc. Qed.

(** *** Codecs that round-trip *)
Class CodecOk {A} (c : codec A) (valid : A -> Prop) : Prop :=
  codec_ok x : valid x -> serial_val (WriteValue c x) (Read c) x.

#[export] Instance unsigned_codec_ok n : CodecOk (unsigned_codec n) (in_u (8 * Z.of_nat n)).
Proof. intros z Hz. eexists; split; [done|]. by apply ReadUnsigned_spec. Qed.
#[export] Instance signed_codec_ok n :
  CodecOk (signed_codec (S n)) (in_s (8 * Z.of_nat (S n))).
Proof. intros z Hz. eexists; split; [done|]. apply ReadSigned_spec; [lia|done]. Qed.
#[export] Instance bool_c_ok : CodecOk bool_c (fun _ => True).
Proof.
  intros b _. eexists; split; [done|]. eapply reads_map; [apply ReadUnsigned_spec|].
  all: by destruct b.
Qed.

Definition string_valid (s : string) : Prop := Z.of_nat (String.length s) < 2 ^ 32.
Lemma length_list_byte_of_string s : length (String.list_byte_of_string s) = String.length s.
Proof.
  unfold String.list_byte_of_string. rewrite length_map.
  induction s as [|a s IH]; [done|]. cbn. by rewrite IH.
Qed.
#[export] Instance string_c_ok : CodecOk string_c string_valid.
Proof.
  intros x Hx. unfold string_valid in Hx. cbn [WriteValue Read string_c].
  unfold WriteString, ReadString. rewrite length_list_byte_of_string.
  rewrite uwrap_id by width. eapply serial_val_bind; [by apply (unsigned_codec_ok 4); width|].
  rewrite Nat2Z.id, <- length_list_byte_of_string, take_ge by done.
  destruct (Z.eqb_spec (Z.of_nat (length (String.list_byte_of_string x))) 0) as [E|E].
  - rewrite length_list_byte_of_string in E. destruct x; [|done].
    apply serial_val_ret.
  - eexists; split; [done|]. eapply reads_map.
    + by apply ReadData_reads.
    + apply String.string_of_list_byte_of_string.
Qed.

#[export] Instance enum_c_ok {A} (c : codec Z) (to : A -> Z) from valid :
  CodecOk c valid ->
  CodecOk (enum_c c to from) (fun x => valid (to x) /\ from (to x) = x).
Proof. intros Hc x [Hv Hx]. eapply serial_val_map; [by apply Hc|done]. Qed.

(** *** Properties *)
Definition field_ok (id : Z) : Prop := in_u 16 id /\ id <> MESSAGE_TERMINATOR_FIELD_ID.

Lemma write_begin id : field_ok id -> OnPropertyBegin id = Ok (le_bytes 2 id).
Proof.
  intros [_ Hne]. unfold OnPropertyBegin.
  by destruct (Z.eqb_spec id MESSAGE_TERMINATOR_FIELD_ID).
Qed.

Lemma property_ok {A} (c : codec A) valid id x : CodecOk c valid -> field_ok id -> valid x ->
  serial (WriteProperty id c x) (ReadProperty id c) x.
Proof.
  intros Hc Hid Hx. destruct (Hc x Hx) as (bs & Hw & Hr).
  exists (le_bytes 2 id ++ bs). split.
  { unfold WriteProperty, OnPropertyEnd. by rewrite write_begin, Hw, seqW_nop_r. }
  intros s lvl rest. rewrite <- app_assoc. intros Hs.
  destruct (OnPropertyBegin_spec s lvl id (bs ++ rest)) as (s1 & E1 & Hs1); [apply Hid|done|].
  destruct (Hr s1 lvl rest Hs1) as (s2 & E2 & Hs2).
  exists s2. unfold ReadProperty. rewrite (bind_ok _ _ _ _ _ E1), (bind_ok _ _ _ _ _ E2).
  split; [done|]. by apply ready_at_field.
Qed.

(** An optional property that was written. *)
Lemma PeekField_spec s lvl f rest : in_u 16 f -> at_field s lvl (le_bytes 2 f ++ rest) ->
  exists s', PeekField s = (Ok f, s') /\ has_buffered_field_ s' = true /\
    buffered_field_ s' = f /\ at_field s' lvl (le_bytes 2 f ++ rest).
Proof.
  intros Hf Hs. pose proof Hs as (Hok & Hn & Hb). unfold PeekField.
  rewrite (bind_ok get_state _ s s s) by done.
  destruct (has_buffered_field_ s) eqn:E.
  - destruct Hb as [Hb Hr]. apply app_inj_1 in Hr as [Hr1 Hr2]; [|by rewrite !length_le_bytes].
    apply le_bytes_inj in Hr1; [|done..].
    exists s. split_and!; [by rewrite Hr1|done..].
  - destruct (ReadUnsigned_spec 2 f Hf s lvl rest) as (s1 & E1 & Hs1); [by split_and!|].
    rewrite (bind_ok _ _ s tt (with_buffer s1 true f))
      by (by rewrite (bind_ok _ _ _ _ _ E1)).
    eexists; split; [done|]. destruct Hs1 as (? & ? & ? & ?).
    unfold at_field; cbn [with_buffer stream_ has_buffered_field_ buffered_field_ nesting_level_].
    split_and!; try done. by f_equal.
Qed.

Lemma optional_present_ok {A} (c : codec A) valid sdv id x dflt is_default :
  CodecOk c valid -> field_ok id -> valid x -> negb sdv && is_default = false ->
  serial (WritePropertyWithDefault sdv id c x is_default) (ReadPropertyWithDefault id c dflt) x.
Proof.
  intros Hc Hid Hx Hd. destruct (Hc x Hx) as (bs & Hw & Hr).
  exists (le_bytes 2 id ++ bs). split.
  { unfold WritePropertyWithDefault. rewrite Hd, Hw. cbn [OnOptionalPropertyBegin].
    rewrite write_begin by done. unfold OnOptionalPropertyEnd. by rewrite seqW_nop_r. }
  intros s lvl rest. rewrite <- app_assoc. intros Hs.
  destruct (PeekField_spec s lvl id (bs ++ rest)) as (s1 & E1 & Hb1 & Hf1 & Hs1);
    [apply Hid|done|].
  destruct Hs1 as (Hok & Hn & Hrest). rewrite Hb1, Hf1 in Hrest. destruct Hrest as [_ Hrest].
  apply app_inv_head in Hrest.
  destruct (Hr (with_buffer s1 false (buffered_field_ s1)) lvl rest) as (s2 & E2 & Hs2);
    [by split_and!|].
  exists s2. split; [|by apply ready_at_field].
  unfold ReadPropertyWithDefault, BinaryDeserializer.OnOptionalPropertyBegin.
  rewrite (bind_ok _ _ s true (with_buffer s1 false (buffered_field_ s1))).
  { cbn [negb]. by rewrite (bind_ok _ _ _ _ _ E2). }
  rewrite (bind_ok _ _ _ _ _ E1), Z.eqb_refl. unfold ConsumeField.
  unfold mbind, M_bind, get_state; cbn beta iota. by rewrite Hb1.
Qed.

(** An optional property that was left out: the next field id stays in the buffer. *)
Lemma optional_absent_ok {A} (c : codec A) id id' dflt s lvl rest :
  in_u 16 id' -> id <> id' -> at_field s lvl (le_bytes 2 id' ++ rest) ->
  exists s', ReadPropertyWithDefault id c dflt s = (Ok dflt, s') /\
    at_field s' lvl (le_bytes 2 id' ++ rest).
Proof.
  intros Hid Hne Hs. destruct (PeekField_spec s lvl id' rest) as (s1 & E1 & ? & ? & Hs1);
    [done|done|].
  exists s1. split; [|done].
  unfold ReadPropertyWithDefault, BinaryDeserializer.OnOptionalPropertyBegin.
  rewrite (bind_ok _ _ s false s1); [done|].
  rewrite (bind_ok _ _ _ _ _ E1). by destruct (Z.eqb_spec id' id).
Qed.

(** *** Objects and pointers *)
Lemma serial_object {A} (w : W) (d : D A) (x : A) : serial w d x ->
  serial_val (OnObjectBegin +++ w +++ OnObjectEnd)
    (BinaryDeserializer.OnObjectBegin;; val ← d; BinaryDeserializer.OnObjectEnd;; mret val) x.
Proof.
  intros (bs & -> & Hd). exists (bs ++ le_bytes 2 MESSAGE_TERMINATOR_FIELD_ID). split; [done|].
  intros s lvl rest. rewrite <- app_assoc. intros Hs.
  destruct (OnObjectBegin_spec _ _ _ Hs) as (s1 & E1 & Hs1).
  destruct (Hd s1 (lvl + 1) _ (ready_at_field _ _ _ Hs1)) as (s2 & E2 & Hs2).
  destruct (OnObjectEnd_spec _ _ _ Hs2) as (s3 & E3 & Hs3).
  exists s3. rewrite (bind_ok _ _ _ _ _ E1), (bind_ok _ _ _ _ _ E2), (bind_ok _ _ _ _ _ E3).
  done.
Qed.

#[export] Instance object_c_ok {A} (Ser : A -> W) (Des : D A) (valid : A -> Prop) :
  (forall x, valid x -> serial (Ser x) Des x) -> CodecOk (object_c Ser Des) valid.
Proof. intros Hs x Hx. apply serial_object. by apply Hs. Qed.

#[export] Instance ptr_c_ok {A} (Ser : A -> W) (Des : D A) (valid : A -> Prop) :
  (forall x, valid x -> serial (Ser x) Des x) ->
  CodecOk (ptr_c Ser Des) (fun p => forall x, p = Some x -> valid x).
Proof.
  intros Hs p Hp. cbn [WriteValue Read ptr_c]. unfold WritePtr, ReadPtr.
  destruct p as [x|]; unfold BinarySerializer.OnNullableEnd.
  - rewrite seqW_nop_r. eapply serial_val_bind; [by apply (bool_c_ok true)|].
    eapply serial_val_map; [|done].
    destruct (serial_object _ _ _ (Hs x (Hp x eq_refl))) as (bs & E & Hr).
    exists bs. split; [done|]. intros s lvl rest Hrd. destruct (Hr s lvl rest Hrd) as (s' & E' & Hs').
    exists s'. split; [|done]. revert E'. unfold mbind, M_bind.
    destruct (BinaryDeserializer.OnObjectBegin s) as [[]]; [|done].
    destruct (Des d) as [[]]; [|done]. destruct (BinaryDeserializer.OnObjectEnd d0) as [[]]; [|done].
    by intros [= -> ->].
  - eapply serial_val_bind; [by apply (bool_c_ok false)|]. exact (serial_val_ret None).
Qed.

(** *** Lists and maps *)
Lemma items_ok {A} (c : codec A) valid l : CodecOk c valid -> Forall valid l ->
  serial_val (write_items c l) (read_items c (length l)) l.
Proof.
  intros Hc. induction 1 as [|x l Hx Hl IH]; cbn; [apply serial_val_ret|].
  eapply serial_val_bind; [by apply Hc|]. by eapply serial_val_map.
Qed.

Definition count_ok (n : nat) : Prop := Z.of_nat n < 2 ^ 64.

Lemma counted_ok {A} (n : nat) (w : W) (d : nat -> D A) (x : A) :
  count_ok n -> serial_val w (d n) x ->
  serial_val (BinarySerializer.OnListBegin (Z.of_nat n) +++ w +++ BinarySerializer.OnListEnd)
    (size ← BinaryDeserializer.OnListBegin; vec ← d (Z.to_nat size);
     BinaryDeserializer.OnListEnd;; mret vec) x.
Proof.
  unfold count_ok. intros Hn Hw. unfold BinarySerializer.OnListEnd. rewrite seqW_nop_r.
  eapply serial_val_bind.
  - unfold BinarySerializer.OnListBegin. rewrite uwrap_id by width.
    apply (unsigned_codec_ok 8). width.
  - rewrite Nat2Z.id. by eapply serial_val_map.
Qed.

#[export] Instance vector_c_ok {A} (c : codec A) valid : CodecOk c valid ->
  CodecOk (vector_c c) (fun l => count_ok (length l) /\ Forall valid l).
Proof. intros Hc l [Hn Hl]. by apply (counted_ok _ _ (read_items c)), items_ok with valid. Qed.

#[export] Instance entry_c_ok {A B} (ca : codec A) (cb : codec B) va vb :
  CodecOk ca va -> CodecOk cb vb -> CodecOk (entry_c ca cb) (fun p => va p.1 /\ vb p.2).
Proof.
  intros Ha Hb [a b] [Hva Hvb]; cbn in Hva, Hvb.
  destruct (property_ok ca va 0 a) as (bs1 & E1 & Hr1); [done|by split|done|].
  destruct (property_ok cb vb 1 b) as (bs2 & E2 & Hr2); [done|by split|done|].
  cbn [WriteValue Read entry_c]. unfold WritePair, ReadEntry. cbn [fst snd]. rewrite E1, E2.
  eexists; split; [done|]. intros s lvl rest Hs.
  rewrite <- !app_assoc in Hs. cbn [app] in Hs.
  destruct (OnObjectBegin_spec _ _ _ Hs) as (s1 & F1 & Hs1).
  destruct (Hr1 _ _ _ (ready_at_field _ _ _ Hs1)) as (s2 & F2 & Hs2).
  destruct (Hr2 _ _ _ Hs2) as (s3 & F3 & Hs3).
  destruct (OnObjectEnd_spec _ _ _ Hs3) as (s4 & F4 & Hs4).
  exists s4. by rewrite (bind_ok _ _ _ _ _ F1), (bind_ok _ _ _ _ _ F2),
    (bind_ok _ _ _ _ _ F3), (bind_ok _ _ _ _ _ F4).
Qed.

Lemma insert_entries_lookup `{Countable K} {V} (l : list (K * V)) (m : gmap K V) k :
  NoDup l.*1 -> insert_entries m l !! k = (list_to_map l : gmap K V) !! k ∪ m !! k.
Proof.
  unfold insert_entries. revert m. induction l as [|[k' v] l IH]; intros m Hnd; cbn [foldl list_to_map foldr].
  - rewrite lookup_empty. by destruct (m !! k).
  - apply NoDup_cons in Hnd as [Hni Hnd]. rewrite IH by done. cbn [fst snd].
    destruct (decide (k' = k)) as [->|Hne].
    + rewrite !lookup_insert_eq.
      rewrite not_elem_of_list_to_map_1 by done. by destruct (m !! k).
    + rewrite !lookup_insert_ne by done. done.
Qed.

(** Re-inserting the entries of a map, in whatever order they were visited. *)
Lemma insert_entries_iteration `{Countable K} {V} `{!HashOrder K V} (m : gmap K V) :
  insert_entries ∅ (iteration m) = m.
Proof.
  assert (NoDup (iteration m).*1) as Hnd.
  { rewrite (fmap_Permutation fst _ _ (iteration_perm m)). apply NoDup_fst_map_to_list. }
  apply map_eq. intros k. rewrite insert_entries_lookup, lookup_empty by done.
  rewrite (list_to_map_proper _ (map_to_list m)) by (done || apply iteration_perm).
  rewrite list_to_map_to_list. by destruct (m !! k).
Qed.

#[export] Instance map_c_ok `{Countable K} {V} `{!HashOrder K V} (ck : codec K) (cv : codec V) vk vv :
  CodecOk ck vk -> CodecOk cv vv ->
  CodecOk (map_c ck cv) (fun m => count_ok (size m) /\ map_Forall (fun k v => vk k /\ vv v) m).
Proof.
  intros Hk Hv m [Hn Hm]. cbn [WriteValue Read map_c].
  assert (length (iteration m) = size m) as Hl.
  { rewrite (Permutation_length (iteration_perm m)). apply length_map_to_list. }
  destruct (counted_ok (size m) (write_items (entry_c ck cv) (iteration m))
    (read_items (entry_c ck cv)) (iteration m) Hn) as (bs & E & Hr).
  { rewrite <- Hl. apply items_ok with (fun p => vk p.1 /\ vv p.2); [apply _|].
    rewrite iteration_perm. apply Forall_forall. intros [k v] Hin.
    apply Hm. by apply elem_of_map_to_list. }
  exists bs. split; [done|]. intros s lvl rest Hs.
  destruct (Hr s lvl rest Hs) as (s' & E' & Hs'). exists s'. split; [|done].
  revert E'. unfold mbind, M_bind.
  destruct (BinaryDeserializer.OnListBegin s) as [[n|] s1]; [|done].
  destruct (read_items _ _ s1) as [[l|] s2]; [|done]. cbn. intros [= -> ->].
  by rewrite insert_entries_iteration.
Qed.

(** *** Whole messages *)
Lemma DeserializeRaw_ok {A} (Ser : A -> W) (Des : D A) (x : A) (st : St) bs rest :
  serial (Ser x) Des x -> Serialize_root Ser x = Ok bs ->
  rs_ok st -> rs_remaining st = bs ++ rest ->
  exists s', DeserializeRaw Des (new_deserializer st) = (Ok x, s') /\ ready s' 0 rest.
Proof.
  intros Hs Hw Hok Hrem. destruct (serial_object _ _ _ Hs) as (bs' & E & Hr).
  unfold Serialize_root in Hw. rewrite Hw in E. injection E as <-.
  destruct (Hr (new_deserializer st) 0 rest) as (s' & E' & Hs'); [by split_and!|].
  exists s'. split; [|done]. revert E'. unfold DeserializeRaw, mbind, M_bind.
  destruct (BinaryDeserializer.OnObjectBegin _) as [[]]; [|done].
  destruct (Des d) as [[]]; [|done].
  destruct (BinaryDeserializer.OnObjectEnd d0) as [[]]; [|done].
  destruct Hs' as (? & Hn & ? & ?). intros [= -> ->]. unfold get_state, assert_that, lift.
  by rewrite Hn.
Qed.
End logic.

#[export] Hint Resolve property_ok : gdb.
