(* ===== verification/Types.v ===== *)
(** * Basic types: [common/config.hpp], [typedef.hpp], [type.hpp], [page_id.hpp], [rid.hpp],
    [arithmetic_type.hpp] *)
From S2P Require Import Prelude Bytes.

(** ** Configuration *)
Definition INVALID_PAGE_ID : Z := -1.
Definition INVALID_TABLE_OID : Z := -1.
Definition PAGE_SIZE : Z := 4096.
Definition page_size : nat := Z.to_nat PAGE_SIZE.
Definition DEFAULT_POOL_SIZE : Z := 10.
Definition INDEX_KEY_SIZE : nat := 8.
Definition VARCHAR_DEFAULT_LENGTH : Z := 128.
Definition SYSTEM_CATALOG_ID : Z := -1.
Definition INVALID_TS : Z := -1.
Definition TXN_START_ID : Z := 2 ^ 62.

(** ** Type ids.  A [TypeId] read from a file is a cast [uint8_t]: it may have no
    enumerator, which is [UNNAMED]. *)
Inductive TypeId : Type :=
| INVALID | BOOLEAN | INTEGER | TIMESTAMP | VARCHAR
| UNNAMED (n : Z).

#[export] Instance TypeId_eq_dec : EqDecision TypeId.
Proof. solve_decision. Defined.

Definition TypeId_to_Z (t : TypeId) : Z :=
  match t with
  | INVALID => 0 | BOOLEAN => 1 | INTEGER => 2 | TIMESTAMP => 3 | VARCHAR => 4
  | UNNAMED n => n
  end.
Definition TypeId_of_Z (z : Z) : TypeId :=
  if z =? 0 then INVALID else if z =? 1 then BOOLEAN else if z =? 2 then INTEGER
  else if z =? 3 then TIMESTAMP else if z =? 4 then VARCHAR else UNNAMED z.

(** The values the type can hold. *)
Definition TypeId_valid (t : TypeId) : Prop :=
  match t with UNNAMED n => 5 <= n < 256 | _ => True end.

Lemma TypeId_of_to t : TypeId_valid t -> TypeId_of_Z (TypeId_to_Z t) = t.
Proof.
  destruct t; try done. cbn. intros. unfold TypeId_of_Z.
  repeat match goal with |- context [?a =? ?b] => destruct (Z.eqb_spec a b); [lia|] end. done.
Qed.

Lemma TypeId_to_range t : TypeId_valid t -> in_u 8 (TypeId_to_Z t).
Proof. destruct t; cbn; intros; width. Qed.

Module Type_.
Definition IsFixedSize (type_id : TypeId) : res bool :=
  match type_id with
  | BOOLEAN | INTEGER | TIMESTAMP => Ok true
  | VARCHAR => Ok false
  | _ => Err RuntimeException
  end.

Definition TypeSize (type_id : TypeId) (length : Z) : res Z :=
  match type_id with
  | BOOLEAN => Ok 1
  | INTEGER => Ok 4
  | TIMESTAMP => Ok 8
  | VARCHAR => Ok length
  | _ => Err RuntimeException
  end.

Definition TypeIdToString (type_id : TypeId) : res string :=
  match type_id with
  | BOOLEAN => Ok "BOOLEAN"
  | INTEGER => Ok "INTEGER"
  | TIMESTAMP => Ok "TIMESTAMP"
  | VARCHAR => Ok "VARCHAR"
  | _ => Err RuntimeException
  end%string.

(** The column types of the SQL parser that [HsqlColumnTypeToTypeId] names. *)
Inductive DataType : Type :=
| DT_UNKNOWN | DT_BIGINT | DT_BOOLEAN | DT_CHAR | DT_DATE | DT_DATETIME | DT_DECIMAL
| DT_DOUBLE | DT_FLOAT | DT_INT | DT_LONG | DT_REAL | DT_SMALLINT | DT_TEXT | DT_TIME
| DT_VARCHAR.

Definition HsqlColumnTypeToTypeId (data_type : DataType) : res TypeId :=
  match data_type with
  | DT_BOOLEAN => Ok BOOLEAN
  | DT_INT => Ok INTEGER
  | DT_TIME => Ok TIMESTAMP
  | DT_VARCHAR => Ok VARCHAR
  | _ => Err NotImplementedException
  end.
End Type_.

(** ** Page ids and record ids *)
Record PageId := mk_PageId { table_id_ : Z; page_number_ : Z }.
Record RID := mk_RID { rid_page_id_ : PageId; slot_num_ : Z }.

#[export] Instance PageId_eq_dec : EqDecision PageId.
Proof. solve_decision. Defined.
#[export] Instance PageId_countable : Countable PageId.
Proof.
  refine (inj_countable' (fun p => (table_id_ p, page_number_ p))
    (fun p => mk_PageId p.1 p.2) _). by intros [].
Defined.
#[export] Instance RID_eq_dec : EqDecision RID.
Proof. solve_decision. Defined.

(** [PageId()], [PageId(table_id)]. *)
Definition PageId_default : PageId := mk_PageId INVALID_TABLE_OID INVALID_PAGE_ID.
Definition PageId_of_table (table_id : Z) : PageId := mk_PageId table_id INVALID_PAGE_ID.
Definition RID_default : RID := mk_RID PageId_default 0.

Definition PageId_eqb (a b : PageId) : bool :=
  (table_id_ a =? table_id_ b) && (page_number_ a =? page_number_ b).
Definition RID_eqb (a b : RID) : bool :=
  PageId_eqb (rid_page_id_ a) (rid_page_id_ b) && (slot_num_ a =? slot_num_ b).

Lemma PageId_eqb_spec a b : PageId_eqb a b = true <-> a = b.
Proof.
  unfold PageId_eqb. destruct a, b; cbn.
  rewrite andb_true_iff, !Z.eqb_eq. naive_solver.
Qed.

Lemma RID_eqb_spec a b : RID_eqb a b = true <-> a = b.
Proof.
  unfold RID_eqb. destruct a, b; cbn.
  rewrite andb_true_iff, PageId_eqb_spec, Z.eqb_eq. naive_solver.
Qed.

(** ** Arithmetic operators *)
Inductive ArithmeticType : Type := Plus | Minus | Multiply.

#[export] Instance ArithmeticType_eq_dec : EqDecision ArithmeticType.
Proof. solve_decision. Defined.

Definition ArithmeticType_ToString (type : ArithmeticType) : string :=
  match type with Plus => "+" | Minus => "-" | Multiply => "*" end%string.

#[export] Hint Resolve TypeId_of_to TypeId_to_range : gdb.
