(* ===== verification/Value.v ===== *)
(** * Values: [common/value.hpp], [common/value.cpp] *)
From S2P Require Import Prelude Bytes Streams Serializer Codec CodecFacts Types.
From stdpp Require Import pretty.
Open Scope Z_scope.

(** [std::variant<int8_t, int32_t, uint64_t, std::string>] *)
Inductive Val : Type :=
| VInt8 (z : Z)
| VInt32 (z : Z)
| VUint64 (z : Z)
| VString (s : string).

(** The argument of the constructor template [Value(TypeId, T &&)], by its type [T]. *)
Inductive cpp_arg : Type :=
| Arg_uint8 (z : Z)
| Arg_int8 (z : Z)
| Arg_int32 (z : Z)
| Arg_uint64 (z : Z)
| Arg_string (s : string).

#[export] Instance Val_eq_dec : EqDecision Val.
Proof. solve_decision. Defined.

Record Value := mk_Value { type_id_ : TypeId; value_ : Val; is_null_ : bool }.

#[export] Instance Value_eq_dec : EqDecision Value.
Proof. solve_decision. Defined.

(** [std::get<T>] on the variant. *)
Definition get_int8 (v : Val) : res Z :=
  match v with VInt8 z => Ok z | _ => Err BadVariantAccess end.
Definition get_int32 (v : Val) : res Z :=
  match v with VInt32 z => Ok z | _ => Err BadVariantAccess end.
Definition get_uint64 (v : Val) : res Z :=
  match v with VUint64 z => Ok z | _ => Err BadVariantAccess end.
Definition get_string (v : Val) : res string :=
  match v with VString s => Ok s | _ => Err BadVariantAccess end.

Definition ValueIsCorrectType (type : TypeId) (arg : cpp_arg) : bool :=
  match type, arg with
  | BOOLEAN, Arg_uint8 _ => true
  | INTEGER, Arg_int32 _ => true
  | TIMESTAMP, Arg_uint64 _ => true
  | VARCHAR, Arg_string _ => true
  | _, _ => false
  end.

(** The converting constructor of the variant picks the alternative; a [uint8_t]
    would narrow to [int8_t] and is promoted to [int32_t]. *)
Definition to_variant (arg : cpp_arg) : Val :=
  match arg with
  | Arg_uint8 z => VInt32 z
  | Arg_int8 z => VInt8 z
  | Arg_int32 z => VInt32 z
  | Arg_uint64 z => VUint64 z
  | Arg_string s => VString s
  end.

Module Value.
(** [Value(TypeId)]: the first alternative, value-initialised. *)
Definition of_type (type : TypeId) : Value := mk_Value type (VInt8 0) false.

(** [Value(TypeId, T &&)] *)
Definition make (type : TypeId) (arg : cpp_arg) : res Value :=
  if ValueIsCorrectType type arg then Ok (mk_Value type (to_variant arg) false)
  else Err RuntimeException.

Definition IsNull (v : Value) : bool := is_null_ v.
Definition GetTypeId (v : Value) : TypeId := type_id_ v.

Definition GetVarlenStorageSize (v : Value) : res Z :=
  if decide (type_id_ v = VARCHAR) then
    s ← get_string (value_ v); Ok (uwrap 32 (Z.of_nat (String.length s)))
  else Ok 0.
Definition GetStorageSize (v : Value) : res Z :=
  len ← GetVarlenStorageSize v; Type_.TypeSize (type_id_ v) len.

(** The bytes [SerializeTo] stores from the address [storage] on. *)
Definition SerializeTo (v : Value) : res (list byte) :=
  match type_id_ v with
  | BOOLEAN =>
    _ ← assertion (match value_ v with VInt8 _ => true | _ => false end);
    z ← get_int8 (value_ v); Ok (le_bytes 1 z)
  | INTEGER => z ← get_int32 (value_ v); Ok (le_bytes 4 z)
  | TIMESTAMP => z ← get_uint64 (value_ v); Ok (le_bytes 8 z)
  | VARCHAR =>
    varchar_val ← get_string (value_ v);
    let data := String.list_byte_of_string varchar_val in
    let var_len := uwrap 32 (Z.of_nat (length data)) in
    Ok (le_bytes 4 var_len ++ take (Z.to_nat var_len) data)
  | INVALID => Err RuntimeException
  | UNNAMED _ => Ok []
  end.

(** [storage] is the memory from the given address to the end of its block. *)
Definition DeserializeFrom (storage : list byte) (type_id : TypeId) : res Value :=
  match type_id with
  | BOOLEAN => bs ← mem_read 0 1 storage; make type_id (Arg_int8 (le_s 1 bs))
  | INTEGER => bs ← mem_read 0 4 storage; make type_id (Arg_int32 (le_s 4 bs))
  | TIMESTAMP => bs ← mem_read 0 4 storage; make type_id (Arg_uint64 (le_u 4 bs))
  | VARCHAR =>
    bs ← mem_read 0 4 storage;
    let var_len := le_u 4 bs in
    _ ← assertion (var_len <? PAGE_SIZE);
    data ← mem_read 4 (Z.to_nat var_len) storage;
    make type_id (Arg_string (String.string_of_list_byte data))
  | INVALID => Err RuntimeException
  | UNNAMED _ => Err UndefinedBehaviour
  end.

Definition SerializeToWithTypeInfo (v : Value) : res (list byte) :=
  bs ← SerializeTo v; Ok (le_bytes 1 (TypeId_to_Z (type_id_ v)) ++ bs).
Definition DeserializeFromWithTypeInfo (storage : list byte) : res Value :=
  bs ← mem_read 0 1 storage;
  DeserializeFrom (drop 1 storage) (TypeId_of_Z (le_u 1 bs)).

Definition ToString (v : Value) : res string :=
  match type_id_ v with
  | BOOLEAN => z ← get_int8 (value_ v); Ok (pretty z)
  | INTEGER => z ← get_int32 (value_ v); Ok (pretty z)
  | TIMESTAMP => z ← get_uint64 (value_ v); Ok (pretty z)
  | VARCHAR => get_string (value_ v)
  | INVALID => Err RuntimeException
  | UNNAMED _ => Err UndefinedBehaviour
  end.

(** [value_ = std::get<T>(value_) op other.GetAs<T>()]: overflow of [int32_t] is
    undefined, [uint64_t] wraps. *)
Definition arith (op : ArithmeticType) (a b : Z) : Z :=
  match op with Plus => a + b | Minus => a - b | Multiply => a * b end.
Definition arith_int32 (op : ArithmeticType) (v other : Value) : res Value :=
  a ← get_int32 (value_ v);
  b ← get_int32 (value_ other);
  if decide (in_s 32 (arith op a b))
  then Ok (mk_Value (type_id_ v) (VInt32 (arith op a b)) (is_null_ v))
  else Err UndefinedBehaviour.
Definition arith_uint64 (op : ArithmeticType) (v other : Value) : res Value :=
  a ← get_uint64 (value_ v);
  b ← get_uint64 (value_ other);
  Ok (mk_Value (type_id_ v) (VUint64 (uwrap 64 (arith op a b))) (is_null_ v)).

Definition ComputeArithmetic (v other : Value) (expression_type : ArithmeticType) : res Value :=
  match type_id_ v with
  | BOOLEAN | VARCHAR | INVALID => Err RuntimeException
  | INTEGER => arith_int32 expression_type v other
  | TIMESTAMP =>
    match expression_type with
    | Multiply => Err RuntimeException
    | _ => arith_uint64 expression_type v other
    end
  | UNNAMED _ => Err UndefinedBehaviour
  end.

(** ** Index keys *)
(** The first bytes of a [std::string] object, which belong to the standard
    library's implementation. *)
Class StringLayout := {
  string_object : string -> list byte;
  length_string_object s : (8 <= length (string_object s))%nat
}.

(** [memcpy(&ret, &value_, n)]: reading past the active alternative is undefined. *)
Definition variant_bytes `{StringLayout} (n : nat) (v : Val) : res (list byte) :=
  match v with
  | VInt8 z => mem_read 0 n (le_bytes 1 z)
  | VInt32 z => mem_read 0 n (le_bytes 4 z)
  | VUint64 z => mem_read 0 n (le_bytes 8 z)
  | VString s => mem_read 0 n (string_object s)
  end.

Definition zero_key : list byte := replicate INDEX_KEY_SIZE x00.

Definition ConvertToIndexKeyType `{StringLayout} (v : Value) : res (list byte) :=
  match type_id_ v with
  | BOOLEAN => bs ← variant_bytes 1 (value_ v); mem_write 0 bs zero_key
  | INTEGER => bs ← variant_bytes 4 (value_ v); mem_write 0 bs zero_key
  | TIMESTAMP => bs ← variant_bytes 4 (value_ v); mem_write 0 bs zero_key
  | VARCHAR =>
    bs ← variant_bytes (INDEX_KEY_SIZE - 1) (value_ v);
    ret ← mem_write 0 bs zero_key;
    s ← get_string (value_ v);
    mem_write (Nat.min (String.length s) (INDEX_KEY_SIZE - 1)) [x00] ret
  | INVALID => Err RuntimeException
  | UNNAMED _ => Err UndefinedBehaviour
  end.

(** ** Serialization *)
Section serialization.
Context {St : Type} `{ReadStream St}.

Definition type_id_c : codec St TypeId := enum_c uint8_c TypeId_to_Z TypeId_of_Z.

Definition Serialize (v : Value) : W :=
  WriteProperty (St:=St) 100 type_id_c (type_id_ v) +++
  WriteProperty (St:=St) 101 bool_c (is_null_ v) +++
  (if negb (IsNull v) then
     match type_id_ v with
     | INVALID => Err RuntimeException
     | BOOLEAN => z ← get_int8 (value_ v); WriteProperty (St:=St) 102 int8_c z
     | INTEGER => z ← get_int32 (value_ v); WriteProperty (St:=St) 102 int32_c z
     | TIMESTAMP => z ← get_uint64 (value_ v); WriteProperty (St:=St) 102 uint64_c z
     | VARCHAR => s ← get_string (value_ v); WriteProperty (St:=St) 102 string_c s
     | UNNAMED _ => Err NotImplementedException
     end
   else nopW).

Definition Deserialize : M (deser St) Value :=
  type_id ← ReadProperty 100 type_id_c;
  is_null ← ReadProperty 101 bool_c;
  let new_value := of_type type_id in
  if is_null : bool then mret new_value
  else
    match type_id with
    | INVALID => throw RuntimeException
    | BOOLEAN => z ← ReadProperty 102 int8_c; mret (mk_Value type_id (VInt8 z) false)
    | INTEGER => z ← ReadProperty 102 int32_c; mret (mk_Value type_id (VInt32 z) false)
    | TIMESTAMP => z ← ReadProperty 102 uint64_c; mret (mk_Value type_id (VUint64 z) false)
    | VARCHAR => s ← ReadProperty 102 string_c; mret (mk_Value type_id (VString s) false)
    | UNNAMED _ => throw NotImplementedException
    end.
End serialization.

(** ** Well-typed values *)
Definition wt (t : TypeId) (v : Val) : Prop :=
  match t, v with
  | BOOLEAN, VInt8 z => in_s 8 z
  | INTEGER, VInt32 z => in_s 32 z
  | TIMESTAMP, VUint64 z => in_u 64 z
  | VARCHAR, VString s => string_valid s
  | _, _ => False
  end.
Definition well_typed (v : Value) : Prop := wt (type_id_ v) (value_ v) /\ is_null_ v = false.
End Value.

(** What a value becomes when it is written with [SerializeTo] and read back with
    [DeserializeFrom]. *)
Definition stored (v : Value) : res Value :=
  match type_id_ v, value_ v with
  | INTEGER, VInt32 z => Ok v
  | TIMESTAMP, VUint64 z => Ok (mk_Value TIMESTAMP (VUint64 (uwrap 32 z)) false)
  | VARCHAR, VString s =>
    if Z.of_nat (String.length s) <? PAGE_SIZE then Ok v else Err AssertionFailed
  | _, _ => Err RuntimeException
  end.

Section facts.
Lemma mem_read_prefix n bs rest : length bs = n -> mem_read 0 n (bs ++ rest) = Ok bs.
Proof.
  intros <-. rewrite mem_read_ok by (rewrite length_app; lia).
  unfold rd. by rewrite drop_0, take_app_length.
Qed.
Lemma mem_read_after n k bs bs' rest : length bs = n -> length bs' = k ->
  mem_read n k (bs ++ bs' ++ rest) = Ok bs'.
Proof.
  intros <- <-. rewrite mem_read_ok by (rewrite !length_app; lia).
  unfold rd. by rewrite drop_app_length, take_app_length.
Qed.

Lemma SerializeTo_length v bs : Value.SerializeTo v = Ok bs -> Value.well_typed v ->
  exists n, Value.GetStorageSize v = Ok n /\
    Z.of_nat (length bs) = n + (if decide (type_id_ v = VARCHAR) then 4 else 0).
Proof.
  destruct v as [t v nl]. unfold Value.well_typed, Value.SerializeTo, Value.GetStorageSize,
    Value.GetVarlenStorageSize; cbn.
  intros Hs [Hw _]. destruct t, v; try done; cbn in *;
    apply Ok_inj in Hs as <-; (eexists; split; [reflexivity|]); rewrite ?length_le_bytes; try done.
  unfold string_valid in Hw. rewrite decide_True by done.
  rewrite length_app, length_le_bytes, length_take, !length_list_byte_of_string, !uwrap_id by width. lia.
Qed.

Lemma DeserializeFrom_stored v bs rest : Value.well_typed v -> Value.SerializeTo v = Ok bs ->
  Value.DeserializeFrom (bs ++ rest) (type_id_ v) = stored v.
Proof.
  destruct v as [t v nl]. intros [Hw Hn]; cbn in Hw, Hn; subst nl.
  destruct t, v; try done; unfold Value.SerializeTo, Value.DeserializeFrom, stored;
    cbn [type_id_ value_ get_int8 get_int32 get_uint64 get_string mbind res_bind];
    intros <-%Ok_inj.
  - by rewrite mem_read_prefix.
  - rewrite mem_read_prefix by done. cbn [mbind res_bind]. rewrite le_s_bytes by (done || lia). done.
  - rewrite <- (take_drop 4 (le_bytes 8 z)), <- app_assoc.
    rewrite mem_read_prefix by done. cbn [mbind res_bind].
    rewrite (take_le_bytes 4 8), le_u_bytes_wrap by lia. done.
  - cbn in Hw; unfold string_valid in Hw. rewrite length_list_byte_of_string, uwrap_id by width.
    rewrite Nat2Z.id, take_ge by (by rewrite length_list_byte_of_string).
    rewrite <- app_assoc, mem_read_prefix by apply length_le_bytes. cbn [mbind res_bind].
    rewrite le_u_bytes by width. unfold assertion.
    destruct (Z.ltb_spec (Z.of_nat (String.length s)) PAGE_SIZE); [|done]. cbn [mbind res_bind].
    rewrite mem_read_after
      by (rewrite ?length_list_byte_of_string, ?length_le_bytes, ?Nat2Z.id; done).
    cbn [mbind res_bind]. by rewrite String.string_of_list_byte_of_string.
Qed.
End facts.

Section codec_facts.
Context {St : Type} `{ReadStream St}.

#[export] Instance type_id_c_ok : CodecOk Value.type_id_c TypeId_valid.
Proof.
  intros t Ht. destruct (enum_c_ok uint8_c TypeId_to_Z TypeId_of_Z (in_u 8) _ t) as (bs & E & Hr);
    [split; auto with gdb|]. by exists bs.
Qed.

Lemma Value_serial v : Value.well_typed v -> serial (Value.Serialize (St:=St) v) Value.Deserialize v.
Proof.
  destruct v as [t v nl]. intros [Hw Hn]; cbn in Hw, Hn; subst nl.
  unfold Value.Serialize, Value.Deserialize; cbn [type_id_ value_ is_null_ negb Value.IsNull].
  eapply serial_bind; [apply (property_ok _ TypeId_valid); [apply _|by split|by destruct t, v]|].
  eapply serial_bind; [by apply (property_ok _ (fun _ => True)); [apply _|split|]|].
  destruct t, v; try done; cbn [Value.wt] in Hw; cbn beta iota zeta;
    (erewrite res_bind_Ok; [|reflexivity]);
    (eapply serial_map; [eapply property_ok; [apply _|by split|done]|done]).
Qed.
End codec_facts.

(** ** Properties *)

(** C26: a well-typed value written with its type in front and read back is the value as
    storage keeps it: integers and strings unchanged, time stamps modulo [2^32] (eight
    bytes are written, four are read), booleans refused; strings of a page or more trip
    the assertion. *)
Theorem value_storage_roundtrip v rest : Value.well_typed v ->
  exists bs, Value.SerializeToWithTypeInfo v = Ok bs /\
    Value.DeserializeFromWithTypeInfo (bs ++ rest) = stored v.
Proof.
  intros Hw. assert (exists bs, Value.SerializeTo v = Ok bs) as [bs Hbs].
  { destruct v as [t v nl]. destruct Hw as [Hw _]; cbn in Hw.
    destruct t, v; try done; by eexists. }
  exists (le_bytes 1 (TypeId_to_Z (type_id_ v)) ++ bs).
  unfold Value.SerializeToWithTypeInfo. rewrite Hbs. split; [done|].
  unfold Value.DeserializeFromWithTypeInfo. rewrite <- app_assoc, mem_read_prefix by done.
  assert (TypeId_valid (type_id_ v)) as Ht.
  { destruct v as [t v nl]. destruct Hw as [Hw _]; cbn in Hw. by destruct t, v. }
  cbn [mbind res_bind]. rewrite le_u_bytes, TypeId_of_to by auto with gdb.
  rewrite drop_app_length' by done. by apply DeserializeFrom_stored.
Qed.

Lemma value_storage_roundtrip_witness : exists bs,
  Value.SerializeToWithTypeInfo (mk_Value TIMESTAMP (VUint64 (2 ^ 32 + 5)) false) = Ok bs /\
  Value.DeserializeFromWithTypeInfo bs = Ok (mk_Value TIMESTAMP (VUint64 5) false).
Proof.
  destruct (value_storage_roundtrip (mk_Value TIMESTAMP (VUint64 (2 ^ 32 + 5)) false) [])
    as (bs & H1 & H2).
  - split; [cbn; width|done].
  - exists bs. rewrite app_nil_r in H2. split; [exact H1|exact H2].
Defined.

(** No [BOOLEAN] can be stored: a value the constructor accepts holds the [int32_t]
    alternative, so [SerializeTo] fails its assertion, and [DeserializeFrom] fails on
    every block of memory, because the constructor refuses the [int8_t] it reads. *)
Theorem boolean_unusable :
  (forall arg v, Value.make BOOLEAN arg = Ok v -> Value.SerializeTo v = Err AssertionFailed) /\
  (forall storage, exists e, Value.DeserializeFrom storage BOOLEAN = Err e).
Proof.
  split.
  - intros [] v; cbn; try done. by intros <-%Ok_inj.
  - intros storage. unfold Value.DeserializeFrom. destruct (mem_read 0 1 storage); cbn; eauto.
Qed.

(** Arithmetic on well-typed integers gives the exact result and keeps the type when
    it fits [int32_t]; on time stamps sum and difference wrap at [2^64] and products are
    refused, as is every operation on the other types. *)
Theorem ComputeArithmetic_spec v other op : Value.well_typed v -> Value.well_typed other ->
  type_id_ other = type_id_ v ->
  match value_ v, value_ other with
  | VInt32 a, VInt32 b => in_s 32 (Value.arith op a b) ->
      Value.ComputeArithmetic v other op = Ok (mk_Value INTEGER (VInt32 (Value.arith op a b)) false)
  | VUint64 a, VUint64 b =>
      Value.ComputeArithmetic v other op =
        if decide (op = Multiply) then Err RuntimeException
        else Ok (mk_Value TIMESTAMP (VUint64 (uwrap 64 (Value.arith op a b))) false)
  | _, _ => Value.ComputeArithmetic v other op = Err RuntimeException
  end.
Proof.
  destruct v as [t v nl], other as [t' v' nl']; intros [Hw Hn] [Hw' Hn']; cbn in *; subst.
  intros <-. destruct t', v, v'; try done; unfold Value.ComputeArithmetic; cbn.
  - intros Hs. unfold Value.arith_int32; cbn. by rewrite decide_True.
  - by destruct op.
Qed.

Lemma ComputeArithmetic_spec_witness :
  Value.ComputeArithmetic (mk_Value INTEGER (VInt32 6) false) (mk_Value INTEGER (VInt32 7) false)
    Multiply = Ok (mk_Value INTEGER (VInt32 42) false).
Proof.
  apply (ComputeArithmetic_spec (mk_Value INTEGER (VInt32 6) false)
    (mk_Value INTEGER (VInt32 7) false) Multiply).
  - split; [cbn; width|done].
  - split; [cbn; width|done].
  - done.
  - cbn. width.
Defined.
