(* ===== verification/Schema.v ===== *)
(** * Columns and schemas: [meta/column.hpp], [meta/schema.hpp] and their sources *)
From S2P Require Import Prelude Bytes Streams Serializer Codec CodecFacts Types Value.
From stdpp Require Import pretty.
Open Scope Z_scope.

Record Column := mk_Column {
  column_name_ : string;
  column_type_ : TypeId;
  length_ : Z;            (* uint32_t *)
  storage_offset_ : Z;    (* uint32_t *)
  schema_offset_ : Z;     (* idx_t *)
  is_auto_increment_ : bool
}.

#[export] Instance Column_eq_dec : EqDecision Column.
Proof. solve_decision. Defined.

Module Column.
(** [Column()] *)
Definition dummy : Column := mk_Column "" INVALID 0 0 0 false.

(** The constructor of fixed-length columns and the one of [VARCHAR] columns. *)
Definition fixed (column_name : string) (type : TypeId) : res Column :=
  length ← Type_.TypeSize type 0;
  _ ← assertion (negb (bool_decide (type = VARCHAR)));
  _ ← assertion (0 <? length);
  Ok (mk_Column column_name type length 0 0 false).
Definition varlen (column_name : string) (type : TypeId) (len : Z) : res Column :=
  length ← Type_.TypeSize type len;
  _ ← assertion (bool_decide (type = VARCHAR));
  _ ← assertion (0 <? length);
  Ok (mk_Column column_name type length 0 0 false).

Definition GetName (c : Column) : string := column_name_ c.
Definition GetStorageSize (c : Column) : Z := length_ c.
Definition GetStorageOffset (c : Column) : Z := storage_offset_ c.
Definition GetSchemaOffset (c : Column) : Z := uwrap 32 (schema_offset_ c).
Definition GetType (c : Column) : TypeId := column_type_ c.
Definition IsInlined (c : Column) : bool := negb (bool_decide (column_type_ c = VARCHAR)).

Definition ToString (simplified : bool) (c : Column) : res string :=
  type ← Type_.TypeIdToString (column_type_ c);
  Ok (if simplified then
        if decide (column_type_ c = VARCHAR)
        then column_name_ c +:+ ":" +:+ type +:+ "(" +:+ pretty (length_ c) +:+ ")"
        else column_name_ c +:+ ":" +:+ type
      else "Column[" +:+ column_name_ c +:+ ", " +:+ type +:+ ", Offset:" +:+
           pretty (storage_offset_ c) +:+ ", Length:" +:+ pretty (length_ c) +:+ "]")%string.

Section serialization.
Context {St : Type} `{ReadStream St}.

Definition Serialize (c : Column) : W :=
  WriteProperty (St:=St) 100 string_c (column_name_ c) +++
  WriteProperty (St:=St) 101 Value.type_id_c (column_type_ c) +++
  WriteProperty (St:=St) 102 uint32_c (length_ c) +++
  WriteProperty (St:=St) 103 uint32_c (storage_offset_ c).

Definition Deserialize : M (deser St) Column :=
  name ← ReadProperty 100 string_c;
  type ← ReadProperty 101 Value.type_id_c;
  length ← ReadProperty 102 uint32_c;
  offset ← ReadProperty 103 uint32_c;
  mret (mk_Column name type length offset (schema_offset_ dummy) (is_auto_increment_ dummy)).

Definition column_c : codec St Column := object_c Serialize Deserialize.
End serialization.

(** What survives a round trip. *)
Definition persisted (c : Column) : Column :=
  mk_Column (column_name_ c) (column_type_ c) (length_ c) (storage_offset_ c) 0 false.
Definition valid (c : Column) : Prop :=
  string_valid (column_name_ c) /\ TypeId_valid (column_type_ c) /\
  in_u 32 (length_ c) /\ in_u 32 (storage_offset_ c).
End Column.

Record Schema := mk_Schema {
  columns_ : list Column;
  uninlined_columns_ : list Z;                (* vector<column_t> *)
  tuple_inline_part_storage_size_ : Z         (* uint32_t *)
}.

Module Schema.
(** [Schema()] *)
Definition empty : Schema := mk_Schema [] [] 0.

Definition place (c : Column) (index curr_offset : Z) : Column :=
  mk_Column (column_name_ c) (column_type_ c) (length_ c) curr_offset index
    (is_auto_increment_ c).
Definition inline_size (c : Column) : Z :=
  if Column.IsInlined c then Column.GetStorageSize c else 4.

(** The loop of [Schema(const std::vector<Column> &)], from column [index] on:
    the placed columns, the uninlined indices and the final offset. *)
Fixpoint build (columns : list Column) (index curr_offset : Z) :
    res (list Column * list Z * Z) :=
  match columns with
  | [] => Ok ([], [], curr_offset)
  | column :: columns =>
    _ ← assertion (0 <? length_ column);
    rest ← build columns (uwrap 32 (index + 1)) (uwrap 32 (curr_offset + inline_size column));
    let '(cols, uninlined, offset) := rest in
    Ok (place column index curr_offset :: cols,
        (if Column.IsInlined column then uninlined else index :: uninlined),
        offset)
  end.

Definition make (columns : list Column) : res Schema :=
  r ← build columns 0 0;
  let '(cols, uninlined, offset) := r in
  _ ← assertion (bool_decide (length columns = length cols));
  Ok (mk_Schema cols uninlined offset).

Definition GetColumns (s : Schema) : list Column := columns_ s.
Definition GetColumn (s : Schema) (col_idx : nat) : res Column :=
  match columns_ s !! col_idx with Some c => Ok c | None => Err UndefinedBehaviour end.
Definition GetColumnCount (s : Schema) : Z := uwrap 32 (Z.of_nat (length (columns_ s))).
Definition GetUninlinedColumns (s : Schema) : list Z := uninlined_columns_ s.
Definition GetTupleInlinePartStorageSize (s : Schema) : Z := tuple_inline_part_storage_size_ s.

Fixpoint find_col (columns : list Column) (col_name : string) (i : nat) : option nat :=
  match columns with
  | [] => None
  | c :: columns =>
    if decide (Column.GetName c = col_name) then Some i else find_col columns col_name (S i)
  end.
Definition TryGetColIdx (s : Schema) (col_name : string) : option nat :=
  find_col (columns_ s) col_name 0.

(** [std::equal] over both ranges *)
Fixpoint type_match (a b : list Column) : bool :=
  match a, b with
  | [], [] => true
  | c1 :: a, c2 :: b => bool_decide (Column.GetType c1 = Column.GetType c2) && type_match a b
  | _, _ => false
  end.
Definition TypeMatch (a b : Schema) : bool := type_match (columns_ a) (columns_ b).

Section serialization.
Context {St : Type} `{ReadStream St}.

Definition Serialize (s : Schema) : W :=
  WriteProperty (St:=St) 100 (vector_c Column.column_c) (columns_ s) +++
  WriteProperty (St:=St) 101 (vector_c uint32_c) (uninlined_columns_ s) +++
  WriteProperty (St:=St) 102 uint32_c (tuple_inline_part_storage_size_ s).

Definition Deserialize : M (deser St) Schema :=
  columns ← ReadProperty 100 (vector_c Column.column_c);
  uninlined ← ReadProperty 101 (vector_c uint32_c);
  size ← ReadProperty 102 uint32_c;
  mret (mk_Schema columns uninlined size).

Definition schema_c : codec St Schema := object_c Serialize Deserialize.
End serialization.

Definition persisted (s : Schema) : Schema :=
  mk_Schema (Column.persisted <$> columns_ s) (uninlined_columns_ s)
    (tuple_inline_part_storage_size_ s).
Definition valid (s : Schema) : Prop :=
  count_ok (length (columns_ s)) /\ Forall Column.valid (columns_ s) /\
  count_ok (length (uninlined_columns_ s)) /\ Forall (in_u 32) (uninlined_columns_ s) /\
  in_u 32 (tuple_inline_part_storage_size_ s).
End Schema.

(** ** Layout of a schema *)
Definition column_wf (c : Column) : Prop :=
  match column_type_ c with
  | BOOLEAN => length_ c = 1
  | INTEGER => length_ c = 4
  | TIMESTAMP => length_ c = 8
  | VARCHAR => 0 < length_ c < 2 ^ 32
  | _ => False
  end.

(** The inline parts of the columns tile the range from [o] to [e]. *)
Fixpoint laid_out (cols : list Column) (o e : Z) : Prop :=
  match cols with
  | [] => o = e
  | c :: cols => storage_offset_ c = o /\ laid_out cols (o + Schema.inline_size c) e
  end.

Definition inline_total (cols : list Column) : Z :=
  foldr (fun c n => Schema.inline_size c + n) 0 cols.

(** The positions of the [VARCHAR] columns, in order. *)
Fixpoint varlen_indices (cols : list Column) (index : Z) : list Z :=
  match cols with
  | [] => []
  | c :: cols =>
    if Column.IsInlined c then varlen_indices cols (index + 1)
    else index :: varlen_indices cols (index + 1)
  end.

Record schema_wf (s : Schema) : Prop := {
  wf_columns : Forall column_wf (columns_ s);
  wf_layout : laid_out (columns_ s) 0 (tuple_inline_part_storage_size_ s);
  wf_uninlined : uninlined_columns_ s = varlen_indices (columns_ s) 0
}.

Lemma IsInlined_false c : Column.IsInlined c = false <-> column_type_ c = VARCHAR.
Proof.
  unfold Column.IsInlined. rewrite negb_false_iff, bool_decide_eq_true. done.
Qed.

Lemma inline_size_pos c : column_wf c -> 0 < Schema.inline_size c.
Proof.
  unfold column_wf, Schema.inline_size, Column.IsInlined, Column.GetStorageSize.
  case_bool_decide; cbn; [lia|]. destruct (column_type_ c); lia.
Qed.

Lemma inline_total_cons c cols :
  inline_total (c :: cols) = Schema.inline_size c + inline_total cols.
Proof. done. Qed.

Lemma inline_total_nonneg cols : Forall column_wf cols -> 0 <= inline_total cols.
Proof.
  induction 1 as [|c cols Hc _ IH]; [done|]. rewrite inline_total_cons.
  pose proof (inline_size_pos c Hc). lia.
Qed.

Lemma column_wf_length c : column_wf c -> 0 < length_ c.
Proof. unfold column_wf. destruct (column_type_ c); lia. Qed.

Lemma build_ok cols index o : Forall column_wf cols -> 0 <= index -> 0 <= o ->
  index + Z.of_nat (length cols) < 2 ^ 32 -> o + inline_total cols < 2 ^ 32 ->
  exists cols' unin, Schema.build cols index o = Ok (cols', unin, o + inline_total cols) /\
    length cols' = length cols /\
    laid_out cols' o (o + inline_total cols) /\ Forall column_wf cols' /\
    (forall k c', cols' !! k = Some c' -> exists c, cols !! k = Some c /\
       column_name_ c' = column_name_ c /\ column_type_ c' = column_type_ c /\
       length_ c' = length_ c /\ schema_offset_ c' = index + Z.of_nat k) /\
    unin = varlen_indices cols' index.
Proof.
  intros Hwf. revert index o. induction Hwf as [|c cols Hc Hcs IH]; intros index o Hi Ho Hn Hs; cbn [Schema.build].
  - eexists [], []. rewrite Z.add_0_r. split_and!; done.
  - cbn [length] in Hn. rewrite inline_total_cons in *.
    pose proof (inline_size_pos c Hc). pose proof (inline_total_nonneg cols Hcs).
    pose proof (column_wf_length c Hc). unfold assertion.
    destruct (Z.ltb_spec 0 (length_ c)); [cbn|lia].
    rewrite !uwrap_id by width.
    destruct (IH (index + 1) (o + Schema.inline_size c)) as (cols' & unin & -> & Hl & Hlay & Hwf' & Hlk & Hu);
      try lia. cbn.
    eexists _, _. split; [by rewrite Z.add_assoc|]. cbn [length laid_out]. rewrite Hl.
    split_and!; try done; [by rewrite Z.add_assoc|by constructor| |].
    + intros [|k] c' Hk; cbn in Hk |- *.
      * injection Hk as <-. exists c. cbn. by rewrite Z.add_0_r.
      * destruct (Hlk k c' Hk) as (c0 & ? & ? & ? & ? & ?). exists c0. split_and!; try done. lia.
    + by rewrite Hu.
Qed.

Section round_trip.
Context {St : Type} `{ReadStream St}.

Lemma Column_serial c : Column.valid c ->
  serial (Column.Serialize (St:=St) c) Column.Deserialize (Column.persisted c).
Proof.
  intros (Hn & Ht & Hl & Ho). unfold Column.Serialize, Column.Deserialize.
  repeat (eapply serial_bind; [eapply property_ok; [apply _|by split|done]|]).
  eapply serial_map; [eapply property_ok; [apply _|by split|done]|done].
Qed.

(** A codec that returns an image of what was written. *)
Lemma property_image {A} (c : codec St A) (f : A -> A) valid id x :
  (forall x, valid x -> serial_val (WriteValue c x) (Read c) (f x)) -> field_ok id -> valid x ->
  serial (WriteProperty id c x) (ReadProperty id c) (f x).
Proof.
  intros Hc Hid Hx. destruct (Hc x Hx) as (bs & Hw & Hr).
  assert (CodecOk (mk_codec (fun y => WriteValue c x) (Read c)) (fun y => y = f x)) as Hok.
  { intros y ->. by exists bs. }
  exact (property_ok _ _ id (f x) Hok Hid eq_refl).
Qed.

Lemma vector_image {A} (c : codec St A) (f : A -> A) valid l :
  (forall x, valid x -> serial_val (WriteValue c x) (Read c) (f x)) ->
  count_ok (length l) -> Forall valid l ->
  serial_val (WriteValue (vector_c c) l) (Read (vector_c c)) (f <$> l).
Proof.
  intros Hc Hn Hl. apply (counted_ok _ _ (read_items c)); [done|]. clear Hn.
  induction Hl as [|x l Hx Hl IH]; [apply serial_val_ret|].
  eapply serial_val_bind; [by apply Hc|]. by eapply serial_val_map.
Qed.

Lemma Schema_serial s : Schema.valid s ->
  serial (Schema.Serialize (St:=St) s) Schema.Deserialize (Schema.persisted s).
Proof.
  intros (Hc & Hcs & Hu & Hus & Hi). unfold Schema.Serialize, Schema.Deserialize.
  eapply serial_bind.
  { apply (property_image _ (fmap Column.persisted)
      (fun l => count_ok (length l) /\ Forall Column.valid l)); [|by split|by split].
    intros l [Hl Hv]. eapply vector_image; [|done..].
    intros c Hc'. by apply serial_object, Column_serial. }
  eapply serial_bind; [eapply property_ok; [apply _|by split|by split]|].
  eapply serial_map; [eapply property_ok; [apply _|by split|done]|done].
Qed.
End round_trip.

(** ** The constructor builds well-formed schemas *)
Lemma find_col_spec cols name k : 
  match Schema.find_col cols name k with
  | Some i => exists n c, i = (k + n)%nat /\ cols !! n = Some c /\ column_name_ c = name /\
      forall m c', (m < n)%nat -> cols !! m = Some c' -> column_name_ c' <> name
  | None => forall n c, cols !! n = Some c -> column_name_ c <> name
  end.
Proof.
  revert k. induction cols as [|c cols IH]; intros k; cbn.
  { by intros n c Hn. }
  unfold Column.GetName. case_decide as Hd.
  { exists 0%nat, c. split_and!; [lia|done|done|]. intros. lia. }
  specialize (IH (S k)). destruct (Schema.find_col cols name (S k)) as [i|].
  - destruct IH as (n & c' & -> & Hn & Hc & Hm). exists (S n), c'. split_and!; [lia|done|done|].
    intros [|m] c'' Hlt Hm'; cbn in Hm'; [by injection Hm' as <-|].
    apply (Hm m); [lia|done].
  - intros [|n] c' Hn; cbn in Hn; [by injection Hn as <-|]. by apply (IH n).
Qed.

(** ** Properties *)

(** C27: the constructor of [Schema] lays the columns out one behind the other, a
    [VARCHAR] column taking the four bytes of its offset: the result is well formed,
    its inline size is the sum of the parts, and names, types, lengths and positions
    are those of the columns it was built from. *)
Theorem make_schema_wf cols : Forall column_wf cols ->
  Z.of_nat (length cols) < 2 ^ 32 -> inline_total cols < 2 ^ 32 ->
  exists s, Schema.make cols = Ok s /\ schema_wf s /\
    tuple_inline_part_storage_size_ s = inline_total cols /\
    length (columns_ s) = length cols /\
    forall k c', columns_ s !! k = Some c' -> exists c, cols !! k = Some c /\
      column_name_ c' = column_name_ c /\ column_type_ c' = column_type_ c /\
      length_ c' = length_ c /\ schema_offset_ c' = Z.of_nat k.
Proof.
  intros Hwf Hn Hs. destruct (build_ok cols 0 0 Hwf) as (cs & unin & E & Hl & Hlay & Hwf' & Hlk & Hu);
    try lia.
  unfold Schema.make. rewrite E. cbn [mbind res_bind]. rewrite Hl, bool_decide_true by done.
  eexists; split; [done|]. rewrite Z.add_0_l in *. split_and!; done.
Qed.

Lemma make_schema_wf_witness : exists s,
  Schema.make [mk_Column "id" INTEGER 4 0 0 false; mk_Column "s" VARCHAR 9 0 0 false] = Ok s /\
  schema_wf s /\ tuple_inline_part_storage_size_ s = 8.
Proof.
  destruct (make_schema_wf [mk_Column "id" INTEGER 4 0 0 false; mk_Column "s" VARCHAR 9 0 0 false])
    as (s & H1 & H2 & H3 & _).
  - repeat constructor.
  - vm_compute. done.
  - vm_compute. done.
  - exists s. split_and!; [exact H1|exact H2|exact H3].
Defined.

(** A duplicated column name resolves to its first occurrence, and a name that no
    column has is not found. *)
Theorem TryGetColIdx_first s name :
  match Schema.TryGetColIdx s name with
  | Some i => exists c, columns_ s !! i = Some c /\ column_name_ c = name /\
      forall j c', (j < i)%nat -> columns_ s !! j = Some c' -> column_name_ c' <> name
  | None => forall i c, columns_ s !! i = Some c -> column_name_ c <> name
  end.
Proof.
  pose proof (find_col_spec (columns_ s) name 0) as H. unfold Schema.TryGetColIdx.
  destruct (Schema.find_col (columns_ s) name 0) as [i|]; [|done].
  destruct H as (n & c & -> & ?). by exists c.
Qed.

(** C24: a schema written with [BinarySerializer] and read back from any stream that
    starts with those bytes gives the schema again, each column as it is persisted, and
    leaves the stream behind the message; [schema_offset_] and [is_auto_increment_] are
    the two fields that are not persisted. *)
Theorem schema_roundtrip {St} `{ReadStream St} (s : Schema) (st : St) (rest : list byte) :
  Schema.valid s ->
  exists bs, Serialize_root (Schema.Serialize (St:=St)) s = Ok bs /\
    (rs_ok st -> rs_remaining st = bs ++ rest ->
     exists d, DeserializeRaw Schema.Deserialize (new_deserializer st) = (Ok (Schema.persisted s), d) /\
       rs_ok (stream_ d) /\ rs_remaining (stream_ d) = rest).
Proof.
  intros Hv. destruct (Schema_serial (St:=St) s Hv) as (bs & E & Hr).
  exists (bs ++ le_bytes 2 MESSAGE_TERMINATOR_FIELD_ID). unfold Serialize_root. rewrite E.
  split; [done|]. intros Hok Hrem.
  destruct (DeserializeRaw_ok (fun _ => Schema.Serialize (St:=St) s) Schema.Deserialize
    (Schema.persisted s) st (bs ++ le_bytes 2 MESSAGE_TERMINATOR_FIELD_ID) rest)
    as (d & Hd & Hrd & _ & _ & Hrest); [by exists bs| |done|done|by exists d].
  unfold Serialize_root. by rewrite E.
Qed.

Definition small_schema : Schema :=
  mk_Schema [mk_Column "id" INTEGER 4 0 0 true; mk_Column "s" VARCHAR 9 4 1 false] [1] 8.

Lemma schema_roundtrip_witness : exists d bs,
  DeserializeRaw Schema.Deserialize (new_deserializer (FileStream.mk bs 0 false true)) =
    (Ok (Schema.persisted small_schema), d) /\ rs_remaining (stream_ d) = [x00].
Proof.
  destruct (Serialize_root (Schema.Serialize (St:=FileStream.t)) small_schema) as [bs|] eqn:E;
    [|vm_compute in E; discriminate].
  destruct (schema_roundtrip small_schema (FileStream.mk (bs ++ [x00]) 0 false true) [x00])
    as (bs' & E' & Hr).
  - repeat constructor; try done; cbn; try width; vm_compute; done.
  - rewrite E in E'. apply Ok_inj in E' as <-.
    destruct Hr as (d & Hd & _ & Hrest); [split; [done|cbn; lia]|done|].
    exists d, (bs ++ [x00]). split; [exact Hd|exact Hrest].
Defined.
