(* ===== verification/Tuple.v ===== *)
(** * Tuples: [storage/table/tuple.hpp], [storage/table/tuple.cpp] *)
From S2P Require Import Prelude Bytes Streams Serializer Codec CodecFacts Types Value Schema.
Open Scope Z_scope.

Record TupleMeta := mk_TupleMeta { is_deleted_ : bool }.

Record Tuple := mk_Tuple { rid_ : RID; data_ : list byte }.

#[export] Instance TupleMeta_eq_dec : EqDecision TupleMeta.
Proof. solve_decision. Defined.
#[export] Instance Tuple_eq_dec : EqDecision Tuple.
Proof. solve_decision. Defined.

Module Tuple.
(** [Tuple()] *)
Definition dummy : Tuple := mk_Tuple RID_default [].

(** First loop of the constructor: the size of the out-of-line part is added to
    [tuple_size], value by value. *)
Fixpoint add_varlen_sizes (values : list Value) (schema : Schema) (uninlined : list Z)
    (tuple_size : Z) : res Z :=
  match uninlined with
  | [] => Ok tuple_size
  | uninline_col :: uninlined =>
    value ← match values !! Z.to_nat uninline_col with
            | Some v => Ok v | None => Err UndefinedBehaviour end;
    len ← Value.GetStorageSize value;
    col ← Schema.GetColumn schema (Z.to_nat uninline_col);
    if Column.GetStorageSize col <? len then Err Exception
    else add_varlen_sizes values schema uninlined (uwrap 32 (tuple_size + (4 + len)))
  end.

(** Second loop: [data] is the buffer, [offset] where the next out-of-line value goes. *)
Fixpoint fill (columns : list Column) (values : list Value) (data : list byte) (offset : Z) :
    res (list byte) :=
  match columns, values with
  | [], _ => Ok data
  | _ :: _, [] => Err UndefinedBehaviour
  | col :: columns, value :: values =>
    if negb (Column.IsInlined col) then
      data ← mem_write (Z.to_nat (storage_offset_ col)) (le_bytes 4 offset) data;
      bytes ← Value.SerializeTo value;
      data ← mem_write (Z.to_nat offset) bytes data;
      size ← Value.GetStorageSize value;
      fill columns values data (uwrap 32 (offset + (size + 4)))
    else
      bytes ← Value.SerializeTo value;
      data ← mem_write (Z.to_nat (storage_offset_ col)) bytes data;
      fill columns values data offset
  end.

Definition make (values : list Value) (schema : Schema) : res Tuple :=
  _ ← assertion (Z.of_nat (length values) =? Schema.GetColumnCount schema);
  let inline_size := Schema.GetTupleInlinePartStorageSize schema in
  _ ← assertion (0 <? inline_size);
  _ ← assertion (inline_size <? PAGE_SIZE);
  tuple_size ← add_varlen_sizes values schema (Schema.GetUninlinedColumns schema) inline_size;
  data ← fill (Schema.GetColumns schema) values (replicate (Z.to_nat tuple_size) x00) inline_size;
  Ok (mk_Tuple RID_default data).

Definition SetRid (t : Tuple) (rid : RID) : Tuple := mk_Tuple rid (data_ t).
Definition GetStorageSize (t : Tuple) : Z := uwrap 32 (Z.of_nat (length (data_ t))).

(** [GetDataPtr]: the memory from the returned address on. *)
Definition GetDataPtr (t : Tuple) (col : Column) : res (list byte) :=
  if Column.IsInlined col then
    _ ← assertion (Column.GetStorageOffset col <? Z.of_nat (length (data_ t)));
    Ok (drop (Z.to_nat (Column.GetStorageOffset col)) (data_ t))
  else
    bs ← mem_read (Z.to_nat (Column.GetStorageOffset col)) 4 (data_ t);
    let offset := le_s 4 bs in
    if (0 <=? offset) && (offset <=? Z.of_nat (length (data_ t)))
    then Ok (drop (Z.to_nat offset) (data_ t)) else Err UndefinedBehaviour.

Definition GetValue_col (t : Tuple) (col : Column) : res Value :=
  data_ptr ← GetDataPtr t col;
  Value.DeserializeFrom data_ptr (Column.GetType col).
Definition GetValue (t : Tuple) (schema : Schema) (column_idx : nat) : res Value :=
  col ← Schema.GetColumn schema column_idx;
  GetValue_col t col.

Fixpoint to_strings (t : Tuple) (columns : list Column) : res (list string) :=
  match columns with
  | [] => Ok []
  | col :: columns =>
    val ← GetValue_col t col;
    s ← Value.ToString val;
    rest ← to_strings t columns;
    Ok (s :: rest)
  end.
Fixpoint join (sep : string) (l : list string) : string :=
  match l with
  | [] => ""
  | [s] => s
  | s :: l => s +:+ sep +:+ join sep l
  end%string.
Definition ToString (t : Tuple) (schema : Schema) : res string :=
  values ← to_strings t (columns_ schema);
  Ok ("(" +:+ join ", " values +:+ ")")%string.

(** Copies into and out of a page: the bytes stored from [storage] on, and the copy
    of [size] bytes into the tuple's own buffer. *)
Definition SerializeTo (t : Tuple) : list byte := data_ t.
Definition DeserializeFrom (t : Tuple) (storage : list byte) (size : Z) : res Tuple :=
  bs ← mem_read 0 (Z.to_nat size) storage;
  data ← mem_write 0 bs (data_ t);
  Ok (mk_Tuple (rid_ t) data).
End Tuple.

(** ** Rows that fit a schema *)
Definition fits (c : Column) (v : Value) : Prop :=
  Value.well_typed v /\ type_id_ v = column_type_ c /\
  (column_type_ c = VARCHAR ->
   forall n, Value.GetStorageSize v = Ok n -> n <= length_ c).

(** Bytes a value takes behind the inline part. *)
Definition varlen_size (v : Value) : Z :=
  match value_ v with
  | VString s => if decide (type_id_ v = VARCHAR) then 4 + Z.of_nat (String.length s) else 0
  | _ => 0
  end.
Definition varlen_total (values : list Value) : Z :=
  foldr (fun v n => varlen_size v + n) 0 values.

Lemma varlen_total_cons v values : varlen_total (v :: values) = varlen_size v + varlen_total values.
Proof. done. Qed.

Lemma varlen_size_nonneg v : 0 <= varlen_size v.
Proof. unfold varlen_size. destruct (value_ v); try lia. case_decide; lia. Qed.

Lemma varlen_total_nonneg values : 0 <= varlen_total values.
Proof.
  induction values as [|v values IH]; [done|]. rewrite varlen_total_cons.
  pose proof (varlen_size_nonneg v). lia.
Qed.

(** The two ways a well-typed value is stored. *)
Lemma fits_inlined c v : column_wf c -> fits c v -> Column.IsInlined c = true ->
  exists bs, Value.SerializeTo v = Ok bs /\ Z.of_nat (length bs) = Schema.inline_size c /\
    varlen_size v = 0.
Proof.
  intros Hc ([Hw Hn] & Ht & _) Hi. unfold Schema.inline_size. rewrite Hi.
  assert (column_type_ c <> VARCHAR) as Hv.
  { intros E%IsInlined_false. congruence. }
  destruct v as [t v nl]; cbn in *; subst. unfold Value.SerializeTo, column_wf, varlen_size,
    Column.GetStorageSize in *; cbn [type_id_ value_].
  destruct (column_type_ c), v; try done; (eexists; split; [reflexivity|]);
    rewrite length_le_bytes; split; done || lia.
Qed.

Lemma fits_varlen c v : fits c v -> Column.IsInlined c = false ->
  exists s, v = mk_Value VARCHAR (VString s) false /\ string_valid s /\
    Z.of_nat (String.length s) <= length_ c /\
    Value.GetStorageSize v = Ok (Z.of_nat (String.length s)) /\
    Value.SerializeTo v =
      Ok (le_bytes 4 (Z.of_nat (String.length s)) ++ String.list_byte_of_string s) /\
    varlen_size v = 4 + Z.of_nat (String.length s).
Proof.
  intros ([Hw Hn] & Ht & Hl) Hi%IsInlined_false. rewrite Hi in *. specialize (Hl eq_refl).
  destruct v as [t v nl]; cbn in *; subst. destruct v as [| | |s]; try done. exists s.
  unfold Value.GetStorageSize, Value.GetVarlenStorageSize, Value.SerializeTo, varlen_size in *;
    cbn [type_id_ value_ get_string mbind res_bind Type_.TypeSize] in *.
  rewrite decide_True in * by done. cbn [mbind res_bind Type_.TypeSize] in *.
  cbn in Hw. pose proof Hw as Hs. unfold string_valid in Hs.
  rewrite length_list_byte_of_string. rewrite uwrap_id in * by width.
  rewrite Nat2Z.id, take_ge by (by rewrite length_list_byte_of_string).
  split_and!; try done. by apply Hl.
Qed.

Lemma laid_out_le cols o e : Forall column_wf cols -> laid_out cols o e -> o <= e.
Proof.
  intros Hwf. revert o. induction Hwf as [|c cols Hc _ IH]; intros o; cbn; [lia|].
  intros [_ H]. pose proof (inline_size_pos c Hc). specialize (IH _ H). lia.
Qed.

(** [c] holds the bytes of [v] in the buffer [D]. *)
Definition cell (D : list byte) (c : Column) (v : Value) : Prop :=
  exists p bs, Value.SerializeTo v = Ok bs /\ 0 <= p /\ 0 <= storage_offset_ c /\
    p + Z.of_nat (length bs) <= Z.of_nat (length D) /\
    rd (Z.to_nat p) (length bs) D = bs /\
    if Column.IsInlined c then storage_offset_ c = p
    else storage_offset_ c + 4 <= Z.of_nat (length D) /\
         rd (Z.to_nat (storage_offset_ c)) 4 D = le_bytes 4 p.

Definition same_range (D D' : list byte) (o e v : Z) : Prop :=
  length D' = length D /\
  forall a n, (Z.of_nat (a + n) <= o \/ (e <= Z.of_nat a /\ Z.of_nat (a + n) <= v)) ->
    rd a n D' = rd a n D.

Section fill.
Variable e : Z.

(** One step of the loop for a fixed-length column. *)
Lemma fill_inlined c v D o off : column_wf c -> fits c v -> Column.IsInlined c = true ->
  storage_offset_ c = o -> 0 <= o -> o + Schema.inline_size c <= e -> e <= off ->
  off <= Z.of_nat (length D) ->
  exists bs D1, Value.SerializeTo v = Ok bs /\ Z.of_nat (length bs) = Schema.inline_size c /\
    mem_write (Z.to_nat (storage_offset_ c)) bs D = Ok D1 /\
    same_range D D1 o e off /\ rd (Z.to_nat o) (length bs) D1 = bs.
Proof.
  intros Hc Hf Hi Hso Ho Hoe Heo Hlen.
  destruct (fits_inlined c v Hc Hf Hi) as (bs & Hbs & Hl & _).
  exists bs, (wr (Z.to_nat o) bs D). rewrite Hso, mem_write_ok by lia.
  split_and!; try done; [|by apply rd_wr_eq; lia].
  split; [by apply length_wr; lia|]. intros a n Ha. apply rd_wr_ne; lia.
Qed.

(** One step of the loop for a [VARCHAR] column. *)
Lemma fill_varlen (s : string) D o off : let bs := le_bytes 4 (Z.of_nat (String.length s)) ++
      String.list_byte_of_string s in
  0 <= o -> o + 4 <= e -> e <= off -> off + Z.of_nat (length bs) <= Z.of_nat (length D) ->
  exists D1 D2, mem_write (Z.to_nat o) (le_bytes 4 off) D = Ok D1 /\
    mem_write (Z.to_nat off) bs D1 = Ok D2 /\
    same_range D D2 o e off /\
    rd (Z.to_nat o) 4 D2 = le_bytes 4 off /\ rd (Z.to_nat off) (length bs) D2 = bs.
Proof.
  intros bs Ho Hoe Heo Hlen.
  assert (length (le_bytes 4 off) = 4%nat) as H4 by apply length_le_bytes.
  exists (wr (Z.to_nat o) (le_bytes 4 off) D).
  exists (wr (Z.to_nat off) bs (wr (Z.to_nat o) (le_bytes 4 off) D)).
  rewrite !mem_write_ok by (rewrite ?length_wr by lia; lia).
  split_and!; try done.
  - split; [by rewrite !length_wr by (rewrite ?length_wr by lia; lia)|].
    intros a n Ha. rewrite !rd_wr_ne by (rewrite ?length_wr by lia; lia). done.
  - rewrite rd_wr_ne by (rewrite ?length_wr by lia; lia).
    rewrite <- H4 at 1. apply rd_wr_eq. lia.
  - apply rd_wr_eq. rewrite length_wr by lia. lia.
Qed.

End fill.

(** The loop succeeds, stays inside its two ranges, and stores every value. *)
Lemma fill_spec cols values D o e off : Forall column_wf cols -> Forall2 fits cols values ->
  laid_out cols o e -> 0 <= o -> e <= off -> off + varlen_total values <= Z.of_nat (length D) ->
  Z.of_nat (length D) < 2 ^ 31 ->
  exists D', Tuple.fill cols values D off = Ok D' /\ same_range D D' o e off /\
    forall i c v, cols !! i = Some c -> values !! i = Some v -> cell D' c v.
Proof.
  intros Hwf. revert values D o off. induction Hwf as [|c cols Hc Hcs IH];
    intros values D o off Hf Hlay Ho Heo Hlen HD; inversion Hf as [|? v ? vs Hfv Hfs]; subst.
  { exists D. split_and!; done. }
  destruct Hlay as [Hso Hlay]. pose proof (laid_out_le _ _ _ Hcs Hlay).
  pose proof (inline_size_pos c Hc). pose proof (varlen_total_nonneg vs).
  rewrite varlen_total_cons in Hlen. cbn [Tuple.fill].
  destruct (Column.IsInlined c) eqn:Hi; cbn [negb].
  - destruct (fits_inlined c v Hc Hfv Hi) as (_ & _ & _ & Hv0).
    destruct (fill_inlined e c v D o off) as (bs & D1 & Hbs & Hl & Hw & [Hl1 Hs1] & Hrd);
      try done; try lia.
    rewrite Hbs. cbn [mbind res_bind]. rewrite Hw. cbn [mbind res_bind].
    destruct (IH vs D1 (o + Schema.inline_size c) off) as (D' & HD' & [Hl' Hs'] & Hcell);
      try done; try lia.
    exists D'. split_and!; [done| |].
    { split; [lia|]. intros a n Ha. rewrite Hs', Hs1; [done|lia..]. }
    intros [|i] c' v' Hc' Hv'; [|by apply (Hcell i)]. injection Hc' as <-. injection Hv' as <-.
    exists o, bs. rewrite Hi. split_and!; try done; try lia. rewrite <- Hrd at 2. apply Hs'. lia.
  - destruct (fits_varlen c v Hfv Hi) as (s & Ev & Hsv & Hsl & Hgs & Hbs & Hvs).
    rewrite Hvs in Hlen. assert (Schema.inline_size c = 4) as H4.
    { unfold Schema.inline_size. by rewrite Hi. }
    assert (Z.of_nat (length (le_bytes 4 (Z.of_nat (String.length s)) ++
      String.list_byte_of_string s)) = 4 + Z.of_nat (String.length s)) as Hlb.
    { rewrite length_app, length_le_bytes, length_list_byte_of_string. lia. }
    destruct (fill_varlen e s D o off) as (D1 & D2 & Hw1 & Hw2 & [Hl2 Hs2] & Hr1 & Hr2);
      try lia.
    rewrite Hso, Hbs, Hw1, Hgs. cbn [mbind res_bind]. rewrite Hw2. cbn [mbind res_bind].
    rewrite uwrap_id by width.
    destruct (IH vs D2 (o + Schema.inline_size c) (off + (Z.of_nat (String.length s) + 4)))
      as (D' & HD' & [Hl' Hs'] & Hcell); try done; try lia.
    exists D'. split_and!; [done| |].
    { split; [lia|]. intros a n Ha. rewrite Hs', Hs2; [done|lia..]. }
    intros [|i] c' v' Hc' Hv'; [|by apply (Hcell i)]. injection Hc' as <-. injection Hv' as <-.
    exists off, (le_bytes 4 (Z.of_nat (String.length s)) ++ String.list_byte_of_string s).
    rewrite Hi. split_and!; try done; try lia.
    + rewrite <- Hr2 at 2. apply Hs'. lia.
    + rewrite Hso, <- Hr1. apply Hs'. lia.
Qed.

(** The first loop computes the size of the second loop's range. *)
Lemma add_varlen_ok s cols values pre prev k size :
  columns_ s = pre ++ cols -> length pre = k -> length prev = k ->
  Forall column_wf cols -> Forall2 fits cols values -> 0 <= size ->
  size + varlen_total values < 2 ^ 32 ->
  Tuple.add_varlen_sizes (prev ++ values) s (varlen_indices cols (Z.of_nat k)) size =
    Ok (size + varlen_total values).
Proof.
  intros Hs Hk Hk' Hwf Hf. revert pre prev k size Hs Hk Hk'.
  induction Hf as [|c v cols vs Hfv Hf IH]; intros pre prev k size Hs Hk Hk' H0 Hb.
  { cbn. f_equal. cbn in *. lia. }
  inversion Hwf as [|? ? Hc Hcs]; subst. rewrite varlen_total_cons in *.
  pose proof (varlen_total_nonneg vs). pose proof (varlen_size_nonneg v).
  assert (forall sz, 0 <= sz -> sz + varlen_total vs < 2 ^ 32 ->
    Tuple.add_varlen_sizes (prev ++ v :: vs) s (varlen_indices cols (Z.of_nat (length pre) + 1)) sz =
      Ok (sz + varlen_total vs)) as Hrest.
  { intros sz Hz Hzb. replace (Z.of_nat (length pre) + 1) with (Z.of_nat (S (length pre))) by lia.
    rewrite cons_middle, app_assoc.
    eapply (IH Hcs (pre ++ [c]) (prev ++ [v])); rewrite ?length_app; cbn [length]; try done; try lia.
    by rewrite Hs, <- app_assoc. }
  cbn [varlen_indices]. destruct (Column.IsInlined c) eqn:Hi.
  - destruct (fits_inlined c v Hc Hfv Hi) as (_ & _ & _ & Hv0). rewrite Hrest by lia.
    f_equal. lia.
  - destruct (fits_varlen c v Hfv Hi) as (str & Ev & Hsv & Hsl & Hgs & Hbs & Hvs).
    cbn [Tuple.add_varlen_sizes]. rewrite Nat2Z.id, <- Hk', list_lookup_middle by done.
    cbn [mbind res_bind]. rewrite Hgs. cbn [mbind res_bind]. unfold Schema.GetColumn.
    rewrite Hs, Hk', list_lookup_middle by done. cbn [mbind res_bind].
    unfold Column.GetStorageSize. destruct (Z.ltb_spec (length_ c) (Z.of_nat (String.length str))); [lia|].
    rewrite uwrap_id, Hrest by width. f_equal. lia.
Qed.

Lemma laid_out_length cols o e : Forall column_wf cols -> laid_out cols o e ->
  o + Z.of_nat (length cols) <= e.
Proof.
  intros Hwf. revert o. induction Hwf as [|c cols Hc _ IH]; intros o; cbn [length laid_out]; [lia|].
  intros [_ H]. pose proof (inline_size_pos c Hc). specialize (IH _ H). lia.
Qed.

(** A column's cell, read back through the schema. *)
Lemma GetValue_cell rid D c v : column_wf c -> fits c v -> Z.of_nat (length D) < 2 ^ 31 ->
  cell D c v -> Tuple.GetValue_col (mk_Tuple rid D) c = stored v.
Proof.
  intros Hc Hf HD (p & bs & Hbs & Hp & Hso & Hlen & Hrd & Hi).
  assert (drop (Z.to_nat p) D = bs ++ drop (length bs) (drop (Z.to_nat p) D)) as Hdrop.
  { rewrite <- Hrd at 1. unfold rd. by rewrite take_drop. }
  unfold Tuple.GetValue_col, Tuple.GetDataPtr, Column.GetStorageOffset, Column.GetType.
  destruct (Column.IsInlined c) eqn:Hin; cbn [data_].
  - destruct (fits_inlined c v Hc Hf Hin) as (bs' & Hbs' & Hl & _).
    rewrite Hbs in Hbs'. apply Ok_inj in Hbs' as <-. pose proof (inline_size_pos c Hc).
    rewrite Hi. unfold assertion. destruct (Z.ltb_spec p (Z.of_nat (length D))); [|lia].
    cbn [mbind res_bind]. destruct Hf as (Hw & <- & _). rewrite Hdrop.
    by apply DeserializeFrom_stored.
  - destruct Hi as [Hso4 Hoff].
    rewrite mem_read_ok, Hoff by lia. cbn [mbind res_bind].
    rewrite le_s_bytes by (done || width).
    destruct (Z.leb_spec 0 p), (Z.leb_spec p (Z.of_nat (length D))); [cbn [andb]|lia..].
    cbn [mbind res_bind]. destruct Hf as (Hw & <- & _). rewrite Hdrop.
    by apply DeserializeFrom_stored.
Qed.

Lemma make_spec s values : schema_wf s -> Forall2 fits (columns_ s) values ->
  0 < tuple_inline_part_storage_size_ s < PAGE_SIZE ->
  tuple_inline_part_storage_size_ s + varlen_total values < 2 ^ 31 ->
  exists D, Tuple.make values s = Ok (mk_Tuple RID_default D) /\
    Z.of_nat (length D) = tuple_inline_part_storage_size_ s + varlen_total values /\
    forall i c v, columns_ s !! i = Some c -> values !! i = Some v -> cell D c v.
Proof.
  intros [Hwf Hlay Hun] Hf He Hb. pose proof (varlen_total_nonneg values).
  pose proof (laid_out_length _ _ _ Hwf Hlay). pose proof (Forall2_length _ _ _ Hf) as Hlen.
  unfold Tuple.make, Schema.GetColumnCount, Schema.GetTupleInlinePartStorageSize,
    Schema.GetUninlinedColumns, Schema.GetColumns, assertion.
  rewrite uwrap_id, Hlen, Z.eqb_refl by (unfold PAGE_SIZE in *; width).
  destruct (Z.ltb_spec 0 (tuple_inline_part_storage_size_ s)); [|lia].
  destruct (Z.ltb_spec (tuple_inline_part_storage_size_ s) PAGE_SIZE); [|lia].
  cbn [mbind res_bind]. rewrite Hun.
  rewrite (add_varlen_ok s (columns_ s) values [] [] 0) by (done || width).
  cbn [mbind res_bind].
  destruct (fill_spec (columns_ s) values
    (replicate (Z.to_nat (tuple_inline_part_storage_size_ s + varlen_total values)) x00) 0
    (tuple_inline_part_storage_size_ s) (tuple_inline_part_storage_size_ s))
    as (D & -> & [Hl _] & Hcell); rewrite ?length_replicate; try done; try width.
  exists D. cbn [mbind res_bind]. rewrite Hl, length_replicate. split_and!; [done|lia|done].
Qed.

(** The bytes of a row read back as the values, under any record id. *)
Lemma make_row s values : schema_wf s -> Forall2 fits (columns_ s) values ->
  0 < tuple_inline_part_storage_size_ s < PAGE_SIZE ->
  tuple_inline_part_storage_size_ s + varlen_total values < 2 ^ 31 ->
  exists D, Tuple.make values s = Ok (mk_Tuple RID_default D) /\
    Z.of_nat (length D) = tuple_inline_part_storage_size_ s + varlen_total values /\
    forall rid i v, values !! i = Some v -> Tuple.GetValue (mk_Tuple rid D) s i = stored v.
Proof.
  intros Hs Hf He Hb. destruct (make_spec s values Hs Hf He Hb) as (D & HD & Hl & Hc).
  exists D. split_and!; [done..|]. intros rid i v Hv.
  destruct (Forall2_lookup_r _ _ _ _ _ Hf Hv) as (c & Hci & Hfc).
  unfold Tuple.GetValue, Schema.GetColumn. rewrite Hci. cbn [mbind res_bind].
  apply GetValue_cell; try done; [|lia|by apply (Hc i)].
  destruct Hs as [Hwf _ _]. by eapply Forall_lookup_1.
Qed.

(** A [VARCHAR] that is longer than its column is refused, whatever the other values are. *)
Definition too_long (s : Schema) (values : list Value) (i : nat) : Prop :=
  exists c v n, columns_ s !! i = Some c /\ column_type_ c = VARCHAR /\ values !! i = Some v /\
    Value.GetStorageSize v = Ok n /\ length_ c < n.

Lemma varlen_indices_elem cols k (z : Z) : z ∈ varlen_indices cols k <->
  exists i c, z = k + Z.of_nat i /\ cols !! i = Some c /\ column_type_ c = VARCHAR.
Proof.
  revert k. induction cols as [|c cols IH]; intros k; cbn [varlen_indices].
  { split; [by intros ?%elem_of_nil|]. by intros (? & ? & _ & ? & _). }
  transitivity ((z = k /\ column_type_ c = VARCHAR) \/
    exists i c, z = (k + 1) + Z.of_nat i /\ cols !! i = Some c /\ column_type_ c = VARCHAR).
  - destruct (Column.IsInlined c) eqn:Hi; rewrite ?elem_of_cons, IH.
    + split; [by right|]. intros [[_ ?%IsInlined_false]|?]; [congruence|done].
    + apply IsInlined_false in Hi. naive_solver.
  - split.
    + intros [[-> ?]|(i & c' & -> & ? & ?)]; [exists 0%nat, c|exists (S i), c'];
        split_and!; (done || lia).
    + intros ([|i] & c' & -> & Hc & ?); cbn in Hc; [left|right; exists i, c'; split_and!; (done || lia)].
      injection Hc as ->. split; [lia|done].
Qed.

Lemma add_varlen_too_long s values l size i :
  (forall j, j ∈ l -> exists v n c, values !! Z.to_nat j = Some v /\ Value.GetStorageSize v = Ok n /\
     columns_ s !! Z.to_nat j = Some c) ->
  Z.of_nat i ∈ l -> too_long s values i ->
  Tuple.add_varlen_sizes values s l size = Err Exception.
Proof.
  intros Hall Hin Hlong. revert size.
  induction l as [|j l IH]; intros size; [by apply elem_of_nil in Hin|].
  destruct (Hall j (list_elem_of_here j l)) as (v & n & c & Hv & Hn & Hc). cbn [Tuple.add_varlen_sizes].
  rewrite Hv. cbn [mbind res_bind]. rewrite Hn. cbn [mbind res_bind]. unfold Schema.GetColumn.
  rewrite Hc. cbn [mbind res_bind]. unfold Column.GetStorageSize.
  destruct (Z.ltb_spec (length_ c) n); [done|].
  apply elem_of_cons in Hin as [<-|Hin].
  - destruct Hlong as (c' & v' & n' & Hc' & _ & Hv' & Hn' & Hlt). rewrite Nat2Z.id in *.
    rewrite Hc in Hc'. rewrite Hv in Hv'. injection Hc' as <-. injection Hv' as <-.
    rewrite Hn in Hn'. apply Ok_inj in Hn'. lia.
  - apply IH; [|done]. intros j' Hj'. apply Hall. by right.
Qed.

(** ** Properties *)

(** C23: building a tuple from values that fit the schema succeeds, its size is the
    inline part plus the out-of-line bytes of the strings, and reading column [i]
    back gives the value that was put there (as storage keeps it), for all columns. *)
Theorem make_GetValue s values : schema_wf s -> Forall2 fits (columns_ s) values ->
  0 < tuple_inline_part_storage_size_ s < PAGE_SIZE ->
  tuple_inline_part_storage_size_ s + varlen_total values < 2 ^ 31 ->
  exists t, Tuple.make values s = Ok t /\
    Tuple.GetStorageSize t = tuple_inline_part_storage_size_ s + varlen_total values /\
    forall i v, values !! i = Some v -> Tuple.GetValue t s i = stored v.
Proof.
  intros Hs Hf He Hb. destruct (make_row s values Hs Hf He Hb) as (D & HD & Hl & Hv).
  pose proof (varlen_total_nonneg values).
  exists (mk_Tuple RID_default D). split_and!; [done| |apply Hv].
  unfold Tuple.GetStorageSize. cbn. rewrite Hl. apply uwrap_id. width.
Qed.

(** A string longer than its [VARCHAR] column makes the constructor throw. *)
Theorem make_too_long s values i : schema_wf s ->
  0 < tuple_inline_part_storage_size_ s < PAGE_SIZE ->
  Forall2 (fun c v => Value.well_typed v /\ type_id_ v = column_type_ c) (columns_ s) values ->
  too_long s values i -> Tuple.make values s = Err Exception.
Proof.
  intros [Hwf Hlay Hun] He Hf Hlong. pose proof (laid_out_length _ _ _ Hwf Hlay).
  unfold Tuple.make, Schema.GetColumnCount, Schema.GetTupleInlinePartStorageSize,
    Schema.GetUninlinedColumns, assertion.
  rewrite <- (Forall2_length _ _ _ Hf), uwrap_id, Z.eqb_refl by (unfold PAGE_SIZE in *; width).
  destruct (Z.ltb_spec 0 (tuple_inline_part_storage_size_ s)); [|lia].
  destruct (Z.ltb_spec (tuple_inline_part_storage_size_ s) PAGE_SIZE); [|lia].
  cbn [mbind res_bind]. rewrite Hun.
  rewrite (add_varlen_too_long s values _ _ i); [done| | |done].
  - intros j (k & c & -> & Hc & Ht)%varlen_indices_elem. rewrite Z.add_0_l, Nat2Z.id.
    destruct (Forall2_lookup_l _ _ _ _ _ Hf Hc) as (v & Hv & [Hw _] & Hvt).
    destruct v as [t v nl]; cbn in *; subst t. rewrite Ht in Hw. destruct v; try done.
    eexists _, _, c. split_and!; [done| |done]. by rewrite Ht.
  - apply varlen_indices_elem. destruct Hlong as (c & v & n & Hc & Ht & _).
    exists i, c. by rewrite Z.add_0_l.
Qed.

(** A table with an integer key, a name of at most ten characters and a time stamp. *)
Definition demo_columns : list Column :=
  [ mk_Column "id" INTEGER 4 0 0 false; mk_Column "name" VARCHAR 10 4 1 false;
    mk_Column "at" TIMESTAMP 8 8 2 false ].
Definition demo_schema : Schema := mk_Schema demo_columns [1] 16.
Definition demo_values (name : string) : list Value :=
  [ mk_Value INTEGER (VInt32 (-7)) false; mk_Value VARCHAR (VString name) false;
    mk_Value TIMESTAMP (VUint64 99) false ].

Lemma demo_schema_wf : schema_wf demo_schema.
Proof. split; [repeat constructor|by cbn|done]. Qed.

Lemma make_GetValue_witness : exists t, Tuple.make (demo_values "gavin") demo_schema = Ok t /\
  Tuple.GetStorageSize t = 16 + 9 /\
  Tuple.GetValue t demo_schema 1 = Ok (mk_Value VARCHAR (VString "gavin") false).
Proof.
  destruct (make_GetValue demo_schema (demo_values "gavin")) as (t & Ht & Hs & Hv).
  - exact demo_schema_wf.
  - repeat constructor; cbn; try width; intros; try discriminate; congruence || idtac.
    all: match goal with H : _ = Ok _ |- _ => vm_compute in H; injection H as <- end; lia.
  - cbn. unfold PAGE_SIZE. lia.
  - vm_compute. done.
  - exists t. split_and!; [exact Ht|exact Hs|exact (Hv 1%nat _ eq_refl)].
Defined.

Lemma make_too_long_witness :
  Tuple.make (demo_values "a name of twenty chars") demo_schema = Err Exception.
Proof.
  apply (make_too_long _ _ 1).
  - exact demo_schema_wf.
  - cbn. unfold PAGE_SIZE. lia.
  - repeat constructor; cbn; width.
  - eexists _, _, _. split_and!; [done|done|done|by vm_compute|cbn; lia].
Defined.
