(* ===== verification/Expressions.v ===== *)
(** * Expressions: [query/expressions/*.hpp]

    The class hierarchy is an inductive type; a virtual function is a match on it. *)
From S2P Require Import Prelude Bytes Types Value Schema Tuple.
From stdpp Require Import pretty.
Open Scope Z_scope.

Inductive TuplePosition : Type := LEFT | RIGHT | TUPLE_INVALID.

Inductive AbstractExpression : Type :=
| ConstantValueExpression (val_ : Value)
| ColumnValueExpression (tuple_pos_ : TuplePosition) (col_idx_ : Z) (ret_type_ : TypeId)
| ArithmeticExpression (left right : AbstractExpression) (compute_type_ : ArithmeticType).

Module AbstractExpression.
Definition GetReturnType (e : AbstractExpression) : TypeId :=
  match e with
  | ConstantValueExpression val_ => Value.GetTypeId val_
  | ColumnValueExpression _ _ ret_type_ => ret_type_
  | ArithmeticExpression _ _ _ => INTEGER
  end.

(** The constructor of [ArithmeticExpression] refuses operands of other types. *)
Definition make_arithmetic (left right : AbstractExpression) (compute_type : ArithmeticType) : res AbstractExpression :=
  if bool_decide (GetReturnType left = INTEGER) && bool_decide (GetReturnType right = INTEGER)
  then Ok (ArithmeticExpression left right compute_type) else Err NotImplementedException.

Definition PerformComputation (compute_type_ : ArithmeticType) (lhs rhs : Value) : res Value :=
  if Value.IsNull lhs || Value.IsNull rhs then Ok lhs else Value.ComputeArithmetic lhs rhs compute_type_.

Fixpoint Evaluate (e : AbstractExpression) (tuple : Tuple) (schema : Schema) : res Value :=
  match e with
  | ConstantValueExpression val_ => Ok val_
  | ColumnValueExpression _ col_idx_ _ => Tuple.GetValue tuple schema (Z.to_nat col_idx_)
  | ArithmeticExpression l r op =>
    lhs ← Evaluate l tuple schema;
    rhs ← Evaluate r tuple schema;
    PerformComputation op lhs rhs
  end.

Fixpoint EvaluateJoin (e : AbstractExpression) (left_tuple : Tuple) (left_schema : Schema)
    (right_tuple : Tuple) (right_schema : Schema) : res Value :=
  match e with
  | ConstantValueExpression val_ => Ok val_
  | ColumnValueExpression LEFT col_idx_ _ => Tuple.GetValue left_tuple left_schema (Z.to_nat col_idx_)
  | ColumnValueExpression _ col_idx_ _ => Tuple.GetValue right_tuple right_schema (Z.to_nat col_idx_)
  | ArithmeticExpression l r op =>
    lhs ← EvaluateJoin l left_tuple left_schema right_tuple right_schema;
    rhs ← EvaluateJoin r left_tuple left_schema right_tuple right_schema;
    PerformComputation op lhs rhs
  end.

Definition GetConstValue (e : AbstractExpression) : res Value :=
  match e with ConstantValueExpression val_ => Ok val_ | _ => Err RuntimeException end.

Fixpoint ToString (e : AbstractExpression) : res string :=
  match e with
  | ConstantValueExpression val_ => Value.ToString val_
  | ColumnValueExpression _ col_idx_ _ => Ok ("#" +:+ pretty col_idx_)%string
  | ArithmeticExpression l r op =>
    lhs ← ToString l;
    rhs ← ToString r;
    Ok (lhs +:+ " " +:+ ArithmeticType_ToString op +:+ " " +:+ rhs)%string
  end.
End AbstractExpression.

(** ** Typing

    [typed s e]: the expression could be built, and every column it names is a column of
    schema [s] with the type the expression was given. *)
Fixpoint typed (s : Schema) (e : AbstractExpression) : Prop :=
  match e with
  | ConstantValueExpression v => Value.well_typed v
  | ColumnValueExpression _ i t => 0 <= i /\ exists c, columns_ s !! Z.to_nat i = Some c /\ column_type_ c = t
  | ArithmeticExpression l r op => typed s l /\ typed s r /\
      AbstractExpression.make_arithmetic l r op = Ok (ArithmeticExpression l r op)
  end.

(** What the expression denotes: [read] gives the columns' integers. *)
Fixpoint denotes (read : Z -> option Z) (e : AbstractExpression) : option Z :=
  match e with
  | ConstantValueExpression (mk_Value _ (VInt32 z) _) => Some z
  | ConstantValueExpression _ => None
  | ColumnValueExpression _ i _ => read i
  | ArithmeticExpression l r op =>
    match denotes read l, denotes read r with
    | Some a, Some b => if decide (in_s 32 (Value.arith op a b)) then Some (Value.arith op a b) else None
    | _, _ => None
    end
  end.

(** The integer in a column of the row [values]. *)
Definition int_of (values : list Value) (i : Z) : option Z :=
  match values !! Z.to_nat i with Some (mk_Value INTEGER (VInt32 z) _) => Some z | _ => None end.

(** What the interpreter returns: the integer, or the overflow of [int32_t]. *)
Definition int_result (o : option Z) : res Value :=
  match o with Some z => Ok (mk_Value INTEGER (VInt32 z) false) | None => Err UndefinedBehaviour end.

Section evaluation.
Context (s : Schema) (values : list Value) (D : list Byte.byte) (rid : RID).
Hypothesis row_fits : Forall2 fits (columns_ s) values.
Hypothesis row_reads : forall i v, values !! i = Some v -> Tuple.GetValue (mk_Tuple rid D) s i = stored v.
#[local] Set Default Proof Using "Type*".

Lemma int_value v : Value.well_typed v -> type_id_ v = INTEGER ->
  exists z, v = mk_Value INTEGER (VInt32 z) false /\ in_s 32 z.
Proof. destruct v as [t v nl]. intros [Hw Hn] Ht. cbn in *. subst. destruct v; try done. eauto. Qed.

Lemma column_int i t : typed s (ColumnValueExpression LEFT i t) -> t = INTEGER ->
  exists z, int_of values i = Some z /\ in_s 32 z /\
    Tuple.GetValue (mk_Tuple rid D) s (Z.to_nat i) = Ok (mk_Value INTEGER (VInt32 z) false).
Proof.
  intros (Hi & c & Hc & Ht) ->. destruct (Forall2_lookup_l _ _ _ _ _ row_fits Hc) as (v & Hv & Hw & Hvt & _).
  destruct (int_value v Hw) as (z & -> & Hz); [congruence|]. exists z. unfold int_of. rewrite Hv.
  split_and!; [done|done|]. by rewrite (row_reads _ _ Hv).
Qed.

Lemma arith_result op a b : in_s 32 a -> in_s 32 b ->
  AbstractExpression.PerformComputation op (mk_Value INTEGER (VInt32 a) false) (mk_Value INTEGER (VInt32 b) false) =
  int_result (if decide (in_s 32 (Value.arith op a b)) then Some (Value.arith op a b) else None).
Proof. intros Ha Hb. cbn. unfold Value.arith_int32. cbn. by case_decide. Qed.

Lemma Evaluate_int e : typed s e -> AbstractExpression.GetReturnType e = INTEGER ->
  AbstractExpression.Evaluate e (mk_Tuple rid D) s = int_result (denotes (int_of values) e) /\
  forall z, denotes (int_of values) e = Some z -> in_s 32 z.
Proof.
  induction e as [v|pos i t|l IHl r IHr op]; intros Ht Hty.
  - destruct (int_value v Ht Hty) as (z & -> & Hz). split; [done|]. by intros z' [= <-].
  - cbn in Hty. destruct (column_int i t Ht Hty) as (z & E & Hz & Hget). cbn. rewrite E, Hget. split; [done|]. by intros z' [= <-].
  - destruct Ht as (Hl & Hr & Hmk). unfold AbstractExpression.make_arithmetic in Hmk.
    destruct (bool_decide (AbstractExpression.GetReturnType l = INTEGER)) eqn:El; [|done].
    destruct (bool_decide (AbstractExpression.GetReturnType r = INTEGER)) eqn:Er; [|done].
    apply bool_decide_eq_true in El, Er. destruct (IHl Hl El) as [E1 H1]. destruct (IHr Hr Er) as [E2 H2].
    cbn [AbstractExpression.Evaluate denotes]. rewrite E1, E2.
    destruct (denotes _ l) as [a|]; [|done]. destruct (denotes _ r) as [b|]; [|done].
    specialize (H1 a eq_refl). specialize (H2 b eq_refl). cbn [int_result mbind res_bind].
    rewrite (arith_result op a b H1 H2). split; [done|]. case_decide; [|done]. by intros z [= <-].
Qed.
End evaluation.

(** C20: on a row built from values that fit the schema, a well-typed INTEGER expression
    evaluates to the mathematical value of its arithmetic over the row's columns; it
    fails exactly when an intermediate result leaves the 32-bit range, and it never
    looks at a column of another type. *)
Theorem Evaluate_denotes s values D rid e : schema_wf s -> Forall2 fits (columns_ s) values ->
  0 < tuple_inline_part_storage_size_ s < PAGE_SIZE ->
  tuple_inline_part_storage_size_ s + varlen_total values < 2 ^ 31 ->
  Tuple.make values s = Ok (mk_Tuple RID_default D) ->
  typed s e -> AbstractExpression.GetReturnType e = INTEGER ->
  AbstractExpression.Evaluate e (mk_Tuple rid D) s = int_result (denotes (int_of values) e).
Proof.
  intros Hs Hf He Hb HD Ht Hty. destruct (make_row s values Hs Hf He Hb) as (D' & HD' & _ & Hread).
  rewrite HD in HD'. injection HD' as ->. exact (proj1 (Evaluate_int s values D' rid Hf (Hread rid) e Ht Hty)).
Qed.

(** C21: evaluation keeps types: whatever a well-typed expression evaluates to has the
    type the expression announces. *)
Theorem Evaluate_typed s values D rid e v : schema_wf s -> Forall2 fits (columns_ s) values ->
  0 < tuple_inline_part_storage_size_ s < PAGE_SIZE ->
  tuple_inline_part_storage_size_ s + varlen_total values < 2 ^ 31 ->
  Tuple.make values s = Ok (mk_Tuple RID_default D) ->
  typed s e -> AbstractExpression.Evaluate e (mk_Tuple rid D) s = Ok v ->
  type_id_ v = AbstractExpression.GetReturnType e.
Proof.
  intros Hs Hf He Hb HD Ht Hev. destruct (make_row s values Hs Hf He Hb) as (D' & HD' & _ & Hread).
  rewrite HD in HD'. injection HD' as ->. destruct e as [v0|pos i t|l r op].
  - by injection Hev as ->.
  - destruct Ht as (Hi & c & Hc & <-). destruct (Forall2_lookup_l _ _ _ _ _ Hf Hc) as (v0 & Hv0 & Hw & Hvt & _).
    cbn in Hev. rewrite (Hread _ _ _ Hv0) in Hev. cbn. rewrite <- Hvt. clear -Hev.
    destruct v0 as [t0 x nl]. unfold stored in Hev. cbn in *.
    destruct t0, x; try done; repeat case_match; try discriminate Hev; by injection Hev as <-.
  - destruct (Evaluate_int s values D' rid Hf (Hread rid) (ArithmeticExpression l r op) Ht eq_refl) as [E _].
    rewrite Hev in E. destruct (denotes _ _); [|done]. by injection E as ->.
Qed.

(** A join of a row with itself is ordinary evaluation. *)
Lemma EvaluateJoin_same e t s : AbstractExpression.EvaluateJoin e t s t s = AbstractExpression.Evaluate e t s.
Proof. induction e as [v|[] i ty|l IHl r IHr op]; cbn; [done..|]. by rewrite IHl, IHr. Qed.

(** [id * id - 3] over the row of [demo_values]. *)
Definition demo_expr : AbstractExpression :=
  ArithmeticExpression
    (ArithmeticExpression (ColumnValueExpression LEFT 0 INTEGER) (ColumnValueExpression LEFT 0 INTEGER) Multiply)
    (ConstantValueExpression (mk_Value INTEGER (VInt32 3) false)) Minus.
Definition demo_row : list Byte.byte :=
  match Tuple.make (demo_values "gavin") demo_schema with Ok t => data_ t | Err _ => [] end.

Lemma demo_expr_typed : typed demo_schema demo_expr.
Proof.
  assert (typed demo_schema (ColumnValueExpression LEFT 0 INTEGER)) as Hc by (split; [lia|by eexists]).
  split_and!; try done; cbn; width.
Qed.
Lemma demo_values_fit : Forall2 fits (columns_ demo_schema) (demo_values "gavin").
Proof.
  repeat constructor; cbn; try width; intros; try discriminate; congruence || idtac.
  all: match goal with H : _ = Ok _ |- _ => vm_compute in H; injection H as <- end; lia.
Qed.
Lemma demo_row_made : Tuple.make (demo_values "gavin") demo_schema = Ok (mk_Tuple RID_default demo_row).
Proof. vm_compute. reflexivity. Qed.

Lemma Evaluate_denotes_witness :
  AbstractExpression.Evaluate demo_expr (mk_Tuple RID_default demo_row) demo_schema =
  Ok (mk_Value INTEGER (VInt32 46) false).
Proof.
  rewrite (Evaluate_denotes demo_schema (demo_values "gavin") demo_row RID_default demo_expr demo_schema_wf
    demo_values_fit ltac:(cbn; unfold PAGE_SIZE; lia) ltac:(vm_compute; done) demo_row_made demo_expr_typed eq_refl).
  vm_compute. reflexivity.
Defined.

Lemma Evaluate_typed_witness : type_id_ (mk_Value INTEGER (VInt32 46) false) = AbstractExpression.GetReturnType demo_expr.
Proof.
  exact (Evaluate_typed demo_schema (demo_values "gavin") demo_row RID_default demo_expr
    (mk_Value INTEGER (VInt32 46) false) demo_schema_wf
    demo_values_fit ltac:(cbn; unfold PAGE_SIZE; lia) ltac:(vm_compute; done) demo_row_made demo_expr_typed
    ltac:(vm_compute; reflexivity)).
Defined.
