(* ===== verification/TablePage.v ===== *)
(** * Table pages: [storage/page/table_page.hpp], [storage/page/table_page.cpp]

    The slotted page, byte by byte: the header, the slot array that grows upwards and
    the tuples that grow downwards from the end of the page. *)
From S2P Require Import Prelude Bytes Types Value Schema Tuple.
Open Scope Z_scope.

Definition TABLE_PAGE_HEADER_SIZE : Z := 8.
Definition TUPLE_INFO_SIZE : Z := 6.

(** [std::tuple<uint16_t, uint16_t, TupleMeta>]: the standard library chooses where the
    members go in the six bytes; they do not overlap, and one byte is padding. *)
Class TupleInfoLayout := {
  offset_at : nat;
  size_at : nat;
  meta_at : nat;
  layout_bounds : (offset_at + 2 <= 6 /\ size_at + 2 <= 6 /\ meta_at + 1 <= 6)%nat;
  layout_disjoint :
    ((offset_at + 2 <= size_at \/ size_at + 2 <= offset_at) /\
     (offset_at + 2 <= meta_at \/ meta_at + 1 <= offset_at) /\
     (size_at + 2 <= meta_at \/ meta_at + 1 <= size_at))%nat
}.

(** The members in declaration order, and in the reverse order that libstdc++ uses. *)
Definition declaration_layout : TupleInfoLayout.
Proof. refine {| offset_at := 0; size_at := 2; meta_at := 4 |}; lia. Defined.
Definition libstdcxx_layout : TupleInfoLayout.
Proof. refine {| offset_at := 4; size_at := 2; meta_at := 0 |}; lia. Defined.

Record TupleInfo := mk_TupleInfo { ti_offset : Z; ti_size : Z; ti_meta : TupleMeta }.

Module TablePage.
Section page.
Context `{TupleInfoLayout}.
Abbreviation page := (list byte).

(** ** Members of the page *)
Definition next_page_id_ (p : page) : Z := le_s 4 (rd 0 4 p).
Definition num_tuples_ (p : page) : Z := le_u 2 (rd 4 2 p).
Definition num_deleted_tuples_ (p : page) : Z := le_u 2 (rd 6 2 p).
Definition set_next_page_id (v : Z) (p : page) : page := wr 0 (le_bytes 4 v) p.
Definition set_num_tuples (v : Z) (p : page) : page := wr 4 (le_bytes 2 v) p.
Definition set_num_deleted_tuples (v : Z) (p : page) : page := wr 6 (le_bytes 2 v) p.

Definition decode_info (bs : list byte) : TupleInfo :=
  mk_TupleInfo (le_u 2 (rd offset_at 2 bs)) (le_u 2 (rd size_at 2 bs))
    (mk_TupleMeta (negb (le_u 1 (rd meta_at 1 bs) =? 0))).
(** Assignment to the members; the padding keeps what it held. *)
Definition encode_info (t : TupleInfo) (bs : list byte) : list byte :=
  wr offset_at (le_bytes 2 (ti_offset t))
    (wr size_at (le_bytes 2 (ti_size t))
      (wr meta_at (le_bytes 1 (Z.b2z (is_deleted_ (ti_meta t)))) bs)).

Definition slot_pos (i : Z) : nat := Z.to_nat (TABLE_PAGE_HEADER_SIZE + TUPLE_INFO_SIZE * i).
(** [tuple_info_[i]], read and assigned. *)
Definition tuple_info_ (i : Z) (p : page) : res TupleInfo :=
  bs ← mem_read (slot_pos i) 6 p; Ok (decode_info bs).
Definition set_tuple_info (i : Z) (t : TupleInfo) (p : page) : res page :=
  bs ← mem_read (slot_pos i) 6 p; mem_write (slot_pos i) (encode_info t bs) p.

(** ** Operations *)
Definition Init (p : page) : page :=
  set_num_deleted_tuples 0 (set_num_tuples 0 (set_next_page_id INVALID_PAGE_ID p)).

Definition GetNumTuples (p : page) : Z := num_tuples_ p.
Definition GetNextPageId (p : page) : Z := next_page_id_ p.
Definition SetNextPageId (next_page_id : Z) (p : page) : page := set_next_page_id next_page_id p.

Definition GetNextTupleOffset (tuple : Tuple) (p : page) : res (option Z) :=
  slot_end_offset ← (if 0 <? num_tuples_ p then
                       info ← tuple_info_ (num_tuples_ p - 1) p; Ok (ti_offset info)
                     else Ok PAGE_SIZE);
  _ ← assertion (TABLE_PAGE_HEADER_SIZE <=? slot_end_offset);
  _ ← assertion (Tuple.GetStorageSize tuple <=? PAGE_SIZE - TABLE_PAGE_HEADER_SIZE);
  if slot_end_offset <? Tuple.GetStorageSize tuple then Ok None
  else
    let tuple_offset := slot_end_offset - Tuple.GetStorageSize tuple in
    let offset_size := TABLE_PAGE_HEADER_SIZE + TUPLE_INFO_SIZE * (num_tuples_ p + 1) in
    if tuple_offset <? offset_size then Ok None
    else
      _ ← assertion ((TABLE_PAGE_HEADER_SIZE <=? tuple_offset) && (tuple_offset <? PAGE_SIZE));
      Ok (Some (uwrap 16 tuple_offset)).

Definition InsertTuple (meta : TupleMeta) (tuple : Tuple) : M page (option Z) :=
  p ← get_state;
  tuple_offset ← lift (GetNextTupleOffset tuple p);
  match tuple_offset with
  | None => mret None
  | Some tuple_offset =>
    let tuple_id := num_tuples_ p in
    p ← lift (set_tuple_info tuple_id
      (mk_TupleInfo tuple_offset (uwrap 16 (Tuple.GetStorageSize tuple)) meta) p);
    modify (fun _ => p);;
    modify (fun p => set_num_tuples (uwrap 16 (num_tuples_ p + 1)) p);;
    assert_that (tuple_offset + Tuple.GetStorageSize tuple <=? PAGE_SIZE);;
    p ← get_state;
    p ← lift (mem_write (Z.to_nat tuple_offset) (Tuple.SerializeTo tuple) p);
    modify (fun _ => p);;
    mret (Some tuple_id)
  end.

Definition UpdateTupleMeta (meta : TupleMeta) (rid : RID) : M page unit :=
  p ← get_state;
  let tuple_id := slot_num_ rid in
  if num_tuples_ p <=? tuple_id then throw Exception
  else
    info ← lift (tuple_info_ tuple_id p);
    (if negb (is_deleted_ (ti_meta info)) && is_deleted_ meta then
       modify (fun p => set_num_deleted_tuples (uwrap 16 (num_deleted_tuples_ p + 1)) p)
     else mret tt);;
    p ← get_state;
    p ← lift (set_tuple_info tuple_id (mk_TupleInfo (ti_offset info) (ti_size info) meta) p);
    modify (fun _ => p).

Definition GetTuple (rid : RID) (p : page) : res (TupleMeta * Tuple) :=
  let tuple_id := slot_num_ rid in
  if num_tuples_ p <=? tuple_id then Err Exception
  else
    info ← tuple_info_ tuple_id p;
    let tuple := mk_Tuple (rid_ Tuple.dummy) (replicate (Z.to_nat (ti_size info)) x00) in
    _ ← assertion (ti_offset info + ti_size info <=? PAGE_SIZE);
    tuple ← Tuple.DeserializeFrom tuple (drop (Z.to_nat (ti_offset info)) p) (ti_size info);
    Ok (ti_meta info, Tuple.SetRid tuple rid).

Definition GetTupleMeta (rid : RID) (p : page) : res TupleMeta :=
  let tuple_id := slot_num_ rid in
  if num_tuples_ p <=? tuple_id then Err Exception
  else info ← tuple_info_ tuple_id p; Ok (ti_meta info).
End page.
End TablePage.

(** ** The abstract page: a list of rows, a forward pointer and a count *)
Record table_page := mk_table_page {
  tp_next : Z;
  tp_rows : list (TupleMeta * list byte);
  tp_deleted : Z
}.

Definition row_bytes (rows : list (TupleMeta * list byte)) : Z :=
  foldr (fun r n => Z.of_nat (length r.2) + n) 0 rows.
(** Header, slot array and tuples. *)
Definition used (rows : list (TupleMeta * list byte)) : Z :=
  TABLE_PAGE_HEADER_SIZE + TUPLE_INFO_SIZE * Z.of_nat (length rows) + row_bytes rows.
(** Where row [i] starts: the rows fill the page from its end. *)
Definition row_offset (rows : list (TupleMeta * list byte)) (i : nat) : Z :=
  PAGE_SIZE - row_bytes (take (S i) rows).

Lemma row_bytes_nonneg rows : 0 <= row_bytes rows.
Proof. induction rows as [|r rows IH]; cbn; [done|]. unfold row_bytes in IH. lia. Qed.

Lemma row_bytes_app rows rows' : row_bytes (rows ++ rows') = row_bytes rows + row_bytes rows'.
Proof. induction rows as [|r rows IH]; cbn; [done|]. unfold row_bytes in *. lia. Qed.

Lemma row_bytes_take_le rows i : row_bytes (take i rows) <= row_bytes rows.
Proof.
  rewrite <- (take_drop i rows) at 2. rewrite row_bytes_app.
  pose proof (row_bytes_nonneg (drop i rows)). lia.
Qed.

Lemma row_bytes_take_S rows i r : rows !! i = Some r ->
  row_bytes (take (S i) rows) = row_bytes (take i rows) + Z.of_nat (length r.2).
Proof.
  intros Hr. rewrite (take_S_r _ _ _ Hr), row_bytes_app. cbn. lia.
Qed.

Lemma row_bytes_take_mono rows i j : (i <= j)%nat -> row_bytes (take i rows) <= row_bytes (take j rows).
Proof.
  intros Hij. replace (take i rows) with (take i (take j rows)).
  - apply row_bytes_take_le.
  - rewrite take_take. f_equal. lia.
Qed.

Section rep.
Context `{TupleInfoLayout}.

(** Page [p] holds the abstract page [a]. *)
Record rep (p : list byte) (a : table_page) : Prop := {
  rep_length : length p = page_size;
  rep_next : TablePage.next_page_id_ p = tp_next a;
  rep_num : TablePage.num_tuples_ p = Z.of_nat (length (tp_rows a));
  rep_deleted : TablePage.num_deleted_tuples_ p = tp_deleted a;
  rep_used : used (tp_rows a) <= PAGE_SIZE;
  rep_rows : forall i m bs, tp_rows a !! i = Some (m, bs) ->
    (0 < length bs)%nat /\
    TablePage.decode_info (rd (TablePage.slot_pos (Z.of_nat i)) 6 p) =
      mk_TupleInfo (row_offset (tp_rows a) i) (Z.of_nat (length bs)) m /\
    rd (Z.to_nat (row_offset (tp_rows a) i)) (length bs) p = bs
}.

Lemma encode_length t bs : length bs = 6%nat -> length (TablePage.encode_info t bs) = 6%nat.
Proof.
  intros Hl. pose proof layout_bounds. unfold TablePage.encode_info.
  repeat (rewrite length_wr; [|rewrite ?length_le_bytes]); try lia.
  all: repeat (rewrite length_wr; [|rewrite ?length_le_bytes]); lia.
Qed.

(** A slot reads back what was assigned to it. *)
Lemma decode_encode t bs : length bs = 6%nat -> in_u 16 (ti_offset t) -> in_u 16 (ti_size t) ->
  TablePage.decode_info (TablePage.encode_info t bs) = t.
Proof.
  intros Hl Ho Hs. pose proof layout_bounds. pose proof layout_disjoint.
  destruct t as [o s [m]]. cbn in Ho, Hs. unfold TablePage.decode_info, TablePage.encode_info.
  cbn [ti_offset ti_size ti_meta is_deleted_].
  assert (forall n z, length (le_bytes n z) = n) as Hle by apply length_le_bytes.
  assert (forall off k m', (off + k <= 6)%nat -> length m' = 6%nat -> forall z,
    length (wr off (le_bytes k z) m') = 6%nat) as Hw.
  { intros. rewrite length_wr; rewrite ?Hle; lia. }
  assert (length (wr meta_at (le_bytes 1 (Z.b2z m)) bs) = 6%nat) as Hm1 by (apply Hw; lia).
  assert (length (wr size_at (le_bytes 2 s) (wr meta_at (le_bytes 1 (Z.b2z m)) bs)) = 6%nat)
    as Hm2 by (apply Hw; lia).
  f_equal.
  - rewrite rd_wr_le by lia. by apply le_u_bytes.
  - rewrite rd_wr_ne by (rewrite ?Hle; lia).
    rewrite rd_wr_le by lia. by apply le_u_bytes.
  - f_equal. rewrite !rd_wr_ne by (rewrite ?Hle; lia).
    rewrite rd_wr_le by lia.
    rewrite le_u_bytes by (destruct m; cbn; width). by destruct m.
Qed.

Lemma slot_pos_nat (i : nat) : TablePage.slot_pos (Z.of_nat i) = (8 + 6 * i)%nat.
Proof. unfold TablePage.slot_pos, TABLE_PAGE_HEADER_SIZE, TUPLE_INFO_SIZE. lia. Qed.

Lemma used_app rows m bs :
  used (rows ++ [(m, bs)]) = used rows + TUPLE_INFO_SIZE + Z.of_nat (length bs).
Proof.
  unfold used, TUPLE_INFO_SIZE. rewrite row_bytes_app, length_app. cbn. lia.
Qed.

Lemma row_offset_app rows r i : (i < length rows)%nat ->
  row_offset (rows ++ [r]) i = row_offset rows i.
Proof. intros. unfold row_offset. by rewrite take_app_le by lia. Qed.

Lemma row_offset_last rows m bs :
  row_offset (rows ++ [(m, bs)]) (length rows) = PAGE_SIZE - row_bytes rows - Z.of_nat (length bs).
Proof.
  unfold row_offset. rewrite take_ge by (rewrite length_app; cbn; lia).
  rewrite row_bytes_app. cbn. lia.
Qed.

(** Where a row of a represented page lies. *)
Lemma row_bounds p a i m bs : rep p a -> tp_rows a !! i = Some (m, bs) ->
  (i < length (tp_rows a))%nat /\
  PAGE_SIZE - row_bytes (tp_rows a) <= row_offset (tp_rows a) i /\
  row_offset (tp_rows a) i + Z.of_nat (length bs) <= PAGE_SIZE /\
  8 + 6 * Z.of_nat (length (tp_rows a)) <= PAGE_SIZE - row_bytes (tp_rows a).
Proof.
  intros Hr Hi. pose proof (rep_used p a Hr) as Hu.
  unfold used, TABLE_PAGE_HEADER_SIZE, TUPLE_INFO_SIZE in Hu. unfold row_offset.
  pose proof (row_bytes_take_le (tp_rows a) (S i)). pose proof (lookup_lt_Some _ _ _ Hi).
  rewrite (row_bytes_take_S _ _ _ Hi) in *. cbn [snd] in *.
  pose proof (row_bytes_nonneg (take i (tp_rows a))). lia.
Qed.

Lemma tuple_info_rep p a i m bs : rep p a -> tp_rows a !! i = Some (m, bs) ->
  TablePage.tuple_info_ (Z.of_nat i) p =
    Ok (mk_TupleInfo (row_offset (tp_rows a) i) (Z.of_nat (length bs)) m).
Proof.
  intros Hr Hi. destruct (row_bounds p a i m bs Hr Hi) as (Hl & Hb & _ & Hs).
  destruct (rep_rows p a Hr i m bs Hi) as (_ & Hd & _).
  pose proof (row_bytes_nonneg (tp_rows a)).
  unfold TablePage.tuple_info_.
  rewrite mem_read_ok by (rewrite (rep_length p a Hr), slot_pos_nat; unfold page_size, PAGE_SIZE in *; lia).
  cbn [mbind res_bind]. by rewrite Hd.
Qed.

Lemma Init_rep p : length p = page_size ->
  rep (TablePage.Init p) (mk_table_page INVALID_PAGE_ID [] 0).
Proof.
  intros Hl. assert (page_size = 4096%nat) as Hps by done.
  unfold TablePage.Init, TablePage.set_num_deleted_tuples, TablePage.set_num_tuples,
    TablePage.set_next_page_id.
  split; cbn [tp_next tp_rows tp_deleted length]; unfold TablePage.next_page_id_, TablePage.num_tuples_,
    TablePage.num_deleted_tuples_.
  1: lens.
  1,2,3: by ranges.
  - done.
  - intros i m bs Hi. done.
Qed.

(** The storage size of a tuple that fits a page. *)
Lemma storage_size t : (length (data_ t) <= page_size)%nat ->
  Tuple.GetStorageSize t = Z.of_nat (length (data_ t)).
Proof. intros. apply uwrap_id. unfold page_size, PAGE_SIZE in *. width. Qed.

Definition room (a : table_page) (t : Tuple) : bool :=
  used (tp_rows a) + TUPLE_INFO_SIZE + Z.of_nat (length (data_ t)) <=? PAGE_SIZE.

Lemma GetNextTupleOffset_rep p a t : rep p a -> (0 < length (data_ t))%nat ->
  Z.of_nat (length (data_ t)) <= PAGE_SIZE - TABLE_PAGE_HEADER_SIZE ->
  TablePage.GetNextTupleOffset t p =
    Ok (if room a t
        then Some (PAGE_SIZE - row_bytes (tp_rows a) - Z.of_nat (length (data_ t))) else None).
Proof.
  intros Hr Hn Hb. pose proof (rep_used p a Hr) as Hu. pose proof (row_bytes_nonneg (tp_rows a)).
  assert (page_size = 4096%nat) as Hps by done.
  unfold TablePage.GetNextTupleOffset, room.
  unfold used, TABLE_PAGE_HEADER_SIZE, TUPLE_INFO_SIZE, PAGE_SIZE in *.
  rewrite storage_size, (rep_num p a Hr) by lia.
  assert ((if 0 <? Z.of_nat (length (tp_rows a)) then
      info ← TablePage.tuple_info_ (Z.of_nat (length (tp_rows a)) - 1) p; Ok (ti_offset info)
    else Ok 4096) = Ok (4096 - row_bytes (tp_rows a))) as ->.
  { destruct (Z.ltb_spec 0 (Z.of_nat (length (tp_rows a)))) as [Hlt|Hge].
    - destruct (lookup_lt_is_Some_2 (tp_rows a) (pred (length (tp_rows a)))) as [[m bs] Hi]; [lia|].
      replace (Z.of_nat (length (tp_rows a)) - 1) with (Z.of_nat (pred (length (tp_rows a)))) by lia.
      rewrite (tuple_info_rep p a _ m bs Hr Hi). cbn. unfold row_offset, PAGE_SIZE.
      by rewrite take_ge by lia.
    - destruct (tp_rows a); [done|cbn in Hge; lia]. }
  cbn [mbind res_bind]. unfold assertion.
  destruct (Z.leb_spec 8 (4096 - row_bytes (tp_rows a))); [cbn [mbind res_bind]|lia].
  destruct (Z.leb_spec (Z.of_nat (length (data_ t))) (4096 - 8)); [cbn [mbind res_bind]|lia].
  destruct (Z.ltb_spec (4096 - row_bytes (tp_rows a)) (Z.of_nat (length (data_ t)))).
  { by destruct (Z.leb_spec (8 + 6 * Z.of_nat (length (tp_rows a)) + row_bytes (tp_rows a) + 6 +
      Z.of_nat (length (data_ t))) 4096); [lia|]. }
  destruct (Z.ltb_spec (4096 - row_bytes (tp_rows a) - Z.of_nat (length (data_ t)))
    (8 + 6 * (Z.of_nat (length (tp_rows a)) + 1)));
    destruct (Z.leb_spec (8 + 6 * Z.of_nat (length (tp_rows a)) + row_bytes (tp_rows a) + 6 +
      Z.of_nat (length (data_ t))) 4096); try done; try lia.
  destruct (Z.leb_spec 8 (4096 - row_bytes (tp_rows a) - Z.of_nat (length (data_ t)))); [|lia].
  destruct (Z.ltb_spec (4096 - row_bytes (tp_rows a) - Z.of_nat (length (data_ t))) 4096); [|lia].
  cbn [mbind res_bind andb]. by rewrite uwrap_id by width.
Qed.

(** Page [p] after the three writes of [InsertTuple]. *)
Lemma insert_rep p a m t : rep p a -> (0 < length (data_ t))%nat -> room a t = true ->
  let off := Z.to_nat (PAGE_SIZE - row_bytes (tp_rows a) - Z.of_nat (length (data_ t))) in
  let slot := TablePage.slot_pos (Z.of_nat (length (tp_rows a))) in
  let info := mk_TupleInfo (Z.of_nat off) (Z.of_nat (length (data_ t))) m in
  rep (wr off (data_ t) (wr 4 (le_bytes 2 (Z.of_nat (length (tp_rows a)) + 1))
        (wr slot (TablePage.encode_info info (rd slot 6 p)) p)))
    (mk_table_page (tp_next a) (tp_rows a ++ [(m, data_ t)]) (tp_deleted a)).
Proof.
  intros Hr Hn Hb off slot info. pose proof (row_bytes_nonneg (tp_rows a)).
  assert (page_size = 4096%nat) as Hps by done.
  apply Z.leb_le in Hb. pose proof (rep_length p a Hr) as Hl.
  unfold used, TABLE_PAGE_HEADER_SIZE, TUPLE_INFO_SIZE, PAGE_SIZE in Hb.
  assert (slot = 8 + 6 * length (tp_rows a))%nat as Hslot by apply slot_pos_nat.
  assert (Z.of_nat off = 4096 - row_bytes (tp_rows a) - Z.of_nat (length (data_ t))) as Hoff.
  { unfold off, PAGE_SIZE. lia. }
  clearbody off slot.
  assert (length (TablePage.encode_info info (rd slot 6 p)) = 6%nat) as He.
  { apply encode_length. lens. }
  split; cbn [tp_next tp_rows tp_deleted].
  - lens.
  - rewrite <- (rep_next p a Hr). unfold TablePage.next_page_id_. by ranges.
  - unfold TablePage.num_tuples_. ranges. rewrite le_u_bytes by width. rewrite length_app. cbn. lia.
  - rewrite <- (rep_deleted p a Hr). unfold TablePage.num_deleted_tuples_. by ranges.
  - rewrite used_app. unfold used, TABLE_PAGE_HEADER_SIZE, TUPLE_INFO_SIZE, PAGE_SIZE. lia.
  - intros i m' bs' Hi. rewrite slot_pos_nat.
    destruct (decide (i < length (tp_rows a))%nat) as [Hlt|Hge].
    + rewrite lookup_app_l in Hi by done.
      destruct (rep_rows p a Hr i m' bs' Hi) as (Hpos & Hd & Hrd).
      destruct (row_bounds p a i m' bs' Hr Hi) as (_ & Hlo & Hhi & _). unfold PAGE_SIZE in *.
      rewrite row_offset_app by done. rewrite slot_pos_nat in Hd.
      split; [done|]. ranges. split; done.
    + apply lookup_app_Some in Hi as [Hi|[_ Hi]]; [by apply lookup_lt_Some in Hi|].
      assert (i = length (tp_rows a)) as ->.
      { apply list_lookup_singleton_Some in Hi as [? _]. lia. }
      rewrite Nat.sub_diag in Hi. injection Hi as <- <-. rewrite row_offset_last. unfold PAGE_SIZE.
      split; [done|]. rewrite <- Hoff, Nat2Z.id. split; [|by ranges].
      rewrite rd_wr_ne, rd_wr_ne, <- Hslot by lens. rewrite <- He at 1. rewrite rd_wr_eq by lens.
      apply decode_encode; [lens|cbn; width..].
Qed.

Lemma InsertTuple_rep p a m t : rep p a -> (0 < length (data_ t))%nat ->
  Z.of_nat (length (data_ t)) <= PAGE_SIZE - TABLE_PAGE_HEADER_SIZE ->
  if room a t then
    exists p', TablePage.InsertTuple m t p = (Ok (Some (Z.of_nat (length (tp_rows a)))), p') /\
      rep p' (mk_table_page (tp_next a) (tp_rows a ++ [(m, data_ t)]) (tp_deleted a))
  else TablePage.InsertTuple m t p = (Ok None, p).
Proof.
  intros Hr Hn Hb. pose proof (GetNextTupleOffset_rep p a t Hr Hn Hb) as Ho.
  pose proof (row_bytes_nonneg (tp_rows a)). assert (page_size = 4096%nat) as Hps by done.
  pose proof (rep_length p a Hr) as Hl.
  unfold TablePage.InsertTuple. rewrite (bind_ok get_state _ p p p) by done.
  erewrite (bind_ok (lift _)) by (unfold lift; by rewrite Ho).
  destruct (room a t) eqn:Hroom; [|done].
  pose proof (insert_rep p a m t Hr Hn Hroom) as Hrep. cbn zeta in Hrep.
  pose proof Hroom as Hb'. apply Z.leb_le in Hb'.
  unfold used, TABLE_PAGE_HEADER_SIZE, TUPLE_INFO_SIZE, PAGE_SIZE in Hb, Hb'.
  rewrite (rep_num p a Hr), storage_size by lia. unfold PAGE_SIZE in *.
  rewrite Z2Nat.id in Hrep by lia. rewrite (uwrap_id 16) by width.
  pose proof (slot_pos_nat (length (tp_rows a))) as Hslot.
  set (slot := TablePage.slot_pos _) in *. unfold TablePage.set_tuple_info. fold slot.
  rewrite mem_read_ok by lia. cbn [mbind res_bind].
  set (enc := TablePage.encode_info _ _) in *.
  assert (length enc = 6%nat) as He by (apply encode_length; lens).
  rewrite mem_write_ok by lia.
  unfold mbind, M_bind, lift, modify, get_state, assert_that, assertion.
  assert (TablePage.num_tuples_ (wr slot enc p) = Z.of_nat (length (tp_rows a))) as Hnum.
  { rewrite <- (rep_num p a Hr). unfold TablePage.num_tuples_. by ranges. }
  rewrite Hnum, uwrap_id by width. unfold lift, Tuple.SerializeTo.
  destruct (Z.leb_spec (4096 - row_bytes (tp_rows a) - Z.of_nat (length (data_ t)) +
    Z.of_nat (length (data_ t))) 4096); [|lia].
  rewrite mem_write_ok by (unfold TablePage.set_num_tuples; lens).
  eexists; split; [done|exact Hrep].
Qed.

(** *** What a page answers *)
Definition spec_get (a : table_page) (rid : RID) : res (TupleMeta * Tuple) :=
  match tp_rows a !! Z.to_nat (slot_num_ rid) with
  | Some (m, bs) => Ok (m, mk_Tuple rid bs)
  | None => Err Exception
  end.

Lemma slot_cases p a rid : rep p a -> 0 <= slot_num_ rid ->
  match tp_rows a !! Z.to_nat (slot_num_ rid) with
  | Some (m, bs) => (TablePage.num_tuples_ p <=? slot_num_ rid) = false
  | None => (TablePage.num_tuples_ p <=? slot_num_ rid) = true
  end.
Proof.
  intros Hr Hs. rewrite (rep_num p a Hr).
  destruct (tp_rows a !! Z.to_nat (slot_num_ rid)) as [[m bs]|] eqn:E.
  - apply lookup_lt_Some in E. apply Z.leb_gt. lia.
  - apply lookup_ge_None in E. apply Z.leb_le. lia.
Qed.

Lemma GetTuple_rep p a rid : rep p a -> 0 <= slot_num_ rid ->
  TablePage.GetTuple rid p = spec_get a rid.
Proof.
  intros Hr Hs. pose proof (slot_cases p a rid Hr Hs) as Hc. unfold TablePage.GetTuple, spec_get.
  destruct (tp_rows a !! Z.to_nat (slot_num_ rid)) as [[m bs]|] eqn:E; rewrite Hc; [|done].
  pose proof (tuple_info_rep p a _ m bs Hr E) as Hi. rewrite Z2Nat.id in Hi by done. rewrite Hi.
  destruct (row_bounds p a _ m bs Hr E) as (_ & Hlo & Hhi & Hb).
  destruct (rep_rows p a Hr _ m bs E) as (_ & _ & Hrd).
  pose proof (rep_length p a Hr) as Hl. assert (page_size = 4096%nat) as Hps by done.
  set (off := row_offset _ _) in *. cbn [mbind res_bind ti_offset ti_size ti_meta]. unfold assertion.
  unfold PAGE_SIZE in *. destruct (Z.leb_spec (off + Z.of_nat (length bs)) 4096); [|lia].
  cbn [mbind res_bind]. unfold Tuple.DeserializeFrom. rewrite Nat2Z.id.
  rewrite mem_read_ok by (rewrite length_drop; lia). cbn [mbind res_bind data_ rid_].
  assert (rd 0 (length bs) (drop (Z.to_nat off) p) = bs) as ->.
  { rewrite <- Hrd at 2. unfold rd. by rewrite drop_0. }
  rewrite mem_write_ok by lens. cbn [mbind res_bind]. unfold wr.
  rewrite drop_ge by lens. by rewrite app_nil_r.
Qed.

Lemma GetTupleMeta_rep p a rid : rep p a -> 0 <= slot_num_ rid ->
  TablePage.GetTupleMeta rid p = fst <$> spec_get a rid.
Proof.
  intros Hr Hs. pose proof (slot_cases p a rid Hr Hs) as Hc. unfold TablePage.GetTupleMeta, spec_get.
  destruct (tp_rows a !! Z.to_nat (slot_num_ rid)) as [[m bs]|] eqn:E; rewrite Hc; [|done].
  pose proof (tuple_info_rep p a _ m bs Hr E) as Hi. rewrite Z2Nat.id in Hi by done. by rewrite Hi.
Qed.

(** *** Changing the meta data of a row *)
Definition spec_update (a : table_page) (m : TupleMeta) (rid : RID) : res unit * table_page :=
  match tp_rows a !! Z.to_nat (slot_num_ rid) with
  | Some (m0, bs) =>
    (Ok tt, mk_table_page (tp_next a) (<[Z.to_nat (slot_num_ rid) := (m, bs)]> (tp_rows a))
      (if negb (is_deleted_ m0) && is_deleted_ m then uwrap 16 (tp_deleted a + 1) else tp_deleted a))
  | None => (Err Exception, a)
  end.

Lemma row_bytes_update rows i m0 m bs : rows !! i = Some (m0, bs) ->
  row_bytes (<[i := (m, bs)]> rows) = row_bytes rows.
Proof.
  revert i. induction rows as [|[m1 bs1] rows IH]; intros [|i] Hi; cbn in Hi |- *; try done.
  - by injection Hi as <- <-.
  - unfold row_bytes in IH. by rewrite IH.
Qed.

Lemma row_offset_update rows i m0 m bs j : rows !! i = Some (m0, bs) ->
  row_offset (<[i := (m, bs)]> rows) j = row_offset rows j.
Proof.
  intros Hi. unfold row_offset. destruct (decide (i < S j)%nat).
  - rewrite take_insert_lt by lia. by erewrite row_bytes_update by (by rewrite lookup_take_lt).
  - by rewrite take_insert_ge by lia.
Qed.

Lemma update_rep p a m rid m0 bs d : rep p a -> tp_rows a !! Z.to_nat (slot_num_ rid) = Some (m0, bs) ->
  in_u 16 d ->
  let i := Z.to_nat (slot_num_ rid) in
  let info := mk_TupleInfo (row_offset (tp_rows a) i) (Z.of_nat (length bs)) m in
  let q := wr 6 (le_bytes 2 d) p in
  rep (wr (TablePage.slot_pos (Z.of_nat i)) (TablePage.encode_info info
        (rd (TablePage.slot_pos (Z.of_nat i)) 6 q)) q)
    (mk_table_page (tp_next a) (<[i := (m, bs)]> (tp_rows a)) d).
Proof.
  intros Hr Hi Hd i info q. destruct (row_bounds p a _ m0 bs Hr Hi) as (Hlt & Hlo & Hhi & Hb).
  destruct (rep_rows p a Hr _ m0 bs Hi) as (Hpos & _ & Hrd).
  pose proof (rep_length p a Hr) as Hl. assert (page_size = 4096%nat) as Hps by done.
  pose proof (row_bytes_nonneg (tp_rows a)). rewrite slot_pos_nat. fold i in Hi, Hlt, Hlo, Hhi, Hrd.
  assert (length q = 4096%nat) as Hq by (unfold q; lens). unfold PAGE_SIZE in *.
  assert (length (TablePage.encode_info info (rd (8 + 6 * i) 6 q)) = 6%nat) as He
    by (apply encode_length; lens).
  split; cbn [tp_next tp_rows tp_deleted].
  - lens.
  - rewrite <- (rep_next p a Hr). unfold TablePage.next_page_id_. ranges. unfold q. by ranges.
  - rewrite length_insert, <- (rep_num p a Hr). unfold TablePage.num_tuples_. ranges. unfold q. by ranges.
  - unfold TablePage.num_deleted_tuples_. ranges. unfold q. ranges. by apply le_u_bytes.
  - pose proof (rep_used p a Hr) as Hu. unfold used in *.
    by rewrite length_insert, (row_bytes_update _ _ m0) by done.
  - intros j m' bs' Hj. rewrite slot_pos_nat. rewrite (row_offset_update _ _ m0) by done.
    destruct (decide (j = i)) as [->|Hne].
    + rewrite list_lookup_insert_eq in Hj by done. injection Hj as <- <-.
      split; [done|]. split; [|ranges; unfold q; by ranges].
      rewrite rd_wr_all by lens. apply decode_encode; [lens|cbn; width..].
    + rewrite list_lookup_insert_ne in Hj by done.
      destruct (rep_rows p a Hr j m' bs' Hj) as (Hp' & Hd' & Hrd').
      destruct (row_bounds p a j m' bs' Hr Hj) as (Hlt' & Hlo' & Hhi' & _). unfold PAGE_SIZE in *.
      rewrite slot_pos_nat in Hd'. split; [done|]. ranges. unfold q. ranges. done.
Qed.

(** Writing a field with the value it has changes nothing. *)
Lemma wr_same p : (8 <= length p)%nat -> wr 6 (le_bytes 2 (TablePage.num_deleted_tuples_ p)) p = p.
Proof.
  intros Hl. unfold TablePage.num_deleted_tuples_, le_u.
  pose proof (le_bytes_val (rd 6 2 p)) as E. rewrite length_rd in E by lia. rewrite E. unfold wr, rd.
  rewrite length_take, length_drop, Nat.min_l by lia.
  rewrite <- drop_drop, take_drop. apply take_drop.
Qed.

Lemma UpdateTupleMeta_rep p a m rid : rep p a -> 0 <= slot_num_ rid ->
  exists p', TablePage.UpdateTupleMeta m rid p = ((spec_update a m rid).1, p') /\
    rep p' (spec_update a m rid).2.
Proof.
  intros Hr Hs. pose proof (slot_cases p a rid Hr Hs) as Hc.
  unfold TablePage.UpdateTupleMeta, spec_update. rewrite (bind_ok get_state _ p p p) by done.
  destruct (tp_rows a !! Z.to_nat (slot_num_ rid)) as [[m0 bs]|] eqn:E; rewrite Hc; [|by exists p].
  pose proof (tuple_info_rep p a _ m0 bs Hr E) as Hi. rewrite Z2Nat.id in Hi by done.
  erewrite (bind_ok (lift _)) by (unfold lift; by rewrite Hi). cbn [ti_offset ti_size ti_meta fst snd].
  pose proof (rep_length p a Hr) as Hl. assert (page_size = 4096%nat) as Hps by done.
  assert (in_u 16 (TablePage.num_deleted_tuples_ p)) as Hdel.
  { unfold TablePage.num_deleted_tuples_, le_u.
    pose proof (le_val_range (rd 6 2 p)) as Hv. rewrite length_rd in Hv by lia. exact Hv. }
  rewrite (rep_deleted p a Hr) in *.
  set (d := if negb (is_deleted_ m0) && is_deleted_ m then uwrap 16 (tp_deleted a + 1) else tp_deleted a).
  assert (in_u 16 d) as Hd by (unfold d; case_match; [by apply uwrap_range|done]).
  pose proof (update_rep p a m rid m0 bs d Hr E Hd) as Hrep. cbn zeta in Hrep.
  rewrite Z2Nat.id in Hrep by done.
  destruct (row_bounds p a _ m0 bs Hr E) as (Hlt & _ & _ & Hb).
  pose proof (row_bytes_nonneg (tp_rows a)).
  erewrite (bind_ok _ _ p tt (wr 6 (le_bytes 2 d) p)).
  2:{ unfold d. case_match; [unfold modify; by rewrite (rep_deleted p a Hr)|]. rewrite <- (rep_deleted p a Hr), wr_same by lia. done. }
  rewrite (bind_ok get_state _ _ (wr 6 (le_bytes 2 d) p) (wr 6 (le_bytes 2 d) p)) by done.
  unfold TablePage.set_tuple_info.
  pose proof (slot_pos_nat (Z.to_nat (slot_num_ rid))) as Hsl. rewrite Z2Nat.id in Hsl by done.
  unfold PAGE_SIZE in *. rewrite mem_read_ok by (rewrite Hsl; lens). cbn [mbind res_bind].
  set (enc := TablePage.encode_info _ _) in *.
  assert (length enc = 6%nat) as He by (apply encode_length; lens).
  rewrite mem_write_ok by (rewrite Hsl; lens). eexists; split; [done|exact Hrep].
Qed.
End rep.

(** ** Refinement of the abstract page *)
Inductive page_op :=
| OpInsert (m : TupleMeta) (t : Tuple)
| OpUpdate (m : TupleMeta) (rid : RID)
| OpNext (page_number : Z).

Definition op_ok (o : page_op) : Prop :=
  match o with
  | OpInsert _ t => 0 < Z.of_nat (length (data_ t)) <= PAGE_SIZE - TABLE_PAGE_HEADER_SIZE
  | OpUpdate _ rid => 0 <= slot_num_ rid
  | OpNext n => in_s 32 n
  end.

Definition spec_insert (a : table_page) (m : TupleMeta) (t : Tuple) : res (option Z) * table_page :=
  if room a t then
    (Ok (Some (Z.of_nat (length (tp_rows a)))),
     mk_table_page (tp_next a) (tp_rows a ++ [(m, data_ t)]) (tp_deleted a))
  else (Ok None, a).

Definition spec_op (o : page_op) (a : table_page) : res (option Z) * table_page :=
  match o with
  | OpInsert m t => spec_insert a m t
  | OpUpdate m rid => ((fun _ => None) <$> (spec_update a m rid).1, (spec_update a m rid).2)
  | OpNext n => (Ok None, mk_table_page n (tp_rows a) (tp_deleted a))
  end.

(** A sequence of operations: the answers, in order, and the final state. *)
Definition run_ops {St} (step : page_op -> St -> res (option Z) * St) (ops : list page_op) (s : St) :
    list (res (option Z)) * St :=
  foldl (fun acc o => let r := step o acc.2 in (acc.1 ++ [r.1], r.2)) ([], s) ops.

Section refinement.
Context `{TupleInfoLayout}.

Definition page_step (o : page_op) : M (list byte) (option Z) :=
  match o with
  | OpInsert m t => TablePage.InsertTuple m t
  | OpUpdate m rid => TablePage.UpdateTupleMeta m rid;; mret None
  | OpNext n => modify (TablePage.SetNextPageId n);; mret None
  end.

Lemma SetNextPageId_rep p a n : rep p a -> in_s 32 n ->
  rep (TablePage.SetNextPageId n p) (mk_table_page n (tp_rows a) (tp_deleted a)).
Proof.
  intros Hr Hn. pose proof (rep_length p a Hr) as Hl. assert (page_size = 4096%nat) as Hps by done.
  unfold TablePage.SetNextPageId, TablePage.set_next_page_id. split; cbn [tp_next tp_rows tp_deleted].
  - lens.
  - unfold TablePage.next_page_id_. ranges. by apply le_s_bytes; [lia|].
  - rewrite <- (rep_num p a Hr). unfold TablePage.num_tuples_. by ranges.
  - rewrite <- (rep_deleted p a Hr). unfold TablePage.num_deleted_tuples_. by ranges.
  - apply (rep_used p a Hr).
  - intros i m bs Hi. destruct (rep_rows p a Hr i m bs Hi) as (Hpos & Hd & Hrd).
    destruct (row_bounds p a i m bs Hr Hi) as (Hlt & Hlo & Hhi & Hb). rewrite slot_pos_nat in *.
    unfold PAGE_SIZE in *. pose proof (row_bytes_nonneg (tp_rows a)).
    split; [done|]. ranges. done.
Qed.

Lemma page_step_rep o p a : rep p a -> op_ok o ->
  exists p', page_step o p = ((spec_op o a).1, p') /\ rep p' (spec_op o a).2.
Proof.
  intros Hr Ho. destruct o as [m t|m rid|n]; cbn [page_step spec_op op_ok fst snd] in *.
  - pose proof (InsertTuple_rep p a m t Hr) as Hi. unfold spec_insert.
    destruct (room a t); [|exists p; split; [apply Hi; lia|done]].
    destruct Hi as (p' & Hp' & Hr'); [lia..|]. by exists p'.
  - destruct (UpdateTupleMeta_rep p a m rid Hr Ho) as (p' & E & Hr'). exists p'. split; [|done].
    unfold mbind, M_bind. rewrite E. by destruct (spec_update a m rid).1 as [[]|].
  - eexists; split; [done|]. by apply SetNextPageId_rep.
Qed.

Lemma run_ops_rep ops p a acc : rep p a -> Forall op_ok ops ->
  exists p', foldl (fun acc o => let r := page_step o acc.2 in (acc.1 ++ [r.1], r.2)) (acc, p) ops =
      ((foldl (fun acc o => let r := spec_op o acc.2 in (acc.1 ++ [r.1], r.2)) (acc, a) ops).1, p') /\
    rep p' (foldl (fun acc o => let r := spec_op o acc.2 in (acc.1 ++ [r.1], r.2)) (acc, a) ops).2.
Proof.
  intros Hr Ho. revert p a acc Hr. induction Ho as [|o ops Ho _ IH]; intros p a acc Hr; cbn [foldl fst snd].
  - by exists p.
  - destruct (page_step_rep o p a Hr Ho) as (p1 & E1 & Hr1). cbn zeta. rewrite E1. cbn [fst snd].
    by apply IH.
Qed.

(** C13: a table page, from [Init] on and through any sequence of inserts, meta data
    updates and changes of the forward pointer, answers exactly as an append-only list
    of rows would: an insert succeeds with the next slot number as long as header, slot
    array and tuples fit the 4096 bytes, and is refused without effect otherwise; after
    the sequence every row, deleted or not, reads back the bytes that were inserted and
    its current meta data, and a slot that was never filled is an exception. *)
Theorem table_page_refines ops p : length p = page_size -> Forall op_ok ops ->
  let spec := run_ops spec_op ops (mk_table_page INVALID_PAGE_ID [] 0) in
  exists p', run_ops page_step ops (TablePage.Init p) = (spec.1, p') /\
    TablePage.GetNextPageId p' = tp_next spec.2 /\
    TablePage.GetNumTuples p' = Z.of_nat (length (tp_rows spec.2)) /\
    used (tp_rows spec.2) <= PAGE_SIZE /\
    forall rid, 0 <= slot_num_ rid ->
      TablePage.GetTuple rid p' = spec_get spec.2 rid /\
      TablePage.GetTupleMeta rid p' = fst <$> spec_get spec.2 rid.
Proof.
  intros Hl Ho spec.
  destruct (run_ops_rep ops (TablePage.Init p) _ [] (Init_rep p Hl) Ho) as (p' & E & Hr).
  exists p'. fold spec in E, Hr. unfold run_ops. split; [exact E|].
  split; [apply (rep_next _ _ Hr)|]. split; [apply (rep_num _ _ Hr)|].
  split; [apply (rep_used _ _ Hr)|]. intros rid Hs.
  split; [by apply GetTuple_rep|by apply GetTupleMeta_rep].
Qed.

(** An insert that the page accepts returns the next slot number; the new slot reads
    back the tuple, the older slots and the forward pointer are untouched; an insert
    that does not fit leaves the page as it was, byte for byte. *)
Theorem InsertTuple_GetTuple p a m t : rep p a ->
  0 < Z.of_nat (length (data_ t)) <= PAGE_SIZE - TABLE_PAGE_HEADER_SIZE ->
  match TablePage.InsertTuple m t p with
  | (Ok (Some slot), p') => room a t = true /\ slot = TablePage.GetNumTuples p /\
      (forall pid, TablePage.GetTuple (mk_RID pid slot) p' = Ok (m, mk_Tuple (mk_RID pid slot) (data_ t))) /\
      (forall rid, 0 <= slot_num_ rid < slot -> TablePage.GetTuple rid p' = TablePage.GetTuple rid p) /\
      TablePage.GetNextPageId p' = TablePage.GetNextPageId p
  | (Ok None, p') => room a t = false /\ p' = p
  | (Err _, _) => False
  end.
Proof.
  intros Hr Hb. pose proof (InsertTuple_rep p a m t Hr) as Hi.
  destruct (room a t) eqn:Hroom.
  - destruct Hi as (p' & -> & Hr'); [lia..|].
    unfold TablePage.GetNumTuples. rewrite (rep_num p a Hr). split_and!; try done.
    + intros pid. rewrite (GetTuple_rep _ _ _ Hr') by (cbn; lia). unfold spec_get. cbn [slot_num_ tp_rows].
      by rewrite Nat2Z.id, list_lookup_middle.
    + intros rid Hs. rewrite (GetTuple_rep _ _ _ Hr'), (GetTuple_rep _ _ _ Hr) by lia.
      unfold spec_get. cbn [tp_rows]. by rewrite lookup_app_l by lia.
    + unfold TablePage.GetNextPageId. by rewrite (rep_next _ _ Hr'), (rep_next _ _ Hr).
  - rewrite Hi by lia. done.
Qed.
End refinement.

Definition blank_page : list byte := replicate page_size x00.
Definition three_bytes : Tuple := mk_Tuple RID_default [x01; x02; x03].

Lemma table_page_refines_witness :
  let ops := [OpInsert (mk_TupleMeta false) three_bytes; OpInsert (mk_TupleMeta false) three_bytes;
              OpUpdate (mk_TupleMeta true) (mk_RID PageId_default 0)] in
  exists p', run_ops (@page_step libstdcxx_layout) ops (TablePage.Init blank_page) =
      ([Ok (Some 0); Ok (Some 1); Ok None], p') /\
    (@TablePage.GetTuple libstdcxx_layout) (mk_RID PageId_default 0) p' =
      Ok (mk_TupleMeta true, mk_Tuple (mk_RID PageId_default 0) [x01; x02; x03]).
Proof.
  destruct (@table_page_refines libstdcxx_layout
    [OpInsert (mk_TupleMeta false) three_bytes; OpInsert (mk_TupleMeta false) three_bytes;
     OpUpdate (mk_TupleMeta true) (mk_RID PageId_default 0)] blank_page)
    as (p' & E & _ & _ & _ & Hg).
  - apply length_replicate.
  - repeat constructor; vm_compute; done.
  - exists p'. split; [exact E|]. apply (Hg (mk_RID PageId_default 0)). cbn. lia.
Defined.

Lemma InsertTuple_GetTuple_witness :
  exists p', (@TablePage.InsertTuple declaration_layout) (mk_TupleMeta false) three_bytes
    (TablePage.Init blank_page) = (Ok (Some 0), p').
Proof.
  pose proof (@InsertTuple_GetTuple declaration_layout (TablePage.Init blank_page)
    (mk_table_page INVALID_PAGE_ID [] 0) (mk_TupleMeta false) three_bytes
    (Init_rep blank_page (length_replicate _ _))) as Hi.
  destruct (TablePage.InsertTuple _ _ _) as [[[slot|]|] p'].
  - destruct Hi as (_ & -> & _); [cbn; unfold PAGE_SIZE, TABLE_PAGE_HEADER_SIZE; lia|].
    exists p'. do 3 f_equal.
  - destruct Hi as [Hi _]; [cbn; unfold PAGE_SIZE, TABLE_PAGE_HEADER_SIZE; lia|].
    vm_compute in Hi. discriminate.
  - destruct Hi; cbn; unfold PAGE_SIZE, TABLE_PAGE_HEADER_SIZE; lia.
Defined.
