(* ===== verification/Files.v ===== *)
(** * Files and paths: [common/fs_utils.hpp], [storage/file_path_manager.hpp]

    The part of the file system the program uses, keyed by path text: which files exist
    with which bytes, and which directories exist.  [std::filesystem::path] is a string. *)
From S2P Require Import Prelude Bytes.
From Stdlib Require Import Ascii.
Open Scope Z_scope.

Abbreviation path := string.

Record FileSystem := mk_FileSystem { files : gmap path (list byte); dirs : gset path }.

(** ** [std::filesystem] *)
Definition slash : ascii := "/"%char.

Definition is_absolute (p : path) : bool :=
  match p with String.String c _ => bool_decide (c = slash) | _ => false end.
Definition ends_with_slash (p : path) : bool :=
  match last (String.list_ascii_of_string p) with
  | Some c => bool_decide (c = slash) | None => false
  end.

(** [a / b] *)
Definition path_div (a b : path) : path :=
  if is_absolute b then b
  else if bool_decide (a = ""%string) || ends_with_slash a then (a +:+ b)%string
  else (a +:+ "/" +:+ b)%string.

(** Everything before the last separator. *)
Fixpoint drop_name (rev_path : list ascii) : list ascii :=
  match rev_path with
  | [] => []
  | c :: l => if bool_decide (c = slash) then l else drop_name l
  end.
Definition parent_path (p : path) : path :=
  String.string_of_list_ascii (reverse (drop_name (reverse (String.list_ascii_of_string p)))).

(** [p] and all its parents, the longest first. *)
Fixpoint path_prefixes (fuel : nat) (p : path) : list path :=
  match fuel with
  | O => []
  | S fuel => if bool_decide (p = ""%string) then [] else p :: path_prefixes fuel (parent_path p)
  end.

Definition exists_ (p : path) (fs : FileSystem) : bool :=
  bool_decide (is_Some (files fs !! p)) || bool_decide (p ∈ dirs fs).
Definition parent_exists (p : path) (fs : FileSystem) : bool :=
  bool_decide (parent_path p = ""%string) || bool_decide (parent_path p ∈ dirs fs).

(** [create_directories]: an error code when a prefix is a file or the path is empty. *)
Definition create_directories (p : path) (fs : FileSystem) : bool * FileSystem :=
  let prefixes := path_prefixes (S (String.length p)) p in
  if bool_decide (p = ""%string) || existsb (fun q => bool_decide (is_Some (files fs !! q))) prefixes
  then (false, fs)
  else (true, mk_FileSystem (files fs) (list_to_set prefixes ∪ dirs fs)).

(** Opening for output with truncation: the file is created or emptied. *)
Definition open_trunc (p : path) (fs : FileSystem) : option FileSystem :=
  if parent_exists p fs && bool_decide (p ∉ dirs fs)
  then Some (mk_FileSystem (<[p := []]> (files fs)) (dirs fs)) else None.

(** [remove_all]: the path and everything below it. *)
Definition below (p q : path) : bool := bool_decide (p = q) || String.prefix (p +:+ "/") q.
Definition remove_all (p : path) (fs : FileSystem) : FileSystem :=
  mk_FileSystem (filter (fun e => below p e.1 = false) (files fs))
    (filter (fun q => below p q = false) (dirs fs)).

(** ** [common/fs_utils.hpp] *)
Definition DeletePathIfExists (p : path) : M FileSystem unit :=
  fs ← get_state;
  if exists_ p fs then modify (remove_all p) else mret tt.

Definition GetFileSize (p : path) (fs : FileSystem) : Z :=
  match files fs !! p with
  | Some c => Z.of_nat (length c)
  | None => uwrap 64 (-1)
  end.

Definition CreateFolderIfNotExists (folder_path : path) : M FileSystem unit :=
  fs ← get_state;
  if exists_ folder_path fs then mret tt
  else
    let r := create_directories folder_path fs in
    modify (fun _ => r.2);;
    if negb r.1 then throw IOException else mret tt.

Definition CreateFileIfNotExists (file_path : path) : M FileSystem unit :=
  let directory_path := parent_path file_path in
  fs ← get_state;
  (if negb (exists_ directory_path fs) then CreateFolderIfNotExists directory_path else mret tt);;
  fs ← get_state;
  if exists_ file_path fs then mret tt
  else
    match open_trunc file_path fs with
    | Some fs => modify (fun _ => fs)
    | None => throw IOException
    end.

(** ** [FilePathManager]: every use goes through [GetInstance], which resets the name. *)
Module FilePathManager.
Definition DEFAULT_DB_NAME : string := "gavindb".
Definition GetDatabaseRootPath : path := DEFAULT_DB_NAME.
Definition GetTableMetaPath (table_name : string) : path :=
  path_div (path_div (path_div GetDatabaseRootPath "tables") table_name) "meta".
Definition GetTableDataPath (table_name : string) : path :=
  path_div (path_div (path_div GetDatabaseRootPath "tables") table_name) "data".
Definition GetSystemCatalogPath : path := path_div GetDatabaseRootPath "system_catalog".
End FilePathManager.

(** ** Facts *)
Definition no_slash (name : string) : Prop := slash ∉ String.list_ascii_of_string name.

Definition table_name_ok (name : string) : Prop := name <> ""%string /\ no_slash name.

Lemma not_absolute name : no_slash name -> is_absolute name = false.
Proof.
  destruct name as [|c s]; [done|]. unfold no_slash; cbn. intros Hs.
  apply bool_decide_false. intros ->. apply Hs. left.
Qed.

Lemma no_slash_end name : no_slash name -> ends_with_slash name = false.
Proof.
  unfold no_slash, ends_with_slash. intros Hs.
  destruct (last (String.list_ascii_of_string name)) as [c|] eqn:E; [|done].
  apply bool_decide_false. intros ->. apply Hs. by apply last_Some_elem_of.
Qed.

Lemma list_ascii_app a b : String.list_ascii_of_string (a +:+ b) =
  String.list_ascii_of_string a ++ String.list_ascii_of_string b.
Proof. induction a as [|c a IH]; [done|]. exact (f_equal (cons c) IH). Qed.

Definition GetTableDirPath (name : string) : path := ("gavindb/tables" +:+ "/" +:+ name)%string.

Lemma string_app_assoc a b c : ((a +:+ b) +:+ c)%string = (a +:+ b +:+ c)%string.
Proof. induction a as [|x a IH]; [done|]. exact (f_equal (String.String x) IH). Qed.

(** A file of a table. *)
Lemma table_path_eq name file : table_name_ok name -> is_absolute file = false ->
  path_div (path_div (path_div FilePathManager.GetDatabaseRootPath "tables") name) file =
  (GetTableDirPath name +:+ "/" +:+ file)%string.
Proof.
  intros [Hne Hs] Hf. change (path_div FilePathManager.GetDatabaseRootPath "tables") with "gavindb/tables"%string.
  unfold path_div at 2. rewrite not_absolute by done.
  change (bool_decide _ || ends_with_slash "gavindb/tables") with false. cbv iota.
  unfold path_div. rewrite Hf.
  assert (ends_with_slash ("gavindb/tables" +:+ "/" +:+ name) = false) as ->.
  { unfold ends_with_slash. rewrite !list_ascii_app, !last_app.
    pose proof (no_slash_end name Hs) as He. unfold ends_with_slash in He.
    destruct (last (String.list_ascii_of_string name)) eqn:E; [done|].
    apply last_None in E. destruct name; [done|discriminate]. }
  rewrite bool_decide_false by done. done.
Qed.

Lemma GetTableMetaPath_dir name : table_name_ok name ->
  FilePathManager.GetTableMetaPath name = (GetTableDirPath name +:+ "/" +:+ "meta")%string.
Proof. intros Hn. by apply table_path_eq. Qed.
Lemma GetTableDataPath_dir name : table_name_ok name ->
  FilePathManager.GetTableDataPath name = (GetTableDirPath name +:+ "/" +:+ "data")%string.
Proof. intros Hn. by apply table_path_eq. Qed.

Lemma GetTableDataPath_eq name : table_name_ok name ->
  FilePathManager.GetTableDataPath name = ("gavindb/tables/" +:+ name +:+ "/data")%string.
Proof. intros Hn. rewrite GetTableDataPath_dir by done. unfold GetTableDirPath. by rewrite !string_app_assoc. Qed.

(** Distinct tables have distinct data files. *)
Lemma GetTableDataPath_inj n1 n2 : table_name_ok n1 -> table_name_ok n2 ->
  FilePathManager.GetTableDataPath n1 = FilePathManager.GetTableDataPath n2 -> n1 = n2.
Proof.
  intros H1 H2. rewrite !GetTableDataPath_eq by done. intros E.
  apply (f_equal String.list_ascii_of_string) in E. rewrite !list_ascii_app in E.
  apply app_inv_head in E. apply app_inv_tail in E.
  apply (f_equal String.string_of_list_ascii) in E.
  by rewrite !String.string_of_list_ascii_of_string in E.
Qed.

Lemma GetTableDataPath_not_catalog n : table_name_ok n ->
  FilePathManager.GetTableDataPath n <> FilePathManager.GetSystemCatalogPath.
Proof. intros H. rewrite GetTableDataPath_eq by done. done. Qed.

(** A name put behind a directory. *)
Lemma drop_name_app l r : slash ∉ l -> drop_name (l ++ slash :: r) = r.
Proof.
  induction l as [|c l IH]; [done|]. intros [Hc Hl]%not_elem_of_cons. cbn.
  rewrite bool_decide_false by congruence. by apply IH.
Qed.

Lemma parent_path_app dir name : no_slash name -> parent_path (dir +:+ "/" +:+ name) = dir.
Proof.
  intros Hn. unfold parent_path. rewrite !list_ascii_app, !reverse_app.
  change (reverse (String.list_ascii_of_string "/")) with [slash]. rewrite <- app_assoc. cbn [app].
  rewrite drop_name_app by (by rewrite elem_of_reverse). rewrite reverse_involutive.
  apply String.string_of_list_ascii_of_string.
Qed.

(** [CreateFileIfNotExists] makes the directories above the file and an empty file, and
    never touches a file that exists. *)
Lemma CreateFileIfNotExists_spec p fs : let parent := parent_path p in
  parent <> ""%string -> p ∉ dirs fs ->
  p ∉ path_prefixes (S (String.length parent)) parent ->
  (forall q, q ∈ path_prefixes (S (String.length parent)) parent -> files fs !! q = None) ->
  exists ds, CreateFileIfNotExists p fs =
    (Ok tt, mk_FileSystem (match files fs !! p with Some _ => files fs | None => <[p := []]> (files fs) end) (ds ∪ dirs fs)) /\
    forall q, q ∈ ds -> q ∈ path_prefixes (S (String.length parent)) parent.
Proof.
  cbv zeta. intros Hne Hp Hpp Hq.
  assert (files fs !! parent_path p = None) as Hpar.
  { apply Hq. cbn. rewrite bool_decide_false by done. left. }
  unfold CreateFileIfNotExists, exists_. set (pre := path_prefixes _ _) in *.
  assert (exists ds, (if negb (bool_decide (is_Some (files fs !! parent_path p)) || bool_decide (parent_path p ∈ dirs fs))
     then CreateFolderIfNotExists (parent_path p) else mret tt) fs = (Ok tt, mk_FileSystem (files fs) (ds ∪ dirs fs)) /\
     (forall q, q ∈ ds -> q ∈ pre) /\ parent_path p ∈ ds ∪ dirs fs) as (ds & E & Hds & Hin).
  { rewrite Hpar, (bool_decide_false (is_Some None)) by by intros []. cbn [orb]. case_bool_decide as Hd.
    - exists ∅. split_and!; [|set_solver|set_solver]. rewrite (left_id_L ∅ (∪)). by destruct fs.
    - exists (list_to_set pre). cbn [negb]. unfold CreateFolderIfNotExists, exists_, get_state, mbind, M_bind.
      rewrite Hpar, (bool_decide_false (is_Some None)) by by intros []. cbn [orb]. rewrite bool_decide_false by done.
      unfold create_directories. fold pre. rewrite bool_decide_false by done. cbn [orb].
      assert (existsb (fun q => bool_decide (is_Some (files fs !! q))) pre = false) as ->.
      { apply not_true_is_false. intros (q & Hx & Hy)%existsb_exists. apply list_elem_of_In in Hx.
        apply Hq in Hx. rewrite Hx in Hy. by apply bool_decide_eq_true in Hy as []. }
      cbn. split_and!; [done|intros q; by rewrite elem_of_list_to_set|].
      apply elem_of_union_l, elem_of_list_to_set. unfold pre. cbn. rewrite bool_decide_false by done. left. }
  exists ds. split; [|done]. cbv zeta. rewrite (bind_ok get_state _ fs fs fs) by done.
  rewrite (bind_ok _ _ _ _ _ E). unfold get_state, mbind, M_bind. cbn [files dirs].
  assert (p ∉ ds ∪ dirs fs) as Hnd by set_solver. rewrite (bool_decide_false (p ∈ _)) by done. rewrite orb_false_r.
  destruct (files fs !! p) eqn:Ep; [by rewrite bool_decide_true by eauto|].
  rewrite bool_decide_false by by intros []. unfold open_trunc, parent_exists. cbn [files dirs].
  rewrite (bool_decide_true (parent_path p ∈ _)) by done. rewrite orb_true_r, bool_decide_true by done. done.
Qed.
