(* ===== verification/DiskManager.v ===== *)
(** * The disk manager: [storage/disk_manager.hpp], [storage/disk_manager.cpp]

    One file per table, page [n] at offset [n * PAGE_SIZE].  The catalog is used only
    through [GetTableName].  Writes reach the file at once: the buffers of
    [std::fstream] are not modelled. *)
From S2P Require Import Prelude Bytes Types Files.
Open Scope Z_scope.

(** ** Pages on stable storage, as the buffer pool sees them *)
Class PageStore (D : Type) := {
  WritePage : PageId -> list byte -> M D unit;
  ReadPage : PageId -> M D (list byte);
  (** the pages that may be used, the ones that were ever written or read, the bytes
      stored for a page *)
  ps_storable : PageId -> Prop;
  ps_ok : D -> Prop;
  ps_readable : D -> PageId -> Prop;
  ps_content : D -> PageId -> list byte;
  ps_content_length d p : ps_ok d -> length (ps_content d p) = page_size;
  WritePage_ok d p data : ps_ok d -> ps_storable p -> length data = page_size ->
    exists d', WritePage p data d = (Ok tt, d') /\ ps_ok d' /\ ps_content d' p = data /\
      (forall q, ps_storable q -> q <> p -> ps_content d' q = ps_content d q) /\
      ps_readable d' p /\ (forall q, ps_storable q -> ps_readable d q -> ps_readable d' q);
  ReadPage_ok d p : ps_ok d -> ps_storable p -> ps_readable d p ->
    exists d', ReadPage p d = (Ok (ps_content d p), d') /\ ps_ok d' /\
      (forall q, ps_storable q -> ps_content d' q = ps_content d q) /\
      (forall q, ps_storable q -> ps_readable d q -> ps_readable d' q)
}.

(** ** The manager's state *)
Record DiskManager := mk_DiskManager {
  fs_ : FileSystem;
  (** [table_data_files_]: an open stream is its path and its fail bit *)
  table_data_files_ : gmap Z (path * bool)
}.

Module DiskManager.
(** Bytes stored at an offset, the file being extended with zeros when it is shorter. *)
Definition write_at (off : nat) (bs c : list byte) : list byte :=
  take off (c ++ replicate (off - length c) x00) ++ bs ++ drop (off + length bs) c.

Definition file_content (p : path) (d : DiskManager) : list byte := default [] (files (fs_ d) !! p).

Section operations.
Variable GetTableName : Z -> res string.   (* of the catalog *)

Definition table_data_path (table_id : Z) : res path :=
  if table_id =? SYSTEM_CATALOG_ID then Ok FilePathManager.GetSystemCatalogPath
  else table_name ← GetTableName table_id; Ok (FilePathManager.GetTableDataPath table_name).

Definition AddTableDataIfNotExist (table_id : Z) : M DiskManager unit :=
  d ← get_state;
  if bool_decide (is_Some (table_data_files_ d !! table_id)) then mret tt
  else
    table_data_path ← lift (table_data_path table_id);
    let opened := <[table_id := (table_data_path, false)]> (table_data_files_ d) in
    if bool_decide (is_Some (files (fs_ d) !! table_data_path)) then
      modify (fun d => mk_DiskManager (fs_ d) opened)
    else
      match open_trunc table_data_path (fs_ d) with
      | None => throw IOException
      | Some fs => modify (fun _ => mk_DiskManager fs opened)
      end.

(** [table_data_files_.at(table_id)] *)
Definition stream_at (table_id : Z) : M DiskManager (path * bool) :=
  d ← get_state;
  match table_data_files_ d !! table_id with
  | Some s => mret s
  | None => throw OutOfRange
  end.

Definition set_file (p : path) (c : list byte) (d : DiskManager) : DiskManager :=
  mk_DiskManager (mk_FileSystem (<[p := c]> (files (fs_ d))) (dirs (fs_ d))) (table_data_files_ d).
Definition set_stream (table_id : Z) (s : path * bool) (d : DiskManager) : DiskManager :=
  mk_DiskManager (fs_ d) (<[table_id := s]> (table_data_files_ d)).

(** [page_number_ * PAGE_SIZE]: an [int32_t] times a [uint32_t]. *)
Definition write_offset (page_id : PageId) : Z := uwrap 32 (page_number_ page_id * PAGE_SIZE).
(** [static_cast<size_t>(page_number_) * PAGE_SIZE] *)
Definition read_offset (page_id : PageId) : Z :=
  uwrap 64 (uwrap 64 (page_number_ page_id) * PAGE_SIZE).

Definition WritePage (page_id : PageId) (page_data : list byte) : M DiskManager unit :=
  AddTableDataIfNotExist (table_id_ page_id);;
  data_fs ← stream_at (table_id_ page_id);
  let offset := write_offset page_id in
  if data_fs.2 : bool then mret tt  (* a stream with its fail bit set ignores seek and write *)
  else modify (fun d => set_file data_fs.1
         (write_at (Z.to_nat offset) page_data (file_content data_fs.1 d)) d).

Definition ReadPage (page_id : PageId) : M DiskManager (list byte) :=
  AddTableDataIfNotExist (table_id_ page_id);;
  let offset := read_offset page_id in
  table_name ← lift (GetTableName (table_id_ page_id));
  let data_file_path := FilePathManager.GetTableDataPath table_name in
  d ← get_state;
  if GetFileSize data_file_path (fs_ d) <? offset then throw IOException
  else
    data_fs ← stream_at (table_id_ page_id);
    (* a stream offset is an [int64_t]: seeking to a negative one sets the fail bit *)
    let seekable := offset <? 2 ^ 63 in
    let data :=
      if negb (data_fs.2) && seekable
      then rd (Z.to_nat offset) page_size (file_content data_fs.1 d) else [] in
    if decide (length data < page_size)%nat then
      let page_data := data ++ replicate (page_size - length data) x00 in
      modify (set_stream (table_id_ page_id) (data_fs.1, negb seekable));;
      (if seekable then
         modify (fun d => set_file data_fs.1
           (write_at (Z.to_nat offset) page_data (file_content data_fs.1 d)) d)
       else mret tt);;
      mret page_data
    else mret data.
End operations.
End DiskManager.

(** ** Bytes of a file that is extended with zeros on demand *)
Definition byte_at (c : list byte) (k : nat) : byte := default x00 (c !! k).
Definition page_at (off : nat) (c : list byte) : list byte :=
  (fun i => byte_at c (off + i)) <$> seq 0 page_size.

Lemma length_page_at off c : length (page_at off c) = page_size.
Proof. unfold page_at. by rewrite length_fmap, length_seq. Qed.

Lemma page_at_ext off off' c c' :
  (forall i, (i < page_size)%nat -> byte_at c (off + i) = byte_at c' (off' + i)) ->
  page_at off c = page_at off' c'.
Proof. intros H. apply list_fmap_ext. intros i k [-> Hk]%lookup_seq. by apply H. Qed.

Lemma page_at_list off c l : length l = page_size ->
  (forall i, (i < page_size)%nat -> byte_at c (off + i) = byte_at l i) -> page_at off c = l.
Proof.
  intros Hl H. apply list_eq. intros i. unfold page_at. rewrite list_lookup_fmap.
  destruct (decide (i < page_size)%nat) as [Hi|Hi].
  - rewrite lookup_seq_lt by done. cbn. rewrite (H i Hi). unfold byte_at.
    destruct (lookup_lt_is_Some_2 l i) as [b ->]; [lia|done].
  - rewrite lookup_seq_ge by lia. cbn. symmetry. apply lookup_ge_None. lia.
Qed.

Lemma byte_at_write_at off bs c k : byte_at (DiskManager.write_at off bs c) k =
  if decide (off <= k < off + length bs)%nat then byte_at bs (k - off) else byte_at c k.
Proof.
  unfold byte_at, DiskManager.write_at.
  assert (length (take off (c ++ replicate (off - length c) x00)) = off) as Ht.
  { rewrite length_take, length_app, length_replicate. lia. }
  destruct (decide (k < off)%nat).
  - rewrite decide_False by lia. rewrite lookup_app_l by lia. rewrite lookup_take_lt by done.
    destruct (decide (k < length c)%nat).
    + by rewrite lookup_app_l by done.
    + rewrite lookup_app_r, lookup_replicate_2 by lia. by rewrite (lookup_ge_None_2 c) by lia.
  - rewrite lookup_app_r, Ht by lia. case_decide.
    + by rewrite lookup_app_l by lia.
    + rewrite lookup_app_r, lookup_drop by lia. do 2 f_equal. lia.
Qed.

Lemma length_write_at off bs c : (off <= length c)%nat ->
  length (DiskManager.write_at off bs c) = Nat.max (length c) (off + length bs).
Proof.
  intros. unfold DiskManager.write_at. rewrite !length_app, length_take, length_app,
    length_replicate, length_drop. lia.
Qed.

Lemma length_write_at_ge off bs c :
  (length c <= length (DiskManager.write_at off bs c) /\
   off + length bs <= length (DiskManager.write_at off bs c))%nat.
Proof.
  unfold DiskManager.write_at. rewrite !length_app, length_take, length_app,
    length_replicate, length_drop. lia.
Qed.

(** What a [read] of one page returns, padded, is the page. *)
Lemma page_at_read off c : let data := rd off page_size c in
  page_at off c = data ++ replicate (page_size - length data) x00.
Proof.
  intros data. assert (length data <= page_size)%nat as Hl.
  { unfold data, rd. rewrite length_take. lia. }
  apply page_at_list; [rewrite length_app, length_replicate; lia|].
  intros i Hi. unfold byte_at. destruct (decide (i < length data)%nat) as [Hd|Hd].
  - rewrite lookup_app_l by done. unfold data. by rewrite lookup_rd.
  - rewrite lookup_app_r, lookup_replicate_2 by lia. unfold data, rd in Hd.
    rewrite length_take, length_drop in Hd. by rewrite (lookup_ge_None_2 c) by lia.
Qed.

Lemma page_at_write_eq off bs c : length bs = page_size ->
  page_at off (DiskManager.write_at off bs c) = bs.
Proof.
  intros Hl. apply page_at_list; [done|]. intros i Hi. rewrite byte_at_write_at.
  rewrite decide_True by lia. f_equal. lia.
Qed.

Lemma page_at_write_ne off off' bs c : length bs = page_size ->
  (off' + page_size <= off \/ off + page_size <= off')%nat ->
  page_at off' (DiskManager.write_at off bs c) = page_at off' c.
Proof.
  intros Hl Hd. apply page_at_ext. intros i Hi. rewrite byte_at_write_at.
  by rewrite decide_False by lia.
Qed.

(** Writing back the page that was read changes no byte. *)
Lemma byte_at_write_same off c k :
  byte_at (DiskManager.write_at off (page_at off c) c) k = byte_at c k.
Proof.
  rewrite byte_at_write_at, length_page_at. case_decide as Hk; [|done].
  unfold byte_at at 1, page_at. rewrite list_lookup_fmap, lookup_seq_lt by lia. cbn.
  f_equal. lia.
Qed.

Lemma file_content_set_file p c d :
  DiskManager.file_content p (DiskManager.set_file p c d) = c.
Proof. unfold DiskManager.file_content, DiskManager.set_file; cbn. by rewrite lookup_insert_eq. Qed.

Lemma file_content_set_stream p tid s d :
  DiskManager.file_content p (DiskManager.set_stream tid s d) = DiskManager.file_content p d.
Proof. done. Qed.

(** ** The manager implements [PageStore] for the tables of a catalog *)
Section implementation.
#[local] Set Default Proof Using "Type*".
Variable GetTableName : Z -> res string.
Hypothesis names_ok : forall tid n, GetTableName tid = Ok n -> table_name_ok n.
Hypothesis names_inj : forall t1 t2 n, GetTableName t1 = Ok n -> GetTableName t2 = Ok n -> t1 = t2.

(** Pages below number [2^20] of a table the catalog knows. *)
Definition storable (p : PageId) : Prop :=
  0 <= page_number_ p < 2 ^ 20 /\ table_id_ p <> SYSTEM_CATALOG_ID /\
  exists n, GetTableName (table_id_ p) = Ok n.

Definition data_path (tid : Z) : path :=
  match GetTableName tid with Ok n => FilePathManager.GetTableDataPath n | Err _ => "" end.

Definition page_offset (p : PageId) : nat := Z.to_nat (page_number_ p * PAGE_SIZE).
Definition content (d : DiskManager) (p : PageId) : list byte :=
  page_at (page_offset p) (DiskManager.file_content (data_path (table_id_ p)) d).
Definition readable (d : DiskManager) (p : PageId) : Prop :=
  (page_offset p <= length (DiskManager.file_content (data_path (table_id_ p)) d))%nat.

Record dm_ok (d : DiskManager) : Prop := {
  ok_streams : forall tid s, table_data_files_ d !! tid = Some s -> tid <> SYSTEM_CATALOG_ID ->
    s = (data_path tid, false);
  ok_files : forall p, storable p -> is_Some (files (fs_ d) !! data_path (table_id_ p))
}.

Lemma data_path_inj p q : storable p -> storable q ->
  data_path (table_id_ p) = data_path (table_id_ q) -> table_id_ p = table_id_ q.
Proof.
  intros (_ & _ & n & Hn) (_ & _ & n' & Hn'). unfold data_path. rewrite Hn, Hn'.
  intros E. apply GetTableDataPath_inj in E as ->; eauto.
Qed.

(** Opening the stream of a table changes no file. *)
Lemma open_ok d p : dm_ok d -> storable p ->
  exists d', DiskManager.AddTableDataIfNotExist GetTableName (table_id_ p) d = (Ok tt, d') /\
    dm_ok d' /\ fs_ d' = fs_ d /\
    table_data_files_ d' !! table_id_ p = Some (data_path (table_id_ p), false).
Proof.
  intros Hok Hs. pose proof Hs as (_ & Hns & n & Hn). unfold DiskManager.AddTableDataIfNotExist.
  rewrite (bind_ok get_state _ d d d) by done.
  destruct (table_data_files_ d !! table_id_ p) as [s|] eqn:E.
  - exists d. split_and!; try done. rewrite E. f_equal. by apply (ok_streams d Hok).
  - rewrite bool_decide_false by (by intros [? ?]).
    rewrite (bind_ok _ _ d (data_path (table_id_ p)) d).
    2:{ unfold DiskManager.table_data_path, data_path, lift. rewrite Hn.
        destruct (Z.eqb_spec (table_id_ p) SYSTEM_CATALOG_ID); done. }
    rewrite bool_decide_true by (by apply (ok_files d Hok)).
    eexists; split; [done|]. cbn [fs_ table_data_files_]. split_and!; [|done|].
    + split; [|exact (ok_files d Hok)]. intros tid s Hl Hne. cbn in Hl.
      destruct (decide (table_id_ p = tid)) as [<-|Hd].
      * rewrite lookup_insert_eq in Hl. by injection Hl as <-.
      * rewrite lookup_insert_ne in Hl by done. by apply (ok_streams d Hok).
    + by rewrite lookup_insert_eq.
Qed.

Lemma write_offset_storable p : storable p ->
  Z.to_nat (DiskManager.write_offset p) = page_offset p.
Proof.
  intros ((H0 & H1) & _). unfold DiskManager.write_offset, page_offset, PAGE_SIZE in *.
  by rewrite uwrap_id by width.
Qed.

Lemma read_offset_storable p : storable p ->
  DiskManager.read_offset p = Z.of_nat (page_offset p) /\ Z.of_nat (page_offset p) < 2 ^ 32.
Proof.
  intros ((H0 & H1) & _). unfold DiskManager.read_offset, page_offset, PAGE_SIZE in *.
  rewrite !uwrap_id by (rewrite ?uwrap_id by width; width). split; width.
Qed.

Lemma offset_disjoint p q : storable p -> storable q -> page_number_ p <> page_number_ q ->
  (page_offset q + page_size <= page_offset p \/ page_offset p + page_size <= page_offset q)%nat.
Proof.
  intros ((H0 & H1) & _) ((H2 & H3) & _) Hne. unfold page_offset, page_size, PAGE_SIZE in *. lia.
Qed.

(** A page-sized write at the page's place: the page holds it, the others are untouched. *)
Lemma set_page d p bs : dm_ok d -> storable p -> length bs = page_size ->
  let d' := DiskManager.set_file (data_path (table_id_ p))
    (DiskManager.write_at (page_offset p) bs (DiskManager.file_content (data_path (table_id_ p)) d)) d in
  dm_ok d' /\ content d' p = bs /\
  (forall q, storable q -> q <> p -> content d' q = content d q) /\
  readable d' p /\ (forall q, storable q -> readable d q -> readable d' q).
Proof.
  intros Hok Hs Hl d'.
  assert (forall path, DiskManager.file_content path d' =
    if decide (path = data_path (table_id_ p)) then
      DiskManager.write_at (page_offset p) bs (DiskManager.file_content (data_path (table_id_ p)) d)
    else DiskManager.file_content path d) as Hc.
  { intros path. unfold d', DiskManager.set_file, DiskManager.file_content; cbn. case_decide as Hd.
    - by rewrite Hd, lookup_insert_eq.
    - by rewrite lookup_insert_ne by done. }
  split_and!.
  - split; [exact (ok_streams d Hok)|]. intros q Hq. unfold d'; cbn.
    destruct (decide (data_path (table_id_ p) = data_path (table_id_ q))) as [->|Hne].
    + rewrite lookup_insert_eq. eauto.
    + rewrite lookup_insert_ne by done. by apply (ok_files d Hok).
  - unfold content. rewrite Hc, decide_True by done. by apply page_at_write_eq.
  - intros q Hq Hne. unfold content. rewrite Hc. case_decide as Hd; [|done].
    rewrite Hd. apply page_at_write_ne; [done|]. apply offset_disjoint; [done..|].
    intros E. apply Hne. apply data_path_inj in Hd; [|done..]. destruct p, q; cbn in *. congruence.
  - unfold readable. rewrite Hc, decide_True by done.
    destruct (length_write_at_ge (page_offset p) bs (DiskManager.file_content (data_path (table_id_ p)) d)). lia.
  - intros q Hq. unfold readable. rewrite Hc. case_decide as Hd; [|done]. rewrite Hd.
    destruct (length_write_at_ge (page_offset p) bs (DiskManager.file_content (data_path (table_id_ p)) d)). lia.
Qed.

Lemma stream_at_ok d tid s : table_data_files_ d !! tid = Some s ->
  DiskManager.stream_at tid d = (Ok s, d).
Proof. intros Hs. unfold DiskManager.stream_at, mbind, M_bind, get_state. by rewrite Hs. Qed.

Lemma same_fs_content d d' : fs_ d' = fs_ d ->
  (forall q, content d' q = content d q) /\ (forall q, readable d q -> readable d' q).
Proof. unfold content, readable, DiskManager.file_content. by intros ->. Qed.

Lemma dm_WritePage_ok d p data : dm_ok d -> storable p -> length data = page_size ->
  exists d', DiskManager.WritePage GetTableName p data d = (Ok tt, d') /\ dm_ok d' /\
    content d' p = data /\
    (forall q, storable q -> q <> p -> content d' q = content d q) /\
    readable d' p /\ (forall q, storable q -> readable d q -> readable d' q).
Proof.
  intros Hok Hs Hl. destruct (open_ok d p Hok Hs) as (d1 & E & Hok1 & Hfs & Hst).
  unfold DiskManager.WritePage. rewrite (bind_ok _ _ _ _ _ E).
  rewrite (bind_ok _ _ _ _ _ (stream_at_ok d1 _ _ Hst)). cbn [fst snd].
  rewrite write_offset_storable by done. eexists; split; [done|].
  destruct (same_fs_content d d1 Hfs) as [Hc Hr].
  destruct (set_page d1 p data Hok1 Hs Hl) as (H1 & H2 & H3 & H4 & H5).
  split_and!; try done; [intros q Hq Hne; rewrite <- Hc; by apply H3|eauto].
Qed.

Lemma dm_ReadPage_ok d p : dm_ok d -> storable p -> readable d p ->
  exists d', DiskManager.ReadPage GetTableName p d = (Ok (content d p), d') /\ dm_ok d' /\
    (forall q, storable q -> content d' q = content d q) /\
    (forall q, storable q -> readable d q -> readable d' q).
Proof.
  intros Hok Hs Hrd. destruct (open_ok d p Hok Hs) as (d1 & E & Hok1 & Hfs & Hst).
  pose proof Hs as (_ & Hns & n & Hn). destruct (read_offset_storable p Hs) as [Hoff Hlt].
  destruct (same_fs_content d d1 Hfs) as [Hc Hr].
  unfold DiskManager.ReadPage. rewrite (bind_ok _ _ _ _ _ E). cbn zeta.
  rewrite (bind_ok _ _ d1 n d1) by (by unfold lift; rewrite Hn).
  rewrite (bind_ok get_state _ d1 d1 d1) by done.
  assert (FilePathManager.GetTableDataPath n = data_path (table_id_ p)) as ->
    by (unfold data_path; by rewrite Hn).
  destruct (Z.ltb_spec (GetFileSize (data_path (table_id_ p)) (fs_ d1)) (DiskManager.read_offset p)) as [Hbad|_].
  { exfalso. revert Hrd Hbad. unfold readable, GetFileSize, DiskManager.file_content. rewrite Hfs, Hoff.
    destruct (ok_files d Hok p Hs) as [c ->]. cbn. lia. }
  rewrite (bind_ok _ _ _ _ _ (stream_at_ok d1 _ _ Hst)). cbn [fst snd]. rewrite Hoff.
  destruct (Z.ltb_spec (Z.of_nat (page_offset p)) (2 ^ 63)) as [_|Hbig]; [|width].
  cbn [negb andb]. rewrite Nat2Z.id.
  pose proof (page_at_read (page_offset p) (DiskManager.file_content (data_path (table_id_ p)) d1)) as Hpage.
  cbn zeta in Hpage. set (data := rd _ _ _) in *. rewrite <- Hc. unfold content at 1.
  case_decide as Hshort.
  - rewrite <- Hpage. eexists; split; [done|].
    assert (DiskManager.set_stream (table_id_ p) (data_path (table_id_ p), false) d1 = d1) as Hset.
    { unfold DiskManager.set_stream. rewrite insert_id by done. by destruct d1. }
    rewrite Hset. fold (content d1 p).
    destruct (set_page d1 p (content d1 p) Hok1 Hs (length_page_at _ _)) as (H1 & H2 & H3 & H4 & H5).
    split_and!; [done| |by eauto]. intros q Hq. rewrite <- Hc.
    destruct (decide (q = p)) as [->|Hne]; [done|by apply H3].
  - assert (data = page_at (page_offset p) (DiskManager.file_content (data_path (table_id_ p)) d1)) as ->.
    { rewrite Hpage. replace (page_size - length data)%nat with 0%nat by lia. by rewrite app_nil_r. }
    exists d1. split_and!; try done; eauto.
Qed.

Definition DiskManager_store : PageStore DiskManager := {|
  WritePage := DiskManager.WritePage GetTableName;
  ReadPage := DiskManager.ReadPage GetTableName;
  ps_storable := storable; ps_ok := dm_ok; ps_readable := readable; ps_content := content;
  ps_content_length d p _ := length_page_at _ _;
  WritePage_ok := dm_WritePage_ok; ReadPage_ok := dm_ReadPage_ok
|}.
End implementation.

(** ** Properties *)
Section properties.
#[local] Set Default Proof Using "Type*".
Variable GetTableName : Z -> res string.
Hypothesis names_ok : forall tid n, GetTableName tid = Ok n -> table_name_ok n.
Hypothesis names_inj : forall t1 t2 n, GetTableName t1 = Ok n -> GetTableName t2 = Ok n -> t1 = t2.

(** C25: a page written to disk is the page that is read back, and no other page of any
    table changes by it. *)
Theorem WritePage_ReadPage d p q data : dm_ok GetTableName d ->
  storable GetTableName p -> storable GetTableName q -> readable GetTableName d q ->
  length data = page_size ->
  exists d1 d2, DiskManager.WritePage GetTableName p data d = (Ok tt, d1) /\
    DiskManager.ReadPage GetTableName q d1 =
      (Ok (if decide (q = p) then data else content GetTableName d q), d2) /\
    dm_ok GetTableName d2.
Proof.
  intros Hok Hp Hq Hr Hl.
  destruct (dm_WritePage_ok GetTableName names_ok names_inj d p data Hok Hp Hl)
    as (d1 & E1 & Hok1 & Hc1 & Hne & _ & Hrd).
  destruct (dm_ReadPage_ok GetTableName names_ok names_inj d1 q Hok1 Hq (Hrd q Hq Hr))
    as (d2 & E2 & Hok2 & _).
  exists d1, d2. split_and!; [done| |done]. rewrite E2. case_decide as Hd; [by rewrite Hd, Hc1|].
  by rewrite Hne.
Qed.

(** Reading a page that starts behind the end of its file is an [IOException]; a page
    that the end of the file cuts is completed with zeros, in memory and on disk. *)
Theorem ReadPage_end_of_file d p : dm_ok GetTableName d -> storable GetTableName p ->
  let file := DiskManager.file_content (data_path GetTableName (table_id_ p)) in
  let start := page_offset p in
  match DiskManager.ReadPage GetTableName p d with
  | (r, d') =>
    if decide (length (file d) < start)%nat then
      r = Err IOException /\ file d' = file d
    else exists rest, r = Ok (rd start page_size (file d) ++ rest) /\ rest = replicate (length rest) x00 /\
      length (file d') = Nat.max (length (file d)) (start + page_size) /\
      forall k, byte_at (file d') k = byte_at (file d) k
  end.
Proof.
  intros Hok Hs. cbn zeta.
  destruct (open_ok GetTableName names_ok names_inj d p Hok Hs) as (d1 & E & Hok1 & Hfs & Hst).
  pose proof Hs as (_ & Hns & n & Hn). destruct (read_offset_storable GetTableName names_ok names_inj p Hs) as [Hoff Hlt].
  unfold DiskManager.ReadPage. rewrite (bind_ok _ _ _ _ _ E). cbn zeta.
  rewrite (bind_ok _ _ d1 n d1) by (by unfold lift; rewrite Hn).
  rewrite (bind_ok get_state _ d1 d1 d1) by done.
  assert (FilePathManager.GetTableDataPath n = data_path GetTableName (table_id_ p)) as ->
    by (unfold data_path; by rewrite Hn).
  set (path := data_path GetTableName (table_id_ p)) in *.
  assert (DiskManager.file_content path d1 = DiskManager.file_content path d) as Hf
    by (unfold DiskManager.file_content; by rewrite Hfs).
  assert (GetFileSize path (fs_ d1) = Z.of_nat (length (DiskManager.file_content path d))) as ->.
  { unfold GetFileSize, DiskManager.file_content. rewrite Hfs.
    destruct (ok_files _ d Hok p Hs) as [c Hc]. fold path in Hc. by rewrite Hc. }
  rewrite Hoff. case_decide as Hcut.
  { rewrite (proj2 (Z.ltb_lt _ _)) by lia. done. }
  rewrite (proj2 (Z.ltb_ge _ _)) by lia.
  rewrite (bind_ok _ _ _ _ _ (stream_at_ok d1 _ _ Hst)). cbn [fst snd].
  destruct (Z.ltb_spec (Z.of_nat (page_offset p)) (2 ^ 63)) as [_|Hbig]; [|width].
  cbn [negb andb]. rewrite Nat2Z.id, Hf.
  set (data := rd _ _ _). assert (length data <= page_size)%nat as Hdl
    by (unfold data, rd; rewrite length_take; lia).
  assert (length data = Nat.min page_size (length (DiskManager.file_content path d) - page_offset p)) as Hlen
    by (unfold data, rd; by rewrite length_take, length_drop).
  case_decide as Hshort.
  - pose proof (page_at_read (page_offset p) (DiskManager.file_content path d)) as Hpage.
    cbn zeta in Hpage. fold data in Hpage. rewrite <- Hpage.
    unfold mbind, M_bind, modify, mret, M_ret.
    exists (replicate (page_size - length data) x00). rewrite length_replicate.
    split; [by rewrite Hpage|]. split; [done|].
    rewrite !file_content_set_file, file_content_set_stream, Hf.
    split; [|intros k; apply byte_at_write_same].
    rewrite length_write_at by lia. by rewrite length_page_at.
  - exists []. rewrite app_nil_r, Hf. split_and!; try done. cbn. lia.
Qed.

(** C38: the byte offset of a write is computed in 32 bits: page [n + 2^20] is written over
    page [n] of the same table (4 GiB into the file), although it is read from its own
    place. *)
Theorem WritePage_wraps d tid n data : 0 <= n < 2 ^ 20 ->
  DiskManager.WritePage GetTableName (mk_PageId tid (n + 2 ^ 20)) data d =
  DiskManager.WritePage GetTableName (mk_PageId tid n) data d /\
  DiskManager.read_offset (mk_PageId tid (n + 2 ^ 20)) =
  DiskManager.read_offset (mk_PageId tid n) + 2 ^ 32.
Proof using GetTableName.
  intros Hn. split.
  - unfold DiskManager.WritePage. cbn [table_id_].
    assert (DiskManager.write_offset (mk_PageId tid (n + 2 ^ 20)) =
      DiskManager.write_offset (mk_PageId tid n)) as ->; [|done].
    unfold DiskManager.write_offset, uwrap, PAGE_SIZE; cbn [page_number_].
    replace ((n + 2 ^ 20) * 4096) with (n * 4096 + 1 * 2 ^ 32) by lia.
    by rewrite Z.mod_add.
  - unfold DiskManager.read_offset, PAGE_SIZE; cbn [page_number_].
    rewrite !uwrap_id by (rewrite ?uwrap_id by width; width). lia.
Qed.
End properties.

Definition one_table (tid : Z) : res string := if tid =? 0 then Ok "t"%string else Err Exception.
Definition one_table_disk : DiskManager :=
  mk_DiskManager (mk_FileSystem {["gavindb/tables/t/data"%string := [x01]]} ∅) ∅.

Lemma one_table_names tid n : one_table tid = Ok n -> tid = 0 /\ n = "t"%string.
Proof. unfold one_table. destruct (Z.eqb_spec tid 0); [by intros <-%Ok_inj|done]. Qed.

Lemma one_table_name_ok : table_name_ok "t".
Proof. split; [done|]. unfold no_slash. cbn. set_solver. Qed.

Lemma one_table_disk_ok : dm_ok one_table one_table_disk.
Proof.
  split; [by intros tid s Hs|].
  intros p (_ & _ & n & [Hp _]%one_table_names). rewrite Hp. by eexists.
Qed.

Lemma one_table_storable n : 0 <= n < 2 ^ 20 -> storable one_table (mk_PageId 0 n).
Proof. intros Hn. split; [done|]. split; [done|]. by exists "t"%string. Qed.

Lemma WritePage_ReadPage_witness : exists d1 d2,
  DiskManager.WritePage one_table (mk_PageId 0 3) (replicate page_size x02) one_table_disk = (Ok tt, d1) /\
  DiskManager.ReadPage one_table (mk_PageId 0 0) d1 =
    (Ok (content one_table one_table_disk (mk_PageId 0 0)), d2).
Proof.
  destruct (WritePage_ReadPage one_table
    (fun tid n H => eq_ind_r table_name_ok one_table_name_ok (proj2 (one_table_names tid n H)))
    (fun t1 t2 n H1 H2 => eq_trans (proj1 (one_table_names t1 n H1)) (eq_sym (proj1 (one_table_names t2 n H2))))
    one_table_disk (mk_PageId 0 3) (mk_PageId 0 0) (replicate page_size x02)) as (d1 & d2 & E1 & E2 & _).
  - exact one_table_disk_ok.
  - by apply one_table_storable.
  - by apply one_table_storable.
  - vm_compute. lia.
  - apply length_replicate.
  - exists d1, d2. split; [exact E1|exact E2].
Defined.

Lemma ReadPage_end_of_file_witness : exists d',
  DiskManager.ReadPage one_table (mk_PageId 0 1) one_table_disk = (Err IOException, d').
Proof.
  pose proof (ReadPage_end_of_file one_table
    (fun tid n H => eq_ind_r table_name_ok one_table_name_ok (proj2 (one_table_names tid n H)))
    (fun t1 t2 n H1 H2 => eq_trans (proj1 (one_table_names t1 n H1)) (eq_sym (proj1 (one_table_names t2 n H2))))
    one_table_disk (mk_PageId 0 1) one_table_disk_ok) as Hr.
  destruct (DiskManager.ReadPage one_table (mk_PageId 0 1) one_table_disk) as [r d'].
  exists d'. destruct Hr as [-> _]; [by apply one_table_storable|done].
Defined.

Lemma WritePage_wraps_witness :
  DiskManager.read_offset (mk_PageId 0 (3 + 2 ^ 20)) = DiskManager.read_offset (mk_PageId 0 3) + 2 ^ 32.
Proof.
  apply (WritePage_wraps one_table one_table_disk 0 3 []). lia.
Defined.
