(* ===== verification/BufferPool.v ===== *)
(** * The buffer pool: [storage/page/page.hpp], [storage/buffer/random_replacer.cpp],
    [storage/buffer/buffer_pool.cpp]

    One thread runs at a time, so the pool's mutex is never contended.  A [Page &] is the
    number of its frame.  Disk pages are behind the interface [PageStore]. *)
From S2P Require Import Prelude Bytes Types DiskManager.
Open Scope Z_scope.

(** ** Frames and their latch *)

(** [std::shared_mutex] as one thread sees it: to lock what it already holds exclusively,
    or to unlock what it does not hold, is undefined. *)
Inductive latch : Type := Unlatched | Shared (readers : nat) | Exclusive.

Definition lock (l : latch) : res latch :=
  match l with Unlatched => Ok Exclusive | _ => Err UndefinedBehaviour end.
Definition unlock (l : latch) : res latch :=
  match l with Exclusive => Ok Unlatched | _ => Err UndefinedBehaviour end.
Definition lock_shared (l : latch) : res latch :=
  match l with
  | Unlatched => Ok (Shared 1) | Shared n => Ok (Shared (S n)) | Exclusive => Err UndefinedBehaviour
  end.
Definition unlock_shared (l : latch) : res latch :=
  match l with
  | Shared (S (S n)) => Ok (Shared (S n)) | Shared (S O) => Ok Unlatched
  | _ => Err UndefinedBehaviour
  end.

Record Page := mk_Page {
  page_id_ : PageId;
  is_dirty_ : bool;
  pin_count_ : Z;          (* uint16_t *)
  rwlatch_ : latch;
  data_ : list byte
}.

Module Page.
Definition zeros : list byte := replicate page_size x00.
(** [Page()] *)
Definition make : Page := mk_Page PageId_default false 0 Unlatched zeros.
Definition ResetMemory (p : Page) : Page :=
  mk_Page (page_id_ p) (is_dirty_ p) (pin_count_ p) (rwlatch_ p) zeros.
Definition GetPageId (p : Page) : PageId := page_id_ p.
Definition GetData (p : Page) : list byte := data_ p.
Definition with_id (id : PageId) (p : Page) : Page :=
  mk_Page id (is_dirty_ p) (pin_count_ p) (rwlatch_ p) (data_ p).
Definition with_dirty (d : bool) (p : Page) : Page :=
  mk_Page (page_id_ p) d (pin_count_ p) (rwlatch_ p) (data_ p).
Definition with_pin (n : Z) (p : Page) : Page :=
  mk_Page (page_id_ p) (is_dirty_ p) n (rwlatch_ p) (data_ p).
Definition with_latch (l : latch) (p : Page) : Page :=
  mk_Page (page_id_ p) (is_dirty_ p) (pin_count_ p) l (data_ p).
Definition with_data (d : list byte) (p : Page) : Page :=
  mk_Page (page_id_ p) (is_dirty_ p) (pin_count_ p) (rwlatch_ p) d.
Definition WLatch (p : Page) : res Page := l ← lock (rwlatch_ p); Ok (with_latch l p).
Definition WUnlatch (p : Page) : res Page := l ← unlock (rwlatch_ p); Ok (with_latch l p).
Definition RLatch (p : Page) : res Page := l ← lock_shared (rwlatch_ p); Ok (with_latch l p).
Definition RUnlatch (p : Page) : res Page := l ← unlock_shared (rwlatch_ p); Ok (with_latch l p).
End Page.

(** ** RandomBogoReplacer: [frame_store_] maps a frame to "may be evicted" *)
Module RandomBogoReplacer.
Section replacer.
Context `{!HashOrder Z bool}.

Fixpoint first_evictable (l : list (Z * bool)) : option Z :=
  match l with
  | [] => None
  | (frame_id, true) :: _ => Some frame_id
  | (_, false) :: l => first_evictable l
  end.
Definition Evict (frame_store_ : gmap Z bool) : option Z * gmap Z bool :=
  match first_evictable (iteration frame_store_) with
  | Some frame_id => (Some frame_id, <[frame_id := false]> frame_store_)
  | None => (None, frame_store_)
  end.
End replacer.

Definition Pin (frame_id : Z) (frame_store_ : gmap Z bool) : gmap Z bool :=
  <[frame_id := false]> frame_store_.
Definition Unpin (frame_id : Z) (frame_store_ : gmap Z bool) : gmap Z bool :=
  match frame_store_ !! frame_id with
  | Some _ => <[frame_id := true]> frame_store_
  | None => frame_store_
  end.
End RandomBogoReplacer.

(** ** Page allocators: [storage/page_allocator.hpp] *)
Class PageAllocator (A : Type) := { AllocatePage : A -> res (PageId * A) }.

(** ** The pool *)
Record BufferPool (D : Type) := mk_BufferPool {
  pool_size_ : Z;
  frame_store_ : gmap Z bool;          (* replacer_ *)
  disk_manager_ : D;
  free_list_ : list Z;
  page_table_ : gmap PageId Z;
  pages_ : list Page
}.
Arguments mk_BufferPool {D}. Arguments pool_size_ {D}. Arguments frame_store_ {D}.
Arguments disk_manager_ {D}. Arguments free_list_ {D}. Arguments page_table_ {D}.
Arguments pages_ {D}.

Module BufferPool.
Section operations.
Context {D : Type} `{PageStore D} `{!HashOrder Z bool}.
Abbreviation pool := (BufferPool D).

(** *** Member updates *)
Definition set_store (r : gmap Z bool) (s : pool) : pool :=
  mk_BufferPool (pool_size_ s) r (disk_manager_ s) (free_list_ s) (page_table_ s) (pages_ s).
Definition set_disk (d : D) (s : pool) : pool :=
  mk_BufferPool (pool_size_ s) (frame_store_ s) d (free_list_ s) (page_table_ s) (pages_ s).
Definition set_free (l : list Z) (s : pool) : pool :=
  mk_BufferPool (pool_size_ s) (frame_store_ s) (disk_manager_ s) l (page_table_ s) (pages_ s).
Definition set_table (t : gmap PageId Z) (s : pool) : pool :=
  mk_BufferPool (pool_size_ s) (frame_store_ s) (disk_manager_ s) (free_list_ s) t (pages_ s).
Definition set_pages (l : list Page) (s : pool) : pool :=
  mk_BufferPool (pool_size_ s) (frame_store_ s) (disk_manager_ s) (free_list_ s) (page_table_ s) l.

(** [pages_[frame_id]], read and written; another index is undefined behaviour. *)
Definition frame (s : pool) (frame_id : Z) : option Page :=
  if frame_id <? 0 then None else pages_ s !! Z.to_nat frame_id.
Definition get_page (frame_id : Z) : M pool Page := fun s =>
  match frame s frame_id with Some p => (Ok p, s) | None => (Err UndefinedBehaviour, s) end.
Definition put_page (frame_id : Z) (p : Page) : M pool unit :=
  modify (fun s => set_pages (<[Z.to_nat frame_id := p]> (pages_ s)) s).
Definition update_page (frame_id : Z) (f : Page -> Page) : M pool unit :=
  p ← get_page frame_id; put_page frame_id (f p).

Definition lift_disk {A} (m : M D A) : M pool A := fun s =>
  match m (disk_manager_ s) with (r, d) => (r, set_disk d s) end.

(** *** Operations *)
Definition BufferPool (pool_size : Z) (disk_manager : D) : pool :=
  mk_BufferPool pool_size ∅ disk_manager (Z.of_nat <$> seq 0 (Z.to_nat pool_size)) ∅
    (replicate (Z.to_nat pool_size) Page.make).

(** The frame, or [None] where the code returns false. *)
Definition AllocateFrame : M pool (option Z) :=
  s ← get_state;
  match free_list_ s with
  | [] =>
    match RandomBogoReplacer.Evict (frame_store_ s) with
    | (None, _) => mret None
    | (Some frame_id, store) =>
      modify (set_store store);;
      page ← get_page frame_id;
      assert_that (pin_count_ page =? 0);;
      assert_that (0 <=? page_number_ (page_id_ page));;
      (if is_dirty_ page then lift_disk (WritePage (Page.GetPageId page) (Page.GetData page))
       else mret tt);;
      update_page frame_id Page.ResetMemory;;
      mret (Some frame_id)
    end
  | frame_id :: free => modify (set_free free);; mret (Some frame_id)
  end.

Definition NewPage {A} `{PageAllocator A} (page_allocator : A) : M pool (Z * PageId * A) :=
  allocated ← AllocateFrame;
  match allocated with
  | None => throw StdRuntimeError
  | Some frame_id =>
    s ← get_state;
    assert_that (negb (bool_decide (frame_id ∈ free_list_ s)));;
    assert_that (negb (frame_id =? -1));;
    modify (fun s => set_store (RandomBogoReplacer.Pin frame_id (frame_store_ s)) s);;
    old_page ← get_page frame_id;
    let page_id_to_replace := page_id_ old_page in
    modify (fun s => set_table (delete page_id_to_replace (page_table_ s)) s);;
    r ← lift (AllocatePage page_allocator);
    let page_id := r.1 in
    modify (fun s => set_table (<[page_id := frame_id]> (page_table_ s)) s);;
    s ← get_state;
    assert_that (bool_decide (page_table_ s !! page_id = Some frame_id));;
    assert_that (bool_decide (page_table_ s !! page_id_to_replace = None));;
    update_page frame_id (fun page =>
      Page.ResetMemory (Page.with_dirty false (Page.with_pin 1 (Page.with_id page_id page))));;
    mret (frame_id, page_id, r.2)
  end.

Definition FetchPage (page_id : PageId) : M pool Z :=
  assert_that (negb (page_number_ page_id =? INVALID_PAGE_ID));;
  s ← get_state;
  match page_table_ s !! page_id with
  | Some frame_id =>
    update_page frame_id (fun page => Page.with_pin (uwrap 16 (pin_count_ page + 1)) page);;
    modify (fun s => set_store (RandomBogoReplacer.Pin frame_id (frame_store_ s)) s);;
    mret frame_id
  | None =>
    allocated ← AllocateFrame;
    match allocated with
    | None => throw StdRuntimeError
    | Some frame_id =>
      assert_that (negb (frame_id =? -1));;
      page ← get_page frame_id;
      modify (fun s => set_table (<[page_id := frame_id]> (delete (page_id_ page) (page_table_ s))) s);;
      update_page frame_id (fun page =>
        Page.with_dirty false
          (Page.with_pin (uwrap 16 (pin_count_ page + 1)) (Page.with_id page_id page)));;
      data ← lift_disk (ReadPage page_id);
      update_page frame_id (Page.with_data data);;
      mret frame_id
    end
  end.

Definition UnpinPage (page_id : PageId) (is_dirty : bool) : M pool bool :=
  assert_that (negb (page_number_ page_id =? INVALID_PAGE_ID));;
  s ← get_state;
  match page_table_ s !! page_id with
  | None => throw AssertionFailed
  | Some frame_id =>
    (if is_dirty then update_page frame_id (Page.with_dirty true) else mret tt);;
    page ← get_page frame_id;
    if pin_count_ page =? 0 then mret false
    else
      let pin_count := uwrap 16 (pin_count_ page - 1) in
      update_page frame_id (Page.with_pin pin_count);;
      assert_that (0 <=? pin_count);;
      (if pin_count =? 0
       then modify (fun s => set_store (RandomBogoReplacer.Unpin frame_id (frame_store_ s)) s)
       else mret tt);;
      mret true
  end.

Definition FlushPage (page_id : PageId) : M pool bool :=
  s ← get_state;
  match page_table_ s !! page_id with
  | None => mret false
  | Some frame_id =>
    page ← get_page frame_id;
    lift_disk (WritePage page_id (Page.GetData page));;
    update_page frame_id (Page.with_dirty false);;
    mret true
  end.

Fixpoint flush_frames (n : nat) (i : Z) : M pool unit :=
  match n with
  | O => mret tt
  | S n => page ← get_page i; FlushPage (page_id_ page);; flush_frames n (i + 1)
  end.
Definition FlushAllPages : M pool unit :=
  s ← get_state; flush_frames (Z.to_nat (pool_size_ s)) 0.

Definition DeletePage (page_id : PageId) : M pool bool :=
  s ← get_state;
  match page_table_ s !! page_id with
  | None => mret true
  | Some frame_id =>
    page ← get_page frame_id;
    if 0 <? pin_count_ page then mret false
    else
      modify (fun s => set_table (delete page_id (page_table_ s)) s);;
      modify (fun s => set_free (free_list_ s ++ [frame_id]) s);;
      update_page frame_id Page.ResetMemory;;
      update_page frame_id (fun page =>
        Page.with_dirty false (Page.with_pin 0
          (Page.with_id (mk_PageId (table_id_ (page_id_ page)) INVALID_PAGE_ID) page)));;
      mret true
  end.
End operations.
End BufferPool.

(** ** What the pool stands for *)
Section invariant.
Context {D : Type} `{PageStore D} `{!HashOrder Z bool}.
Abbreviation pool := (BufferPool D).
Implicit Types (s : pool) (f g : Z) (p : Page) (pid q : PageId).

(** The current bytes of a page: those of its frame, else those on disk. *)
Definition content s pid : list byte :=
  match page_table_ s !! pid with
  | Some f => from_option data_ [] (BufferPool.frame s f)
  | None => ps_content (disk_manager_ s) pid
  end.
Definition pins s pid : Z :=
  match page_table_ s !! pid with
  | Some f => from_option pin_count_ 0 (BufferPool.frame s f)
  | None => 0
  end.

Definition latch_of s pid : latch :=
  match page_table_ s !! pid with
  | Some f => from_option rwlatch_ Unlatched (BufferPool.frame s f)
  | None => Unlatched
  end.

(** The page's frame is marked dirty. *)
Definition dirty s pid : Prop :=
  exists f p, page_table_ s !! pid = Some f /\ BufferPool.frame s f = Some p /\ is_dirty_ p = true.
(** The page would survive eviction: it is on disk, or will be written there. *)
Definition kept s pid : Prop :=
  ps_readable (disk_manager_ s) pid \/ dirty s pid.
Definition backed s pid : Prop := kept s pid \/ 0 < pins s pid.

(** The frame is marked dirty, or the page holds what the disk holds. *)
Definition told s pid : Prop := content s pid = ps_content (disk_manager_ s) pid \/ dirty s pid.

(** A page the program may name. *)
Definition page_ok pid : Prop := ps_storable pid /\ 0 <= page_number_ pid.

(** The invariant; [limbo] is the frame an operation has taken and not yet given a page. *)
Record pool_inv (limbo : option Z) s : Prop := {
  po_disk : ps_ok (disk_manager_ s);
  po_size f : is_Some (BufferPool.frame s f) <-> 0 <= f < pool_size_ s;
  po_table pid f : page_table_ s !! pid = Some f ->
    page_ok pid /\ exists p, BufferPool.frame s f = Some p /\ page_id_ p = pid;
  po_free_nodup : NoDup (free_list_ s);
  po_free f : f ∈ free_list_ s -> exists p, BufferPool.frame s f = Some p /\ pin_count_ p = 0 /\
    page_number_ (page_id_ p) = INVALID_PAGE_ID;
  po_evictable f : frame_store_ s !! f = Some true -> exists p, BufferPool.frame s f = Some p /\
    pin_count_ p = 0 /\ page_table_ s !! page_id_ p = Some f;
  po_used f p : BufferPool.frame s f = Some p -> limbo <> Some f ->
    f ∈ free_list_ s \/ page_table_ s !! page_id_ p = Some f;
  po_limbo f : limbo = Some f -> (f ∉ free_list_ s) /\ frame_store_ s !! f <> Some true /\
    (forall pid, page_table_ s !! pid <> Some f) /\
    exists p, BufferPool.frame s f = Some p /\ pin_count_ p = 0;
  po_pins f p : BufferPool.frame s f = Some p -> 0 <= pin_count_ p < 2 ^ 16;
  po_latch f p : BufferPool.frame s f = Some p -> pin_count_ p = 0 -> rwlatch_ p = Unlatched;
  po_length f p : BufferPool.frame s f = Some p -> length (data_ p) = page_size;
  po_clean pid f p : page_table_ s !! pid = Some f -> BufferPool.frame s f = Some p ->
    pin_count_ p = 0 -> is_dirty_ p = false -> data_ p = ps_content (disk_manager_ s) pid
}.
Definition pool_ok s : Prop := pool_inv None s.

(** Some frame can be had: a free one, or one the replacer may evict. *)
Definition can_allocate s : Prop :=
  free_list_ s <> [] \/ exists f, frame_store_ s !! f = Some true.

(** *** Frames *)
Lemma frame_update s f p g : is_Some (BufferPool.frame s f) ->
  BufferPool.frame (BufferPool.set_pages (<[Z.to_nat f := p]> (pages_ s)) s) g =
    if decide (g = f) then Some p else BufferPool.frame s g.
Proof.
  unfold BufferPool.frame, BufferPool.set_pages; cbn [pages_]. intros Hs.
  destruct (Z.ltb_spec f 0) as [|Hf]; [by destruct Hs|].
  destruct Hs as [p0 Hp0]. pose proof (lookup_lt_Some _ _ _ Hp0).
  destruct (Z.ltb_spec g 0); case_decide; try done; [lia| |].
  - subst. by rewrite list_lookup_insert_eq.
  - rewrite list_lookup_insert_ne; [done|lia].
Qed.

Lemma get_page_ok s f p : BufferPool.frame s f = Some p -> BufferPool.get_page f s = (Ok p, s).
Proof. unfold BufferPool.get_page. by intros ->. Qed.

Lemma update_page_ok s f p (h : Page -> Page) : BufferPool.frame s f = Some p ->
  BufferPool.update_page f h s =
    (Ok tt, BufferPool.set_pages (<[Z.to_nat f := h p]> (pages_ s)) s).
Proof. intros Hp. unfold BufferPool.update_page. by rewrite (bind_ok _ _ _ _ _ (get_page_ok s f p Hp)). Qed.

(** A frame holds at most one page. *)
Lemma table_inj L s pid q f : pool_inv L s ->
  page_table_ s !! pid = Some f -> page_table_ s !! q = Some f -> pid = q.
Proof.
  intros Hok H1 H2. destruct (po_table L s Hok pid f H1) as (_ & p & Hp & <-).
  destruct (po_table L s Hok q f H2) as (_ & p' & Hp' & <-). congruence.
Qed.

(** *** The replacer *)
Lemma first_evictable_spec (l : list (Z * bool)) :
  match RandomBogoReplacer.first_evictable l with
  | Some f => (f, true) ∈ l
  | None => forall f, (f, true) ∉ l
  end.
Proof.
  induction l as [|[f []] l IH]; cbn.
  - intros f ?%elem_of_nil. done.
  - left.
  - destruct (RandomBogoReplacer.first_evictable l); [by right|].
    intros g [Hg|Hg]%elem_of_cons; [done|by apply (IH g)].
Qed.

Lemma Evict_spec (r : gmap Z bool) :
  match RandomBogoReplacer.Evict r with
  | (Some f, r') => r !! f = Some true /\ r' = <[f := false]> r
  | (None, r') => r' = r /\ forall f, r !! f <> Some true
  end.
Proof.
  unfold RandomBogoReplacer.Evict. pose proof (first_evictable_spec (iteration r)) as Hs.
  destruct (RandomBogoReplacer.first_evictable (iteration r)) as [f|].
  - rewrite (iteration_perm r) in Hs. apply elem_of_map_to_list in Hs. done.
  - split; [done|]. intros f Hf. apply (Hs f). rewrite (iteration_perm r).
    by apply elem_of_map_to_list.
Qed.
End invariant.

(** ** Taking a frame and giving it a page *)
Section frames.
Context {D : Type} `{PageStore D} `{!HashOrder Z bool}.
Abbreviation pool := (BufferPool D).
Implicit Types (s : pool) (f g : Z) (p : Page) (pid q : PageId).

(** The current bytes of a page are in the store, and can be read from it. *)
Definition on_store s pid : Prop :=
  ps_content (disk_manager_ s) pid = content s pid /\ ps_readable (disk_manager_ s) pid.

(** [s'] is [s] without the page that frame [f] held: nothing is lost. *)
Record taken s f s' : Prop := {
  tk_inv : pool_inv (Some f) s';
  tk_content q : ps_storable q -> content s' q = content s q;
  tk_pins q : pins s' q = pins s q;
  tk_latch q : latch_of s' q = latch_of s q;
  tk_readable q : ps_storable q -> ps_readable (disk_manager_ s) q -> ps_readable (disk_manager_ s') q;
  tk_kept q : ps_storable q -> kept s q -> kept s' q;
  tk_told q : ps_storable q -> told s q -> told s' q;
  tk_stored q : ps_storable q -> on_store s q -> on_store s' q;
  tk_dirty q : 0 < pins s q -> dirty s q -> dirty s' q;
  tk_table q : 0 < pins s q -> page_table_ s' !! q = page_table_ s !! q;
  tk_absent q : page_table_ s !! q = None -> page_table_ s' !! q = None
}.

(** A free frame. *)
Lemma take_free s f free : pool_ok s -> free_list_ s = f :: free ->
  taken s f (BufferPool.set_free free s) /\
  exists p, BufferPool.frame s f = Some p /\ page_table_ s !! page_id_ p = None /\
    page_number_ (page_id_ p) = INVALID_PAGE_ID.
Proof.
  intros Hok Hfree. pose proof (po_free_nodup _ _ Hok) as Hnd. rewrite Hfree in Hnd.
  apply NoDup_cons in Hnd as [Hnf Hnd].
  destruct (po_free _ _ Hok f) as (p & Hp & Hpin & Hnum); [rewrite Hfree; left|].
  assert (forall pid, page_table_ s !! pid <> Some f) as Hnot.
  { intros pid Hpid. destruct (po_table _ _ Hok pid f Hpid) as ([_ Hge] & p' & Hp' & <-).
    rewrite Hp in Hp'. injection Hp' as <-. rewrite Hnum in Hge. unfold INVALID_PAGE_ID in Hge. lia. }
  assert (frame_store_ s !! f <> Some true) as Hnev.
  { intros Hev. destruct (po_evictable _ _ Hok f Hev) as (p' & _ & _ & Ht). by apply (Hnot _ Ht). }
  split.
  - split; try done.
    destruct Hok as [Hd Hsz Ht Hn Hf He Hu Hl Hpi Hla Hle Hc].
    split; cbn [BufferPool.set_free disk_manager_ page_table_ free_list_ frame_store_]; try done.
    + intros g Hg. apply Hf. rewrite Hfree. by right.
    + intros g p' Hg Hne. destruct (Hu g p' Hg) as [Hin|]; [done| |by right].
      rewrite Hfree in Hin. apply elem_of_cons in Hin as [->|Hin]; [done|by left].
    + intros g [= <-]. split_and!; try done. by exists p.
  - exists p. split; [done|]. split; [|done].
    destruct (page_table_ s !! page_id_ p) as [g|] eqn:E; [|done].
    destruct (po_table _ _ Hok _ g E) as ([_ Hge] & _). rewrite Hnum in Hge.
    unfold INVALID_PAGE_ID in Hge. lia.
Qed.

(** An evicted frame: its bytes are on disk. *)
Lemma take_evicted s f p d' : pool_ok s -> frame_store_ s !! f = Some true -> free_list_ s = [] ->
  BufferPool.frame s f = Some p -> ps_ok d' -> ps_content d' (page_id_ p) = data_ p ->
  (forall q, ps_storable q -> q <> page_id_ p -> ps_content d' q = ps_content (disk_manager_ s) q) ->
  (forall q, ps_storable q -> ps_readable (disk_manager_ s) q -> ps_readable d' q) ->
  (is_dirty_ p = true -> ps_readable d' (page_id_ p)) ->
  taken s f (mk_BufferPool (pool_size_ s) (<[f := false]> (frame_store_ s)) d' []
    (delete (page_id_ p) (page_table_ s)) (<[Z.to_nat f := Page.ResetMemory p]> (pages_ s))).
Proof.
  intros Hok Hev Hfree Hp Hd' Hc' Hne' Hr' Hdr.
  destruct (po_evictable _ _ Hok f Hev) as (p0 & Hp0 & Hpin & Ht). rewrite Hp in Hp0. injection Hp0 as <-.
  set (s' := mk_BufferPool _ _ _ _ _ _).
  assert (forall g, BufferPool.frame s' g =
    if decide (g = f) then Some (Page.ResetMemory p) else BufferPool.frame s g) as Hfr.
  { intros g. unfold s'. by apply (frame_update s f). }
  assert (forall q g, page_table_ s' !! q = Some g -> g <> f /\ q <> page_id_ p /\ page_table_ s !! q = Some g) as Htab.
  { intros q g Hq. cbn in Hq. apply lookup_delete_Some in Hq as [Hqp Hq]. split_and!; try done.
    intros ->. apply Hqp. by apply (table_inj _ s (page_id_ p) q f Hok). }
  assert (forall q, ps_storable q -> content s' q = content s q) as Hcont.
  { intros q Hq. unfold content. destruct (page_table_ s' !! q) as [g|] eqn:E.
    - destruct (Htab q g E) as (Hgf & _ & ->). by rewrite Hfr, decide_False.
    - cbn in E. apply lookup_delete_None in E as [<-|E]; cbn [disk_manager_ s'].
      + by rewrite Ht, Hp, Hc'.
      + rewrite E. apply Hne'; [done|]. intros ->. congruence. }
  split.
  - destruct Hok as [Hd Hsz Htb Hn Hf He Hu Hl Hpi Hla Hle Hcl].
    split; cbn [disk_manager_ page_table_ free_list_ frame_store_ s'].
    + done.
    + intros g. rewrite Hfr. case_decide as Hgf; [|apply Hsz]. subst g.
      split; [intros _; apply (Hsz f)|]; by eexists.
    + intros pid g Hg. destruct (Htab pid g Hg) as (Hgf & _ & Hg'). rewrite Hfr, decide_False by done. auto.
    + constructor.
    + intros g Hg. by apply elem_of_nil in Hg.
    + intros g Hg. destruct (decide (g = f)) as [->|Hgf]; [by rewrite lookup_insert_eq in Hg|].
      rewrite lookup_insert_ne in Hg by done. destruct (He g Hg) as (p' & Hp' & Hz & Hg').
      exists p'. rewrite Hfr, decide_False by done. split_and!; try done.
      apply lookup_delete_Some. split; [|done]. intros E. rewrite <- E in Hg'. congruence.
    + intros g p' Hg Hng. rewrite Hfr in Hg. case_decide; [congruence|].
      destruct (Hu g p' Hg) as [Hin|Hg']; [done|rewrite Hfree in Hin; by apply elem_of_nil in Hin|].
      right. apply lookup_delete_Some. split; [|done]. intros E. rewrite <- E in Hg'. congruence.
    + intros g [= <-]. split_and!; [by intros ?%elem_of_nil|by rewrite lookup_insert_eq| |].
      * intros pid Hpid. by destruct (Htab pid f Hpid).
      * eexists. by rewrite Hfr, decide_True.
    + intros g p' Hg. rewrite Hfr in Hg. case_decide; [|by apply (Hpi g)].
      injection Hg as <-. exact (Hpi f p Hp).
    + intros g p' Hg. rewrite Hfr in Hg. case_decide; [|by apply (Hla g)].
      injection Hg as <-. exact (Hla f p Hp).
    + intros g p' Hg. rewrite Hfr in Hg. case_decide; [|by apply (Hle g)].
      injection Hg as <-. apply length_replicate.
    + intros pid g p' Hg Hg' Hz Hdirty. destruct (Htab pid g Hg) as (Hgf & Hqp & Hgs).
      rewrite Hfr, decide_False in Hg' by done. rewrite Hne' by (done || apply (Htb pid g Hgs)).
      by apply (Hcl pid g).
  - exact Hcont.
  - intros q. unfold pins. destruct (page_table_ s' !! q) as [g|] eqn:E.
    + destruct (Htab q g E) as (Hgf & _ & ->). by rewrite Hfr, decide_False.
    + cbn in E. apply lookup_delete_None in E as [<-|E]; [by rewrite Ht, Hp|by rewrite E].
  - intros q. unfold latch_of. destruct (page_table_ s' !! q) as [g|] eqn:E.
    + destruct (Htab q g E) as (Hgf & _ & ->). by rewrite Hfr, decide_False.
    + cbn in E. apply lookup_delete_None in E as [<-|E]; [|by rewrite E].
      rewrite Ht, Hp. cbn. symmetry. by apply (po_latch _ _ Hok f).
  - done.
  - intros q Hq [Hk|(g & p' & Hg & Hp' & Hdi)]; [left; by apply Hr'|].
    destruct (decide (q = page_id_ p)) as [->|Hqp].
    + left. apply Hdr. congruence.
    + right. exists g, p'. assert (g <> f) as Hgf.
      { intros ->. apply Hqp. by apply (table_inj _ s q (page_id_ p) f Hok). }
      rewrite Hfr, decide_False by done. split_and!; try done. by apply lookup_delete_Some.
  - intros q Hq Htq. destruct (page_table_ s' !! q) as [g|] eqn:E; [|left; unfold content; by rewrite E].
    destruct (Htab q g E) as (Hgf & Hqp & Hg). destruct Htq as [Hc|(g' & p' & Hg' & Hp' & Hd)]; [left|right].
    + cbn [disk_manager_ s']. rewrite Hne', <- Hc by done. unfold content. by rewrite E, Hg, Hfr, decide_False.
    + assert (g' = g) as -> by congruence. exists g, p'. by rewrite Hfr, decide_False.
  - intros q Hq [Hcq Hrq]. split; [|by apply Hr']. rewrite Hcont by done. cbn [disk_manager_ s'].
    destruct (decide (q = page_id_ p)) as [->|Hqp]; [|by rewrite Hne'].
    rewrite Hc'. unfold content. by rewrite Ht, Hp.
  - intros q Hq (g & p' & Hg & Hp' & Hd). destruct (decide (q = page_id_ p)) as [->|Hqp].
    + unfold pins in Hq. rewrite Ht, Hp in Hq. cbn in Hq. lia.
    + exists g, p'. assert (g <> f) as Hgf.
      { intros ->. apply Hqp. by apply (table_inj _ s q (page_id_ p) f Hok). }
      rewrite Hfr, decide_False by done. split_and!; try done. by apply lookup_delete_Some.
  - intros q Hq. cbn. destruct (decide (q = page_id_ p)) as [->|Hqp].
    + unfold pins in Hq. rewrite Ht, Hp in Hq. cbn in Hq. lia.
    + by apply lookup_delete_ne.
  - intros q Hq. cbn. by apply lookup_delete_None; right.
Qed.

Lemma set_table_same s t : page_table_ s = t -> BufferPool.set_table t s = s.
Proof. intros <-. by destruct s. Qed.

Lemma AllocateFrame_spec s : pool_ok s ->
  match BufferPool.AllocateFrame s with
  | (Ok None, s1) => s1 = s /\ ~ can_allocate s
  | (Ok (Some f), s1) => exists p, BufferPool.frame s1 f = Some p /\ pin_count_ p = 0 /\
      (f ∉ free_list_ s1) /\ 0 <= f /\
      (forall g free, free_list_ s = g :: free -> s1 = BufferPool.set_free free s) /\
      (page_table_ s !! page_id_ p = Some f \/ page_number_ (page_id_ p) = INVALID_PAGE_ID) /\
      taken s f (BufferPool.set_table (delete (page_id_ p) (page_table_ s1)) s1)
  | (Err _, _) => False
  end.
Proof.
  intros Hok. unfold BufferPool.AllocateFrame. rewrite (bind_ok get_state _ s s s) by done.
  assert (forall f p, BufferPool.frame s f = Some p -> 0 <= f) as Hpos.
  { intros f p. unfold BufferPool.frame. destruct (Z.ltb_spec f 0); [done|lia]. }
  destruct (free_list_ s) as [|f free] eqn:Hfree.
  - pose proof (Evict_spec (frame_store_ s)) as Hev.
    destruct (RandomBogoReplacer.Evict (frame_store_ s)) as [[f|] r].
    2:{ destruct Hev as [_ Hno]. cbn. split; [done|]. intros [?|[f Hf]]; [done|by apply (Hno f)]. }
    destruct Hev as [Hf ->]. destruct (po_evictable _ _ Hok f Hf) as (p & Hp & Hz & Ht).
    destruct (po_table _ _ Hok _ f Ht) as ([Hst Hge] & _).
    rewrite (bind_ok _ _ s tt (BufferPool.set_store (<[f := false]> (frame_store_ s)) s)) by done.
    set (s0 := BufferPool.set_store _ _).
    rewrite (bind_ok _ _ s0 p s0) by (by apply get_page_ok). unfold assert_that, assertion.
    rewrite (proj2 (Z.eqb_eq _ _) Hz), (proj2 (Z.leb_le _ _) Hge).
    rewrite !(bind_ok (lift (Ok tt)) _ s0 tt s0) by done.
    assert (exists d', (if is_dirty_ p then BufferPool.lift_disk (WritePage (Page.GetPageId p) (Page.GetData p))
        else mret tt) s0 = (Ok tt, BufferPool.set_disk d' s0) /\ ps_ok d' /\
      ps_content d' (page_id_ p) = data_ p /\
      (forall q, ps_storable q -> q <> page_id_ p -> ps_content d' q = ps_content (disk_manager_ s) q) /\
      (forall q, ps_storable q -> ps_readable (disk_manager_ s) q -> ps_readable d' q) /\
      (is_dirty_ p = true -> ps_readable d' (page_id_ p))) as
      (d' & Hw & Hd' & Hc' & Hne' & Hr' & Hdr).
    { destruct (is_dirty_ p) eqn:Hdirty.
      - destruct (WritePage_ok (disk_manager_ s) (page_id_ p) (data_ p)) as (d' & E & ? & ? & ? & ? & ?);
          [apply (po_disk _ _ Hok)|done|apply (po_length _ _ Hok f p Hp)|].
        exists d'. split_and!; try done. unfold BufferPool.lift_disk, Page.GetPageId, Page.GetData.
        cbn [disk_manager_ s0 BufferPool.set_store]. by rewrite E.
      - exists (disk_manager_ s). split_and!; try done; [apply (po_disk _ _ Hok)|].
        symmetry. by apply (po_clean _ _ Hok _ f p). }
    rewrite (bind_ok _ _ _ _ _ Hw). rewrite (bind_ok _ _ _ _ _ (update_page_ok (BufferPool.set_disk d' s0) f p _ Hp)).
    eexists. split; [|split; [|split; [|split; [|split; [|split]]]]].
    + rewrite (frame_update (BufferPool.set_disk d' s0)) by (by exists p). by rewrite decide_True.
    + done.
    + cbn. rewrite Hfree. apply not_elem_of_nil.
    + by apply (Hpos f p).
    + done.
    + by left.
    + pose proof (take_evicted s f p d' Hok Hf Hfree Hp Hd' Hc' Hne' Hr' Hdr) as Hk.
      unfold BufferPool.set_table, BufferPool.set_pages, BufferPool.set_disk, s0, BufferPool.set_store;
        cbn. by rewrite Hfree.
  - destruct (take_free s f free Hok Hfree) as (Hk & p & Hp & Ht & Hnum).
    exists p. split; [done|]. destruct (po_limbo _ _ (tk_inv _ _ _ Hk) f eq_refl) as (Hnf & _ & _ & p' & Hp' & Hz).
    assert (p' = p) as ->.
    { change (BufferPool.frame s f = Some p') in Hp'. congruence. }
    split_and!; try done; [by apply (Hpos f p)|by intros g free' [= <- <-]|by right|].
    rewrite set_table_same; [done|]. symmetry. by apply delete_id.
Qed.

(** Giving the frame in limbo a page. *)
Lemma attach s f pid p : pool_inv (Some f) s -> page_ok pid -> page_table_ s !! pid = None ->
  page_id_ p = pid -> pin_count_ p = 1 -> length (data_ p) = page_size ->
  let s' := BufferPool.set_pages (<[Z.to_nat f := p]> (pages_ s))
    (BufferPool.set_table (<[pid := f]> (page_table_ s)) s) in
  pool_ok s' /\ BufferPool.frame s' f = Some p /\
  (forall q, q <> pid -> content s' q = content s q /\ pins s' q = pins s q /\ latch_of s' q = latch_of s q).
Proof.
  intros Hok Hpid Hnone Hid Hpin Hlen s'.
  destruct (po_limbo _ _ Hok f eq_refl) as (Hnf & Hnev & Hnt & p0 & Hp0 & Hz0).
  assert (forall g, BufferPool.frame s' g = if decide (g = f) then Some p else BufferPool.frame s g) as Hfr.
  { intros g. apply (frame_update (BufferPool.set_table _ s) f). by exists p0. }
  assert (forall q g, page_table_ s' !! q = Some g -> (q = pid /\ g = f) \/
    (q <> pid /\ g <> f /\ page_table_ s !! q = Some g)) as Htab.
  { intros q g Hq. cbn in Hq. apply lookup_insert_Some in Hq as [[<- <-]|[Hne Hq]]; [by left|].
    right. split_and!; try done. intros ->. by apply (Hnt q). }
  split_and!.
  - destruct Hok as [Hd Hsz Htb Hn Hf He Hu Hl Hpi Hla Hle Hcl].
    split; cbn [disk_manager_ page_table_ free_list_ frame_store_ s' BufferPool.set_pages BufferPool.set_table].
    + done.
    + intros g. rewrite Hfr. case_decide as Hgf; [|apply Hsz]. subst g.
      split; [intros _; apply (Hsz f)|]; by eexists.
    + intros q g Hg. destruct (Htab q g Hg) as [[-> ->]|(Hq & Hgf & Hg')]; rewrite Hfr.
      * rewrite decide_True by done. split; [done|]. by exists p.
      * rewrite decide_False by done. by apply Htb.
    + done.
    + intros g Hg. rewrite Hfr, decide_False by (by intros ->). by apply Hf.
    + intros g Hg. assert (g <> f) as Hgf by congruence. rewrite Hfr, decide_False by done.
      destruct (He g Hg) as (p' & Hp' & Hz & Ht'). exists p'. split_and!; try done.
      rewrite lookup_insert_ne; [done|]. intros E. rewrite <- E in Ht'. congruence.
    + intros g p' Hg _. rewrite Hfr in Hg. case_decide as Hgf.
      * injection Hg as <-. right. rewrite Hid, Hgf. apply lookup_insert_eq.
      * destruct (Hu g p' Hg) as [?|Ht']; [congruence|by left|]. right.
        rewrite lookup_insert_ne; [done|]. intros E. rewrite <- E in Ht'. congruence.
    + done.
    + intros g p' Hg. rewrite Hfr in Hg. case_decide; [|by apply (Hpi g)].
      injection Hg as <-. rewrite Hpin. lia.
    + intros g p' Hg Hz. rewrite Hfr in Hg. case_decide; [|by apply (Hla g)].
      injection Hg as <-. lia.
    + intros g p' Hg. rewrite Hfr in Hg. case_decide; [|by apply (Hle g)]. by injection Hg as <-.
    + intros q g p' Hg Hg' Hz Hdirty. rewrite Hfr in Hg'.
      destruct (Htab q g Hg) as [[-> ->]|(Hq & Hgf & Hgs)].
      * rewrite decide_True in Hg' by done. injection Hg' as <-. lia.
      * rewrite decide_False in Hg' by done. by apply (Hcl q g).
  - by rewrite Hfr, decide_True.
  - intros q Hne. unfold content, pins, latch_of. cbn [page_table_ s' BufferPool.set_pages BufferPool.set_table].
    rewrite lookup_insert_ne by done. destruct (page_table_ s !! q) as [g|] eqn:E; [|done].
    assert (g <> f) as Hgf by (intros ->; by apply (Hnt q)). by rewrite Hfr, decide_False.
Qed.

Lemma content_of s pid f p : BufferPool.frame s f = Some p ->
  page_table_ s !! pid = Some f -> content s pid = data_ p /\ pins s pid = pin_count_ p /\
  latch_of s pid = rwlatch_ p.
Proof. intros Hp Ht. unfold content, pins, latch_of. by rewrite Ht, Hp. Qed.

(** The disk may change as long as the pages on it do not. *)
Lemma change_disk L s d : pool_inv L s -> ps_ok d ->
  (forall q, ps_storable q -> ps_content d q = ps_content (disk_manager_ s) q) ->
  pool_inv L (BufferPool.set_disk d s) /\
  (forall q, ps_storable q -> content (BufferPool.set_disk d s) q = content s q).
Proof.
  intros Hok Hd Hc. split.
  - destruct Hok as [Hd0 Hsz Htb Hn Hf He Hu Hl Hpi Hla Hle Hcl]. split; try done.
    intros q g p Hg Hp Hz Hdirty. cbn. rewrite Hc by apply (Htb q g Hg). by apply (Hcl q g).
  - intros q Hq. unfold content. cbn. by rewrite Hc.
Qed.

(** Keeping a frame from being evicted never breaks the invariant. *)
Lemma change_store L s r : pool_inv L s ->
  (forall g, r !! g = Some true -> frame_store_ s !! g = Some true) ->
  pool_inv L (BufferPool.set_store r s).
Proof.
  intros Hok Hr. destruct Hok as [Hd0 Hsz Htb Hn Hf He Hu Hl Hpi Hla Hle Hcl]. split; try done.
  - intros g Hg. by apply He, Hr.
  - intros g Hg. destruct (Hl g Hg) as (? & Hnev & ? & ?). split_and!; try done. cbn. auto.
Qed.

Lemma Pin_evictable f (r : gmap Z bool) g :
  RandomBogoReplacer.Pin f r !! g = Some true -> r !! g = Some true.
Proof. unfold RandomBogoReplacer.Pin. by intros [[_ ?]|[_ ?]]%lookup_insert_Some. Qed.

(** *** Fetching a page *)
Definition fetchable s pid : Prop :=
  match page_table_ s !! pid with
  | Some _ => pins s pid < 2 ^ 16 - 1
  | None => ps_readable (disk_manager_ s) pid /\ can_allocate s
  end.

(** [s'] is [s] after page [pid] was pinned once more, in frame [f]. *)
Record fetched s pid f s' : Prop := {
  ft_ok : pool_ok s';
  ft_frame : page_table_ s' !! pid = Some f /\
    exists p, BufferPool.frame s' f = Some p /\ page_id_ p = pid /\ data_ p = content s pid;
  ft_content q : ps_storable q -> content s' q = content s q;
  ft_pins q : pins s' q = pins s q + if decide (q = pid) then 1 else 0;
  ft_latch q : latch_of s' q = latch_of s q;
  ft_readable q : ps_storable q -> ps_readable (disk_manager_ s) q -> ps_readable (disk_manager_ s') q;
  ft_kept q : ps_storable q -> kept s q -> kept s' q;
  ft_told q : ps_storable q -> told s q -> told s' q;
  ft_dirty q : q = pid \/ 0 < pins s q -> dirty s q -> dirty s' q;
  ft_table q : 0 < pins s q -> page_table_ s' !! q = page_table_ s !! q;
  ft_absent q : q <> pid -> page_table_ s !! q = None -> page_table_ s' !! q = None;
  ft_clean : pins s pid = 0 -> content s pid = ps_content (disk_manager_ s') pid \/
    exists p, BufferPool.frame s' f = Some p /\ is_dirty_ p = true;
  ft_free g free : page_table_ s !! pid = None -> free_list_ s = g :: free ->
    free_list_ s' = free /\ frame_store_ s' = frame_store_ s
}.

Lemma kept_update s f p p' r d q : BufferPool.frame s f = Some p ->
  (ps_readable (disk_manager_ s) q -> ps_readable d q) ->
  (page_table_ s !! q = Some f -> is_dirty_ p = true -> is_dirty_ p' = true \/ ps_readable d q) ->
  kept s q -> kept (BufferPool.set_disk d
    (BufferPool.set_store r (BufferPool.set_pages (<[Z.to_nat f := p']> (pages_ s)) s))) q.
Proof.
  intros Hp Hr Hdi [Hk|(g & p0 & Hg & Hp0 & Hd0)]; [left; by apply Hr|].
  assert (forall h, BufferPool.frame (BufferPool.set_disk d
    (BufferPool.set_store r (BufferPool.set_pages (<[Z.to_nat f := p']> (pages_ s)) s))) h =
    if decide (h = f) then Some p' else BufferPool.frame s h) as Hfr.
  { intros h. apply (frame_update s f p' h). by exists p. }
  destruct (decide (g = f)) as [->|Hgf].
  - assert (p0 = p) as -> by congruence. destruct (Hdi Hg Hd0); [|by left].
    right. exists f, p'. by rewrite Hfr, decide_True.
  - right. exists g, p0. by rewrite Hfr, decide_False.
Qed.

Lemma told_update s f p p' r d q : BufferPool.frame s f = Some p ->
  ps_content d q = ps_content (disk_manager_ s) q ->
  (page_table_ s !! q = Some f ->
     is_dirty_ p' = true \/ (data_ p' = data_ p /\ (is_dirty_ p = true -> is_dirty_ p' = true))) ->
  told s q -> told (BufferPool.set_disk d
    (BufferPool.set_store r (BufferPool.set_pages (<[Z.to_nat f := p']> (pages_ s)) s))) q.
Proof.
  intros Hp Hd Hf Ht. set (s' := BufferPool.set_disk _ _).
  assert (forall h, BufferPool.frame s' h = if decide (h = f) then Some p' else BufferPool.frame s h) as Hfr.
  { intros h. apply (frame_update s f p' h). by exists p. }
  destruct (decide (page_table_ s !! q = Some f)) as [Hq|Hq].
  - destruct (Hf Hq) as [Hdi|[Hda Hdi]]; [right; exists f, p'; by rewrite Hfr, decide_True|].
    destruct Ht as [Hc|(g & p0 & Hg & Hp0 & Hd0)]; [left|right].
    + cbn [disk_manager_ s' BufferPool.set_disk]. rewrite Hd, <- Hc. unfold content. cbn [page_table_ s' BufferPool.set_disk BufferPool.set_store BufferPool.set_pages].
      rewrite Hq, Hfr, decide_True, Hp by done. done.
    + exists f, p'. rewrite Hfr, decide_True by done. split_and!; try done. apply Hdi. congruence.
  - destruct Ht as [Hc|(g & p0 & Hg & Hp0 & Hd0)]; [left|right].
    + cbn [disk_manager_ s' BufferPool.set_disk]. rewrite Hd, <- Hc. unfold content. cbn [page_table_ s' BufferPool.set_disk BufferPool.set_store BufferPool.set_pages disk_manager_].
      destruct (page_table_ s !! q) as [g|]; [|done]. by rewrite Hfr, decide_False by congruence.
    + exists g, p0. by rewrite Hfr, decide_False by congruence.
Qed.

Lemma dirty_update s f p p' r d q : BufferPool.frame s f = Some p ->
  (page_table_ s !! q = Some f -> is_dirty_ p = true -> is_dirty_ p' = true) ->
  dirty s q -> dirty (BufferPool.set_disk d
    (BufferPool.set_store r (BufferPool.set_pages (<[Z.to_nat f := p']> (pages_ s)) s))) q.
Proof.
  intros Hp Hdi (g & p0 & Hg & Hp0 & Hd0). set (s' := BufferPool.set_disk _ _).
  assert (forall h, BufferPool.frame s' h = if decide (h = f) then Some p' else BufferPool.frame s h) as Hfr.
  { intros h. apply (frame_update s f p' h). by exists p. }
  destruct (decide (g = f)) as [->|Hgf].
  - assert (p0 = p) as -> by congruence. exists f, p'. rewrite Hfr, decide_True by done. auto.
  - exists g, p0. by rewrite Hfr, decide_False.
Qed.

(** Changing a mapped frame, what the replacer knows of it, and its page on disk. *)
Lemma modify_frame_disk s pid f p p' r d : pool_ok s -> page_table_ s !! pid = Some f ->
  BufferPool.frame s f = Some p -> page_id_ p' = pid -> 0 <= pin_count_ p' < 2 ^ 16 ->
  (pin_count_ p' = 0 -> rwlatch_ p' = Unlatched) -> length (data_ p') = page_size ->
  (pin_count_ p' = 0 -> is_dirty_ p' = false -> data_ p' = ps_content d pid) ->
  ps_ok d -> (forall q, ps_storable q -> q <> pid -> ps_content d q = ps_content (disk_manager_ s) q) ->
  (forall g, r !! g = Some true ->
     (g <> f /\ frame_store_ s !! g = Some true) \/ (g = f /\ pin_count_ p' = 0)) ->
  let s' := BufferPool.set_disk d
    (BufferPool.set_store r (BufferPool.set_pages (<[Z.to_nat f := p']> (pages_ s)) s)) in
  pool_ok s' /\ BufferPool.frame s' f = Some p' /\
  (forall q, q <> pid -> pins s' q = pins s q /\ latch_of s' q = latch_of s q /\
     (ps_storable q -> content s' q = content s q)).
Proof.
  intros Hok Ht Hp Hid' Hpin' Hla' Hlen' Hcl' Hd' Hcd Hr s'.
  destruct (po_table _ _ Hok pid f Ht) as (Hpid & p0 & Hp0 & Hid). assert (p0 = p) as -> by congruence.
  assert (forall g, BufferPool.frame s' g = if decide (g = f) then Some p' else BufferPool.frame s g) as Hfr.
  { intros g. apply (frame_update s f p' g). by exists p. }
  split_and!.
  - pose proof Hok as [Hd0 Hsz Htb Hn Hf He Hu Hl Hpi Hla Hle Hcl]. split; try done.
    + intros g. rewrite Hfr. case_decide as Hgf; [|apply Hsz]. subst g.
      split; [intros _; apply (Hsz f)|]; by eexists.
    + intros q g Hg. rewrite Hfr. case_decide as Hgf; [|by apply Htb]. split; [by apply (Htb q g)|].
      exists p'. split; [done|]. subst g. rewrite Hid'. by apply (table_inj _ s pid q f Hok).
    + intros g Hg. rewrite Hfr. case_decide as Hgf; [|by apply Hf]. destruct (Hf g Hg) as (p1 & Hp1 & Hz & Hno).
      subst g. rewrite Hp in Hp1. injection Hp1 as <-. destruct Hpid as [_ Hge].
      rewrite <- Hid, Hno in Hge. unfold INVALID_PAGE_ID in Hge. lia.
    + intros g [[Hgf Hg]|[-> Hz]]%Hr; rewrite Hfr.
      * rewrite decide_False by done. by apply He.
      * rewrite decide_True by done. exists p'. split_and!; [done|done|]. by rewrite Hid'.
    + intros g p1 Hg Hne. rewrite Hfr in Hg. case_decide as Hgf; [|by apply (Hu g p1)].
      injection Hg as <-. right. cbn. by rewrite Hgf, Hid'.
    + intros g p1 Hg. rewrite Hfr in Hg. case_decide; [|by apply (Hpi g)]. by injection Hg as <-.
    + intros g p1 Hg Hz. rewrite Hfr in Hg. case_decide; [|by apply (Hla g)]. injection Hg as <-. auto.
    + intros g p1 Hg. rewrite Hfr in Hg. case_decide; [|by apply (Hle g)]. by injection Hg as <-.
    + intros q g p1 Hg Hg' Hz Hdi. rewrite Hfr in Hg'. case_decide as Hgf.
      * injection Hg' as <-. subst g. rewrite <- (table_inj _ s pid q f Hok Ht Hg). by apply Hcl'.
      * cbn. rewrite Hcd; [by apply (Hcl q g)|by apply (Htb q g Hg)|].
        intros ->. apply Hgf. cbn in Hg. congruence.
  - by rewrite Hfr, decide_True.
  - intros q Hne. unfold content, pins, latch_of.
    cbn [page_table_ disk_manager_ s' BufferPool.set_disk BufferPool.set_store BufferPool.set_pages].
    destruct (page_table_ s !! q) as [g|] eqn:E; [|split_and!; try done; intros; by rewrite Hcd].
    assert (g <> f) as Hgf by (intros ->; apply Hne; by apply (table_inj _ s q pid f Hok)).
    by rewrite Hfr, decide_False.
Qed.

Lemma modify_frame s pid f p p' r : pool_ok s -> page_table_ s !! pid = Some f ->
  BufferPool.frame s f = Some p -> page_id_ p' = pid -> 0 <= pin_count_ p' < 2 ^ 16 ->
  (pin_count_ p' = 0 -> rwlatch_ p' = Unlatched) -> length (data_ p') = page_size ->
  (pin_count_ p' = 0 -> is_dirty_ p' = false -> data_ p' = ps_content (disk_manager_ s) pid) ->
  (forall g, r !! g = Some true ->
     (g <> f /\ frame_store_ s !! g = Some true) \/ (g = f /\ pin_count_ p' = 0)) ->
  let s' := BufferPool.set_store r (BufferPool.set_pages (<[Z.to_nat f := p']> (pages_ s)) s) in
  pool_ok s' /\ BufferPool.frame s' f = Some p' /\
  (forall q, q <> pid -> content s' q = content s q /\ pins s' q = pins s q /\ latch_of s' q = latch_of s q).
Proof.
  intros Hok Ht Hp Hid' Hpin' Hla' Hlen' Hcl' Hr s'.
  destruct (modify_frame_disk s pid f p p' r (disk_manager_ s) Hok Ht Hp Hid' Hpin' Hla' Hlen' Hcl'
    (po_disk _ _ Hok) (fun q _ _ => eq_refl) Hr) as (H1 & H2 & H3).
  split_and!; [exact H1|exact H2|]. intros q Hne.
  unfold content, pins, latch_of. cbn [page_table_ disk_manager_ s' BufferPool.set_store BufferPool.set_pages].
  destruct (page_table_ s !! q) as [g|] eqn:E; [|done].
  assert (g <> f) as Hgf by (intros ->; apply Hne; by apply (table_inj _ s q pid f Hok)).
  unfold s'. change (BufferPool.frame (BufferPool.set_store ?r ?x) g) with (BufferPool.frame x g).
  by rewrite frame_update, decide_False by (done || by exists p).
Qed.

Lemma mapped_frame s pid f : pool_ok s -> page_table_ s !! pid = Some f ->
  page_ok pid /\ exists p, BufferPool.frame s f = Some p /\ page_id_ p = pid /\ 0 <= pin_count_ p < 2 ^ 16 /\
    length (data_ p) = page_size /\ content s pid = data_ p /\ pins s pid = pin_count_ p /\
    latch_of s pid = rwlatch_ p.
Proof.
  intros Hok Ht. destruct (po_table _ _ Hok pid f Ht) as (Hpid & p & Hp & Hid).
  split; [done|]. exists p. destruct (content_of s pid f p Hp Ht) as (? & ? & ?).
  split_and!; try done; [apply (po_pins _ _ Hok f p Hp)..|apply (po_length _ _ Hok f p Hp)].
Qed.

(** A page that is in the pool: its pin count goes up and it may not be evicted. *)
Lemma fetch_hit s pid f : pool_ok s -> page_table_ s !! pid = Some f -> pins s pid < 2 ^ 16 - 1 ->
  exists s', BufferPool.FetchPage pid s = (Ok f, s') /\ fetched s pid f s'.
Proof.
  intros Hok Ht Hpin. destruct (mapped_frame s pid f Hok Ht) as ([_ Hnum] & p & Hp & Hid & Hr & Hlen & Hc & Hpn & Hlt).
  unfold BufferPool.FetchPage, assert_that, assertion, INVALID_PAGE_ID.
  destruct (Z.eqb_spec (page_number_ pid) (-1)); [lia|]. cbn [negb].
  rewrite (bind_ok (lift (Ok tt)) _ s tt s), (bind_ok get_state _ s s s), Ht by done.
  rewrite (bind_ok _ _ _ _ _ (update_page_ok s f p _ Hp)).
  eexists; split; [done|]. rewrite (uwrap_id 16) by width.
  set (p' := Page.with_pin _ p).
  destruct (modify_frame s pid f p p' (RandomBogoReplacer.Pin f (frame_store_ s)) Hok Ht Hp)
    as (Hok' & Hfr & Hoth); cbn; try done; try width.
  { intros g. unfold RandomBogoReplacer.Pin. intros [[_ ?]|[? ?]]%lookup_insert_Some; [done|]. left. done. }
  change (BufferPool.set_store _ _) with (BufferPool.set_store (RandomBogoReplacer.Pin f (frame_store_ s))
    (BufferPool.set_pages (<[Z.to_nat f := p']> (pages_ s)) s)).
  set (s' := BufferPool.set_store _ _) in *.
  destruct (content_of s' pid f p' Hfr Ht) as (H1 & H2 & H3).
  split; try done.
  - split; [done|]. exists p'. by rewrite Hc.
  - intros q Hq. destruct (decide (q = pid)) as [->|Hne]; [by rewrite H1, Hc|]. by apply Hoth.
  - intros q. case_decide as Hd; [subst; by rewrite H2, Hpn|]. rewrite Z.add_0_r. by apply Hoth.
  - intros q. destruct (decide (q = pid)) as [->|Hne]; [by rewrite H3, Hlt|]. by apply Hoth.
  - intros q _. apply (kept_update s f p p' (RandomBogoReplacer.Pin f (frame_store_ s)) (disk_manager_ s) q Hp);
      [done|by left].
  - intros q _. apply (told_update s f p p' (RandomBogoReplacer.Pin f (frame_store_ s)) (disk_manager_ s) q Hp);
      [done|by right].
  - intros q _. by apply (dirty_update s f p p' (RandomBogoReplacer.Pin f (frame_store_ s)) (disk_manager_ s) q Hp).
  - intros Hz. destruct (is_dirty_ p) eqn:Hd; [right; by exists p'|left].
    rewrite Hc. apply (po_clean _ _ Hok pid f p); [done..|congruence|done].
  - intros g free Hn. by rewrite Ht in Hn.
Qed.

(** A page that is not in the pool: a frame is taken and the page is read into it. *)
Lemma fetch_miss s pid : pool_ok s -> page_ok pid -> page_table_ s !! pid = None ->
  ps_readable (disk_manager_ s) pid -> can_allocate s ->
  exists f s', BufferPool.FetchPage pid s = (Ok f, s') /\ fetched s pid f s'.
Proof.
  intros Hok [Hst Hnum] Ht Hrd Hcan. pose proof (AllocateFrame_spec s Hok) as Ha.
  unfold BufferPool.FetchPage, assert_that, assertion, INVALID_PAGE_ID.
  destruct (Z.eqb_spec (page_number_ pid) (-1)); [lia|]. cbn [negb].
  rewrite (bind_ok (lift (Ok tt)) _ s tt s), (bind_ok get_state _ s s s), Ht by done.
  destruct (BufferPool.AllocateFrame s) as [[[f|]|] s1] eqn:Ea; [|by destruct Ha as [_ []]|done].
  rewrite (bind_ok _ _ _ _ _ Ea). clear Ea.
  destruct Ha as (p & Hp & Hz & Hnf & Hpos & Hfl & _ & Hk). destruct (Z.eqb_spec f (-1)); [lia|]. cbn [negb].
  rewrite (bind_ok (lift (Ok tt)) _ s1 tt s1), (bind_ok _ _ _ _ _ (get_page_ok s1 f p Hp)) by done.
  set (st := BufferPool.set_table _ s1) in *.
  destruct (ReadPage_ok (disk_manager_ st) pid) as (d' & Er & Hd' & Hc' & Hr');
    [apply (po_disk _ _ (tk_inv _ _ _ Hk))|done|by apply (tk_readable _ _ _ Hk)|].
  set (p2 := mk_Page pid false 1 (rwlatch_ p) (ps_content (disk_manager_ st) pid)).
  set (s' := BufferPool.set_pages (<[Z.to_nat f := p2]> (pages_ s1))
    (BufferPool.set_table (<[pid := f]> (page_table_ st)) (BufferPool.set_disk d' st))).
  exists f, s'. split.
  - rewrite (bind_ok (modify _) _ s1 tt (BufferPool.set_table (<[pid := f]> (page_table_ st)) s1)) by done.
    rewrite (bind_ok _ _ _ _ _ (update_page_ok (BufferPool.set_table _ s1) f p _ Hp)).
    set (p1 := Page.with_dirty _ _). set (s3 := BufferPool.set_pages _ _).
    rewrite (bind_ok _ _ s3 (ps_content (disk_manager_ st) pid) (BufferPool.set_disk d' s3)).
    2:{ unfold BufferPool.lift_disk. change (disk_manager_ s3) with (disk_manager_ st). by rewrite Er. }
    assert (BufferPool.frame (BufferPool.set_disk d' s3) f = Some p1) as Hp1.
    { change (BufferPool.frame s3 f = Some p1). unfold s3.
      rewrite (frame_update (BufferPool.set_table _ s1) f p1 f) by (by exists p). by rewrite decide_True. }
    rewrite (bind_ok _ _ _ _ _ (update_page_ok _ f p1 _ Hp1)). unfold mret, M_ret. f_equal.
    unfold s', BufferPool.set_pages, BufferPool.set_table, BufferPool.set_disk, s3, st; cbn.
    rewrite list_insert_insert_eq. do 2 f_equal. unfold p2, p1, Page.with_data. cbn. by rewrite Hz.
  - destruct (change_disk (Some f) st d' (tk_inv _ _ _ Hk) Hd' Hc') as [Hinv Hcont].
    pose proof (tk_absent _ _ _ Hk pid Ht) as Hn.
    destruct (attach (BufferPool.set_disk d' st) f pid p2 Hinv) as (Hok' & Hfr & Hoth); try done.
    { cbn. apply ps_content_length. apply (po_disk _ _ (tk_inv _ _ _ Hk)). }
    change (BufferPool.set_pages _ _) with s' in Hok', Hfr, Hoth.
    assert (ps_content (disk_manager_ st) pid = content s pid) as Hpc.
    { rewrite <- (tk_content _ _ _ Hk) by done. unfold content. by rewrite Hn. }
    assert (page_table_ s' !! pid = Some f) as Hts by apply lookup_insert_eq.
    destruct (content_of s' pid f p2 Hfr Hts) as (H1 & H2 & H3).
    split; try done.
    + split; [done|]. exists p2. by rewrite <- Hpc.
    + intros q Hq. destruct (decide (q = pid)) as [->|Hne]; [by rewrite H1|].
      destruct (Hoth q Hne) as (-> & _). rewrite Hcont by done. by apply (tk_content _ _ _ Hk).
    + intros q. case_decide as Hd.
      * rewrite Hd, H2. unfold pins at 1. by rewrite Ht.
      * destruct (Hoth q Hd) as (_ & -> & _). rewrite Z.add_0_r. apply (tk_pins _ _ _ Hk q).
    + intros q. destruct (decide (q = pid)) as [->|Hne].
      * rewrite H3. unfold latch_of. rewrite Ht. cbn.
        destruct (po_limbo _ _ (tk_inv _ _ _ Hk) f eq_refl) as (_ & _ & _ & p0 & Hp0 & Hz0).
        change (BufferPool.frame s1 f = Some p0) in Hp0. assert (p0 = p) as -> by congruence.
        by apply (po_latch _ _ (tk_inv _ _ _ Hk) f).
      * destruct (Hoth q Hne) as (_ & _ & ->). apply (tk_latch _ _ _ Hk q).
    + intros q Hq Hrq. apply Hr'; [done|]. by apply (tk_readable _ _ _ Hk).
    + intros q Hq Hkq. destruct (tk_kept _ _ _ Hk q Hq Hkq) as [Hkr|(g & p3 & Hg & Hp3 & Hd3)];
        [left; by apply Hr'|].
      assert (q <> pid) as Hqp by congruence.
      assert (g <> f) as Hgf.
      { intros ->. by apply (proj1 (proj2 (proj2 (po_limbo _ _ (tk_inv _ _ _ Hk) f eq_refl))) q). }
      right. exists g, p3. cbn [page_table_ s' BufferPool.set_pages BufferPool.set_table].
      rewrite lookup_insert_ne by done. split_and!; try done.
      unfold s'. rewrite (frame_update (BufferPool.set_table _ (BufferPool.set_disk d' st)) f p2 g) by (by exists p).
      by rewrite decide_False.
    + intros q Hq Htq. destruct (decide (q = pid)) as [->|Hqp]; [left; cbn; by rewrite Hc', H1|].
      destruct (Hoth q Hqp) as (Hcq & _). destruct (tk_told _ _ _ Hk q Hq Htq) as [Hc|(g & p3 & Hg & Hp3 & Hd3)]; [left|right].
      * rewrite Hcq, Hcont by done. cbn. by rewrite Hc', Hc.
      * assert (g <> f) as Hgf.
        { intros ->. by apply (proj1 (proj2 (proj2 (po_limbo _ _ (tk_inv _ _ _ Hk) f eq_refl))) q). }
        exists g, p3. cbn [page_table_ s' BufferPool.set_pages BufferPool.set_table].
        rewrite lookup_insert_ne by done. split_and!; try done.
        unfold s'. rewrite (frame_update (BufferPool.set_table _ (BufferPool.set_disk d' st)) f p2 g) by (by exists p).
        by rewrite decide_False.
    + intros q Hq Hdq. assert (q <> pid) as Hqp.
      { intros ->. destruct Hdq as (g & p3 & Hg & _). by rewrite Ht in Hg. }
      destruct Hq as [|Hq]; [done|]. destruct (tk_dirty _ _ _ Hk q Hq Hdq) as (g & p3 & Hg & Hp3 & Hd3).
      assert (g <> f) as Hgf.
      { intros ->. by apply (proj1 (proj2 (proj2 (po_limbo _ _ (tk_inv _ _ _ Hk) f eq_refl))) q). }
      exists g, p3. cbn [page_table_ s' BufferPool.set_pages BufferPool.set_table].
      rewrite lookup_insert_ne by done. split_and!; try done.
      unfold s'. rewrite (frame_update (BufferPool.set_table _ (BufferPool.set_disk d' st)) f p2 g) by (by exists p).
      by rewrite decide_False.
    + intros q Hq. cbn. rewrite lookup_insert_ne.
      * apply (tk_table _ _ _ Hk q Hq).
      * intros <-. unfold pins in Hq. rewrite Ht in Hq. lia.
    + intros q Hq Hn'. cbn. rewrite lookup_insert_ne by done. by apply (tk_absent _ _ _ Hk).
    + intros _. left. cbn. by rewrite Hc', Hpc.
    + intros g free _ Hfree. cbn. by rewrite (Hfl g free Hfree).
Qed.

Lemma FetchPage_fetched s pid : pool_ok s -> page_ok pid -> fetchable s pid ->
  exists f s', BufferPool.FetchPage pid s = (Ok f, s') /\ fetched s pid f s'.
Proof.
  unfold fetchable. intros Hok Hpid Hf. destruct (page_table_ s !! pid) as [f|] eqn:Ht.
  - destruct (fetch_hit s pid f Hok Ht Hf) as (s' & ? & ?). by eexists _, _.
  - destruct Hf. by apply fetch_miss.
Qed.

(** *** A new page *)
Record created s pid f s' : Prop := {
  cr_ok : pool_ok s';
  cr_frame : page_table_ s' !! pid = Some f /\
    exists p, BufferPool.frame s' f = Some p /\ page_id_ p = pid /\ data_ p = Page.zeros /\ pin_count_ p = 1;
  cr_other q : q <> pid -> pins s' q = pins s q /\ latch_of s' q = latch_of s q /\
    (ps_storable q -> content s' q = content s q);
  cr_latch : latch_of s' pid = Unlatched;
  cr_kept q : ps_storable q -> kept s q -> kept s' q;
  cr_told q : q <> pid -> ps_storable q -> told s q -> told s' q;
  cr_stored q : q <> pid -> ps_storable q -> on_store s q -> on_store s' q;
  cr_dirty q : 0 < pins s q -> dirty s q -> dirty s' q;
  cr_readable q : ps_storable q -> ps_readable (disk_manager_ s) q -> ps_readable (disk_manager_ s') q;
  cr_table q : 0 < pins s q -> page_table_ s' !! q = page_table_ s !! q;
  cr_absent q : q <> pid -> page_table_ s !! q = None -> page_table_ s' !! q = None
}.

Lemma NewPage_created {A} `{PageAllocator A} s (a a' : A) pid : pool_ok s -> page_ok pid ->
  AllocatePage a = Ok (pid, a') -> page_table_ s !! pid = None -> can_allocate s ->
  exists f s', BufferPool.NewPage a s = (Ok (f, pid, a'), s') /\ created s pid f s'.
Proof.
  intros Hok Hpid Hall Ht Hcan. pose proof (AllocateFrame_spec s Hok) as Ha.
  unfold BufferPool.NewPage.
  destruct (BufferPool.AllocateFrame s) as [[[f|]|] s1] eqn:Ea; [|by destruct Ha as [_ []]|done].
  rewrite (bind_ok _ _ _ _ _ Ea). clear Ea.
  destruct Ha as (p & Hp & Hz & Hnf & Hpos & _ & Hold & Hk).
  assert (page_id_ p <> pid) as Hne.
  { intros E. destruct Hold as [Hold|Hold]; [congruence|]. destruct Hpid as [_ Hge].
    rewrite <- E, Hold in Hge. unfold INVALID_PAGE_ID in Hge. lia. }
  set (st := BufferPool.set_table (delete (page_id_ p) (page_table_ s1)) s1) in *.
  set (sp := BufferPool.set_store (RandomBogoReplacer.Pin f (frame_store_ st)) st).
  assert (pool_inv (Some f) sp) as Hinv.
  { apply change_store; [apply (tk_inv _ _ _ Hk)|apply Pin_evictable]. }
  pose proof (tk_absent _ _ _ Hk pid Ht) as Hn.
  set (p2 := mk_Page pid false 1 (rwlatch_ p) Page.zeros).
  set (s' := BufferPool.set_pages (<[Z.to_nat f := p2]> (pages_ sp))
    (BufferPool.set_table (<[pid := f]> (page_table_ sp)) sp)).
  exists f, s'. split.
  - rewrite (bind_ok get_state _ s1 s1 s1) by done. unfold assert_that, assertion.
    rewrite bool_decide_false by done. destruct (Z.eqb_spec f (-1)); [lia|]. cbn [negb].
    rewrite !(bind_ok (lift (Ok tt)) _ s1 tt s1) by done.
    set (sq := BufferPool.set_store (RandomBogoReplacer.Pin f (frame_store_ s1)) s1).
    rewrite (bind_ok (modify _) _ s1 tt sq), (bind_ok _ _ _ _ _ (get_page_ok sq f p Hp)) by done.
    rewrite (bind_ok (modify _) _ sq tt sp) by done.
    rewrite (bind_ok (lift _) _ sp (pid, a') sp) by (unfold lift; by rewrite Hall). cbn [fst snd].
    set (sr := BufferPool.set_table (<[pid := f]> (page_table_ sp)) sp).
    rewrite (bind_ok (modify _) _ sp tt sr), (bind_ok get_state _ sr sr sr) by done.
    rewrite (bool_decide_true (page_table_ sr !! pid = Some f)) by apply lookup_insert_eq.
    rewrite (bool_decide_true (page_table_ sr !! page_id_ p = None)).
    2:{ cbn. rewrite lookup_insert_ne by done. apply lookup_delete_eq. }
    rewrite !(bind_ok (lift (Ok tt)) _ sr tt sr) by done.
    rewrite (bind_ok _ _ _ _ _ (update_page_ok sr f p _ Hp)). done.
  - destruct (attach sp f pid p2 Hinv) as (Hok' & Hfr & Hoth); try done.
    change (BufferPool.set_pages _ _) with s' in Hok', Hfr, Hoth.
    assert (page_table_ s' !! pid = Some f) as Hts by apply lookup_insert_eq.
    destruct (content_of s' pid f p2 Hfr Hts) as (H1 & H2 & H3).
    split; try done.
    + split; [done|]. by exists p2.
    + intros q Hqp. destruct (Hoth q Hqp) as (-> & -> & ->).
      split_and!; [apply (tk_pins _ _ _ Hk q)|apply (tk_latch _ _ _ Hk q)|by apply (tk_content _ _ _ Hk)].
    + rewrite H3. destruct (po_limbo _ _ Hinv f eq_refl) as (_ & _ & _ & p0 & Hp0 & Hz0).
      change (BufferPool.frame s1 f = Some p0) in Hp0. assert (p0 = p) as -> by congruence.
      exact (po_latch _ _ Hinv f p Hp Hz).
    + intros q Hq Hkq. destruct (tk_kept _ _ _ Hk q Hq Hkq) as [Hkr|(g & p3 & Hg & Hp3 & Hd3)]; [by left|].
      assert (q <> pid) as Hqp by congruence.
      assert (g <> f) as Hgf by (intros ->; by apply (proj1 (proj2 (proj2 (po_limbo _ _ Hinv f eq_refl))) q)).
      right. exists g, p3. cbn [page_table_ s' BufferPool.set_pages BufferPool.set_table].
      rewrite lookup_insert_ne by done. split_and!; try done.
      unfold s'. rewrite (frame_update (BufferPool.set_table _ sp) f p2 g) by (by exists p).
      by rewrite decide_False.
    + intros q Hqp Hq Htq. destruct (Hoth q Hqp) as (Hcq & _).
      destruct (tk_told _ _ _ Hk q Hq Htq) as [Hc|(g & p3 & Hg & Hp3 & Hd3)]; [left; rewrite Hcq; exact Hc|right].
      assert (g <> f) as Hgf by (intros ->; by apply (proj1 (proj2 (proj2 (po_limbo _ _ Hinv f eq_refl))) q)).
      exists g, p3. cbn [page_table_ s' BufferPool.set_pages BufferPool.set_table].
      rewrite lookup_insert_ne by done. split_and!; try done.
      unfold s'. rewrite (frame_update (BufferPool.set_table _ sp) f p2 g) by (by exists p).
      by rewrite decide_False.
    + intros q Hqp Hq Hsq. destruct (Hoth q Hqp) as (Hcq & _). destruct (tk_stored _ _ _ Hk q Hq Hsq) as [Hc Hr].
      split; [rewrite Hcq; exact Hc|exact Hr].
    + intros q Hq Hdq. assert (q <> pid) as Hqp.
      { intros ->. destruct Hdq as (g & p3 & Hg & _). by rewrite Ht in Hg. }
      destruct (tk_dirty _ _ _ Hk q Hq Hdq) as (g & p3 & Hg & Hp3 & Hd3).
      assert (g <> f) as Hgf by (intros ->; by apply (proj1 (proj2 (proj2 (po_limbo _ _ Hinv f eq_refl))) q)).
      exists g, p3. cbn [page_table_ s' BufferPool.set_pages BufferPool.set_table].
      rewrite lookup_insert_ne by done. split_and!; try done.
      unfold s'. rewrite (frame_update (BufferPool.set_table _ sp) f p2 g) by (by exists p).
      by rewrite decide_False.
    + apply (tk_readable _ _ _ Hk).
    + intros q Hq. cbn. rewrite lookup_insert_ne.
      * apply (tk_table _ _ _ Hk q Hq).
      * intros <-. unfold pins in Hq. rewrite Ht in Hq. lia.
    + intros q Hq Hn'. cbn. rewrite lookup_insert_ne by done. by apply (tk_absent _ _ _ Hk).
Qed.

(** *** Changing the bytes of a pinned page, and giving the page back *)
Definition write_frame f (bs : list byte) : M pool unit := BufferPool.update_page f (Page.with_data bs).

Lemma write_frame_ok s pid f bs : pool_ok s -> page_table_ s !! pid = Some f -> 0 < pins s pid ->
  length bs = page_size ->
  exists s', write_frame f bs s = (Ok tt, s') /\ pool_ok s' /\ content s' pid = bs /\
    (forall q, q <> pid -> content s' q = content s q) /\
    (forall q, pins s' q = pins s q /\ latch_of s' q = latch_of s q /\
       page_table_ s' !! q = page_table_ s !! q /\ (kept s q -> kept s' q) /\ (q <> pid -> told s q -> told s' q)) /\
    disk_manager_ s' = disk_manager_ s.
Proof.
  intros Hok Ht Hpin Hl. destruct (mapped_frame s pid f Hok Ht) as (_ & p & Hp & Hid & Hr & Hlen & Hc & Hpn & Hlt).
  unfold write_frame. rewrite (update_page_ok s f p _ Hp). eexists; split; [done|].
  destruct (modify_frame s pid f p (Page.with_data bs p) (frame_store_ s) Hok Ht Hp)
    as (Hok' & Hfr & Hoth); cbn; try done; try lia.
  { intros g Hg. left. split; [|done]. intros ->.
    destruct (po_evictable _ _ Hok f Hg) as (p0 & Hp0 & Hz & _). rewrite Hp in Hp0. injection Hp0 as <-. lia. }
  change (BufferPool.set_store _ ?x) with x in Hok', Hfr, Hoth.
  set (s' := BufferPool.set_pages _ _) in *.
  destruct (content_of s' pid f _ Hfr Ht) as (H1 & H2 & H3).
  split_and!; try done; [intros q Hq; by apply Hoth|]. intros q.
  assert (kept s q -> kept s' q) as Hkq.
  { apply (kept_update s f p (Page.with_data bs p) (frame_store_ s) (disk_manager_ s) q Hp); [done|by left]. }
  assert (q <> pid -> told s q -> told s' q) as Htq.
  { intros Hqp. apply (told_update s f p (Page.with_data bs p) (frame_store_ s) (disk_manager_ s) q Hp); [done|].
    intros Hqf. destruct Hqp. by apply (table_inj _ s q pid f Hok). }
  destruct (decide (q = pid)) as [->|Hne]; [by rewrite H2, H3, Hpn, Hlt|].
  by destruct (Hoth q Hne) as (_ & -> & ->).
Qed.

(** Whoever gives up the last pin must have said that the page is dirty if it is. *)
Definition clean_or_told s pid (is_dirty : bool) : Prop :=
  pins s pid = 1 -> is_dirty = true \/ told s pid.

Lemma UnpinPage_ok s pid (is_dirty : bool) : pool_ok s -> 0 < pins s pid ->
  (pins s pid = 1 -> latch_of s pid = Unlatched) -> clean_or_told s pid is_dirty ->
  exists s', BufferPool.UnpinPage pid is_dirty s = (Ok true, s') /\ pool_ok s' /\
    (forall q, content s' q = content s q /\ latch_of s' q = latch_of s q /\
       pins s' q = pins s q - (if decide (q = pid) then 1 else 0) /\
       page_table_ s' !! q = page_table_ s !! q /\ (kept s q -> kept s' q) /\ (told s q -> told s' q)) /\
    (forall q, dirty s q \/ (q = pid /\ is_dirty = true) -> dirty s' q) /\ disk_manager_ s' = disk_manager_ s /\
    free_list_ s' = free_list_ s /\
    forall f, page_table_ s !! pid = Some f -> frame_store_ s' =
      if pins s pid =? 1 then RandomBogoReplacer.Unpin f (frame_store_ s) else frame_store_ s.
Proof.
  intros Hok Hpin Hla Hdirty. destruct (page_table_ s !! pid) as [f|] eqn:Ht.
  2:{ unfold pins in Hpin. rewrite Ht in Hpin. lia. }
  destruct (mapped_frame s pid f Hok Ht) as ([_ Hnum] & p & Hp & Hid & Hr & Hlen & Hc & Hpn & Hlt).
  unfold BufferPool.UnpinPage, assert_that, assertion, INVALID_PAGE_ID.
  destruct (Z.eqb_spec (page_number_ pid) (-1)); [lia|]. cbn [negb].
  rewrite (bind_ok (lift (Ok tt)) _ s tt s), (bind_ok get_state _ s s s), Ht by done.
  set (p1 := Page.with_dirty (is_dirty || is_dirty_ p) p).
  set (s1 := BufferPool.set_pages (<[Z.to_nat f := p1]> (pages_ s)) s).
  assert (BufferPool.frame s1 f = Some p1) as Hp1.
  { unfold s1. rewrite (frame_update s f p1 f) by (by exists p). by rewrite decide_True. }
  rewrite (bind_ok _ _ s tt s1).
  2:{ destruct is_dirty; [by rewrite (update_page_ok s f p _ Hp)|]. unfold mret, M_ret. f_equal.
      assert (p1 = p) as E by (by destruct p). unfold s1. rewrite E, list_insert_id; [by destruct s|].
      unfold BufferPool.frame in Hp. by destruct (Z.ltb_spec f 0). }
  rewrite (bind_ok _ _ _ _ _ (get_page_ok s1 f p1 Hp1)). cbn [pin_count_ p1 Page.with_dirty].
  destruct (Z.eqb_spec (pin_count_ p) 0); [lia|]. rewrite (uwrap_id 16) by width.
  rewrite (bind_ok _ _ _ _ _ (update_page_ok s1 f p1 _ Hp1)).
  rewrite (proj2 (Z.leb_le 0 (pin_count_ p - 1))) by lia.
  set (p2 := Page.with_pin (pin_count_ p - 1) p1). set (s2 := BufferPool.set_pages _ s1).
  rewrite (bind_ok (lift (Ok tt)) _ s2 tt s2) by done.
  set (r := if pin_count_ p - 1 =? 0 then RandomBogoReplacer.Unpin f (frame_store_ s) else frame_store_ s).
  assert (s2 = BufferPool.set_pages (<[Z.to_nat f := p2]> (pages_ s)) s) as Es2.
  { unfold s2, s1, BufferPool.set_pages; cbn. by rewrite list_insert_insert_eq. }
  rewrite (bind_ok _ _ s2 tt (BufferPool.set_store r s2)).
  2:{ unfold r. case_match; [done|]. done. }
  destruct (modify_frame s pid f p p2 r Hok Ht Hp) as (Hok' & Hfr & Hoth); cbn; try done; try lia.
  { intros Hz. rewrite <- Hlt. apply Hla. lia. }
  { intros Hz [Hd1 Hd2]%orb_false_iff. destruct (Hdirty ltac:(lia)) as [?|[Hcl|(f0 & p0 & Ht0 & Hp0 & ?)]];
      [congruence|congruence|]. assert (f0 = f) as -> by congruence. congruence. }
  { intros g Hg. unfold r in Hg. destruct (Z.eqb_spec (pin_count_ p - 1) 0) as [Hz|Hz].
    - destruct (decide (g = f)) as [->|Hgf]; [by right|]. left. split; [done|].
      unfold RandomBogoReplacer.Unpin in Hg. destruct (frame_store_ s !! f); [|done].
      by rewrite lookup_insert_ne in Hg by done.
    - left. split; [|done]. intros ->. destruct (po_evictable _ _ Hok f Hg) as (p0 & Hp0 & Hz0 & _).
      rewrite Hp in Hp0. injection Hp0 as <-. lia. }
  rewrite <- Es2 in Hok', Hfr, Hoth. set (s' := BufferPool.set_store r s2) in *.
  destruct (content_of s' pid f p2 Hfr) as (H1 & H2 & H3); [exact Ht|].
  exists s'. split; [done|]. split; [done|]. split.
  2:{ split_and!; try done.
      { intros q [Hdq|[-> ->]]; [|by exists f, p2]. unfold s'. rewrite Es2.
        apply (dirty_update s f p p2 r (disk_manager_ s) q Hp); [|done]. intros _ Hd. cbn. rewrite Hd. apply orb_true_r. }
      intros f' [= <-]. cbn. unfold r. rewrite Hpn.
      by destruct (Z.eqb_spec (pin_count_ p - 1) 0), (Z.eqb_spec (pin_count_ p) 1); try lia. }
  intros q. assert (kept s q -> kept s' q) as Hkq.
  { unfold s'. rewrite Es2. apply (kept_update s f p p2 r (disk_manager_ s) q Hp); [done|]. intros _ Hd. left. cbn. rewrite Hd. apply orb_true_r. }
  assert (told s q -> told s' q) as Htq.
  { unfold s'. rewrite Es2. apply (told_update s f p p2 r (disk_manager_ s) q Hp); [done|]. intros _. right.
    split; [done|]. intros Hd. cbn. rewrite Hd. apply orb_true_r. }
  destruct (decide (q = pid)) as [->|Hne].
  - rewrite H1, H2, H3, Hc, Hlt, Hpn. split_and!; done.
  - destruct (Hoth q Hne) as (-> & -> & ->). split_and!; try done. lia.
Qed.

(** *** Writing pages out *)
Lemma FlushPage_ok s pid f : pool_ok s -> page_table_ s !! pid = Some f ->
  exists s', BufferPool.FlushPage pid s = (Ok true, s') /\ pool_ok s' /\
    ps_content (disk_manager_ s') pid = content s pid /\ ps_readable (disk_manager_ s') pid /\
    (forall q, ps_storable q -> q <> pid ->
       ps_content (disk_manager_ s') q = ps_content (disk_manager_ s) q) /\
    (forall q, pins s' q = pins s q /\ latch_of s' q = latch_of s q /\
       (ps_storable q -> content s' q = content s q)) /\
    (forall q, ps_storable q -> ps_readable (disk_manager_ s) q -> ps_readable (disk_manager_ s') q) /\
    (forall q, ps_storable q -> kept s q -> kept s' q) /\
    page_table_ s' = page_table_ s /\ pool_size_ s' = pool_size_ s /\
    (forall g, page_id_ <$> BufferPool.frame s' g = page_id_ <$> BufferPool.frame s g).
Proof.
  intros Hok Ht. destruct (mapped_frame s pid f Hok Ht) as ([Hst Hnum] & p & Hp & Hid & Hr & Hlen & Hc & Hpn & Hlt).
  unfold BufferPool.FlushPage. rewrite (bind_ok get_state _ s s s), Ht by done.
  rewrite (bind_ok _ _ _ _ _ (get_page_ok s f p Hp)).
  destruct (WritePage_ok (disk_manager_ s) pid (data_ p)) as (d' & E & Hd' & Hcd & Hne & Hrd & Hrr);
    [apply (po_disk _ _ Hok)|done..|].
  rewrite (bind_ok _ _ s tt (BufferPool.set_disk d' s)).
  2:{ unfold BufferPool.lift_disk, Page.GetData. by rewrite E. }
  rewrite (bind_ok _ _ _ _ _ (update_page_ok (BufferPool.set_disk d' s) f p _ Hp)).
  destruct (modify_frame_disk s pid f p (Page.with_dirty false p) (frame_store_ s) d' Hok Ht Hp)
    as (Hok' & Hfr & Hoth); cbn; try done.
  { intros Hz. by apply (po_latch _ _ Hok f p Hp). }
  { intros g Hg. destruct (decide (g = f)) as [->|]; [right|by left]. split; [done|].
    destruct (po_evictable _ _ Hok f Hg) as (p0 & Hp0 & Hz & _). by rewrite Hp in Hp0; injection Hp0 as <-. }
  eexists; split; [done|]. split; [exact Hok'|].
  change (BufferPool.set_disk d' (BufferPool.set_store _ ?x)) with
    (BufferPool.set_pages (pages_ x) (BufferPool.set_disk d' s)) in Hok', Hfr, Hoth.
  cbn [pages_ BufferPool.set_pages] in Hok', Hfr, Hoth |- *.
  set (s' := BufferPool.set_pages _ _) in *. cbn [disk_manager_ page_table_ BufferPool.set_disk s' BufferPool.set_pages].
  rewrite Hc. split_and!; try done.
  - intros q. destruct (decide (q = pid)) as [->|Hqp]; [|by apply Hoth].
    destruct (content_of s' pid f _ Hfr Ht) as (-> & -> & ->). by rewrite Hc, Hpn, Hlt.
  - intros q Hq. apply (kept_update s f p (Page.with_dirty false p) (frame_store_ s) d' q Hp); [by apply Hrr|].
    intros Hqf _. right. assert (q = pid) as -> by (by apply (table_inj _ s q pid f Hok)). done.
  - intros g. unfold s'. rewrite (frame_update (BufferPool.set_disk d' s) f _ g) by (by exists p).
    case_decide as Hgf; [|done]. subst g. change (BufferPool.frame (BufferPool.set_disk d' s) f) with
      (BufferPool.frame s f). by rewrite Hp.
Qed.

Lemma FlushPage_absent s pid : page_table_ s !! pid = None -> BufferPool.FlushPage pid s = (Ok false, s).
Proof. intros Ht. unfold BufferPool.FlushPage. by rewrite (bind_ok get_state _ s s s), Ht. Qed.

Lemma flush_frames_ok (n : nat) i s : pool_ok s -> 0 <= i -> i + Z.of_nat n <= pool_size_ s ->
  exists s', BufferPool.flush_frames n i s = (Ok tt, s') /\ pool_ok s' /\
    (forall q, pins s' q = pins s q /\ latch_of s' q = latch_of s q /\
       (ps_storable q -> content s' q = content s q)) /\
    (forall q, ps_storable q -> kept s q -> kept s' q) /\
    page_table_ s' = page_table_ s /\
    (forall q f, page_table_ s !! q = Some f ->
       i <= f < i + Z.of_nat n \/ on_store s q -> on_store s' q).
Proof.
  revert i s. induction n as [|n IH]; intros i s Hok Hi Hn; cbn [BufferPool.flush_frames].
  { exists s. split_and!; try done. intros q f Hq [?|?]; [lia|done]. }
  destruct (proj2 (po_size _ _ Hok i)) as [p Hp]; [lia|].
  rewrite (bind_ok _ _ _ _ _ (get_page_ok s i p Hp)).
  destruct (page_table_ s !! page_id_ p) as [f|] eqn:Ht.
  - destruct (FlushPage_ok s _ f Hok Ht) as (s1 & E & Hok1 & Hc1 & Hrd1 & Hne1 & Hk1 & Hrr1 & Hr1 & Htb1 & Hsz1 & _).
    rewrite (bind_ok _ _ _ _ _ E).
    destruct (IH (i + 1) s1) as (s2 & E2 & Hok2 & Hk2 & Hr2 & Htb2 & Hf2); [done|lia|lia|].
    assert (forall q, ps_storable q -> content s1 q = content s q) as Hks by (intros q; apply Hk1).
    exists s2. split_and!; try done; [|by eauto|congruence|].
    + intros q. destruct (Hk2 q) as (-> & -> & Hq2). destruct (Hk1 q) as (-> & -> & Hq1).
      split_and!; try done. intros Hq. by rewrite Hq2, Hq1.
    + intros q g Hq Hor. destruct (po_table _ _ Hok q g Hq) as ([Hst _] & _).
      apply (Hf2 q g); [congruence|].
      destruct (decide (q = page_id_ p)) as [->|Hqp]; [right; split; [by rewrite (Hks _ Hst)|done]|].
      destruct Hor as [Hr|[Hqc Hqr]]; [|right; split; [by rewrite (Hne1 q Hst Hqp), (Hks q Hst)|by apply Hrr1]].
      destruct (decide (g = i)) as [->|]; [|left; lia].
      destruct (po_table _ _ Hok q i Hq) as (_ & p' & Hp' & Hid). congruence.
  - rewrite (bind_ok _ _ _ _ _ (FlushPage_absent s _ Ht)).
    destruct (IH (i + 1) s) as (s2 & E2 & Hok2 & Hk2 & Hr2 & Htb2 & Hf2); [done|lia|lia|].
    exists s2. split_and!; try done. intros q g Hq Hor. apply (Hf2 q g Hq).
    destruct Hor as [Hr|]; [|by right]. destruct (decide (g = i)) as [->|]; [|left; lia].
    destruct (po_table _ _ Hok q i Hq) as (_ & p' & Hp' & Hid). congruence.
Qed.

Lemma BufferPool_ok n (d : D) : ps_ok d -> 0 <= n -> pool_ok (BufferPool.BufferPool n d) /\
  (forall q, content (BufferPool.BufferPool n d) q = ps_content d q).
Proof.
  intros Hd Hn. split; [|done].
  assert (forall f p, BufferPool.frame (BufferPool.BufferPool n d) f = Some p -> 0 <= f < n /\ p = Page.make) as Hfr.
  { intros f p. unfold BufferPool.frame, BufferPool.BufferPool; cbn [pages_].
    destruct (Z.ltb_spec f 0); [done|]. intros [-> ?]%lookup_replicate. split; [lia|done]. }
  assert (forall f, 0 <= f < n -> BufferPool.frame (BufferPool.BufferPool n d) f = Some Page.make) as Hfr'.
  { intros f Hf. unfold BufferPool.frame, BufferPool.BufferPool; cbn [pages_].
    destruct (Z.ltb_spec f 0); [lia|]. apply lookup_replicate. split; [done|lia]. }
  assert (forall f, f ∈ free_list_ (BufferPool.BufferPool n d) <-> 0 <= f < n) as Hfree.
  { intros f. cbn. rewrite list_elem_of_fmap. split.
    - intros (k & -> & Hk%elem_of_seq). lia.
    - intros Hf. exists (Z.to_nat f). rewrite elem_of_seq. lia. }
  split; try done.
  - intros f. split; [by intros [p [? _]%Hfr]|]. intros Hf. eexists. by apply Hfr'.
  - cbn. apply (NoDup_fmap_2 Z.of_nat), NoDup_seq.
  - intros f Hf%Hfree. exists Page.make. split_and!; [by apply Hfr'|done|done].
  - intros f p [Hf _]%Hfr _. left. by apply Hfree.
  - intros f p [_ ->]%Hfr. done.
  - intros f p [_ ->]%Hfr. done.
  - intros f p [_ ->]%Hfr. apply length_replicate.
Qed.
End frames.
