(* ===== verification/BufferPoolProps.v ===== *)
(** * The buffer pool as a page store

    Clients pin a page, use its frame, and give it back.  Seen from there the pool is a
    map from pages to bytes, whatever is evicted meanwhile. *)
From S2P Require Import Prelude Bytes Types DiskManager BufferPool.
Open Scope Z_scope.

(** A page store in memory, for concrete runs. *)
Definition memory_content (d : gmap PageId (list byte)) (p : PageId) : list byte :=
  match d !! p with
  | Some bs => if decide (length bs = page_size) then bs else Page.zeros
  | None => Page.zeros
  end.

Definition memory_store : PageStore (gmap PageId (list byte)).
Proof.
  refine {|
    WritePage p data := modify (<[p := data]>);
    ReadPage p := d ← get_state; mret (memory_content d p);
    ps_storable _ := True; ps_ok _ := True; ps_readable _ _ := True;
    ps_content := memory_content |}.
  - intros d p _. unfold memory_content. destruct (d !! p); [case_decide; [done|]|]; apply length_replicate.
  - intros d p data _ _ Hl. eexists; split; [done|]. split_and!; try done.
    + unfold memory_content. by rewrite lookup_insert_eq, decide_True.
    + intros q _ Hne. unfold memory_content. by rewrite lookup_insert_ne.
  - intros d p _ _ _. by exists d.
Defined.

Definition map_order : HashOrder Z bool.
Proof. refine {| iteration m := map_to_list m |}. done. Defined.

Section props.
Context {D : Type} `{PageStore D} `{!HashOrder Z bool}.
Abbreviation pool := (BufferPool D).
Implicit Types (s : pool) (f : Z) (pid q : PageId).

Lemma AllocateFrame_none s : pool_ok s -> ~ can_allocate s -> BufferPool.AllocateFrame s = (Ok None, s).
Proof.
  intros Hok Hno. unfold BufferPool.AllocateFrame. rewrite (bind_ok get_state _ s s s) by done.
  destruct (free_list_ s) eqn:Hf; [|exfalso; apply Hno; left; by rewrite Hf].
  pose proof (Evict_spec (frame_store_ s)) as He.
  destruct (RandomBogoReplacer.Evict (frame_store_ s)) as [[g|] r]; [|done].
  destruct He as [He _]. exfalso. apply Hno. right. by exists g.
Qed.

Lemma FetchPage_full s pid : pool_ok s -> ~ can_allocate s -> 0 <= page_number_ pid ->
  page_table_ s !! pid = None -> BufferPool.FetchPage pid s = (Err StdRuntimeError, s).
Proof.
  intros Hok Hno Hnum Ht. unfold BufferPool.FetchPage, assert_that, assertion, INVALID_PAGE_ID.
  destruct (Z.eqb_spec (page_number_ pid) (-1)); [lia|]. cbn [negb].
  rewrite (bind_ok (lift (Ok tt)) _ s tt s), (bind_ok get_state _ s s s), Ht by done.
  by rewrite (bind_ok _ _ _ _ _ (AllocateFrame_none s Hok Hno)).
Qed.

(** ** Reading and writing whole pages *)
Inductive pool_op : Type :=
| PGet (pid : PageId)
| PPut (pid : PageId) (bs : list byte)
| PFlush (pid : PageId)
| PFlushAll.

Definition op_page_ok s (o : pool_op) : Prop :=
  match o with
  | PGet pid => page_ok pid /\ kept s pid
  | PPut pid bs => page_ok pid /\ kept s pid /\ length bs = page_size
  | PFlush _ | PFlushAll => True
  end.

Definition read_frame f : M pool (list byte) := p ← BufferPool.get_page f; mret (Page.GetData p).

Definition run_op (o : pool_op) : M pool (list byte) :=
  match o with
  | PGet pid =>
    f ← BufferPool.FetchPage pid;
    bs ← read_frame f;
    BufferPool.UnpinPage pid false;; mret bs
  | PPut pid bs =>
    f ← BufferPool.FetchPage pid;
    write_frame f bs;;
    BufferPool.UnpinPage pid true;; mret []
  | PFlush pid => BufferPool.FlushPage pid;; mret []
  | PFlushAll => BufferPool.FlushAllPages;; mret []
  end.

(** The specification: a map, and what an operation answers. *)
Definition spec_pool (o : pool_op) (m : PageId -> list byte) : list byte * (PageId -> list byte) :=
  match o with
  | PGet pid => (m pid, m)
  | PPut pid bs => ([], fun q => if decide (q = pid) then bs else m q)
  | PFlush _ | PFlushAll => ([], m)
  end.

(** No page is pinned. *)
Definition idle s : Prop := forall q, pins s q = 0 /\ latch_of s q = Unlatched.

(** [s'] holds the pages [m]; no page is lost. *)
Definition holds s s' (m : PageId -> list byte) : Prop :=
  pool_ok s' /\ idle s' /\ (forall q, ps_storable q -> content s' q = m q) /\
  (forall q, ps_storable q -> kept s q -> kept s' q).

Lemma write_frame_store f (bs : list byte) s r s' : write_frame f bs s = (r, s') -> frame_store_ s' = frame_store_ s.
Proof.
  unfold write_frame, BufferPool.update_page, BufferPool.get_page, mbind, M_bind.
  destruct (BufferPool.frame s f); by intros [= _ <-].
Qed.

(** Fetching a page and giving it back with [is_dirty], having stored [bs] in between. *)
Lemma fetch_put s pid (bs : list byte) f s1 : page_ok pid -> idle s -> fetched s pid f s1 ->
  length bs = page_size ->
  exists s2 s3, write_frame f bs s1 = (Ok tt, s2) /\
    BufferPool.UnpinPage pid true s2 = (Ok true, s3) /\
    holds s s3 (fun q => if decide (q = pid) then bs else content s q) /\
    frame_store_ s3 = RandomBogoReplacer.Unpin f (frame_store_ s1).
Proof.
  intros [Hst _] Hidle Hft Hl. destruct (ft_frame _ _ _ _ Hft) as [Ht _].
  pose proof (ft_pins _ _ _ _ Hft) as Hpins. pose proof (ft_latch _ _ _ _ Hft) as Hlatch.
  assert (pins s1 pid = 1) as H1 by (rewrite Hpins, decide_True by done; destruct (Hidle pid); lia).
  destruct (write_frame_ok s1 pid f bs (ft_ok _ _ _ _ Hft) Ht) as (s2 & E2 & Hok2 & Hc2 & Hne2 & Hk2 & Hd2);
    [lia|done|].
  destruct (UnpinPage_ok s2 pid true Hok2) as (s3 & E3 & Hok3 & Hk3 & _ & _ & _ & Hst3).
  - destruct (Hk2 pid) as (-> & _). lia.
  - intros _. destruct (Hk2 pid) as (_ & -> & _). rewrite Hlatch. apply (Hidle pid).
  - intros _. by left.
  - exists s2, s3. split_and!; try done.
    2:{ destruct (Hk2 pid) as (Hp2 & _ & Ht2 & _). rewrite (Hst3 f) by congruence. rewrite Hp2, H1. cbn [Z.eqb Pos.eqb].
        by rewrite (write_frame_store f bs s1 _ _ E2). }
    split; [done|]. split_and!.
    + intros q. destruct (Hk3 q) as (_ & -> & -> & _). destruct (Hk2 q) as (-> & -> & _).
      rewrite Hpins, Hlatch. destruct (Hidle q) as [-> ->]. case_decide; split; done || lia.
    + intros q Hq. destruct (Hk3 q) as (-> & _). case_decide as Hd; [by subst|].
      rewrite Hne2 by done. by apply (ft_content _ _ _ _ Hft).
    + intros q Hq Hkq. apply Hk3, Hk2. by apply (ft_kept _ _ _ _ Hft).
Qed.

Lemma fetch_get s pid f s1 : page_ok pid -> idle s -> fetched s pid f s1 ->
  exists s3, read_frame f s1 = (Ok (content s pid), s1) /\
    BufferPool.UnpinPage pid false s1 = (Ok true, s3) /\ holds s s3 (content s) /\
    free_list_ s3 = free_list_ s1 /\ (forall q, page_table_ s3 !! q = page_table_ s1 !! q) /\
    frame_store_ s3 = RandomBogoReplacer.Unpin f (frame_store_ s1).
Proof.
  intros [Hst _] Hidle Hft. destruct (ft_frame _ _ _ _ Hft) as (Ht & p & Hp & Hid & Hdata).
  pose proof (ft_pins _ _ _ _ Hft) as Hpins. pose proof (ft_latch _ _ _ _ Hft) as Hlatch.
  assert (pins s1 pid = 1) as H1 by (rewrite Hpins, decide_True by done; destruct (Hidle pid); lia).
  destruct (UnpinPage_ok s1 pid false (ft_ok _ _ _ _ Hft)) as (s3 & E3 & Hok3 & Hk3 & _ & Hd3 & Hfl3 & Hst3).
  - lia.
  - intros _. rewrite Hlatch. apply (Hidle pid).
  - intros _. right. unfold told. rewrite (ft_content _ _ _ _ Hft) by done.
    destruct (ft_clean _ _ _ _ Hft) as [Hc|(p' & Hp' & Hd)]; [apply (Hidle pid)|by left|].
    right. by exists f, p'.
  - exists s3. split_and!; [|done| |done|by intros q; apply Hk3|by rewrite (Hst3 f Ht), H1].
    { unfold read_frame. rewrite (bind_ok _ _ _ _ _ (get_page_ok s1 f p Hp)). unfold Page.GetData.
      by rewrite Hdata. }
    split; [done|]. split_and!.
    + intros q. destruct (Hk3 q) as (_ & -> & -> & _). rewrite Hpins, Hlatch.
      destruct (Hidle q) as [-> ->]. case_decide; split; done || lia.
    + intros q Hq. destruct (Hk3 q) as (-> & _). by apply (ft_content _ _ _ _ Hft).
    + intros q Hq Hkq. apply Hk3. by apply (ft_kept _ _ _ _ Hft).
Qed.

Lemma kept_absent s pid : kept s pid -> page_table_ s !! pid = None -> ps_readable (disk_manager_ s) pid.
Proof. intros [Hk|(f & p & Hf & _)] Ht; [done|congruence]. Qed.

Lemma idle_fetch s pid : pool_ok s -> pins s pid = 0 -> page_ok pid -> kept s pid ->
  (exists f s1, BufferPool.FetchPage pid s = (Ok f, s1) /\ fetched s pid f s1) \/
  BufferPool.FetchPage pid s = (Err StdRuntimeError, s).
Proof.
  intros Hok Hidle Hpid Hrd. destruct (page_table_ s !! pid) eqn:Ht.
  - left. apply FetchPage_fetched; try done. unfold fetchable. rewrite Ht. lia.
  - destruct (decide (free_list_ s = [])) as [Hf|Hf].
    + pose proof (Evict_spec (frame_store_ s)) as He.
      destruct (RandomBogoReplacer.Evict (frame_store_ s)) as [[g|] r].
      * left. apply FetchPage_fetched; try done. unfold fetchable. rewrite Ht. split; [by apply kept_absent|].
        right. exists g. by destruct He.
      * right. apply FetchPage_full; try done; [|by destruct Hpid].
        intros [?|[g Hg]]; [done|]. destruct He as [_ He]. by apply (He g).
    + left. apply FetchPage_fetched; try done. unfold fetchable. rewrite Ht. split; [by apply kept_absent|]. by left.
Qed.

Lemma holds_same s : pool_ok s -> idle s -> holds s s (content s).
Proof. intros. unfold holds. by split_and!. Qed.

Lemma flush_all s : pool_ok s -> exists s', BufferPool.FlushAllPages s = (Ok tt, s') /\ pool_ok s' /\
  (forall q, pins s' q = pins s q /\ latch_of s' q = latch_of s q /\
     (ps_storable q -> content s' q = content s q)) /\
  (forall q, ps_storable q -> kept s q -> kept s' q) /\
  page_table_ s' = page_table_ s /\
  forall q f, page_table_ s !! q = Some f -> on_store s' q.
Proof.
  intros Hok. unfold BufferPool.FlushAllPages. rewrite (bind_ok get_state _ s s s) by done.
  destruct (decide (0 <= pool_size_ s)) as [Hsz|Hsz].
  - destruct (flush_frames_ok (Z.to_nat (pool_size_ s)) 0 s Hok) as (s' & E & Hok' & Hk & Hr & Ht & Hf); [lia..|].
    exists s'. split_and!; try done. intros q f Hq. apply (Hf q f Hq). left.
    destruct (po_table _ _ Hok q f Hq) as (_ & p & Hp & _).
    pose proof (proj1 (po_size _ _ Hok f)) as Hb. destruct Hb; [by exists p|]. lia.
  - replace (Z.to_nat (pool_size_ s)) with 0%nat by lia. exists s. split_and!; try done.
    intros q f Hq. destruct (po_table _ _ Hok q f Hq) as (_ & p & Hp & _).
    pose proof (proj1 (po_size _ _ Hok f)) as Hb. destruct Hb; [by exists p|]. lia.
Qed.

(** One operation: done as specified, or refused because no frame can be had, which
    changes nothing. *)
Lemma run_op_spec o s : pool_ok s -> idle s -> op_page_ok s o ->
  match run_op o s with
  | (Ok r, s') => r = (spec_pool o (content s)).1 /\ holds s s' (spec_pool o (content s)).2
  | (Err e, s') => e = StdRuntimeError /\ s' = s
  end.
Proof.
  intros Hok Hidle Ho. destruct o as [pid|pid bs|pid|]; cbn [run_op spec_pool fst snd].
  - destruct Ho as [Hpid Hrd]. destruct (idle_fetch s pid Hok (proj1 (Hidle pid)) Hpid Hrd) as [(f & s1 & E & Hft)|E].
    + destruct (fetch_get s pid f s1 Hpid Hidle Hft) as (s3 & E2 & E3 & Hh & _).
      by rewrite (bind_ok _ _ _ _ _ E), (bind_ok _ _ _ _ _ E2), (bind_ok _ _ _ _ _ E3).
    + by rewrite (bind_err _ _ _ _ _ E).
  - destruct Ho as (Hpid & Hrd & Hl). destruct (idle_fetch s pid Hok (proj1 (Hidle pid)) Hpid Hrd) as [(f & s1 & E & Hft)|E].
    + destruct (fetch_put s pid bs f s1 Hpid Hidle Hft Hl) as (s2 & s3 & E2 & E3 & Hh & _).
      by rewrite (bind_ok _ _ _ _ _ E), (bind_ok _ _ _ _ _ E2), (bind_ok _ _ _ _ _ E3).
    + by rewrite (bind_err _ _ _ _ _ E).
  - destruct (page_table_ s !! pid) as [f|] eqn:Ht.
    + destruct (FlushPage_ok s pid f Hok Ht) as (s' & E & Hok' & _ & _ & _ & Hk & _ & Hr & _).
      rewrite (bind_ok _ _ _ _ _ E). split; [done|]. unfold holds. split_and!; try done.
      * intros q. destruct (Hk q) as (-> & -> & _). apply Hidle.
      * intros q. apply Hk.
    + rewrite (bind_ok _ _ _ _ _ (FlushPage_absent s pid Ht)). split; [done|]. by apply holds_same.
  - destruct (flush_all s Hok) as (s' & E & Hok' & Hk & Hr & _).
    rewrite (bind_ok _ _ _ _ _ E). split; [done|]. unfold holds. split_and!; try done.
    + intros q. destruct (Hk q) as (-> & -> & _). apply Hidle.
    + intros q. apply Hk.
Qed.

Fixpoint run_pool (ops : list pool_op) s : list (res (list byte)) * pool :=
  match ops with
  | [] => ([], s)
  | o :: ops => let r := run_op o s in let rest := run_pool ops r.2 in (r.1 :: rest.1, rest.2)
  end.

(** The answers a map of pages may give: each operation is done, or refused for want of a
    frame. *)
Inductive spec_trace : (PageId -> list byte) -> list pool_op -> list (res (list byte)) ->
    (PageId -> list byte) -> Prop :=
| trace_nil m m' : (forall q, ps_storable q -> m q = m' q) -> spec_trace m [] [] m'
| trace_done m m1 o ops rs m' : (forall q, ps_storable q -> m1 q = (spec_pool o m).2 q) ->
    spec_trace m1 ops rs m' -> spec_trace m (o :: ops) (Ok (spec_pool o m).1 :: rs) m'
| trace_full m o ops rs m' : spec_trace m ops rs m' ->
    spec_trace m (o :: ops) (Err StdRuntimeError :: rs) m'.

Lemma op_page_ok_mono s s' o : op_page_ok s o ->
  (forall q, ps_storable q -> kept s q -> kept s' q) -> op_page_ok s' o.
Proof.
  intros Ho Hm. destruct o as [pid|pid bs|pid|]; cbn in *; try done.
  - destruct Ho as [[Hst Hn] Hr]. repeat split; auto.
  - destruct Ho as ([Hst Hn] & Hr & Hl). repeat split; auto.
Qed.


(** C22: [FetchPage] returns a frame that holds the page's current bytes, pins it once more
    and loses no page: the bytes of every page are what they were, and pinned pages stay
    in their frames.  Without a frame to use it throws and changes nothing. *)
Theorem FetchPage_spec s pid : pool_ok s -> page_ok pid -> pins s pid < 2 ^ 16 - 1 ->
  backed s pid ->
  match BufferPool.FetchPage pid s with
  | (Ok f, s') => pool_ok s' /\ page_table_ s' !! pid = Some f /\
      (exists p, BufferPool.frame s' f = Some p /\ page_id_ p = pid /\ data_ p = content s pid) /\
      (forall q, ps_storable q -> content s' q = content s q) /\
      (forall q, pins s' q = pins s q + if decide (q = pid) then 1 else 0) /\
      (forall q, 0 < pins s q -> page_table_ s' !! q = page_table_ s !! q)
  | (Err e, s') => e = StdRuntimeError /\ s' = s /\ page_table_ s !! pid = None /\ ~ can_allocate s
  end.
Proof.
  intros Hok Hpid Hpin Hrd.
  assert (page_table_ s !! pid = None -> ps_readable (disk_manager_ s) pid) as Hrd'.
  { intros Ht. destruct Hrd as [Hk|Hp]; [by apply kept_absent|]. unfold pins in Hp. rewrite Ht in Hp. lia. }
  assert (fetchable s pid \/ (page_table_ s !! pid = None /\ ~ can_allocate s)) as [Hf|[Ht Hno]].
  { unfold fetchable. destruct (page_table_ s !! pid) eqn:Ht; [by left|].
    destruct (free_list_ s) eqn:Hfree; [|left; split; [by apply Hrd'|left; by rewrite Hfree]].
    pose proof (Evict_spec (frame_store_ s)) as He.
    destruct (RandomBogoReplacer.Evict (frame_store_ s)) as [[g|] r].
    - left. split; [by apply Hrd'|]. right. exists g. by destruct He.
    - right. split; [done|]. intros [?|[g Hg]]; [congruence|]. destruct He as [_ He]. by apply (He g). }
  - destruct (FetchPage_fetched s pid Hok Hpid Hf) as (f & s' & -> & Hft).
    destruct (ft_frame _ _ _ _ Hft) as [Ht Hp].
    split_and!; [apply (ft_ok _ _ _ _ Hft)|done|done|apply (ft_content _ _ _ _ Hft)|
      apply (ft_pins _ _ _ _ Hft)|apply (ft_table _ _ _ _ Hft)].
  - destruct Hpid as [_ Hnum]. by rewrite (FetchPage_full s pid Hok Hno Hnum Ht).
Qed.

(** C14: after [FlushAllPages] the disk holds the current bytes of every page: a pool
    opened on it afterwards has the same contents. *)
Theorem FlushAllPages_durable s : pool_ok s ->
  exists s', BufferPool.FlushAllPages s = (Ok tt, s') /\ pool_ok s' /\
    forall q n, ps_storable q -> content s' q = content s q /\
      content (BufferPool.BufferPool n (disk_manager_ s')) q = content s q.
Proof.
  intros Hok. destruct (flush_all s Hok) as (s' & E & Hok' & Hk & _ & Ht & Hd).
  exists s'. split_and!; try done. intros q n Hq. split; [by apply Hk|].
  change (ps_content (disk_manager_ s') q = content s q).
  destruct (page_table_ s !! q) as [f|] eqn:E1; [by rewrite (proj1 (Hd q f E1)); apply Hk|].
  rewrite <- (proj2 (proj2 (Hk q)) Hq). unfold content. by rewrite Ht, E1.
Qed.

(** ** A frame that is filled from the free list *)
Definition fetch_release (pid : PageId) : M pool unit :=
  BufferPool.FetchPage pid;; BufferPool.UnpinPage pid false;; mret tt.
Fixpoint fetch_all (pids : list PageId) : M pool unit :=
  match pids with
  | [] => mret tt
  | pid :: pids => fetch_release pid;; fetch_all pids
  end.

Lemma fetch_all_leak pids s : pool_ok s -> idle s -> frame_store_ s = ∅ ->
  length (free_list_ s) = length pids -> NoDup pids ->
  (forall q, q ∈ pids -> page_ok q /\ kept s q /\ page_table_ s !! q = None) ->
  exists s', fetch_all pids s = (Ok tt, s') /\ pool_ok s' /\ idle s' /\ frame_store_ s' = ∅ /\
    free_list_ s' = [] /\ forall q, (q ∉ pids) -> page_table_ s !! q = None -> page_table_ s' !! q = None.
Proof.
  revert s. induction pids as [|pid pids IH]; intros s Hok Hidle Hst Hlen Hnd Hall; cbn [fetch_all].
  { exists s. destruct (free_list_ s) eqn:E; [|discriminate Hlen]. done. }
  apply NoDup_cons in Hnd as [Hni Hnd].
  destruct (Hall pid) as (Hpid & Hrd & Ht); [left|].
  destruct (free_list_ s) as [|g free] eqn:Hfree; [discriminate Hlen|].
  destruct (FetchPage_fetched s pid Hok Hpid) as (f & s1 & E1 & Hft).
  { unfold fetchable. rewrite Ht. split; [by apply kept_absent|]. left. by rewrite Hfree. }
  destruct (ft_free _ _ _ _ Hft g free Ht Hfree) as [Hfree1 Hst1].
  destruct (fetch_get s pid f s1 Hpid Hidle Hft)
    as (s2 & _ & E2 & (Hok2 & Hidle2 & _ & Hrd2) & Hfree2 & Htb2 & Hst2).
  assert (frame_store_ s2 = ∅) as Hst2' by (by rewrite Hst2, Hst1, Hst).
  unfold fetch_release.
  assert ((BufferPool.FetchPage pid;; BufferPool.UnpinPage pid false;; mret tt) s = (Ok tt, s2)) as E.
  { by rewrite (bind_ok _ _ _ _ _ E1), (bind_ok _ _ _ _ _ E2). }
  rewrite (bind_ok _ _ _ _ _ E).
  destruct (IH s2 Hok2 Hidle2 Hst2') as (s3 & E3 & ? & ? & ? & ? & Habs); [|done| |].
  - rewrite Hfree2, Hfree1. by injection Hlen.
  - intros q Hq. destruct (Hall q) as (? & ? & ?); [by right|]. destruct H0 as [Hst' _].
    split_and!; [by apply Hall; right|by apply Hrd2|]. rewrite Htb2. apply (ft_absent _ _ _ _ Hft); [|done].
    by intros ->.
  - exists s3. split_and!; try done. intros q Hq Hn. apply not_elem_of_cons in Hq as [Hqp Hq].
    apply Habs; [done|]. rewrite Htb2. by apply (ft_absent _ _ _ _ Hft).
Qed.


(** C32: [DeletePage] puts the frame on the free list but does not tell the replacer, which
    goes on offering it for eviction. *)
Theorem DeletePage_leaves_evictable s pid f : pool_ok s -> page_table_ s !! pid = Some f ->
  frame_store_ s !! f = Some true ->
  exists s', BufferPool.DeletePage pid s = (Ok true, s') /\ page_table_ s' !! pid = None /\
    f ∈ free_list_ s' /\ frame_store_ s' !! f = Some true /\ ~ pool_ok s'.
Proof.
  intros Hok Ht Hev. destruct (mapped_frame s pid f Hok Ht) as (_ & p & Hp & _).
  destruct (po_evictable _ _ Hok f Hev) as (p0 & Hp0 & Hz & _). assert (p0 = p) as -> by congruence.
  unfold BufferPool.DeletePage. rewrite (bind_ok get_state _ s s s), Ht by done.
  rewrite (bind_ok _ _ _ _ _ (get_page_ok s f p Hp)), Hz. cbn [Z.ltb Z.compare].
  set (s1 := BufferPool.set_table (delete pid (page_table_ s)) s).
  rewrite (bind_ok (modify _) _ s tt s1) by done.
  set (s2 := BufferPool.set_free (free_list_ s1 ++ [f]) s1).
  rewrite (bind_ok (modify _) _ s1 tt s2) by done.
  rewrite (bind_ok _ _ _ _ _ (update_page_ok s2 f p _ Hp)). set (s3 := BufferPool.set_pages _ s2).
  assert (BufferPool.frame s3 f = Some (Page.ResetMemory p)) as Hp3.
  { unfold s3. rewrite frame_update, decide_True by (done || by exists p). done. }
  rewrite (bind_ok _ _ _ _ _ (update_page_ok s3 f _ _ Hp3)).
  eexists; split; [done|]. cbn [page_table_ free_list_ frame_store_ BufferPool.set_pages s3 s2 s1].
  split_and!; [apply lookup_delete_eq|apply elem_of_app; right; by left|done|].
  intros Hbad. destruct (po_evictable _ _ Hbad f Hev) as (p4 & Hp4 & _ & Ht4).
  destruct (po_free _ _ Hbad f) as (p5 & Hp5 & _ & Hnum); [apply elem_of_app; right; by left|].
  rewrite Hp5 in Hp4. injection Hp4 as <-. destruct (po_table _ _ Hbad _ _ Ht4) as ([_ Hge] & _).
  rewrite Hnum in Hge. unfold INVALID_PAGE_ID in Hge. lia.
Qed.
End props.

(** ** Concrete runs *)
#[local] Existing Instance memory_store.
#[local] Existing Instance map_order.

Definition page_of (b : byte) : list byte := replicate page_size b.
Definition small_pool : BufferPool (gmap PageId (list byte)) := BufferPool.BufferPool 2 ∅.
Definition pg (n : Z) : PageId := mk_PageId 0 n.

Lemma small_pool_ok : pool_ok small_pool /\ idle small_pool.
Proof. split; [by apply BufferPool_ok|done]. Qed.

Lemma memory_page_ok n : 0 <= n -> page_ok (pg n).
Proof. by split. Qed.


Lemma FetchPage_spec_witness :
  match BufferPool.FetchPage (pg 7) small_pool with
  | (Ok f, s') => page_table_ s' !! pg 7 = Some f /\ pins s' (pg 7) = 1
  | _ => False
  end.
Proof.
  pose proof (FetchPage_spec small_pool (pg 7) (proj1 small_pool_ok) (memory_page_ok 7 ltac:(lia))
    ltac:(vm_compute; done) (or_introl (or_introl I))) as Hf.
  destruct (BufferPool.FetchPage (pg 7) small_pool) as [[f|e] s'] eqn:E.
  - destruct Hf as (_ & Ht & _ & _ & Hp & _). split; [exact Ht|]. rewrite Hp. done.
  - vm_compute in E. discriminate.
Defined.

Lemma FlushAllPages_durable_witness : exists s', BufferPool.FlushAllPages small_pool = (Ok tt, s').
Proof.
  destruct (FlushAllPages_durable small_pool (proj1 small_pool_ok)) as (s' & E & _).
  exists s'. exact E.
Defined.


(** A page that is created and released can be deleted while the replacer offers it. *)
Definition counter : PageAllocator Z := {| AllocatePage n := Ok (pg n, n + 1) |}.
Definition one_released : M (BufferPool (gmap PageId (list byte))) unit :=
  BufferPool.NewPage (H0:=counter) 0;; BufferPool.UnpinPage (pg 0) false;; mret tt.

Lemma one_released_ok : pool_ok (one_released small_pool).2 /\ idle (one_released small_pool).2.
Proof.
  destruct (@NewPage_created _ memory_store map_order Z counter small_pool 0 1 (pg 0)) as (f & s1 & E1 & Hc1).
  - exact (proj1 small_pool_ok).
  - by apply memory_page_ok.
  - done.
  - done.
  - left. done.
  - destruct (cr_frame _ _ _ _ Hc1) as (Ht & p & Hp & _ & Hd & Hpin).
    destruct (content_of s1 (pg 0) f p Hp Ht) as (Hcont & Hpins & _).
    assert (ps_content (disk_manager_ s1) (pg 0) = Page.zeros) as Hdisk.
    { change s1 with ((Ok (f, pg 0, 1), s1) : res (Z * PageId * Z) * _).2. rewrite <- E1. by vm_compute. }
    destruct (UnpinPage_ok s1 (pg 0) false (cr_ok _ _ _ _ Hc1)) as (s2 & E2 & Hok2 & Hk2 & _).
    + lia.
    + intros _. apply (cr_latch _ _ _ _ Hc1).
    + intros _. right. left. by rewrite Hdisk, Hcont.
    + assert (one_released small_pool = (Ok tt, s2)) as ->.
      { unfold one_released. by rewrite (bind_ok _ _ _ _ _ E1), (bind_ok _ _ _ _ _ E2). }
      cbn [snd]. split; [exact Hok2|]. intros q. destruct (Hk2 q) as (_ & -> & -> & _).
      destruct (decide (q = pg 0)) as [->|Hne]; [split; [lia|apply (cr_latch _ _ _ _ Hc1)]|].
      destruct (cr_other _ _ _ _ Hc1 q Hne) as (-> & -> & _). by split.
Qed.

Lemma DeletePage_leaves_evictable_witness : exists s',
  BufferPool.DeletePage (pg 0) (one_released small_pool).2 = (Ok true, s') /\ frame_store_ s' !! 0 = Some true.
Proof.
  destruct (DeletePage_leaves_evictable (one_released small_pool).2 (pg 0) 0)
    as (s' & E & _ & _ & Hev & _).
  - exact (proj1 one_released_ok).
  - vm_compute. done.
  - vm_compute. done.
  - exists s'. split; [exact E|exact Hev].
Defined.
