(* ===== verification/PoolLiveness.v ===== *)
(** * A buffer pool that goes on serving

    The replacer knows the frames that [Pin] told it of: those of pages that were created,
    evicted or fetched a second time.  One such frame is enough: as long as pages are
    pinned one at a time, it or another one can be evicted whenever a page is missing. *)
From S2P Require Import Prelude Bytes Types DiskManager BufferPool BufferPoolProps.
Open Scope Z_scope.

Section liveness.
Context {D : Type} `{PageStore D} `{!HashOrder Z bool}.
Abbreviation pool := (BufferPool D).
#[local] Set Default Proof Using "Type*".
Implicit Types (s : pool) (f : Z) (pid q : PageId).

(** The replacer has a frame to give. *)
Definition evictable_frame s : Prop := exists f, frame_store_ s !! f = Some true.

(** *** What happens to the replacer's frames *)
Abbreviation keeps_store := (preserves (frame_store_ (D:=D))).

Lemma keeps_get_page f : keeps_store (BufferPool.get_page f).
Proof. intros s. unfold BufferPool.get_page. by case_match. Qed.
Lemma keeps_put_page f p : keeps_store (BufferPool.put_page f p).
Proof. done. Qed.
Lemma keeps_lift_disk {A} (m : M D A) : keeps_store (BufferPool.lift_disk m).
Proof. intros s. unfold BufferPool.lift_disk. by destruct (m _). Qed.
Lemma keeps_table f t : keeps_store (modify (fun s => BufferPool.set_table (t s) s)).
Proof. done. Qed.
#[local] Hint Resolve keeps_get_page keeps_put_page keeps_lift_disk : preserves.
Lemma keeps_update_page f h : keeps_store (BufferPool.update_page f h).
Proof. apply preserves_bind; auto with preserves. Qed.
#[local] Hint Resolve keeps_update_page : preserves.
Ltac keeps := repeat first [ progress cbn beta | done | by eauto with preserves nocore | apply preserves_bind; [|intros ?] | case_match ].

Lemma keeps_FlushPage pid : keeps_store (BufferPool.FlushPage pid).
Proof. unfold BufferPool.FlushPage. keeps. Qed.
#[local] Hint Resolve keeps_FlushPage : preserves.
Lemma keeps_flush_frames (n : nat) i : keeps_store (BufferPool.flush_frames n i).
Proof. revert i. induction n as [|n IH]; intros i; cbn [BufferPool.flush_frames]; keeps. Qed.
#[local] Hint Resolve keeps_flush_frames : preserves.
Lemma keeps_FlushAllPages : keeps_store BufferPool.FlushAllPages.
Proof. unfold BufferPool.FlushAllPages. keeps. Qed.

(** A frame is handed out without the replacer, or it knows it. *)
Lemma AllocateFrame_store s x s' : BufferPool.AllocateFrame s = (Ok (Some x), s') ->
  frame_store_ s' = frame_store_ s \/ frame_store_ s' !! x = Some false.
Proof.
  unfold BufferPool.AllocateFrame. rewrite (bind_ok get_state _ s s s) by done.
  destruct (free_list_ s) as [|g free]; [|intros [= _ <-]; by left].
  pose proof (Evict_spec (frame_store_ s)) as He.
  destruct (RandomBogoReplacer.Evict (frame_store_ s)) as [[g|] r]; [|done]. destruct He as [_ ->].
  rewrite (bind_ok (modify _) _ s tt (BufferPool.set_store (<[g := false]> (frame_store_ s)) s)) by done.
  match goal with |- ?m ?s0 = _ -> _ => assert (keeps_store m) as Hk by keeps; specialize (Hk s0) end.
  intros E. rewrite E in Hk. cbn in Hk. right. rewrite Hk.
  repeat (apply bind_inv in E as (? & ? & _ & E)). injection E as <- _. apply lookup_insert_eq.
Qed.

Lemma fetch_store s pid f s' : BufferPool.FetchPage pid s = (Ok f, s') ->
  frame_store_ s' = frame_store_ s \/ frame_store_ s' !! f = Some false.
Proof.
  unfold BufferPool.FetchPage. intros E. apply bind_inv in E as (? & s1 & E1 & E).
  assert (s1 = s) as -> by (unfold assert_that, lift in E1; congruence). rewrite (bind_ok get_state _ s s s) in E by done.
  destruct (page_table_ s !! pid) as [g|].
  - apply bind_inv in E as (? & s2 & E2 & E). injection E as <- <-. right. cbn. apply lookup_insert_eq.
  - apply bind_inv in E as ([g|] & s2 & E2 & E); [|done].
    match type of E with ?m ?s0 = _ => assert (keeps_store m) as Hk by keeps; specialize (Hk s0) end.
    rewrite E in Hk. cbn in Hk.
    repeat (apply bind_inv in E as (? & ? & _ & E)). injection E as <- _. rewrite Hk. by eapply AllocateFrame_store.
Qed.

(** What is unpinned after a fetch leaves a frame to evict, when there was one. *)
Lemma evictable_again (r r' : gmap Z bool) f : (exists g, r !! g = Some true) -> r' = r \/ r' !! f = Some false ->
  exists g, RandomBogoReplacer.Unpin f r' !! g = Some true.
Proof.
  intros [g Hg] Hr. unfold RandomBogoReplacer.Unpin. destruct Hr as [-> | ->]; [|exists f; apply lookup_insert_eq].
  destruct (r !! f) eqn:E; [exists f; apply lookup_insert_eq|by exists g].
Qed.

Lemma evictable_fetch s pid : pool_ok s -> idle s -> evictable_frame s -> page_ok pid -> kept s pid ->
  exists f s', BufferPool.FetchPage pid s = (Ok f, s') /\ fetched s pid f s' /\
    (frame_store_ s' = frame_store_ s \/ frame_store_ s' !! f = Some false).
Proof.
  intros Hok Hidle Hev Hpid Hk. destruct (FetchPage_fetched s pid Hok Hpid) as (f & s' & E & Hft).
  - unfold fetchable. destruct (page_table_ s !! pid) eqn:Ht; [destruct (Hidle pid); lia|].
    split; [by apply kept_absent|by right].
  - exists f, s'. split_and!; [done|done|by eapply fetch_store].
Qed.

(** *** One operation is done, and another can be *)
Lemma run_op_lives o s : pool_ok s -> idle s -> evictable_frame s -> op_page_ok s o ->
  exists r s', run_op o s = (Ok r, s') /\ evictable_frame s'.
Proof.
  intros Hok Hidle Hev Ho. destruct o as [pid|pid bs|pid|]; cbn [run_op].
  - destruct Ho as [Hpid Hk]. destruct (evictable_fetch s pid Hok Hidle Hev Hpid Hk) as (f & s1 & E1 & Hft & Hst).
    destruct (fetch_get s pid f s1 Hpid Hidle Hft) as (s3 & E2 & E3 & _ & _ & _ & Hst3).
    rewrite (bind_ok _ _ _ _ _ E1), (bind_ok _ _ _ _ _ E2), (bind_ok _ _ _ _ _ E3). eexists _, _. split; [done|].
    unfold evictable_frame. rewrite Hst3. by eapply evictable_again.
  - destruct Ho as (Hpid & Hk & Hl). destruct (evictable_fetch s pid Hok Hidle Hev Hpid Hk) as (f & s1 & E1 & Hft & Hst).
    destruct (fetch_put s pid bs f s1 Hpid Hidle Hft Hl) as (s2 & s3 & E2 & E3 & _ & Hst3).
    rewrite (bind_ok _ _ _ _ _ E1), (bind_ok _ _ _ _ _ E2), (bind_ok _ _ _ _ _ E3). eexists _, _. split; [done|].
    unfold evictable_frame. rewrite Hst3. by eapply evictable_again.
  - pose proof (keeps_FlushPage pid s) as Hk. destruct (page_table_ s !! pid) as [f|] eqn:Ht.
    + destruct (FlushPage_ok s pid f Hok Ht) as (s' & E & _). rewrite E in Hk. cbn in Hk.
      rewrite (bind_ok _ _ _ _ _ E). eexists _, _. split; [done|]. unfold evictable_frame. by rewrite Hk.
    + rewrite (bind_ok _ _ _ _ _ (FlushPage_absent s pid Ht)). by eexists _, _.
  - destruct (flush_all s Hok) as (s' & E & _). pose proof (keeps_FlushAllPages s) as Hk. rewrite E in Hk.
    rewrite (bind_ok _ _ _ _ _ E). eexists _, _. split; [done|]. unfold evictable_frame. cbn in Hk. by rewrite Hk.
Qed.

(** *** Sequences of operations *)
(** The answers of a map of pages. *)
Fixpoint spec_run (ops : list pool_op) (m : PageId -> list byte) : list (list byte) :=
  match ops with
  | [] => []
  | o :: ops => (spec_pool o m).1 :: spec_run ops (spec_pool o m).2
  end.
Lemma spec_run_ext s ops (m m' : PageId -> list byte) : Forall (op_page_ok s) ops ->
  (forall q, ps_storable q -> m q = m' q) -> spec_run ops m = spec_run ops m'.
Proof.
  intros Hall. revert m m'. induction Hall as [|o ops Ho _ IH]; intros m m' Hm; [done|]. cbn [spec_run]. f_equal.
  - destruct o; cbn; try done. apply Hm, Ho.
  - apply IH. intros q Hq. destruct o; cbn; auto. case_decide; auto.
Qed.

(** C7: a pool with no page pinned and one frame that the replacer may evict serves for
    ever: any sequence of page reads, page writes and flushes, however long and over however
    many pages, is answered in full, as a map from page ids to bytes answers it, and there
    is still a frame to evict and no page pinned when it ends. *)
Theorem pool_serves_forever ops s : pool_ok s -> idle s -> evictable_frame s -> Forall (op_page_ok s) ops ->
  (run_pool ops s).1 = Ok <$> spec_run ops (content s) /\
  pool_ok (run_pool ops s).2 /\ idle (run_pool ops s).2 /\ evictable_frame (run_pool ops s).2.
Proof.
  intros Hok Hidle Hev Hall. revert s Hok Hidle Hev Hall.
  induction ops as [|o ops IH]; intros s Hok Hidle Hev Hall; cbn [run_pool spec_run fmap list_fmap fst snd]; [done|].
  inversion Hall as [|? ? Ho Hops]; subst. pose proof (run_op_spec o s Hok Hidle Ho) as Hs.
  destruct (run_op_lives o s Hok Hidle Hev Ho) as (r & s1 & E & Hev1). rewrite E in Hs |- *. cbn [fst snd].
  destruct Hs as [-> (Hok1 & Hidle1 & Hc1 & Hr1)].
  assert (Forall (op_page_ok s1) ops) as Hops1.
  { eapply Forall_impl; [exact Hops|]. intros o' Ho'. by eapply op_page_ok_mono. }
  destruct (IH s1 Hok1 Hidle1 Hev1 Hops1) as (-> & Hrest). split; [|exact Hrest].
  do 2 f_equal. exact (spec_run_ext s1 ops _ _ Hops1 Hc1).
Qed.
End liveness.

(** ** A concrete run *)
#[local] Existing Instance memory_store.
#[local] Existing Instance map_order.

(** Two frames, one of them made known by a page that was created and released: page after
    page is served. *)
Lemma pool_serves_forever_witness :
  (run_pool [PPut (pg 1) (page_of x01); PGet (pg 2); PGet (pg 3); PGet (pg 4); PGet (pg 1)] (one_released small_pool).2).1 =
    Ok <$> [[]; page_of x00; page_of x00; page_of x00; page_of x01].
Proof.
  pose proof (pool_serves_forever [PPut (pg 1) (page_of x01); PGet (pg 2); PGet (pg 3); PGet (pg 4); PGet (pg 1)]
    (one_released small_pool).2) as Hs.
  destruct Hs as [-> _].
  - exact (proj1 one_released_ok).
  - exact (proj2 one_released_ok).
  - exists 0. vm_compute. done.
  - repeat constructor; done.
  - vm_compute. reflexivity.
Defined.
