(* ===== verification/PageGuard.v ===== *)
(** * Page guards: [storage/page/page_guard.hpp], [storage/page/page_guard.cpp] and the
    fetching functions of [storage/buffer/buffer_pool.cpp] that return them

    A guard is a frame number (the [Page *]; the pool pointer is set exactly when it is)
    and its own dirty flag.  [ReadPageGuard] and [WritePageGuard] hold a [BasicPageGuard]
    and the frame's latch. *)
From S2P Require Import Prelude Bytes Types DiskManager BufferPool BufferPoolProps.
Open Scope Z_scope.

Record guard := mk_guard { page_ : option Z; g_is_dirty_ : bool }.

(** Exceptions unwind the stack, and with it run the destructors of the guards that are
    alive; a failed assertion ends the process. *)
Definition is_exception (e : failure) : bool :=
  match e with AssertionFailed | UndefinedBehaviour => false | _ => true end.
Definition unwinding {S A} (cleanup : M S unit) (m : M S A) : M S A := fun s =>
  match m s with
  | (Err e, s') => if is_exception e then (Err e, (cleanup s').2) else (Err e, s')
  | r => r
  end.

Section guards.
Context {D : Type} `{PageStore D} `{!HashOrder Z bool}.
Abbreviation pool := (BufferPool D).

Definition deref (g : guard) : M pool Z :=
  match page_ g with Some f => mret f | None => throw UndefinedBehaviour end.

(** [page_->RLatch()] and the like. *)
Definition latch_op (op : Page -> res Page) (f : Z) : M pool unit :=
  p ← BufferPool.get_page f; p ← lift (op p); BufferPool.put_page f p.
End guards.

Module BasicPageGuard.
(** [BasicPageGuard()], [BasicPageGuard(bpm, page)], and what a move leaves behind. *)
Definition empty : guard := mk_guard None false.
Definition make (f : Z) : guard := mk_guard (Some f) false.
Definition moved_from (that : guard) : guard := mk_guard None (g_is_dirty_ that).

Section operations.
Context {D : Type} `{PageStore D} `{!HashOrder Z bool}.
Abbreviation pool := (BufferPool D).

(** [Drop], also run by the destructor. *)
Definition Drop (g : guard) : M pool guard :=
  match page_ g with
  | None => mret g
  | Some f =>
    page ← BufferPool.get_page f;
    BufferPool.UnpinPage (Page.GetPageId page) (g_is_dirty_ g);;
    mret (mk_guard None (g_is_dirty_ g))
  end.

(** Move assignment [this = std::move(that)] of two different guards: the new values of
    both. *)
Definition move_assign (this that : guard) : M pool (guard * guard) :=
  Drop this;; mret (that, moved_from that).

(** [UpgradeRead], [UpgradeWrite]: the new guard, and this one emptied. *)
Definition UpgradeRead (g : guard) : M pool (guard * guard) :=
  f ← deref g; latch_op Page.RLatch f;; mret (make f, moved_from g).
Definition UpgradeWrite (g : guard) : M pool (guard * guard) :=
  f ← deref g; latch_op Page.WLatch f;; mret (make f, moved_from g).

Definition PageId (g : guard) : M pool Z :=
  f ← deref g; p ← BufferPool.get_page f; mret (page_number_ (Page.GetPageId p)).
(** [As<T>]: the page's bytes; [AsMut<T>] marks the guard dirty, and [store] is what is
    then written through the pointer. *)
Definition GetData (g : guard) : M pool (list byte) :=
  f ← deref g; p ← BufferPool.get_page f; mret (Page.GetData p).
Definition GetDataMut (g : guard) : guard := mk_guard (page_ g) true.
Definition store (g : guard) (bs : list byte) : M pool unit :=
  f ← deref g; write_frame f bs.
End operations.
End BasicPageGuard.

Module ReadPageGuard.
Section operations.
Context {D : Type} `{PageStore D} `{!HashOrder Z bool}.
Abbreviation pool := (BufferPool D).

Definition Drop (g : guard) : M pool guard :=
  match page_ g with Some f => latch_op Page.RUnlatch f | None => mret tt end;;
  BasicPageGuard.Drop g.
Definition move_assign (this that : guard) : M pool (guard * guard) :=
  this ← Drop this; BasicPageGuard.move_assign this that.
Definition UpgradeWrite (g : guard) : M pool (guard * guard) :=
  f ← deref g; latch_op Page.RUnlatch f;; BasicPageGuard.UpgradeWrite g.
End operations.
End ReadPageGuard.

Module WritePageGuard.
Section operations.
Context {D : Type} `{PageStore D} `{!HashOrder Z bool}.
Abbreviation pool := (BufferPool D).

Definition Drop (g : guard) : M pool guard :=
  match page_ g with Some f => latch_op Page.WUnlatch f | None => mret tt end;;
  BasicPageGuard.Drop g.
Definition move_assign (this that : guard) : M pool (guard * guard) :=
  this ← Drop this; BasicPageGuard.move_assign this that.
End operations.
End WritePageGuard.

(** ** Fetching with a guard *)
Section fetching.
Context {D : Type} `{PageStore D} `{!HashOrder Z bool}.
Abbreviation pool := (BufferPool D).

Definition FetchPageBasic (page_id : PageId) : M pool guard :=
  page ← BufferPool.FetchPage page_id; mret (BasicPageGuard.make page).
Definition FetchPageRead (page_id : PageId) : M pool guard :=
  page ← BufferPool.FetchPage page_id;
  latch_op Page.RLatch page;; mret (BasicPageGuard.make page).
Definition FetchPageWrite (page_id : PageId) : M pool guard :=
  page ← BufferPool.FetchPage page_id;
  latch_op Page.WLatch page;; mret (BasicPageGuard.make page).
Definition NewPageGuarded {A} `{PageAllocator A} (page_allocator : A) : M pool (guard * PageId * A) :=
  r ← BufferPool.NewPage page_allocator;
  mret (BasicPageGuard.make r.1.1, r.1.2, r.2).
End fetching.

(** ** Guards and the contents of the pool

    [view s h c]: the pages pinned are those of [h], once each and latched as [h] says,
    and the pages' bytes are [c]. *)
Section facts.
Context {D : Type} `{PageStore D} `{!HashOrder Z bool}.
Abbreviation pool := (BufferPool D).
Implicit Types (s : pool) (f : Z) (pid q : PageId) (l : latch) (h : gmap PageId latch)
  (c : PageId -> list byte) (X : gset PageId).

Record view s h c : Prop := {
  vw_ok : pool_ok s;
  vw_pins q : pins s q = match h !! q with Some _ => 1 | None => 0 end;
  vw_latch q : latch_of s q = default Unlatched (h !! q);
  vw_content q : ps_storable q -> content s q = c q
}.

(** From [s] to [s'] no page is lost, and only pages of [X] may have entered the pool. *)
Record moves X s s' : Prop := {
  mv_kept q : ps_storable q -> kept s q -> kept s' q;
  mv_absent q : q ∉ X -> page_table_ s !! q = None -> page_table_ s' !! q = None
}.
(** Pinned pages stay in their frames. *)
Definition steady s s' : Prop := forall q, 0 < pins s q -> page_table_ s' !! q = page_table_ s !! q.

Definition guards s (g : guard) pid : Prop := exists f, page_ g = Some f /\ page_table_ s !! pid = Some f.

#[export] Instance moves_refl X : Reflexive (moves X).
Proof. by split. Qed.
#[export] Instance moves_trans X : Transitive (moves X).
Proof. intros s1 s2 s3 [H1 H2] [H3 H4]. split; eauto. Qed.
Lemma moves_weaken X Y s s' : X ⊆ Y -> moves X s s' -> moves Y s s'.
Proof. intros Hs [H1 H2]. split; [done|]. intros q Hq. apply H2. set_solver. Qed.

Lemma guards_steady s s' h c g pid l : view s h c -> h !! pid = Some l -> steady s s' ->
  guards s g pid -> guards s' g pid.
Proof.
  intros Hv Hh Hs (f & Hg & Ht). exists f. split; [done|]. rewrite <- Ht. apply Hs.
  rewrite (vw_pins _ _ _ Hv), Hh. lia.
Qed.

Lemma idle_view s : pool_ok s -> idle s -> view s ∅ (content s).
Proof. intros Hok Hidle. split; try done; intros q; rewrite lookup_empty; apply (Hidle q). Qed.
Lemma view_idle s c : view s ∅ c -> pool_ok s /\ idle s.
Proof.
  intros Hv. split; [apply (vw_ok _ _ _ Hv)|]. intros q.
  rewrite (vw_pins _ _ _ Hv), (vw_latch _ _ _ Hv), lookup_empty. done.
Qed.
Lemma view_ext s h h' c : h = h' -> view s h c -> view s h' c.
Proof. by intros ->. Qed.

(** *** One step each *)
Lemma FetchPage_view s h c pid : view s h c -> h !! pid = None -> page_ok pid -> kept s pid ->
  (exists f s', BufferPool.FetchPage pid s = (Ok f, s') /\ view s' (<[pid := Unlatched]> h) c /\
     page_table_ s' !! pid = Some f /\ told s' pid /\ moves {[pid]} s s' /\ steady s s') \/
  BufferPool.FetchPage pid s = (Err StdRuntimeError, s).
Proof.
  intros Hv Hh Hpid Hk. pose proof (vw_pins _ _ _ Hv pid) as Hp. rewrite Hh in Hp.
  destruct (idle_fetch s pid (vw_ok _ _ _ Hv) Hp Hpid Hk) as [(f & s' & E & Hft)|]; [left|by right].
  destruct (ft_frame _ _ _ _ Hft) as (Ht & p & Hfr & _ & Hd). exists f, s'. split; [done|].
  split_and!; [|done| | |intros q; apply (ft_table _ _ _ _ Hft)].
  - split; [apply (ft_ok _ _ _ _ Hft)| | |].
    + intros q. rewrite (ft_pins _ _ _ _ Hft), (vw_pins _ _ _ Hv). case_decide as Hq.
      * subst. by rewrite Hh, lookup_insert_eq.
      * rewrite lookup_insert_ne by done. lia.
    + intros q. rewrite (ft_latch _ _ _ _ Hft), (vw_latch _ _ _ Hv).
      destruct (decide (q = pid)) as [->|Hq]; [by rewrite Hh, lookup_insert_eq|by rewrite lookup_insert_ne].
    + intros q Hq. by rewrite (ft_content _ _ _ _ Hft), (vw_content _ _ _ Hv).
  - destruct (ft_clean _ _ _ _ Hft Hp) as [Hc|(p' & Hp' & Hd')].
    + left. rewrite (ft_content _ _ _ _ Hft); [done|apply Hpid].
    + right. by exists f, p'.
  - split; [apply (ft_kept _ _ _ _ Hft)|]. intros q Hq. apply (ft_absent _ _ _ _ Hft). set_solver.
Qed.

Lemma NewPage_view {A} `{PageAllocator A} s h c (a a' : A) pid : view s h c -> page_ok pid ->
  AllocatePage a = Ok (pid, a') -> page_table_ s !! pid = None ->
  (exists f s', BufferPool.NewPage a s = (Ok (f, pid, a'), s') /\
     view s' (<[pid := Unlatched]> h) (fun q => if decide (q = pid) then Page.zeros else c q) /\
     page_table_ s' !! pid = Some f /\ moves {[pid]} s s' /\ steady s s') \/
  BufferPool.NewPage a s = (Err StdRuntimeError, s).
Proof.
  intros Hv Hpid Hall Ht. pose proof (vw_ok _ _ _ Hv) as Hok.
  assert (can_allocate s \/ ~ can_allocate s) as [Hcan|Hno].
  { unfold can_allocate. destruct (free_list_ s); [|by left; left].
    pose proof (Evict_spec (frame_store_ s)) as He.
    destruct (RandomBogoReplacer.Evict (frame_store_ s)) as [[g|] r].
    - left. right. exists g. by destruct He.
    - right. destruct He as [_ He]. intros [?|[g Hg]]; [done|by apply (He g)]. }
  2:{ right. unfold BufferPool.NewPage. by rewrite (bind_ok _ _ _ _ _ (AllocateFrame_none s Hok Hno)). }
  left. destruct (NewPage_created s a a' pid Hok Hpid Hall Ht Hcan) as (f & s' & E & Hcr).
  destruct (cr_frame _ _ _ _ Hcr) as (Ht' & p & Hp & _ & Hd & Hpn).
  destruct (content_of s' pid f p Hp Ht') as (H1 & H2 & _).
  exists f, s'. split; [done|]. split_and!; [|done| |intros q; apply (cr_table _ _ _ _ Hcr)].
  - pose proof (cr_ok _ _ _ _ Hcr) as Hok'.
    assert (forall q, q <> pid -> pins s' q = pins s q /\ latch_of s' q = latch_of s q) as Hoth.
    { intros q Hq. destruct (cr_other _ _ _ _ Hcr q Hq) as (? & ? & _). done. }
    split; [done| | |].
    + intros q. destruct (decide (q = pid)) as [->|Hq]; [by rewrite lookup_insert_eq, H2, Hpn|].
      rewrite lookup_insert_ne by done. destruct (Hoth q Hq) as [-> _]. apply (vw_pins _ _ _ Hv).
    + intros q. destruct (decide (q = pid)) as [->|Hq].
      * rewrite lookup_insert_eq. apply (cr_latch _ _ _ _ Hcr).
      * rewrite lookup_insert_ne by done. destruct (Hoth q Hq) as [_ ->]. apply (vw_latch _ _ _ Hv).
    + intros q Hq. case_decide as Hqp; [subst; by rewrite H1, Hd|].
      destruct (cr_other _ _ _ _ Hcr q Hqp) as (_ & _ & ->); [|done]. by apply (vw_content _ _ _ Hv).
  - split; [apply (cr_kept _ _ _ _ Hcr)|]. intros q Hq. apply (cr_absent _ _ _ _ Hcr). set_solver.
Qed.

Lemma latch_op_view s h c pid g f (op : Page -> res Page) l l' : view s h c -> h !! pid = Some l ->
  page_table_ s !! pid = Some f -> page_ g = Some f ->
  (forall p, rwlatch_ p = l -> op p = Ok (Page.with_latch l' p)) ->
  exists s', latch_op op f s = (Ok tt, s') /\ view s' (<[pid := l']> h) c /\ guards s' g pid /\
    (told s pid -> told s' pid) /\ moves ∅ s s' /\ steady s s'.
Proof.
  intros Hv Hh Ht Hg Hop. pose proof (vw_ok _ _ _ Hv) as Hok.
  pose proof (vw_pins _ _ _ Hv pid) as Hpin. pose proof (vw_latch _ _ _ Hv pid) as Hla.
  rewrite Hh in Hpin, Hla. cbn in Hla.
  destruct (mapped_frame s pid f Hok Ht) as (_ & p & Hp & Hid & Hr & Hlen & Hc & Hpn & Hlt).
  unfold latch_op. rewrite (bind_ok _ _ _ _ _ (get_page_ok s f p Hp)).
  rewrite (bind_ok (lift _) _ s (Page.with_latch l' p) s) by (unfold lift; by rewrite Hop by congruence).
  eexists; split; [done|].
  destruct (modify_frame s pid f p (Page.with_latch l' p) (frame_store_ s) Hok Ht Hp)
    as (Hok' & Hfr & Hoth); cbn; try done; try lia.
  { intros g' Hg'. left. split; [|done]. intros ->.
    destruct (po_evictable _ _ Hok f Hg') as (p0 & Hp0 & Hz & _). rewrite Hp in Hp0. injection Hp0 as <-. lia. }
  change (BufferPool.set_store _ ?x) with x in Hok', Hfr, Hoth.
  set (s' := BufferPool.set_pages _ _) in *.
  destruct (content_of s' pid f _ Hfr Ht) as (H1 & H2 & H3).
  split_and!; [| by exists f| | |done].
  - split; [done| | |].
    + intros q. destruct (decide (q = pid)) as [->|Hq]; [rewrite lookup_insert_eq, H2; cbn; lia|].
      rewrite lookup_insert_ne by done. destruct (Hoth q Hq) as (_ & -> & _). apply (vw_pins _ _ _ Hv).
    + intros q. destruct (decide (q = pid)) as [->|Hq]; [by rewrite lookup_insert_eq, H3|].
      rewrite lookup_insert_ne by done. destruct (Hoth q Hq) as (_ & _ & ->). apply (vw_latch _ _ _ Hv).
    + intros q Hq. destruct (decide (q = pid)) as [->|Hqp].
      * rewrite H1. cbn. rewrite <- Hc. by apply (vw_content _ _ _ Hv).
      * destruct (Hoth q Hqp) as (-> & _). by apply (vw_content _ _ _ Hv).
  - intros [Hc'|(f' & p' & Hf' & Hp' & Hd')]; [left|right].
    + rewrite H1. cbn. by rewrite <- Hc.
    + assert (f' = f) as -> by congruence. exists f, (Page.with_latch l' p). split_and!; try done. cbn. congruence.
  - split; [|done]. intros q _.
    apply (kept_update s f p (Page.with_latch l' p) (frame_store_ s) (disk_manager_ s) q Hp); [done|by left].
Qed.

(** Reading and replacing the bytes behind a guard. *)
Lemma GetData_view s h c g pid : view s h c -> guards s g pid -> page_ok pid ->
  BasicPageGuard.GetData g s = (Ok (c pid), s).
Proof.
  intros Hv (f & Hg & Ht) [Hst _].
  destruct (mapped_frame s pid f (vw_ok _ _ _ Hv) Ht) as (_ & p & Hp & _ & _ & _ & Hc & _).
  unfold BasicPageGuard.GetData, deref. rewrite Hg. rewrite (bind_ok (mret f) _ s f s) by done.
  rewrite (bind_ok _ _ _ _ _ (get_page_ok s f p Hp)).
  rewrite <- (vw_content _ _ _ Hv pid Hst), Hc. done.
Qed.

Lemma store_view s h c g pid l bs : view s h c -> guards s g pid -> h !! pid = Some l ->
  length bs = page_size ->
  exists s', BasicPageGuard.store g bs s = (Ok tt, s') /\
    view s' h (fun q => if decide (q = pid) then bs else c q) /\ moves ∅ s s' /\ steady s s'.
Proof.
  intros Hv (f & Hg & Ht) Hh Hl. unfold BasicPageGuard.store, deref. rewrite Hg.
  rewrite (bind_ok (mret f) _ s f s) by done.
  destruct (write_frame_ok s pid f bs (vw_ok _ _ _ Hv) Ht) as (s' & E & Hok' & Hc & Hne & Hk & Hd); [|done|].
  { rewrite (vw_pins _ _ _ Hv), Hh. lia. }
  exists s'. split; [done|]. split_and!.
  - split; [done| | |].
    + intros q. destruct (Hk q) as (-> & _). apply (vw_pins _ _ _ Hv).
    + intros q. destruct (Hk q) as (_ & -> & _). apply (vw_latch _ _ _ Hv).
    + intros q Hq. case_decide as Hqp; [by subst|]. rewrite Hne by done. by apply (vw_content _ _ _ Hv).
  - split; intros q; [intros _; apply Hk|]. destruct (Hk q) as (_ & _ & -> & _). done.
  - intros q _. apply Hk.
Qed.

(** Giving a page back through its guard. *)
Lemma Basic_Drop_view s h c g pid : view s h c -> guards s g pid -> h !! pid = Some Unlatched ->
  g_is_dirty_ g = true \/ told s pid ->
  exists s', BasicPageGuard.Drop g s = (Ok (mk_guard None (g_is_dirty_ g)), s') /\
    view s' (delete pid h) c /\ moves ∅ s s' /\ steady s s' /\ (g_is_dirty_ g = true -> kept s' pid).
Proof.
  intros Hv (f & Hg & Ht) Hh Hd. pose proof (vw_ok _ _ _ Hv) as Hok.
  pose proof (vw_pins _ _ _ Hv pid) as Hpin. pose proof (vw_latch _ _ _ Hv pid) as Hla.
  rewrite Hh in Hpin, Hla. destruct (mapped_frame s pid f Hok Ht) as (_ & p & Hp & Hid & _).
  unfold BasicPageGuard.Drop. rewrite Hg, (bind_ok _ _ _ _ _ (get_page_ok s f p Hp)).
  unfold Page.GetPageId. rewrite Hid.
  destruct (UnpinPage_ok s pid (g_is_dirty_ g) Hok) as (s' & E & Hok' & Hk & Hkd & _); [lia|done|by intros _|].
  rewrite (bind_ok _ _ _ _ _ E). exists s'. split; [done|]. split_and!; [| | |intros Hdi; right; apply Hkd; by right].
  - split; [done| | |].
    + intros q. destruct (Hk q) as (_ & _ & -> & _). case_decide as Hq.
      * subst. rewrite lookup_delete_eq. lia.
      * rewrite lookup_delete_ne, (vw_pins _ _ _ Hv) by done. lia.
    + intros q. destruct (Hk q) as (_ & -> & _). destruct (decide (q = pid)) as [->|Hq].
      * by rewrite lookup_delete_eq, Hla.
      * rewrite lookup_delete_ne by done. apply (vw_latch _ _ _ Hv).
    + intros q Hq. destruct (Hk q) as (-> & _). by apply (vw_content _ _ _ Hv).
  - split; intros q; [intros _; apply Hk|]. destruct (Hk q) as (_ & _ & _ & -> & _). done.
  - intros q _. apply Hk.
Qed.

(** *** Guards as a client uses them *)
Lemma FetchPageRead_view s h c pid : view s h c -> h !! pid = None -> page_ok pid -> kept s pid ->
  (exists g s', FetchPageRead pid s = (Ok g, s') /\ view s' (<[pid := Shared 1]> h) c /\
     guards s' g pid /\ told s' pid /\ moves {[pid]} s s' /\ steady s s') \/
  FetchPageRead pid s = (Err StdRuntimeError, s).
Proof.
  intros Hv Hh Hpid Hk. unfold FetchPageRead.
  destruct (FetchPage_view s h c pid Hv Hh Hpid Hk) as [(f & s1 & E & Hv1 & Ht & Htold & Hm & Hs)|E];
    [left|right; by rewrite (bind_err _ _ _ _ _ E)].
  destruct (latch_op_view s1 _ c pid (BasicPageGuard.make f) f Page.RLatch Unlatched (Shared 1) Hv1
    (lookup_insert_eq _ _ _) Ht eq_refl) as (s2 & E2 & Hv2 & Hg & Htold2 & Hm2 & Hs2).
  { intros p Hp. unfold Page.RLatch. by rewrite Hp. }
  rewrite insert_insert_eq in Hv2. exists (BasicPageGuard.make f), s2.
  rewrite (bind_ok _ _ _ _ _ E), (bind_ok _ _ _ _ _ E2). split_and!; auto.
  - etrans; [done|]. by apply (moves_weaken ∅).
  - intros q Hq. rewrite Hs2; [by apply Hs|]. rewrite (vw_pins _ _ _ Hv1). rewrite (vw_pins _ _ _ Hv) in Hq.
    destruct (decide (q = pid)) as [->|Hqp]; [by rewrite lookup_insert_eq|by rewrite lookup_insert_ne].
Qed.

Lemma FetchPageWrite_view s h c pid : view s h c -> h !! pid = None -> page_ok pid -> kept s pid ->
  (exists g s', FetchPageWrite pid s = (Ok g, s') /\ view s' (<[pid := Exclusive]> h) c /\
     guards s' g pid /\ moves {[pid]} s s' /\ steady s s') \/
  FetchPageWrite pid s = (Err StdRuntimeError, s).
Proof.
  intros Hv Hh Hpid Hk. unfold FetchPageWrite.
  destruct (FetchPage_view s h c pid Hv Hh Hpid Hk) as [(f & s1 & E & Hv1 & Ht & Htold & Hm & Hs)|E];
    [left|right; by rewrite (bind_err _ _ _ _ _ E)].
  destruct (latch_op_view s1 _ c pid (BasicPageGuard.make f) f Page.WLatch Unlatched Exclusive Hv1
    (lookup_insert_eq _ _ _) Ht eq_refl) as (s2 & E2 & Hv2 & Hg & Htold2 & Hm2 & Hs2).
  { intros p Hp. unfold Page.WLatch. by rewrite Hp. }
  rewrite insert_insert_eq in Hv2. exists (BasicPageGuard.make f), s2.
  rewrite (bind_ok _ _ _ _ _ E), (bind_ok _ _ _ _ _ E2). split_and!; auto.
  - etrans; [done|]. by apply (moves_weaken ∅).
  - intros q Hq. rewrite Hs2; [by apply Hs|]. rewrite (vw_pins _ _ _ Hv1). rewrite (vw_pins _ _ _ Hv) in Hq.
    destruct (decide (q = pid)) as [->|Hqp]; [by rewrite lookup_insert_eq|by rewrite lookup_insert_ne].
Qed.

Lemma Read_Drop_view s h c g pid : view s h c -> guards s g pid -> h !! pid = Some (Shared 1) ->
  told s pid ->
  exists s', ReadPageGuard.Drop g s = (Ok (mk_guard None (g_is_dirty_ g)), s') /\
    view s' (delete pid h) c /\ moves ∅ s s'.
Proof.
  intros Hv (f & Hg & Ht) Hh Htold. unfold ReadPageGuard.Drop. rewrite Hg.
  destruct (latch_op_view s h c pid g f Page.RUnlatch (Shared 1) Unlatched Hv Hh Ht Hg)
    as (s1 & E1 & Hv1 & Hg1 & Htold1 & Hm1 & _).
  { intros p Hp. unfold Page.RUnlatch. by rewrite Hp. }
  rewrite (bind_ok _ _ _ _ _ E1).
  destruct (Basic_Drop_view s1 _ c g pid Hv1 Hg1 (lookup_insert_eq _ _ _)) as (s2 & E2 & Hv2 & Hm2 & _).
  { right. auto. }
  exists s2. rewrite delete_insert_eq in Hv2. split_and!; [done|done|]. by etrans.
Qed.

Lemma Write_Drop_view s h c g pid : view s h c -> guards s g pid -> h !! pid = Some Exclusive ->
  g_is_dirty_ g = true ->
  exists s', WritePageGuard.Drop g s = (Ok (mk_guard None true), s') /\
    view s' (delete pid h) c /\ moves ∅ s s' /\ steady s s' /\ kept s' pid.
Proof.
  intros Hv (f & Hg & Ht) Hh Hd. unfold WritePageGuard.Drop. rewrite Hg.
  destruct (latch_op_view s h c pid g f Page.WUnlatch Exclusive Unlatched Hv Hh Ht Hg)
    as (s1 & E1 & Hv1 & Hg1 & _ & Hm1 & Hs1).
  { intros p Hp. unfold Page.WUnlatch. by rewrite Hp. }
  rewrite (bind_ok _ _ _ _ _ E1).
  destruct (Basic_Drop_view s1 _ c g pid Hv1 Hg1 (lookup_insert_eq _ _ _)) as (s2 & E2 & Hv2 & Hm2 & Hs2 & Hk2).
  { by left. }
  exists s2. rewrite delete_insert_eq in Hv2. rewrite Hd in E2.
  split_and!; [done|done|by etrans| |by apply Hk2].
  intros q Hq. rewrite Hs2; [by apply Hs1|]. rewrite (vw_pins _ _ _ Hv1). rewrite (vw_pins _ _ _ Hv) in Hq.
  destruct (decide (q = pid)) as [->|Hqp]; [by rewrite lookup_insert_eq|by rewrite lookup_insert_ne].
Qed.

(** A method of the object that lies in the page, through a guard. *)
Definition run_page {A} (g : guard) (m : M (list byte) A) : M pool A :=
  bs ← BasicPageGuard.GetData g; BasicPageGuard.store g (m bs).2;; lift (m bs).1.

Lemma run_page_view {A} s h c g pid l (m : M (list byte) A) bs' : view s h c -> guards s g pid ->
  page_ok pid -> h !! pid = Some l -> (m (c pid)).2 = bs' -> length bs' = page_size ->
  exists s', run_page g m s = ((m (c pid)).1, s') /\
    view s' h (fun q => if decide (q = pid) then bs' else c q) /\ moves ∅ s s' /\ steady s s'.
Proof.
  intros Hv Hg Hpid Hh <- Hl. unfold run_page.
  rewrite (bind_ok _ _ _ _ _ (GetData_view s h c g pid Hv Hg Hpid)).
  destruct (store_view s h c g pid l _ Hv Hg Hh Hl) as (s' & E & Hv' & Hm & Hs).
  exists s'. rewrite (bind_ok _ _ _ _ _ E). by split_and!.
Qed.

(** ** Properties *)

(** C15: through guards the pool is a store of pages.  Fetching a page that is not pinned
    for writing, changing its bytes and dropping the guard changes exactly that page and
    leaves no pin and no latch behind, and the page survives eviction; fetching it for
    reading and dropping the guard returns its bytes and changes no page.  Both may be
    refused for want of a frame, and then nothing changed. *)
Theorem guarded_access s pid (f : list byte -> list byte) : pool_ok s -> idle s -> page_ok pid ->
  kept s pid -> length (f (content s pid)) = page_size ->
  match (g ← FetchPageWrite pid; run_page (BasicPageGuard.GetDataMut g) (modify f);;
         WritePageGuard.Drop (BasicPageGuard.GetDataMut g)) s with
  | (Ok _, s') => pool_ok s' /\ idle s' /\ kept s' pid /\
      forall q, ps_storable q -> content s' q = if decide (q = pid) then f (content s pid) else content s q
  | (Err e, s') => e = StdRuntimeError /\ s' = s
  end /\
  match (g ← FetchPageRead pid; bs ← BasicPageGuard.GetData g; ReadPageGuard.Drop g;; mret bs) s with
  | (Ok bs, s') => bs = content s pid /\ pool_ok s' /\ idle s' /\ kept s' pid /\
      forall q, ps_storable q -> content s' q = content s q
  | (Err e, s') => e = StdRuntimeError /\ s' = s
  end.
Proof.
  intros Hok Hidle Hpid Hk Hl. pose proof (idle_view s Hok Hidle) as Hv. split.
  - destruct (FetchPageWrite_view s ∅ _ pid Hv (lookup_empty _) Hpid Hk)
      as [(g & s1 & E & Hv1 & Hg1 & _)|E]; [|by rewrite (bind_err _ _ _ _ _ E)].
    rewrite (bind_ok _ _ _ _ _ E). rewrite insert_empty in Hv1.
    destruct (run_page_view s1 _ _ (BasicPageGuard.GetDataMut g) pid Exclusive (modify f) _ Hv1 Hg1 Hpid
      (lookup_singleton_eq _ _) eq_refl Hl) as (s2 & E2 & Hv2 & _ & Hs2).
    rewrite (bind_ok _ _ _ _ _ E2).
    destruct (Write_Drop_view s2 _ _ (BasicPageGuard.GetDataMut g) pid Hv2) as (s3 & -> & Hv3 & _ & _ & Hk3);
      [|by rewrite lookup_singleton_eq|done|].
    { by apply (guards_steady s1 s2 _ _ _ _ Exclusive Hv1 (lookup_singleton_eq _ _)). }
    rewrite delete_singleton_eq in Hv3. destruct (view_idle _ _ Hv3). split_and!; try done.
    intros q Hq. by rewrite (vw_content _ _ _ Hv3).
  - destruct (FetchPageRead_view s ∅ _ pid Hv (lookup_empty _) Hpid Hk)
      as [(g & s1 & E & Hv1 & Hg1 & Htold & Hm & _)|E]; [|by rewrite (bind_err _ _ _ _ _ E)].
    rewrite (bind_ok _ _ _ _ _ E). rewrite insert_empty in Hv1.
    rewrite (bind_ok _ _ _ _ _ (GetData_view s1 _ _ g pid Hv1 Hg1 Hpid)).
    destruct (Read_Drop_view s1 _ _ g pid Hv1 Hg1 (lookup_singleton_eq _ _) Htold) as (s2 & E2 & Hv2 & Hm2).
    rewrite (bind_ok _ _ _ _ _ E2). rewrite delete_singleton_eq in Hv2. destruct (view_idle _ _ Hv2).
    split_and!; try done; [|apply (vw_content _ _ _ Hv2)].
    apply (mv_kept _ _ _ Hm2); [apply Hpid|]. by apply (mv_kept _ _ _ Hm); [apply Hpid|].
Qed.

(** C37: upgrading a guard forgets that the page was changed through it: the new guard starts
    clean, so when it is dropped without a further change the page is unpinned with the
    dirty bit its frame had before, and what was written can be lost to eviction. *)
Theorem upgrade_forgets_dirty s h c g pid f p : view s h c -> h !! pid = Some Unlatched ->
  page_ g = Some f -> page_table_ s !! pid = Some f -> BufferPool.frame s f = Some p ->
  exists s', (r ← BasicPageGuard.UpgradeWrite (BasicPageGuard.GetDataMut g); WritePageGuard.Drop r.1) s =
      (Ok (mk_guard None false), s') /\
    BufferPool.frame s' f = Some (Page.with_pin 0 p).
Proof.
  intros Hv Hh Hg Ht Hp. pose proof (vw_ok _ _ _ Hv) as Hok.
  destruct (mapped_frame s pid f Hok Ht) as ([_ Hnum] & p0 & Hp0 & Hid & _ & _ & _ & Hpn & Hlt).
  assert (p0 = p) as -> by congruence. rewrite (vw_pins _ _ _ Hv), Hh in Hpn.
  rewrite (vw_latch _ _ _ Hv), Hh in Hlt. cbn in Hlt.
  unfold BasicPageGuard.UpgradeWrite, deref. cbn [page_ BasicPageGuard.GetDataMut]. rewrite Hg.
  set (p1 := Page.with_latch Exclusive p). set (s1 := BufferPool.set_pages (<[Z.to_nat f := p1]> (pages_ s)) s).
  rewrite (bind_ok _ _ s (BasicPageGuard.make f, BasicPageGuard.moved_from (BasicPageGuard.GetDataMut g)) s1).
  2:{ rewrite (bind_ok (mret f) _ s f s) by done. rewrite (bind_ok (latch_op _ _) _ s tt s1); [done|].
      unfold latch_op. rewrite (bind_ok _ _ _ _ _ (get_page_ok s f p Hp)). unfold Page.WLatch. by rewrite <- Hlt. }
  cbn [fst]. unfold WritePageGuard.Drop. cbn [page_ BasicPageGuard.make].
  assert (BufferPool.frame s1 f = Some p1) as Hp1.
  { unfold s1. rewrite (frame_update s f p1 f) by (by exists p). by rewrite decide_True. }
  assert (BufferPool.set_pages (<[Z.to_nat f := p]> (pages_ s1)) s1 = s) as Hback.
  { unfold s1, BufferPool.set_pages. cbn. rewrite list_insert_insert_eq, list_insert_id; [by destruct s|].
    unfold BufferPool.frame in Hp. by destruct (Z.ltb_spec f 0). }
  rewrite (bind_ok (latch_op _ _) _ s1 tt s).
  2:{ unfold latch_op. rewrite (bind_ok _ _ _ _ _ (get_page_ok s1 f p1 Hp1)).
      rewrite (bind_ok (lift _) _ s1 p s1).
      - unfold BufferPool.put_page, modify. by rewrite Hback.
      - unfold lift, p1. destruct p; cbn in *. by subst. }
  unfold BasicPageGuard.Drop. cbn [page_ g_is_dirty_ BasicPageGuard.make]. rewrite (bind_ok _ _ _ _ _ (get_page_ok s f p Hp)).
  unfold Page.GetPageId. rewrite Hid. unfold BufferPool.UnpinPage, assert_that, assertion, INVALID_PAGE_ID.
  destruct (Z.eqb_spec (page_number_ pid) (-1)); [lia|]. cbn [negb].
  set (s2 := BufferPool.set_pages (<[Z.to_nat f := Page.with_pin 0 p]> (pages_ s)) s).
  assert (BufferPool.frame s2 f = Some (Page.with_pin 0 p)) as Hp2.
  { unfold s2. rewrite (frame_update s f _ f) by (by exists p). by rewrite decide_True. }
  exists (BufferPool.set_store (RandomBogoReplacer.Unpin f (frame_store_ s)) s2).
  split; [|exact Hp2]. rewrite (bind_ok _ _ s true (BufferPool.set_store
    (RandomBogoReplacer.Unpin f (frame_store_ s)) s2)); [done|].
  rewrite (bind_ok (lift (Ok tt)) _ s tt s), (bind_ok get_state _ s s s), Ht by done.
  rewrite (bind_ok (mret tt) _ s tt s), (bind_ok _ _ _ _ _ (get_page_ok s f p Hp)), <- Hpn by done.
  change (1 =? 0) with false. cbv iota. change (uwrap 16 (1 - 1)) with 0.
  by rewrite (bind_ok _ _ _ _ _ (update_page_ok s f p _ Hp)).
Qed.
End facts.

(** ** Concrete runs *)
#[local] Existing Instance memory_store.
#[local] Existing Instance map_order.

Lemma guarded_access_witness :
  match (g ← FetchPageWrite (pg 1); run_page (BasicPageGuard.GetDataMut g) (modify (fun _ => page_of x01));;
         WritePageGuard.Drop (BasicPageGuard.GetDataMut g)) small_pool with
  | (Ok _, s') => content s' (pg 1) = page_of x01
  | (Err _, _) => False
  end.
Proof.
  pose proof (guarded_access small_pool (pg 1) (fun _ => page_of x01) (proj1 small_pool_ok)
    (proj2 small_pool_ok) (memory_page_ok 1 ltac:(lia)) (or_introl I) (length_replicate _ _)) as [Hw _].
  destruct ((g ← FetchPageWrite (pg 1); _) small_pool) as [[r|e] s'] eqn:E.
  - destruct Hw as (_ & _ & _ & Hc). rewrite (Hc (pg 1) I). by rewrite decide_True.
  - vm_compute in E. discriminate.
Defined.

Lemma upgrade_forgets_dirty_witness : exists f s p s',
  BufferPool.FetchPage (pg 1) small_pool = (Ok f, s) /\
  (r ← BasicPageGuard.UpgradeWrite (BasicPageGuard.GetDataMut (BasicPageGuard.make f));
   WritePageGuard.Drop r.1) s = (Ok (mk_guard None false), s') /\
  BufferPool.frame s' f = Some (Page.with_pin 0 p).
Proof.
  destruct (FetchPage_view small_pool ∅ (content small_pool) (pg 1)
    (idle_view _ (proj1 small_pool_ok) (proj2 small_pool_ok)) (lookup_empty _) (memory_page_ok 1 ltac:(lia))
    (or_introl I)) as [(f & s & E & Hv & Ht & _)|E].
  - destruct (mapped_frame s (pg 1) f (vw_ok _ _ _ Hv) Ht) as (_ & p & Hp & _).
    destruct (upgrade_forgets_dirty s _ _ (BasicPageGuard.make f) (pg 1) f p Hv (lookup_insert_eq _ _ _)
      eq_refl Ht Hp) as (s' & E' & Hf).
    exists f, s, p, s'. split_and!; done.
  - vm_compute in E. discriminate.
Defined.
