(* ===== verification/TableMeta.v ===== *)
(** * Table meta data: [storage/table/table_meta.hpp]

    The record the catalog keeps for a table: its schema, and how many pages of its file
    are in use. *)
From S2P Require Import Prelude Bytes Streams Serializer Codec CodecFacts Types Value Schema.
From S2P Require Import BufferPool.
Open Scope Z_scope.

Record TableMeta := mk_TableMeta {
  schema_ : Schema;
  name_ : string;
  table_oid_ : Z;                       (* int32_t *)
  last_table_data_page_id_ : Z;         (* int32_t *)
  last_table_heap_data_page_id_ : Z;    (* int32_t *)
  tuple_count_ : Z                      (* uint64_t *)
}.

Module TableMeta.
Definition START_PAGE_ID : Z := 0.

(** [TableMeta(schema, name, table_oid)], [TableMeta()]. *)
Definition make (schema : Schema) (name : string) (table_oid : Z) : TableMeta :=
  mk_TableMeta schema name table_oid INVALID_PAGE_ID INVALID_PAGE_ID 0.
Definition dummy : TableMeta := make Schema.empty "" INVALID_TABLE_OID.

Definition GetLastTableDataPageId (m : TableMeta) : Z := last_table_data_page_id_ m.
Definition GetLastTableHeapDataPageId (m : TableMeta) : Z := last_table_heap_data_page_id_ m.
Definition SetLastTableDataPageId (id : Z) (m : TableMeta) : TableMeta :=
  mk_TableMeta (schema_ m) (name_ m) (table_oid_ m) id (last_table_heap_data_page_id_ m) (tuple_count_ m).
Definition SetLastTableHeapDataPageId (id : Z) (m : TableMeta) : TableMeta :=
  mk_TableMeta (schema_ m) (name_ m) (table_oid_ m) (last_table_data_page_id_ m) id (tuple_count_ m).

(** [++] of an [int32_t] past its range is undefined. *)
Definition IncrementTableDataPageId (m : TableMeta) : res (Z * TableMeta) :=
  _ ← assertion (negb (table_oid_ m =? INVALID_TABLE_OID));
  if last_table_data_page_id_ m =? INVALID_PAGE_ID then
    Ok (START_PAGE_ID, SetLastTableDataPageId START_PAGE_ID m)
  else
    let id := last_table_data_page_id_ m + 1 in
    if decide (in_s 32 id) then Ok (id, SetLastTableDataPageId id m) else Err UndefinedBehaviour.

Definition IncreaseTupleCount (m : TableMeta) : TableMeta :=
  mk_TableMeta (schema_ m) (name_ m) (table_oid_ m) (last_table_data_page_id_ m)
    (last_table_heap_data_page_id_ m) (uwrap 64 (tuple_count_ m + 1)).

Section serialization.
Context {St : Type} `{ReadStream St}.

Definition Serialize (m : TableMeta) : W :=
  WriteProperty (St:=St) 100 string_c (name_ m) +++
  WriteProperty (St:=St) 101 int32_c (table_oid_ m) +++
  WriteProperty (St:=St) 102 Schema.schema_c (schema_ m) +++
  WriteProperty (St:=St) 103 int32_c (last_table_data_page_id_ m) +++
  WriteProperty (St:=St) 104 int32_c (last_table_heap_data_page_id_ m) +++
  WriteProperty (St:=St) 105 uint64_c (tuple_count_ m).

Definition Deserialize : M (deser St) TableMeta :=
  name ← ReadProperty 100 string_c;
  table_oid ← ReadProperty 101 int32_c;
  schema ← ReadProperty 102 Schema.schema_c;
  last_table_data_page_id ← ReadProperty 103 int32_c;
  last_table_heap_data_page_id ← ReadProperty 104 int32_c;
  tuple_count ← ReadProperty 105 uint64_c;
  mret (mk_TableMeta schema name table_oid last_table_data_page_id last_table_heap_data_page_id tuple_count).

(** [std::unique_ptr<TableMeta>] *)
Definition table_meta_ptr_c : codec St (option TableMeta) := ptr_c Serialize Deserialize.
End serialization.

(** What is stored of a table's meta data. *)
Definition persisted (m : TableMeta) : TableMeta :=
  mk_TableMeta (Schema.persisted (schema_ m)) (name_ m) (table_oid_ m) (last_table_data_page_id_ m)
    (last_table_heap_data_page_id_ m) (tuple_count_ m).
Definition valid (m : TableMeta) : Prop :=
  Schema.valid (schema_ m) /\ string_valid (name_ m) /\ in_s 32 (table_oid_ m) /\
  in_s 32 (last_table_data_page_id_ m) /\ in_s 32 (last_table_heap_data_page_id_ m) /\
  in_u 64 (tuple_count_ m).
End TableMeta.

Section round_trip.
Context {St : Type} `{ReadStream St}.

Lemma TableMeta_serial m : TableMeta.valid m ->
  serial (TableMeta.Serialize (St:=St) m) TableMeta.Deserialize (TableMeta.persisted m).
Proof.
  intros (Hs & Hn & Ho & Hd & Hh & Ht). unfold TableMeta.Serialize, TableMeta.Deserialize.
  eapply serial_bind; [eapply property_ok; [apply _|by split|done]|].
  eapply serial_bind; [eapply property_ok; [apply _|by split|done]|].
  eapply serial_bind.
  { apply (property_image _ Schema.persisted Schema.valid); [|by split|done].
    intros s Hv. by apply serial_object, Schema_serial. }
  repeat (eapply serial_bind; [eapply property_ok; [apply _|by split|done]|]).
  eapply serial_map; [eapply property_ok; [apply _|by split|done]|done].
Qed.
End round_trip.

Lemma Increment_spec m : table_oid_ m <> INVALID_TABLE_OID -> -1 <= last_table_data_page_id_ m ->
  last_table_data_page_id_ m + 1 < 2 ^ 31 ->
  TableMeta.IncrementTableDataPageId m =
    Ok (last_table_data_page_id_ m + 1, TableMeta.SetLastTableDataPageId (last_table_data_page_id_ m + 1) m).
Proof.
  intros Ho Hl Hb. unfold TableMeta.IncrementTableDataPageId, assertion.
  destruct (Z.eqb_spec (table_oid_ m) INVALID_TABLE_OID); [done|]. cbn [negb mbind res_bind].
  unfold INVALID_PAGE_ID, TableMeta.START_PAGE_ID.
  destruct (Z.eqb_spec (last_table_data_page_id_ m) (-1)) as [->|]; [done|].
  by rewrite decide_True by width.
Qed.
