(* ===== verification/TableHeap.v ===== *)
(** * Table heaps: [storage/table/table_heap.hpp], [table_heap.cpp], [table_iterator.cpp]

    A table is a chain of table pages in the buffer pool.  The state of a heap is the pool
    and the table's meta data, which it holds by reference; its mutex is never contended. *)
From S2P Require Import Prelude Bytes Types Value Schema Tuple TablePage DiskManager BufferPool.
From S2P Require Import BufferPoolProps PageGuard TableMeta.
Open Scope Z_scope.

(** [TableHeap::AllocatePage] *)
Definition AllocateTablePage (m : TableMeta) : res (PageId * TableMeta) :=
  _ ← assertion (negb (table_oid_ m =? INVALID_TABLE_OID));
  r ← TableMeta.IncrementTableDataPageId m;
  let m := TableMeta.SetLastTableHeapDataPageId r.1 r.2 in
  Ok (mk_PageId (table_oid_ m) (last_table_data_page_id_ m), m).
#[export] Instance heap_allocator : PageAllocator TableMeta := {| AllocatePage := AllocateTablePage |}.

Record table_heap (D : Type) := mk_table_heap { bpm_ : BufferPool D; table_meta_ : TableMeta }.
Arguments mk_table_heap {D}. Arguments bpm_ {D}. Arguments table_meta_ {D}.

Record TableIterator := mk_TableIterator { it_rid_ : RID; stop_at_rid_ : RID }.

Module TableHeap.
Section heap.
Context {D : Type} `{PageStore D} `{!HashOrder Z bool} `{!TupleInfoLayout}.
Abbreviation heap := (table_heap D).

Definition with_pool {A} (m : M (BufferPool D) A) : M heap A := fun s =>
  match m (bpm_ s) with (r, pool) => (r, mk_table_heap pool (table_meta_ s)) end.
Definition with_meta (f : TableMeta -> TableMeta) : M heap unit :=
  modify (fun s => mk_table_heap (bpm_ s) (f (table_meta_ s))).
(** [bpm_.NewPageGuarded( *this, page_id)] *)
Definition new_page : M heap (guard * PageId) := fun s =>
  match NewPageGuarded (table_meta_ s) (bpm_ s) with
  | (Ok (g, page_id, m), pool) => (Ok (g, page_id), mk_table_heap pool m)
  | (Err e, pool) => (Err e, mk_table_heap pool (table_meta_ s))
  end.

(** The constructor. *)
Definition TableHeap : M heap unit :=
  s ← get_state;
  (if TableMeta.GetLastTableHeapDataPageId (table_meta_ s) =? INVALID_PAGE_ID then
     r ← new_page;
     let guard := r.1 in let new_page_id := r.2 in
     assert_that (negb (page_number_ new_page_id =? INVALID_PAGE_ID) && (0 <=? page_number_ new_page_id));;
     let guard := BasicPageGuard.GetDataMut guard in
     with_pool (run_page guard (modify TablePage.Init));;
     with_pool (BasicPageGuard.Drop guard);; mret tt
   else mret tt);;
  s ← get_state;
  assert_that (0 <=? TableMeta.GetLastTableHeapDataPageId (table_meta_ s)).

(** The loop of [InsertTuple]: from a guard on the last page to one on a page with room. *)
Fixpoint find_room (fuel : nat) (page_guard : guard) (tuple : Tuple) : M heap guard :=
  match fuel with
  | O => throw UndefinedBehaviour
  | S fuel =>
    let page_guard := BasicPageGuard.GetDataMut page_guard in
    page ← with_pool (BasicPageGuard.GetData page_guard);
    offset ← lift (TablePage.GetNextTupleOffset tuple page);
    match offset with
    | Some _ => mret page_guard
    | None =>
      assert_that (negb (TablePage.GetNumTuples page =? 0));;
      r ← unwinding (with_pool (WritePageGuard.Drop page_guard);; mret tt) new_page;
      let npg := r.1 in let next_page_id := r.2 in
      assert_that (negb (page_number_ next_page_id =? INVALID_PAGE_ID));;
      with_pool (run_page page_guard (modify (TablePage.SetNextPageId (page_number_ next_page_id))));;
      let npg := BasicPageGuard.GetDataMut npg in
      with_pool (run_page npg (modify TablePage.Init));;
      page_guard ← with_pool (WritePageGuard.Drop page_guard);
      upgraded ← with_pool (BasicPageGuard.UpgradeWrite npg);
      moved ← with_pool (WritePageGuard.move_assign page_guard upgraded.1);
      find_room fuel moved.1 tuple
    end
  end.

(** Two rounds are enough: a tuple that does not fit an empty page fails an assertion. *)
Definition InsertTuple (meta : TupleMeta) (tuple : Tuple) : M heap (option RID) :=
  s ← get_state;
  let table_oid := table_oid_ (table_meta_ s) in
  page_guard ← with_pool (FetchPageWrite
    (mk_PageId table_oid (TableMeta.GetLastTableHeapDataPageId (table_meta_ s))));
  page_guard ← find_room 2 page_guard tuple;
  s ← get_state;
  let last_page_id := TableMeta.GetLastTableHeapDataPageId (table_meta_ s) in
  let page_guard := BasicPageGuard.GetDataMut page_guard in
  slot_id ← with_pool (run_page page_guard (TablePage.InsertTuple meta tuple));
  match slot_id with
  | None => throw UndefinedBehaviour
  | Some slot_id =>
    with_pool (WritePageGuard.Drop page_guard);;
    with_meta TableMeta.IncreaseTupleCount;;
    mret (Some (mk_RID (mk_PageId table_oid last_page_id) slot_id))
  end.

Definition UpdateTupleMeta (meta : TupleMeta) (rid : RID) : M heap unit :=
  page_guard ← with_pool (FetchPageWrite (rid_page_id_ rid));
  let page_guard := BasicPageGuard.GetDataMut page_guard in
  unwinding (with_pool (WritePageGuard.Drop page_guard);; mret tt)
    (with_pool (run_page page_guard (TablePage.UpdateTupleMeta meta rid)));;
  with_pool (WritePageGuard.Drop page_guard);; mret tt.

(** A page is fetched, looked at, and given back, also when looking throws. *)
Definition read_page {A} (page_id : PageId) (look : list byte -> res A) : M heap A :=
  page_guard ← with_pool (FetchPageRead page_id);
  ret ← unwinding (with_pool (ReadPageGuard.Drop page_guard);; mret tt)
    (page ← with_pool (BasicPageGuard.GetData page_guard); lift (look page));
  with_pool (ReadPageGuard.Drop page_guard);; mret ret.

Definition GetTuple (rid : RID) : M heap (option (TupleMeta * Tuple)) :=
  read_page (rid_page_id_ rid) (fun page =>
    ret ← TablePage.GetTuple rid page; Ok (Some (ret.1, Tuple.SetRid ret.2 rid))).

Definition GetTupleMeta (rid : RID) : M heap TupleMeta :=
  read_page (rid_page_id_ rid) (TablePage.GetTupleMeta rid).

Definition MakeIterator : M heap TableIterator :=
  s ← get_state;
  let table_oid := table_oid_ (table_meta_ s) in
  let last_page_id := TableMeta.GetLastTableHeapDataPageId (table_meta_ s) in
  num_tuples ← read_page (mk_PageId table_oid last_page_id) (fun page => Ok (TablePage.GetNumTuples page));
  mret (mk_TableIterator (mk_RID (mk_PageId table_oid 1) 0)
    (mk_RID (mk_PageId table_oid last_page_id) num_tuples)).
End heap.
End TableHeap.

Module TableIterator.
Section iterator.
Context {D : Type} `{PageStore D} `{!HashOrder Z bool} `{!TupleInfoLayout}.
Abbreviation heap := (table_heap D).

Definition GetTuple (it : TableIterator) : M heap (option (TupleMeta * Tuple)) :=
  TableHeap.GetTuple (it_rid_ it).
Definition GetRID (it : TableIterator) : RID := it_rid_ it.
Definition IsEnd (it : TableIterator) : bool :=
  page_number_ (rid_page_id_ (it_rid_ it)) =? INVALID_PAGE_ID.

(** Where [operator++] goes, from the page the cursor is on. *)
Definition advance (table_oid : Z) (it : TableIterator) (page : list byte) : res TableIterator :=
  let rid_ := it_rid_ it in
  let stop_at_rid_ := stop_at_rid_ it in
  let next_tuple_id := uwrap 32 (slot_num_ rid_ + 1) in
  _ ← (if negb (page_number_ (rid_page_id_ stop_at_rid_) =? INVALID_PAGE_ID) then
         assertion ((page_number_ (rid_page_id_ rid_) <? page_number_ (rid_page_id_ stop_at_rid_)) ||
           (PageId_eqb (rid_page_id_ rid_) (rid_page_id_ stop_at_rid_) &&
            (next_tuple_id <=? slot_num_ stop_at_rid_)))
       else Ok tt);
  let rid_ := mk_RID (rid_page_id_ rid_) next_tuple_id in
  Ok (mk_TableIterator
    (if RID_eqb rid_ stop_at_rid_ then mk_RID (mk_PageId table_oid INVALID_PAGE_ID) 0
     else if next_tuple_id <? TablePage.GetNumTuples page then rid_
     else mk_RID (mk_PageId table_oid (TablePage.GetNextPageId page)) 0)
    stop_at_rid_).

Definition next (it : TableIterator) : M heap TableIterator :=
  s ← get_state;
  TableHeap.read_page (rid_page_id_ (it_rid_ it)) (advance (table_oid_ (table_meta_ s)) it).
End iterator.
End TableIterator.
