(* ===== verification/TableHeapProps.v ===== *)
(** * The table heap as an append-only table

    The contents of a heap are a chain of table pages, each represented in the buffer pool.
    The operations of the heap act on the chain as on an append-only list of rows. *)
From S2P Require Import Prelude Bytes Types Value Schema Tuple TablePage DiskManager BufferPool.
From S2P Require Import BufferPoolProps PageGuard TableMeta TableHeap.
Open Scope Z_scope.

(** ** Chains of pages *)
Abbreviation chain := (list (Z * table_page)).

(** Each page points to the next, the last one nowhere. *)
Fixpoint linked (ch : chain) : Prop :=
  match ch with
  | [] => True
  | (_, a) :: rest =>
    tp_next a = match rest with (n, _) :: _ => n | [] => INVALID_PAGE_ID end /\ linked rest
  end.

Fixpoint chain_page (ch : chain) (n : Z) : option table_page :=
  match ch with
  | [] => None
  | (m, a) :: rest => if decide (m = n) then Some a else chain_page rest n
  end.

Fixpoint set_page (ch : chain) (n : Z) (a : table_page) : chain :=
  match ch with
  | [] => []
  | (m, b) :: rest => if decide (m = n) then (m, a) :: rest else (m, b) :: set_page rest n a
  end.

Definition add_row (a : table_page) (m : TupleMeta) (t : Tuple) : table_page :=
  mk_table_page (tp_next a) (tp_rows a ++ [(m, Tuple.data_ t)]) (tp_deleted a).
Definition with_next (a : table_page) (n : Z) : table_page :=
  mk_table_page n (tp_rows a) (tp_deleted a).
Definition empty_page : table_page := mk_table_page INVALID_PAGE_ID [] 0.

(** Inserting a row: into the last page when it fits, else into a new page, number [fresh]. *)
Fixpoint chain_insert (fresh : Z) (ch : chain) (m : TupleMeta) (t : Tuple) : (Z * Z) * chain :=
  match ch with
  | [] => ((fresh, 0), [])
  | [(n, a)] =>
    if room a t then ((n, Z.of_nat (length (tp_rows a))), [(n, add_row a m t)])
    else ((fresh, 0), [(n, with_next a fresh); (fresh, add_row empty_page m t)])
  | p :: ch => let r := chain_insert fresh ch m t in (r.1, p :: r.2)
  end.

Lemma chain_insert_app fresh pre n a m t : chain_insert fresh (pre ++ [(n, a)]) m t =
  if room a t then ((n, Z.of_nat (length (tp_rows a))), pre ++ [(n, add_row a m t)])
  else ((fresh, 0), pre ++ [(n, with_next a fresh); (fresh, add_row empty_page m t)]).
Proof.
  induction pre as [|[n' a'] pre IH]; [done|]. cbn [app].
  assert (exists p ch, pre ++ [(n, a)] = p :: ch) as (p & ch & E) by (destruct pre; eauto).
  change (chain_insert fresh ((n', a') :: pre ++ [(n, a)]) m t) with
    (match pre ++ [(n, a)] with
     | [] => if room a' t then ((n', Z.of_nat (length (tp_rows a'))), [(n', add_row a' m t)])
             else ((fresh, 0), [(n', with_next a' fresh); (fresh, add_row empty_page m t)])
     | _ => let r := chain_insert fresh (pre ++ [(n, a)]) m t in (r.1, (n', a') :: r.2)
     end).
  rewrite E at 1. rewrite IH. by destruct (room a t).
Qed.

Lemma chain_insert_length fresh pre n a m t :
  Z.of_nat (length (pre ++ [(n, a)])) <= Z.of_nat (length (chain_insert fresh (pre ++ [(n, a)]) m t).2) <=
    Z.of_nat (length (pre ++ [(n, a)])) + 1.
Proof. rewrite chain_insert_app. destruct (room a t); cbn [snd]; rewrite !length_app; cbn; lia. Qed.

Lemma linked_app pre n a : linked (pre ++ [(n, a)]) <->
  linked (pre ++ [(n, with_next a INVALID_PAGE_ID)]) /\ tp_next a = INVALID_PAGE_ID.
Proof.
  induction pre as [|[n' a'] pre IH]; cbn [app linked]; [cbn; naive_solver|].
  destruct pre as [|[n'' a''] pre]; cbn [app linked] in *; naive_solver.
Qed.

Lemma linked_last pre n a b : linked (pre ++ [(n, a)]) -> tp_next b = tp_next a -> linked (pre ++ [(n, b)]).
Proof.
  induction pre as [|[n' a'] pre IH]; cbn [app linked]; [naive_solver congruence|].
  intros [H1 H2] E. split; [|by apply IH]. destruct pre as [|[n'' a''] pre]; naive_solver.
Qed.

Lemma linked_grow pre n a n' b : linked (pre ++ [(n, a)]) -> tp_next b = INVALID_PAGE_ID ->
  linked (pre ++ [(n, with_next a n'); (n', b)]).
Proof.
  induction pre as [|[n0 a0] pre IH]; cbn [app linked]; [naive_solver|].
  intros [H1 H2] E. split; [|by apply IH]. destruct pre as [|[n1 a1] pre]; naive_solver.
Qed.

Lemma linked_next_last pre n a : linked (pre ++ [(n, a)]) -> tp_next a = INVALID_PAGE_ID.
Proof. induction pre as [|[n0 a0] pre IH]; cbn [app linked]; naive_solver. Qed.

Lemma chain_page_elem ch n a : NoDup ch.*1 -> (n, a) ∈ ch <-> chain_page ch n = Some a.
Proof.
  induction ch as [|[m b] ch IH]; cbn.
  - intros _. by rewrite elem_of_nil.
  - intros [Hni Hnd]%NoDup_cons. rewrite elem_of_cons. case_decide as Hd.
    + subst. split; [intros [[= ->]|Hin]; [done|]|intros [= ->]; by left].
      exfalso. apply Hni. apply list_elem_of_fmap. by exists (n, a).
    + rewrite <- IH by done. naive_solver.
Qed.

Lemma chain_page_app ch1 ch2 n : chain_page (ch1 ++ ch2) n =
  match chain_page ch1 n with Some a => Some a | None => chain_page ch2 n end.
Proof. induction ch1 as [|[m b] ch1 IH]; cbn; [done|]. by case_decide. Qed.

Lemma chain_page_last pre n a : NoDup (pre ++ [(n, a)]).*1 ->
  chain_page (pre ++ [(n, a)]) n = Some a /\
  forall m b, chain_page pre m = Some b -> m <> n /\ chain_page (pre ++ [(n, a)]) m = Some b.
Proof.
  rewrite fmap_app, NoDup_app. intros (Hnd & Hni & _).
  assert (forall b, chain_page pre n <> Some b) as Hno.
  { intros b Hb. apply chain_page_elem in Hb; [|done]. apply (Hni n); [|by left].
    apply list_elem_of_fmap. by exists (n, b). }
  rewrite chain_page_app. split.
  - destruct (chain_page pre n) as [b|] eqn:E; [by destruct (Hno b)|]. cbn. by rewrite decide_True.
  - intros m b Hb. rewrite chain_page_app, Hb. split; [|done]. intros ->. by apply (Hno b).
Qed.

Lemma set_page_fst ch n a : (set_page ch n a).*1 = ch.*1.
Proof. induction ch as [|[m b] ch IH]; cbn; [done|]. case_decide; cbn; [done|]. by rewrite IH. Qed.

Lemma set_page_lookup ch n a m : chain_page (set_page ch n a) m =
  if decide (m = n) then (match chain_page ch n with Some _ => Some a | None => None end)
  else chain_page ch m.
Proof.
  induction ch as [|[k b] ch IH]; cbn; [by case_decide|].
  repeat case_decide; cbn; subst; repeat case_decide; try done; congruence.
Qed.

Lemma set_page_linked ch n a b : linked ch -> chain_page ch n = Some a -> tp_next b = tp_next a ->
  linked (set_page ch n b).
Proof.
  revert n. induction ch as [|[k a0] ch IH]; intros n; cbn; [done|].
  intros [H1 H2] Hp Hn. case_decide as Hd; cbn.
  - injection Hp as ->. naive_solver congruence.
  - split; [|by apply IH]. rewrite H1. destruct ch as [|[k' a'] ch]; [done|]. cbn. by case_decide.
Qed.

(** ** Heaps *)
Section heap.
Context {D : Type} `{PageStore D} `{!HashOrder Z bool} `{!TupleInfoLayout}.
#[local] Set Default Proof Using "Type*".
Abbreviation heap := (table_heap D).
Implicit Types (s : heap) (ch : chain) (pid q : PageId) (h : gmap PageId latch) (c : PageId -> list byte).

(** Page [n] of the heap's table. *)
Definition page_of_heap s (n : Z) : PageId := mk_PageId (table_oid_ (table_meta_ s)) n.
Definition fresh_page s : Z := last_table_data_page_id_ (table_meta_ s) + 1.

(** The chain of pages behind the heap, and nothing pinned. *)
Record heap_ok s ch : Prop := {
  hp_oid : table_oid_ (table_meta_ s) <> INVALID_TABLE_OID;
  hp_pool : pool_ok (bpm_ s);
  hp_idle : idle (bpm_ s);
  hp_last : exists pre a, ch = pre ++ [(last_table_heap_data_page_id_ (table_meta_ s), a)];
  hp_linked : linked ch;
  hp_nodup : NoDup ch.*1;
  hp_pages n a : chain_page ch n = Some a ->
    0 <= n <= last_table_data_page_id_ (table_meta_ s) /\ ps_storable (page_of_heap s n) /\
    kept (bpm_ s) (page_of_heap s n) /\ rep (content (bpm_ s) (page_of_heap s n)) a;
  hp_fresh n : last_table_data_page_id_ (table_meta_ s) < n -> page_table_ (bpm_ s) !! page_of_heap s n = None;
  hp_range : -1 <= last_table_data_page_id_ (table_meta_ s) < 2 ^ 31
}.

(** *** What an operation on one table leaves alone: the pages of the others *)
Record apart (oid : Z) (p p' : BufferPool D) : Prop := {
  ap_content q : ps_storable q -> table_id_ q <> oid -> content p' q = content p q;
  ap_kept q : ps_storable q -> kept p q -> kept p' q;
  ap_absent q : table_id_ q <> oid -> page_table_ p !! q = None -> page_table_ p' !! q = None
}.
#[export] Instance apart_refl oid : Reflexive (apart oid).
Proof. by split. Qed.
#[export] Instance apart_trans oid : Transitive (apart oid).
Proof.
  intros p1 p2 p3 [C1 K1 A1] [C2 K2 A2]. split; [|by auto|by auto]. intros q Hq Hne. by rewrite C2, C1.
Qed.
Lemma apart_view oid p p' c X : moves X p p' -> view p' ∅ c -> (forall q, q ∈ X -> table_id_ q = oid) ->
  (forall q, table_id_ q <> oid -> c q = content p q) -> apart oid p p'.
Proof.
  intros [Hk Ha] Hv HX Hc. split; [|exact Hk|].
  - intros q Hq Hne. by rewrite (vw_content _ _ _ Hv), Hc.
  - intros q Hne. apply Ha. intros Hq. by apply Hne, HX.
Qed.

(** Another table's heap is what it was. *)
Lemma heap_ok_apart p p' m ch oid : heap_ok (mk_table_heap p m) ch -> table_oid_ m <> oid -> apart oid p p' ->
  pool_ok p' -> idle p' -> heap_ok (mk_table_heap p' m) ch.
Proof.
  intros [Ho Hp Hi Hla Hli Hn Hpg Hf Hr] Hne [Hc Hk Ha] Hp' Hi'. split; cbn [table_meta_ bpm_] in *; try done.
  - intros n a Hna. destruct (Hpg n a Hna) as (? & Hs & Hkp & Hrep). split_and!; [lia..|done|by apply Hk|].
    change (rep (content p' (page_of_heap (mk_table_heap p m) n)) a). by rewrite Hc.
  - intros n Hgt. apply Ha; [done|]. by apply Hf.
Qed.

Lemma with_pool_ok {A} (m : M (BufferPool D) A) s r pool : m (bpm_ s) = (r, pool) ->
  TableHeap.with_pool m s = (r, mk_table_heap pool (table_meta_ s)).
Proof. unfold TableHeap.with_pool. by intros ->. Qed.

(** *** Looking at a page *)
Lemma read_page_spec {A} s pid (look : list byte -> res A) : pool_ok (bpm_ s) -> idle (bpm_ s) ->
  page_ok pid -> kept (bpm_ s) pid ->
  (forall e, look (content (bpm_ s) pid) = Err e -> is_exception e = true) ->
  match TableHeap.read_page pid look s with
  | (r, s') => (r = look (content (bpm_ s) pid) \/ (r = Err StdRuntimeError /\ s' = s)) /\
      table_meta_ s' = table_meta_ s /\ view (bpm_ s') ∅ (content (bpm_ s)) /\ moves {[pid]} (bpm_ s) (bpm_ s')
  end.
Proof.
  intros Hok Hidle Hpid Hk Hexc. pose proof (idle_view _ Hok Hidle) as Hv. unfold TableHeap.read_page.
  destruct (FetchPageRead_view _ ∅ _ pid Hv (lookup_empty _) Hpid Hk)
    as [(g & p1 & E & Hv1 & Hg1 & Htold & Hm & _)|E].
  2:{ rewrite (bind_err _ _ _ _ _ (with_pool_ok _ s _ _ E)). destruct s. split_and!; try done. by right. }
  rewrite (bind_ok _ _ _ _ _ (with_pool_ok _ s _ _ E)). rewrite insert_empty in Hv1.
  set (s1 := mk_table_heap p1 (table_meta_ s)).
  destruct (Read_Drop_view p1 _ _ g pid Hv1 Hg1 (lookup_singleton_eq _ _) Htold) as (p2 & E2 & Hv2 & Hm2).
  rewrite delete_singleton_eq in Hv2.
  assert (moves {[pid]} (bpm_ s) p2) as Hm12.
  { etrans; [done|]. by apply (moves_weaken ∅). }
  assert ((page ← TableHeap.with_pool (BasicPageGuard.GetData g); lift (look page)) s1 =
    (look (content (bpm_ s) pid), s1)) as El.
  { by rewrite (bind_ok _ _ _ _ _ (with_pool_ok _ s1 _ _ (GetData_view p1 _ _ g pid Hv1 Hg1 Hpid))). }
  destruct (look (content (bpm_ s) pid)) as [x|e] eqn:Ex.
  - rewrite (bind_ok _ _ s1 x s1) by (unfold unwinding; by rewrite El).
    rewrite (bind_ok _ _ _ _ _ (with_pool_ok _ s1 _ _ E2)). split_and!; try done. by left.
  - rewrite (bind_err _ _ s1 e (mk_table_heap p2 (table_meta_ s))).
    + split_and!; try done. by left.
    + unfold unwinding. rewrite El, (Hexc e eq_refl). by rewrite (bind_ok _ _ _ _ _ (with_pool_ok _ s1 _ _ E2)).
Qed.

(** A state with the same pages. *)
Lemma heap_ok_same s s' ch X : heap_ok s ch -> table_meta_ s' = table_meta_ s ->
  view (bpm_ s') ∅ (content (bpm_ s)) -> moves X (bpm_ s) (bpm_ s') ->
  (forall q, q ∈ X -> exists n, q = page_of_heap s n /\ n <= last_table_data_page_id_ (table_meta_ s)) ->
  heap_ok s' ch.
Proof.
  intros [Ho Hp Hi Hla Hli Hn Hpg Hf Hr] Hmeta Hv Hm HX. destruct (view_idle _ _ Hv) as [Hok' Hidle'].
  unfold page_of_heap in *. split; rewrite ?Hmeta; try done.
  - intros n a Hna. destruct (Hpg n a Hna) as (? & Hst & Hk & Hrep). unfold page_of_heap. rewrite Hmeta.
    split_and!; try done; [lia..|by apply (mv_kept _ _ _ Hm)|by rewrite (vw_content _ _ _ Hv)].
  - intros n Hgt. unfold page_of_heap. rewrite Hmeta. apply (mv_absent _ _ _ Hm); [|by apply Hf].
    intros (m & E & Hle)%HX. injection E as ->. lia.
Qed.

(** *** Finding room *)
Definition fits (t : Tuple) : Prop :=
  0 < Z.of_nat (length (Tuple.data_ t)) <= PAGE_SIZE - TABLE_PAGE_HEADER_SIZE - TUPLE_INFO_SIZE.

Lemma fits_empty t a : fits t -> tp_rows a = [] -> room a t = true.
Proof.
  unfold fits, room, used, PAGE_SIZE, TABLE_PAGE_HEADER_SIZE, TUPLE_INFO_SIZE. intros Hf ->. cbn.
  apply Z.leb_le. lia.
Qed.

Lemma offset_of s h c g pid a t : view (bpm_ s) h c -> guards (bpm_ s) g pid -> page_ok pid ->
  rep (c pid) a -> fits t -> exists o,
  TableHeap.with_pool (BasicPageGuard.GetData (BasicPageGuard.GetDataMut g)) s = (Ok (c pid), s) /\
  TablePage.GetNextTupleOffset t (c pid) = Ok (if room a t then Some o else None).
Proof.
  intros Hv Hg Hpid Hrep Hf. unfold fits, PAGE_SIZE, TABLE_PAGE_HEADER_SIZE, TUPLE_INFO_SIZE in Hf.
  eexists. split.
  - rewrite (with_pool_ok _ s _ _ (GetData_view (bpm_ s) h c (BasicPageGuard.GetDataMut g) pid Hv Hg Hpid)).
    by destruct s.
  - apply GetNextTupleOffset_rep; [done|lia|unfold PAGE_SIZE, TABLE_PAGE_HEADER_SIZE; lia].
Qed.

Lemma find_room_here k s h c g pid a t : view (bpm_ s) h c -> guards (bpm_ s) g pid -> page_ok pid ->
  rep (c pid) a -> fits t -> room a t = true ->
  TableHeap.find_room (S k) g t s = (Ok (BasicPageGuard.GetDataMut g), s).
Proof.
  intros Hv Hg Hpid Hrep Hf Hroom. destruct (offset_of s h c g pid a t Hv Hg Hpid Hrep Hf) as (o & E1 & E2).
  cbn [TableHeap.find_room]. rewrite (bind_ok _ _ _ _ _ E1), E2, Hroom. done.
Qed.

Lemma new_page_spec s h c : view (bpm_ s) h c -> table_oid_ (table_meta_ s) <> INVALID_TABLE_OID ->
  -1 <= last_table_data_page_id_ (table_meta_ s) -> fresh_page s < 2 ^ 31 ->
  ps_storable (page_of_heap s (fresh_page s)) -> page_table_ (bpm_ s) !! page_of_heap s (fresh_page s) = None ->
  let pid := page_of_heap s (fresh_page s) in
  (exists f p', TableHeap.new_page s = (Ok (BasicPageGuard.make f, pid),
       mk_table_heap p' (TableMeta.SetLastTableHeapDataPageId (fresh_page s)
         (TableMeta.SetLastTableDataPageId (fresh_page s) (table_meta_ s)))) /\
     view p' (<[pid := Unlatched]> h) (fun q => if decide (q = pid) then Page.zeros else c q) /\
     guards p' (BasicPageGuard.make f) pid /\ moves {[pid]} (bpm_ s) p' /\ steady (bpm_ s) p') \/
  TableHeap.new_page s = (Err StdRuntimeError, s).
Proof.
  intros Hv Ho Hl Hb Hst Ht pid.
  set (m' := TableMeta.SetLastTableHeapDataPageId (fresh_page s)
         (TableMeta.SetLastTableDataPageId (fresh_page s) (table_meta_ s))).
  assert (AllocatePage (table_meta_ s) = Ok (pid, m')) as Hall.
  { unfold AllocatePage, heap_allocator, AllocateTablePage, assertion.
    destruct (Z.eqb_spec (table_oid_ (table_meta_ s)) INVALID_TABLE_OID); [done|]. cbn [negb mbind res_bind].
    by rewrite Increment_spec. }
  assert (page_ok pid) as Hpid by (split; [done|]; cbn; unfold fresh_page; lia).
  unfold TableHeap.new_page, NewPageGuarded.
  destruct (NewPage_view (bpm_ s) h c (table_meta_ s) m' pid Hv Hpid Hall Ht)
    as [(f & p' & E & Hv' & Ht' & Hm & Hs)|E].
  - left. exists f, p'. rewrite (bind_ok _ _ _ _ _ E). split_and!; try done. by exists f.
  - right. rewrite (bind_err _ _ _ _ _ E). by destruct s.
Qed.

Lemma length_Init p : length p = page_size -> length (TablePage.Init p) = page_size.
Proof.
  intros Hp. assert (page_size = 4096%nat) as Hps by done.
  unfold TablePage.Init, TablePage.set_num_deleted_tuples, TablePage.set_num_tuples, TablePage.set_next_page_id.
  lens.
Qed.

(** The last page is full: a new one is linked to it and takes its place. *)
Lemma find_room_next k s c g a t : let last := last_table_heap_data_page_id_ (table_meta_ s) in
  let pid := page_of_heap s last in
  view (bpm_ s) {[pid := Exclusive]} c -> guards (bpm_ s) g pid -> page_ok pid -> rep (c pid) a ->
  fits t -> room a t = false -> table_oid_ (table_meta_ s) <> INVALID_TABLE_OID ->
  last < fresh_page s < 2 ^ 31 -> ps_storable (page_of_heap s (fresh_page s)) ->
  page_table_ (bpm_ s) !! page_of_heap s (fresh_page s) = None ->
  let new := page_of_heap s (fresh_page s) in
  (exists g' p' c', TableHeap.find_room (S k) g t s = TableHeap.find_room k g' t
       (mk_table_heap p' (TableMeta.SetLastTableHeapDataPageId (fresh_page s)
         (TableMeta.SetLastTableDataPageId (fresh_page s) (table_meta_ s)))) /\
     view p' {[new := Exclusive]} c' /\ guards p' g' new /\ kept p' pid /\ moves {[new]} (bpm_ s) p' /\
     rep (c' pid) (with_next a (fresh_page s)) /\ rep (c' new) empty_page /\
     forall q, q <> pid -> q <> new -> c' q = c q) \/
  exists p', TableHeap.find_room (S k) g t s = (Err StdRuntimeError, mk_table_heap p' (table_meta_ s)) /\
    view p' ∅ c /\ moves ∅ (bpm_ s) p'.
Proof.
  intros last pid Hv Hg Hpid Hrep Hf Hroom Ho Hb Hst Ht new.
  destruct (offset_of s _ c g pid a t Hv Hg Hpid Hrep Hf) as (o & E1 & E2).
  rewrite Hroom in E2. cbn [TableHeap.find_room]. rewrite (bind_ok _ _ _ _ _ E1), E2. clear o E1 E2.
  rewrite (bind_ok (lift _) _ s None s) by done.
  assert ((TablePage.GetNumTuples (c pid) =? 0) = false) as Hn.
  { apply Z.eqb_neq. unfold TablePage.GetNumTuples. rewrite (rep_num _ _ Hrep).
    intros E. apply Bool.diff_false_true. rewrite <- Hroom. apply fits_empty; [done|].
    by destruct (tp_rows a). }
  unfold assert_that, assertion. rewrite Hn. cbn [negb].
  rewrite (bind_ok (lift (Ok tt)) _ s tt s) by done.
  assert (pid <> new) as Hne by (unfold pid, new, page_of_heap; intros [= E]; lia).
  assert (0 <= last) as Hlast by apply Hpid.
  assert (-1 <= last_table_data_page_id_ (table_meta_ s)) as Hdata by (unfold fresh_page in Hb; lia).
  destruct (new_page_spec s _ c Hv Ho Hdata) as [(f & p1 & E3 & Hv1 & Hg1 & Hm1 & Hs1)|E3]; [lia|done|done| |].
  - left. rewrite (bind_ok (unwinding _ _) _ s _ _ ltac:(unfold unwinding; by rewrite E3)). cbn [fst snd].
    set (m' := TableMeta.SetLastTableHeapDataPageId _ _). set (s1 := mk_table_heap p1 m').
    fold new in Hv1, Hg1, Hm1 |- *. change (page_number_ new) with (fresh_page s).
    destruct (Z.eqb_spec (fresh_page s) INVALID_PAGE_ID) as [Hi|_].
    { unfold INVALID_PAGE_ID in Hi. lia. }
    cbn [negb]. rewrite (bind_ok (lift (Ok tt)) _ s1 tt s1) by done.
    pose proof (guards_steady _ _ _ _ g pid Exclusive Hv (lookup_singleton_eq _ _) Hs1 Hg) as Hg1'.
    assert (page_ok new) as Hnew by (split; [done|]; cbn; lia).
    set (hh := <[new := Unlatched]> {[pid := Exclusive]}) in *.
    assert (hh !! pid = Some Exclusive) as Hhp by (unfold hh; by rewrite lookup_insert_ne, lookup_singleton_eq).
    set (c1 := fun q => if decide (q = new) then Page.zeros else c q) in *.
    assert (c1 pid = c pid) as Hc1p by (unfold c1; by rewrite decide_False).
    destruct (run_page_view p1 hh c1 (BasicPageGuard.GetDataMut g) pid Exclusive
      (modify (TablePage.SetNextPageId (fresh_page s))) (TablePage.SetNextPageId (fresh_page s) (c pid))
      Hv1 Hg1' Hpid Hhp) as (p2 & E4 & Hv2 & Hm2 & Hs2).
    { cbn. by rewrite Hc1p. }
    { apply (rep_length _ _ (SetNextPageId_rep _ a (fresh_page s) Hrep ltac:(width))). }
    rewrite (bind_ok _ _ _ _ _ (with_pool_ok _ s1 _ _ E4)). set (s2 := mk_table_heap p2 m').
    pose proof (guards_steady _ _ _ _ _ new Unlatched Hv1 (lookup_insert_eq _ _ _) Hs2 Hg1) as Hg2.
    pose proof (guards_steady _ _ _ _ _ pid Exclusive Hv1 Hhp Hs2 Hg1') as Hg2'.
    match type of Hv2 with view _ _ ?x => set (c2 := x) in * end.
    assert (c2 new = Page.zeros) as Hc2n by (unfold c2, c1; by rewrite decide_False, decide_True).
    destruct (run_page_view p2 hh c2 (BasicPageGuard.GetDataMut (BasicPageGuard.make f)) new Unlatched
      (modify TablePage.Init) (TablePage.Init Page.zeros) Hv2 Hg2 Hnew (lookup_insert_eq _ _ _))
      as (p3 & E5 & Hv3 & Hm3 & Hs3).
    { cbn. by rewrite Hc2n. }
    { apply length_Init, length_replicate. }
    rewrite (bind_ok _ _ _ _ _ (with_pool_ok _ s2 _ _ E5)). set (s3 := mk_table_heap p3 m').
    pose proof (guards_steady _ _ _ _ _ new Unlatched Hv2 (lookup_insert_eq _ _ _) Hs3 Hg2) as Hg3.
    pose proof (guards_steady _ _ _ _ _ pid Exclusive Hv2 Hhp Hs3 Hg2') as Hg3'.
    destruct (Write_Drop_view p3 hh _ (BasicPageGuard.GetDataMut g) pid Hv3 Hg3' Hhp eq_refl)
      as (p4 & E6 & Hv4 & Hm4 & Hs4 & Hk4).
    rewrite (bind_ok _ _ _ _ _ (with_pool_ok _ s3 _ _ E6)). set (s4 := mk_table_heap p4 m').
    pose proof (guards_steady _ _ _ _ _ new Unlatched Hv3 (lookup_insert_eq _ _ _) Hs4 Hg3) as Hg4.
    assert (delete pid hh = {[new := Unlatched]}) as Hdel.
    { unfold hh. rewrite delete_insert_ne, delete_singleton_eq by done. done. }
    rewrite Hdel in Hv4.
    destruct Hg4 as (f' & [= <-] & Ht4).
    destruct (latch_op_view p4 _ _ new (BasicPageGuard.make f) f Page.WLatch Unlatched Exclusive Hv4
      (lookup_singleton_eq _ _) Ht4 eq_refl) as (p5 & E7 & Hv5 & Hg5 & _ & Hm5 & Hs5).
    { intros p Hp. unfold Page.WLatch. by rewrite Hp. }
    rewrite insert_singleton_eq in Hv5. set (s5 := mk_table_heap p5 m').
    rewrite (bind_ok (TableHeap.with_pool (BasicPageGuard.UpgradeWrite _)) _ s4
      (BasicPageGuard.make f, BasicPageGuard.moved_from (BasicPageGuard.GetDataMut (BasicPageGuard.make f))) s5).
    2:{ apply (with_pool_ok _ s4). unfold BasicPageGuard.UpgradeWrite, deref. cbn [page_ BasicPageGuard.GetDataMut BasicPageGuard.make].
        rewrite (bind_ok (mret f) _ p4 f p4) by done. by rewrite (bind_ok _ _ _ _ _ E7). }
    cbn [fst].
    rewrite (bind_ok (TableHeap.with_pool (WritePageGuard.move_assign _ _)) _ s5
      (BasicPageGuard.make f, BasicPageGuard.moved_from (BasicPageGuard.make f)) s5) by done.
    cbn [fst]. eexists (BasicPageGuard.make f), p5, _. split; [done|].
    split; [exact Hv5|]. split; [done|]. split; [|split; [|split; [|split]]].
    + apply (mv_kept _ _ _ Hm5); [apply Hpid|done].
    + assert (forall X, moves ∅ p1 p2 -> moves X p1 p2) as Hw by (intros X; by apply moves_weaken).
      etrans; [exact Hm1|]. apply (moves_weaken ∅); [done|]. do 3 (etrans; [eassumption|]). done.
    + cbn beta. rewrite decide_False by done. unfold c2. rewrite decide_True by done.
      apply SetNextPageId_rep; [done|width].
    + cbn beta. rewrite decide_True by done. apply Init_rep, length_replicate.
    + intros q Hq1 Hq2. cbn beta. rewrite decide_False by done. unfold c2, c1.
      by rewrite !decide_False by done.
  - right.
    destruct (Write_Drop_view (bpm_ s) _ _ (BasicPageGuard.GetDataMut g) pid Hv Hg (lookup_singleton_eq _ _)
      eq_refl) as (p1 & E4 & Hv1 & Hm1 & _).
    rewrite delete_singleton_eq in Hv1. exists p1. split_and!; [|done|done].
    apply bind_err. unfold unwinding. rewrite E3. cbn [is_exception].
    by rewrite (bind_ok _ _ _ _ _ (with_pool_ok _ s _ _ E4)).
Qed.

(** *** Inserting into a page with room *)
Definition insert_here (meta : TupleMeta) (tuple : Tuple) (oid : Z) (page_guard : guard) : M heap (option RID) :=
  s ← get_state;
  let last_page_id := TableMeta.GetLastTableHeapDataPageId (table_meta_ s) in
  let page_guard := BasicPageGuard.GetDataMut page_guard in
  slot_id ← TableHeap.with_pool (run_page page_guard (TablePage.InsertTuple meta tuple));
  match slot_id with
  | None => throw UndefinedBehaviour
  | Some slot_id =>
    TableHeap.with_pool (WritePageGuard.Drop page_guard);;
    TableHeap.with_meta TableMeta.IncreaseTupleCount;;
    mret (Some (mk_RID (mk_PageId oid last_page_id) slot_id))
  end.

Lemma insert_here_spec s c g a m t oid : let pid := mk_PageId oid (last_table_heap_data_page_id_ (table_meta_ s)) in
  view (bpm_ s) {[pid := Exclusive]} c -> guards (bpm_ s) g pid -> page_ok pid -> rep (c pid) a ->
  fits t -> room a t = true ->
  exists p' c', insert_here m t oid g s = (Ok (Some (mk_RID pid (Z.of_nat (length (tp_rows a))))),
      mk_table_heap p' (TableMeta.IncreaseTupleCount (table_meta_ s))) /\
    view p' ∅ c' /\ kept p' pid /\ moves ∅ (bpm_ s) p' /\ rep (c' pid) (add_row a m t) /\
    forall q, q <> pid -> c' q = c q.
Proof.
  intros pid Hv Hg Hpid Hrep Hf Hroom. unfold fits, PAGE_SIZE, TABLE_PAGE_HEADER_SIZE, TUPLE_INFO_SIZE in Hf.
  pose proof (InsertTuple_rep (c pid) a m t Hrep) as Hi. rewrite Hroom in Hi.
  destruct Hi as (bs & Ei & Hrep'); [unfold PAGE_SIZE, TABLE_PAGE_HEADER_SIZE; lia..|].
  unfold insert_here. rewrite (bind_ok get_state _ s s s) by done.
  destruct (run_page_view (bpm_ s) _ c (BasicPageGuard.GetDataMut g) pid Exclusive (TablePage.InsertTuple m t) bs
    Hv Hg Hpid (lookup_singleton_eq _ _)) as (p1 & E1 & Hv1 & Hm1 & Hs1); [by rewrite Ei|apply (rep_length _ _ Hrep')|].
  rewrite Ei in E1. rewrite (bind_ok _ _ _ _ _ (with_pool_ok _ s _ _ E1)).
  set (s1 := mk_table_heap p1 (table_meta_ s)).
  pose proof (guards_steady _ _ _ _ _ pid Exclusive Hv (lookup_singleton_eq _ _) Hs1 Hg) as Hg1.
  destruct (Write_Drop_view p1 _ _ (BasicPageGuard.GetDataMut g) pid Hv1 Hg1 (lookup_singleton_eq _ _) eq_refl)
    as (p2 & E2 & Hv2 & Hm2 & _ & Hk2).
  rewrite (bind_ok _ _ _ _ _ (with_pool_ok _ s1 _ _ E2)). rewrite delete_singleton_eq in Hv2.
  eexists p2, _. split; [done|]. split; [exact Hv2|]. split_and!; [done|by etrans| |].
  - by rewrite decide_True.
  - intros q Hq. by rewrite decide_False.
Qed.

Lemma heap_ok_build s ch c : table_oid_ (table_meta_ s) <> INVALID_TABLE_OID -> view (bpm_ s) ∅ c ->
  (exists pre a, ch = pre ++ [(last_table_heap_data_page_id_ (table_meta_ s), a)]) ->
  linked ch -> NoDup ch.*1 ->
  (forall n a, chain_page ch n = Some a -> 0 <= n <= last_table_data_page_id_ (table_meta_ s) /\
     ps_storable (page_of_heap s n) /\ kept (bpm_ s) (page_of_heap s n) /\ rep (c (page_of_heap s n)) a) ->
  (forall n, last_table_data_page_id_ (table_meta_ s) < n -> page_table_ (bpm_ s) !! page_of_heap s n = None) ->
  -1 <= last_table_data_page_id_ (table_meta_ s) < 2 ^ 31 -> heap_ok s ch.
Proof.
  intros Ho Hv Hla Hli Hnd Hpg Hf Hr. destruct (view_idle _ _ Hv). split; try done.
  intros n a Hna. destruct (Hpg n a Hna) as (? & ? & ? & ?). split_and!; try done; [lia..|].
  by rewrite (vw_content _ _ _ Hv).
Qed.

(** *** Growing a heap *)
Lemma heap_ok_page s ch n a : heap_ok s ch -> chain_page ch n = Some a -> page_ok (page_of_heap s n).
Proof. intros Hok Hn. destruct (hp_pages _ _ Hok n a Hn) as (? & ? & _). split; [done|]. cbn. lia. Qed.

(** Another row in the last page. *)
Lemma grow_last s s' pre n a b c : heap_ok s (pre ++ [(n, a)]) -> tp_next b = tp_next a ->
  n = last_table_heap_data_page_id_ (table_meta_ s) ->
  table_meta_ s' = TableMeta.IncreaseTupleCount (table_meta_ s) -> view (bpm_ s') ∅ c ->
  kept (bpm_ s') (page_of_heap s n) -> moves {[page_of_heap s n]} (bpm_ s) (bpm_ s') ->
  rep (c (page_of_heap s n)) b -> (forall q, q <> page_of_heap s n -> c q = content (bpm_ s) q) ->
  heap_ok s' (pre ++ [(n, b)]).
Proof.
  intros Hok Hnext Hn Hmeta Hv Hk Hm Hrep Hc. pose proof (hp_nodup _ _ Hok) as Hnd.
  destruct (chain_page_last pre n a Hnd) as [Hlast Hpre].
  destruct (hp_pages _ _ Hok n a Hlast) as (Hrg & Hst & _).
  assert (page_of_heap s' = page_of_heap s) as Hpg by (unfold page_of_heap; by rewrite Hmeta).
  apply (heap_ok_build s' _ c); rewrite ?Hmeta, ?Hpg; try done;
    cbn [table_oid_ last_table_data_page_id_ last_table_heap_data_page_id_ TableMeta.IncreaseTupleCount].
  - apply (hp_oid _ _ Hok).
  - exists pre, b. by rewrite Hn.
  - by eapply linked_last; [apply (hp_linked _ _ Hok)|].
  - revert Hnd. by rewrite !fmap_app.
  - intros k b' Hk'. rewrite chain_page_app in Hk'. destruct (chain_page pre k) as [b0|] eqn:E.
    + injection Hk' as ->. destruct (Hpre k b' E) as [Hne Hin].
      destruct (hp_pages _ _ Hok k b' Hin) as (Hkr & Hks & Hkk & Hkrep).
      split_and!; try done; try lia.
      * by apply (mv_kept _ _ _ Hm).
      * rewrite Hc; [done|]. by intros [= ->].
    + cbn in Hk'. case_decide; [|done]. injection Hk' as <-. by subst k.
  - intros k Hk'. apply (mv_absent _ _ _ Hm); [|by apply (hp_fresh _ _ Hok)].
    intros [= ->]%elem_of_singleton. lia.
  - apply (hp_range _ _ Hok).
Qed.

(** A new last page. *)
Lemma grow_chain s s' pre n a b c : heap_ok s (pre ++ [(n, a)]) -> tp_next b = INVALID_PAGE_ID ->
  fresh_page s < 2 ^ 31 -> ps_storable (page_of_heap s (fresh_page s)) ->
  table_meta_ s' = TableMeta.IncreaseTupleCount (TableMeta.SetLastTableHeapDataPageId (fresh_page s)
    (TableMeta.SetLastTableDataPageId (fresh_page s) (table_meta_ s))) -> view (bpm_ s') ∅ c ->
  kept (bpm_ s') (page_of_heap s n) -> kept (bpm_ s') (page_of_heap s (fresh_page s)) ->
  moves {[page_of_heap s n; page_of_heap s (fresh_page s)]} (bpm_ s) (bpm_ s') ->
  rep (c (page_of_heap s n)) (with_next a (fresh_page s)) -> rep (c (page_of_heap s (fresh_page s))) b ->
  (forall q, q <> page_of_heap s n -> q <> page_of_heap s (fresh_page s) -> c q = content (bpm_ s) q) ->
  heap_ok s' (pre ++ [(n, with_next a (fresh_page s)); (fresh_page s, b)]).
Proof.
  intros Hok Hnext Hfr Hst Hmeta Hv Hk Hk2 Hm Hrep Hrep2 Hc. pose proof (hp_nodup _ _ Hok) as Hnd.
  destruct (chain_page_last pre n a Hnd) as [Hlast Hpre].
  destruct (hp_pages _ _ Hok n a Hlast) as (Hrg & Hst' & _). pose proof (hp_range _ _ Hok) as Hrange.
  assert (page_of_heap s' = page_of_heap s) as Hpg by (unfold page_of_heap; by rewrite Hmeta).
  assert (last_table_data_page_id_ (table_meta_ s) < fresh_page s) as Hlt by (unfold fresh_page; lia).
  apply (heap_ok_build s' _ c); rewrite ?Hmeta, ?Hpg; try done;
    cbn [table_oid_ last_table_data_page_id_ last_table_heap_data_page_id_ TableMeta.IncreaseTupleCount
      TableMeta.SetLastTableHeapDataPageId TableMeta.SetLastTableDataPageId].
  - apply (hp_oid _ _ Hok).
  - eexists (pre ++ [_]), b. by rewrite <- app_assoc.
  - by apply linked_grow; [apply (hp_linked _ _ Hok)|].
  - rewrite fmap_app in *. cbn in *. change [n; fresh_page s] with ([n] ++ [fresh_page s]). rewrite app_assoc.
    apply NoDup_app. split_and!; [done| |apply NoDup_singleton].
    intros k Hk'. rewrite list_elem_of_singleton. intros ->.
    assert (exists b', chain_page (pre ++ [(n, a)]) (fresh_page s) = Some b') as [b' Hb'].
    { change [n] with ([(n, a)].*1) in Hk'. rewrite <- fmap_app in Hk'. apply list_elem_of_fmap in Hk' as ([k b'] & -> & Hin). exists b'.
      apply chain_page_elem; [|done]. by rewrite fmap_app. }
    destruct (hp_pages _ _ Hok _ _ Hb') as (? & _). lia.
  - intros k b' Hk'. rewrite chain_page_app in Hk'. destruct (chain_page pre k) as [b0|] eqn:E.
    + injection Hk' as ->. destruct (Hpre k b' E) as [Hne Hin].
      destruct (hp_pages _ _ Hok k b' Hin) as (Hkr & Hks & Hkk & Hkrep).
      split_and!; try done; try lia.
      * by apply (mv_kept _ _ _ Hm).
      * rewrite Hc; [done|by intros [= ->]|]. intros [= ->]. lia.
    + cbn in Hk'. repeat case_decide; try done; injection Hk' as <-; subst k; split_and!; try done; lia.
  - intros k Hk'. apply (mv_absent _ _ _ Hm); [|apply (hp_fresh _ _ Hok); lia].
    rewrite elem_of_union, !elem_of_singleton. intros [[= ->]|[= ->]]; lia.
  - lia.
Qed.

Lemma InsertTuple_split s m t page_guard pool : let oid := table_oid_ (table_meta_ s) in
  FetchPageWrite (page_of_heap s (last_table_heap_data_page_id_ (table_meta_ s))) (bpm_ s) = (Ok page_guard, pool) ->
  TableHeap.InsertTuple m t s =
    (page_guard ← TableHeap.find_room 2 page_guard t; insert_here m t oid page_guard)
      (mk_table_heap pool (table_meta_ s)).
Proof.
  intros oid E. unfold TableHeap.InsertTuple. rewrite (bind_ok get_state _ s s s) by done.
  unfold TableMeta.GetLastTableHeapDataPageId. by rewrite (bind_ok _ _ _ _ _ (with_pool_ok _ s _ _ E)).
Qed.

(** What an insert needs of the page it may add. *)
Definition can_grow s : Prop := fresh_page s < 2 ^ 31 /\ ps_storable (page_of_heap s (fresh_page s)).

Definition counted (m m' : TableMeta) : Prop :=
  schema_ m' = schema_ m /\ name_ m' = name_ m /\ table_oid_ m' = table_oid_ m /\
  tuple_count_ m' = uwrap 64 (tuple_count_ m + 1).

Lemma InsertTuple_heap s ch m t : heap_ok s ch -> fits t -> can_grow s ->
  match TableHeap.InsertTuple m t s with
  | (Ok r, s') => let spec := chain_insert (fresh_page s) ch m t in
      r = Some (mk_RID (page_of_heap s spec.1.1) spec.1.2) /\ heap_ok s' spec.2 /\
      counted (table_meta_ s) (table_meta_ s') /\
      fresh_page s' = fresh_page s + Z.of_nat (length spec.2) - Z.of_nat (length ch) /\
      apart (table_oid_ (table_meta_ s)) (bpm_ s) (bpm_ s')
  | (Err e, s') => e = StdRuntimeError /\ heap_ok s' ch /\ table_meta_ s' = table_meta_ s /\
      apart (table_oid_ (table_meta_ s)) (bpm_ s) (bpm_ s')
  end.
Proof.
  intros Hok Hf [Hgr Hst]. destruct (hp_last _ _ Hok) as (pre & a & ->).
  set (last := last_table_heap_data_page_id_ (table_meta_ s)) in *. set (pid := page_of_heap s last).
  destruct (chain_page_last pre last a (hp_nodup _ _ Hok)) as [Hlast _].
  destruct (hp_pages _ _ Hok last a Hlast) as (Hrg & _ & Hk & Hrep).
  pose proof (heap_ok_page _ _ _ _ Hok Hlast) as Hpid. fold pid in Hk, Hrep, Hpid.
  pose proof (idle_view _ (hp_pool _ _ Hok) (hp_idle _ _ Hok)) as Hv.
  destruct (FetchPageWrite_view (bpm_ s) ∅ _ pid Hv (lookup_empty _) Hpid Hk)
    as [(g & p1 & E & Hv1 & Hg1 & Hm1 & _)|E].
  2:{ unfold TableHeap.InsertTuple. rewrite (bind_ok get_state _ s s s) by done.
      unfold TableMeta.GetLastTableHeapDataPageId. fold last. fold (page_of_heap s last). fold pid.
      rewrite (bind_err _ _ _ _ _ (with_pool_ok _ s _ _ E)). destruct s. by split_and!. }
  rewrite (InsertTuple_split s m t g p1 E), chain_insert_app. rewrite insert_empty in Hv1.
  set (s1 := mk_table_heap p1 (table_meta_ s)).
  assert (p1 = bpm_ s1) as E1 by done. assert (table_meta_ s1 = table_meta_ s) as Em1 by done.
  destruct (room a t) eqn:Hroom; cbn [fst snd].
  - rewrite (bind_ok _ _ _ _ _ (find_room_here 1 s1 _ _ g pid a t Hv1 Hg1 Hpid Hrep Hf Hroom)).
    destruct (insert_here_spec s1 _ (BasicPageGuard.GetDataMut g) a m t (table_oid_ (table_meta_ s)) Hv1 Hg1 Hpid Hrep Hf Hroom)
      as (p2 & c2 & -> & Hv2 & Hk2 & Hm2 & Hrep2 & Hc2).
    assert (moves {[pid]} (bpm_ s) p2) as Hm by (etrans; [exact Hm1|]; by apply (moves_weaken ∅)).
    split; [done|]. split; [|split; [done|split; [rewrite !length_app; cbn; unfold fresh_page; cbn; lia|]]].
    + by apply (grow_last s _ pre last a (add_row a m t) c2).
    + apply (apart_view _ _ _ _ _ Hm Hv2); [by intros q ->%elem_of_singleton|].
      intros q Hq. apply Hc2. by intros ->.
  - pose proof (hp_range _ _ Hok) as Hr.
    assert (page_table_ p1 !! page_of_heap s (fresh_page s) = None) as Hn1.
    { apply (mv_absent _ _ _ Hm1); [|apply (hp_fresh _ _ Hok); unfold fresh_page; lia].
      intros [= E2]%elem_of_singleton. unfold fresh_page in *. lia. }
    assert (last < fresh_page s) as Hlf by (unfold fresh_page; lia).
    destruct (find_room_next 1 s1 _ g a t Hv1 Hg1 Hpid Hrep Hf Hroom (hp_oid _ _ Hok)
      (conj Hlf Hgr) Hst Hn1)
      as [(g' & p2 & c2 & E2 & Hv2 & Hg2 & Hk2 & Hm2 & Hrep2 & Hrepn & Hc2)|(p2 & E2 & Hv2 & Hm2)].
    + assert ((page_guard ← TableHeap.find_room 2 g t; insert_here m t (table_oid_ (table_meta_ s)) page_guard) s1 =
        (page_guard ← TableHeap.find_room 1 g' t; insert_here m t (table_oid_ (table_meta_ s)) page_guard)
          (mk_table_heap p2 (TableMeta.SetLastTableHeapDataPageId (fresh_page s1)
            (TableMeta.SetLastTableDataPageId (fresh_page s1) (table_meta_ s1))))) as ->.
      { unfold mbind, M_bind. by rewrite E2. }
      set (s2 := mk_table_heap p2 _). set (new := page_of_heap s1 (fresh_page s1)) in *.
      assert (page_ok new) as Hnew by (split; [done|]; change (0 <= fresh_page s); lia).
      pose proof (fits_empty t empty_page Hf eq_refl) as Hroom2.
      rewrite (bind_ok _ _ _ _ _ (find_room_here 0 s2 _ _ g' new empty_page t Hv2 Hg2 Hnew Hrepn Hf Hroom2)).
      destruct (insert_here_spec s2 _ (BasicPageGuard.GetDataMut g') empty_page m t (table_oid_ (table_meta_ s))
        Hv2 Hg2 Hnew Hrepn Hf Hroom2) as (p3 & c3 & -> & Hv3 & Hk3 & Hm3 & Hrep3 & Hc3).
      assert (pid <> new) as Hpn by (unfold pid, new; intros [= E3]; change (fresh_page s1) with (fresh_page s) in E3; lia).
      assert (moves {[pid; new]} (bpm_ s) p3) as Hm.
      { etrans; [apply (moves_weaken {[pid]}); [set_solver|exact Hm1]|].
        etrans; [apply (moves_weaken {[new]}); [set_solver|exact Hm2]|]. by apply (moves_weaken ∅). }
      assert (forall q, q <> pid -> q <> new -> c3 q = content (bpm_ s) q) as Hc by (intros q Hq1 Hq2; rewrite Hc3, Hc2; done).
      split; [done|]. split; [|split; [done|split; [rewrite !length_app; unfold fresh_page; cbn; unfold fresh_page; cbn; lia|]]].
      * apply (grow_chain s _ pre last a (add_row empty_page m t) c3); try done; [|fold pid; by rewrite Hc3].
        apply (mv_kept _ _ _ Hm3); [apply Hpid|done].
      * apply (apart_view _ _ _ _ _ Hm Hv3); [by intros q [->%elem_of_singleton| ->%elem_of_singleton]%elem_of_union|].
        intros q Hq. by apply Hc; intros ->.
    + rewrite (bind_err _ _ _ _ _ E2). split; [done|].
      assert (moves {[pid]} (bpm_ s) p2) as Hm by (etrans; [exact Hm1|]; by apply (moves_weaken ∅)).
      split; [|split; [done|apply (apart_view _ _ _ _ _ Hm Hv2); [by intros q ->%elem_of_singleton|done]]].
      apply (heap_ok_same s _ _ {[pid]} Hok); try done.
      intros q ->%elem_of_singleton. exists last. split; [done|lia].
Qed.

(** *** Changing and reading rows *)
Lemma set_page_last pre n a m b : exists pre' a', set_page (pre ++ [(n, a)]) m b = pre' ++ [(n, a')].
Proof.
  induction pre as [|[k a0] pre (pre' & a' & IH)]; cbn.
  - case_decide; [exists [], b|exists [], a]; done.
  - case_decide.
    + by exists ((k, b) :: pre), a.
    + exists ((k, a0) :: pre'), a'. by rewrite IH.
Qed.

Lemma change_page s s' ch n a b c : heap_ok s ch -> chain_page ch n = Some a -> tp_next b = tp_next a ->
  table_meta_ s' = table_meta_ s -> view (bpm_ s') ∅ c -> moves {[page_of_heap s n]} (bpm_ s) (bpm_ s') ->
  rep (c (page_of_heap s n)) b -> (forall q, q <> page_of_heap s n -> c q = content (bpm_ s) q) ->
  heap_ok s' (set_page ch n b).
Proof.
  intros Hok Hn Hnext Hmeta Hv Hm Hrep Hc. destruct (hp_pages _ _ Hok n a Hn) as (Hrg & Hst & _).
  assert (page_of_heap s' = page_of_heap s) as Hpg by (unfold page_of_heap; by rewrite Hmeta).
  apply (heap_ok_build s' _ c); rewrite ?Hmeta, ?Hpg; try done.
  - apply (hp_oid _ _ Hok).
  - destruct (hp_last _ _ Hok) as (pre & a0 & ->). apply set_page_last.
  - by eapply set_page_linked; [apply (hp_linked _ _ Hok)|..].
  - rewrite set_page_fst. apply (hp_nodup _ _ Hok).
  - intros k b' Hk. rewrite set_page_lookup, Hn in Hk. case_decide as Hd.
    + injection Hk as ->. subst k. destruct (hp_pages _ _ Hok n a Hn) as (? & ? & ? & _).
      split_and!; try done; [lia..|by apply (mv_kept _ _ _ Hm)].
    + destruct (hp_pages _ _ Hok k b' Hk) as (? & ? & ? & ?).
      split_and!; try done; [lia..|by apply (mv_kept _ _ _ Hm)|]. rewrite Hc; [done|]. by intros [= ->].
  - intros k Hk. apply (mv_absent _ _ _ Hm); [|by apply (hp_fresh _ _ Hok)].
    intros [= ->]%elem_of_singleton. lia.
  - apply (hp_range _ _ Hok).
Qed.

Lemma set_page_same ch n a : chain_page ch n = Some a -> set_page ch n a = ch.
Proof. induction ch as [|[k b] ch IH]; cbn; [done|]. case_decide; [by intros [= ->]|]. intros. by rewrite IH. Qed.

Lemma UpdateTupleMeta_heap s ch n a m rid : heap_ok s ch -> rid_page_id_ rid = page_of_heap s n ->
  chain_page ch n = Some a -> 0 <= slot_num_ rid ->
  match TableHeap.UpdateTupleMeta m rid s with
  | (r, s') => table_meta_ s' = table_meta_ s /\
      (r = (spec_update a m rid).1 /\ heap_ok s' (set_page ch n (spec_update a m rid).2) \/
       r = Err StdRuntimeError /\ s' = s)
  end.
Proof.
  intros Hok Hrid Hn Hs. set (pid := page_of_heap s n) in *.
  destruct (hp_pages _ _ Hok n a Hn) as (Hrg & _ & Hk & Hrep).
  pose proof (heap_ok_page _ _ _ _ Hok Hn) as Hpid. fold pid in Hk, Hrep, Hpid.
  pose proof (idle_view _ (hp_pool _ _ Hok) (hp_idle _ _ Hok)) as Hv.
  unfold TableHeap.UpdateTupleMeta. rewrite Hrid.
  destruct (FetchPageWrite_view (bpm_ s) ∅ _ pid Hv (lookup_empty _) Hpid Hk)
    as [(g & p1 & E & Hv1 & Hg1 & Hm1 & _)|E].
  2:{ rewrite (bind_err _ _ _ _ _ (with_pool_ok _ s _ _ E)). destruct s. split; [done|]. by right. }
  rewrite (bind_ok _ _ _ _ _ (with_pool_ok _ s _ _ E)). rewrite insert_empty in Hv1.
  set (s1 := mk_table_heap p1 (table_meta_ s)).
  destruct (UpdateTupleMeta_rep _ a m rid Hrep Hs) as (bs & Eu & Hrep').
  destruct (run_page_view p1 _ _ (BasicPageGuard.GetDataMut g) pid Exclusive (TablePage.UpdateTupleMeta m rid) bs
    Hv1 Hg1 Hpid (lookup_singleton_eq _ _)) as (p2 & E2 & Hv2 & Hm2 & Hs2); [by rewrite Eu|apply (rep_length _ _ Hrep')|].
  rewrite Eu in E2. cbn [fst] in E2. set (s2 := mk_table_heap p2 (table_meta_ s)).
  pose proof (guards_steady _ _ _ _ _ pid Exclusive Hv1 (lookup_singleton_eq _ _) Hs2 Hg1) as Hg2.
  destruct (Write_Drop_view p2 _ _ (BasicPageGuard.GetDataMut g) pid Hv2 Hg2 (lookup_singleton_eq _ _) eq_refl)
    as (p3 & E3 & Hv3 & Hm3 & _). rewrite delete_singleton_eq in Hv3.
  set (s3 := mk_table_heap p3 (table_meta_ s)).
  assert (heap_ok s3 (set_page ch n (spec_update a m rid).2)) as Hok3.
  { apply (change_page s s3 ch n a _ _ Hok Hn) with (3 := Hv3); try done.
    - unfold spec_update. by destruct (tp_rows a !! _) as [[]|].
    - etrans; [exact Hm1|]. apply (moves_weaken ∅); [done|]. by etrans.
    - fold pid. by rewrite decide_True.
    - intros q Hq. by rewrite decide_False. }
  pose proof (with_pool_ok _ s1 _ _ E2) as F2. pose proof (with_pool_ok _ s2 _ _ E3) as F3.
  destruct ((spec_update a m rid).1) as [[]|e] eqn:Er.
  - rewrite (bind_ok (unwinding _ _) _ s1 tt s2) by (unfold unwinding; by rewrite F2).
    rewrite (bind_ok _ _ _ _ _ F3). split; [done|]. by left.
  - rewrite (bind_err (unwinding _ _) _ s1 e s3).
    + split; [done|]. by left.
    + unfold unwinding. rewrite F2. unfold spec_update in Er.
      destruct (tp_rows a !! _) as [[]|]; [done|]. injection Er as <-. cbn [is_exception].
      by rewrite (bind_ok _ _ _ _ _ F3).
Qed.

Lemma GetTuple_heap s ch n a rid : heap_ok s ch -> rid_page_id_ rid = page_of_heap s n ->
  chain_page ch n = Some a -> 0 <= slot_num_ rid ->
  match TableHeap.GetTuple rid s with
  | (r, s') => (r = Some <$> spec_get a rid \/ r = Err StdRuntimeError /\ s' = s) /\
      heap_ok s' ch /\ table_meta_ s' = table_meta_ s
  end.
Proof.
  intros Hok Hrid Hn Hs. destruct (hp_pages _ _ Hok n a Hn) as (Hrg & _ & Hk & Hrep).
  pose proof (heap_ok_page _ _ _ _ Hok Hn) as Hpid. unfold TableHeap.GetTuple. rewrite Hrid.
  assert ((ret ← TablePage.GetTuple rid (content (bpm_ s) (page_of_heap s n));
    Ok (Some (ret.1, Tuple.SetRid ret.2 rid))) = Some <$> spec_get a rid) as El.
  { rewrite (GetTuple_rep _ a rid Hrep Hs). unfold spec_get. by destruct (tp_rows a !! _) as [[]|]. }
  match goal with |- context [TableHeap.read_page _ ?l _] =>
    pose proof (read_page_spec s (page_of_heap s n) l (hp_pool _ _ Hok) (hp_idle _ _ Hok) Hpid Hk) as Hr end.
  destruct (TableHeap.read_page _ _ s) as [r s']. rewrite El in Hr. destruct Hr as (Hr & Hm & Hv & Hmv).
  { intros e. unfold spec_get. destruct (tp_rows a !! _) as [[]|]; [done|]. by intros [= <-]. }
  split; [done|]. split; [|done]. apply (heap_ok_same s s' ch _ Hok Hm Hv Hmv).
  intros q ->%elem_of_singleton. exists n. split; [done|lia].
Qed.

Lemma GetTupleMeta_heap s ch n a rid : heap_ok s ch -> rid_page_id_ rid = page_of_heap s n ->
  chain_page ch n = Some a -> 0 <= slot_num_ rid ->
  match TableHeap.GetTupleMeta rid s with
  | (r, s') => (r = fst <$> spec_get a rid \/ r = Err StdRuntimeError /\ s' = s) /\
      heap_ok s' ch /\ table_meta_ s' = table_meta_ s
  end.
Proof.
  intros Hok Hrid Hn Hs. destruct (hp_pages _ _ Hok n a Hn) as (Hrg & _ & Hk & Hrep).
  pose proof (heap_ok_page _ _ _ _ Hok Hn) as Hpid. unfold TableHeap.GetTupleMeta. rewrite Hrid.
  pose proof (read_page_spec s (page_of_heap s n) (TablePage.GetTupleMeta rid) (hp_pool _ _ Hok) (hp_idle _ _ Hok) Hpid Hk) as Hr.
  destruct (TableHeap.read_page _ _ s) as [r s']. rewrite (GetTupleMeta_rep _ a rid Hrep Hs) in Hr.
  destruct Hr as (Hr & Hm & Hv & Hmv).
  { intros e. unfold spec_get. destruct (tp_rows a !! _) as [[]|]; [done|]. by intros [= <-]. }
  split; [done|]. split; [|done]. apply (heap_ok_same s s' ch _ Hok Hm Hv Hmv).
  intros q ->%elem_of_singleton. exists n. split; [done|lia].
Qed.
End heap.
