(* ===== verification/TableHeapThms.v ===== *)
(** * What a table heap promises

    The operations of the heap against the chain of pages, the constructor, and rows that
    are inserted and read back. *)
From S2P Require Import Prelude Bytes Types Value Schema Tuple TablePage DiskManager BufferPool.
From S2P Require Import BufferPoolProps PageGuard TableMeta TableHeap TableHeapProps.
Open Scope Z_scope.

(** ** Operations and answers *)
Inductive heap_op : Type :=
| HInsert (m : TupleMeta) (t : Tuple)
| HUpdate (m : TupleMeta) (rid : RID)
| HGet (rid : RID)
| HGetMeta (rid : RID).

Inductive heap_answer : Type :=
| AInserted (rid : option RID)
| ADone
| ATuple (row : option (TupleMeta * Tuple))
| AMeta (m : TupleMeta).

(** The row behind a page number and a slot. *)
Definition chain_row (ch : chain) (n : Z) (slot : Z) : option (TupleMeta * list byte) :=
  match chain_page ch n with Some a => tp_rows a !! Z.to_nat slot | None => None end.

(** The specification, on the chain of pages of table [oid]; a new page is number [fresh]. *)
Definition on_page (ch : chain) (rid : RID) {A} (f : table_page -> res A) : res A :=
  match chain_page ch (page_number_ (rid_page_id_ rid)) with Some a => f a | None => Err UndefinedBehaviour end.

Definition spec_heap (oid fresh : Z) (o : heap_op) (ch : chain) : res heap_answer * chain :=
  match o with
  | HInsert m t =>
    let r := chain_insert fresh ch m t in
    (Ok (AInserted (Some (mk_RID (mk_PageId oid r.1.1) r.1.2))), r.2)
  | HUpdate m rid =>
    match chain_page ch (page_number_ (rid_page_id_ rid)) with
    | Some a => ((fun _ => ADone) <$> (spec_update a m rid).1,
                 set_page ch (page_number_ (rid_page_id_ rid)) (spec_update a m rid).2)
    | None => (Err UndefinedBehaviour, ch)
    end
  | HGet rid => (on_page ch rid (fun a => (fun r => ATuple (Some r)) <$> spec_get a rid), ch)
  | HGetMeta rid => (on_page ch rid (fun a => (fun r => AMeta r.1) <$> spec_get a rid), ch)
  end.

Section heap.
Context {D : Type} `{PageStore D} `{!HashOrder Z bool} `{!TupleInfoLayout}.
#[local] Set Default Proof Using "Type*".
Abbreviation heap := (table_heap D).
Implicit Types (s : heap) (ch : chain) (rid : RID).

Definition heap_step (o : heap_op) : M heap heap_answer :=
  match o with
  | HInsert m t => rid ← TableHeap.InsertTuple m t; mret (AInserted rid)
  | HUpdate m rid => TableHeap.UpdateTupleMeta m rid;; mret ADone
  | HGet rid => row ← TableHeap.GetTuple rid; mret (ATuple row)
  | HGetMeta rid => m ← TableHeap.GetTupleMeta rid; mret (AMeta m)
  end.

(** A record id that names a page of the table. *)
Definition rid_ok s ch rid : Prop :=
  table_id_ (rid_page_id_ rid) = table_oid_ (table_meta_ s) /\
  is_Some (chain_page ch (page_number_ (rid_page_id_ rid))) /\ 0 <= slot_num_ rid.
Definition heap_op_ok s ch (o : heap_op) : Prop :=
  match o with
  | HInsert _ t => fits t /\ can_grow s
  | HUpdate _ rid | HGet rid | HGetMeta rid => rid_ok s ch rid
  end.

Lemma rid_ok_page s ch rid : rid_ok s ch rid -> exists n a, rid_page_id_ rid = page_of_heap s n /\
  chain_page ch n = Some a /\ page_number_ (rid_page_id_ rid) = n /\ 0 <= slot_num_ rid.
Proof.
  intros (Ht & [a Ha] & Hs). exists (page_number_ (rid_page_id_ rid)), a. split_and!; try done.
  unfold page_of_heap. rewrite <- Ht. by destruct (rid_page_id_ rid).
Qed.

(** A table without pages gets its first. *)
Lemma construct_spec s : pool_ok (bpm_ s) -> idle (bpm_ s) ->
  table_oid_ (table_meta_ s) <> INVALID_TABLE_OID -> can_grow s ->
  -1 <= last_table_data_page_id_ (table_meta_ s) ->
  last_table_heap_data_page_id_ (table_meta_ s) = INVALID_PAGE_ID ->
  (forall n, last_table_data_page_id_ (table_meta_ s) < n -> page_table_ (bpm_ s) !! page_of_heap s n = None) ->
  match TableHeap.TableHeap s with
  | (Ok _, s') => heap_ok s' [(fresh_page s, empty_page)] /\ TableHeap.TableHeap s' = (Ok tt, s') /\
      (forall q, ps_storable q -> q <> page_of_heap s (fresh_page s) -> content (bpm_ s') q = content (bpm_ s) q) /\
      apart (table_oid_ (table_meta_ s)) (bpm_ s) (bpm_ s') /\
      table_meta_ s' = TableMeta.SetLastTableHeapDataPageId (fresh_page s)
        (TableMeta.SetLastTableDataPageId (fresh_page s) (table_meta_ s))
  | (Err e, s') => e = StdRuntimeError /\ s' = s
  end.
Proof.
  intros Hok Hidle Ho [Hgr Hst] Hd Hl Hfresh. pose proof (idle_view _ Hok Hidle) as Hv.
  unfold TableHeap.TableHeap at 1. rewrite (bind_ok get_state _ s s s) by done.
  change (TableMeta.GetLastTableHeapDataPageId (table_meta_ s)) with (last_table_heap_data_page_id_ (table_meta_ s)).
  rewrite Hl, Z.eqb_refl.
  destruct (new_page_spec s ∅ _ Hv Ho Hd Hgr Hst) as [(f & p1 & E & Hv1 & Hg1 & Hm1 & Hs1)|E].
  { apply Hfresh. unfold fresh_page. lia. }
  2:{ rewrite (bind_err _ _ s StdRuntimeError s); [done|]. by rewrite (bind_err _ _ _ _ _ E). }
  set (pid := page_of_heap s (fresh_page s)) in *. rewrite insert_empty in Hv1.
  set (m' := TableMeta.SetLastTableHeapDataPageId _ _) in *. set (s1 := mk_table_heap p1 m').
  assert (page_ok pid) as Hpid by (split; [done|]; cbn; unfold fresh_page; lia).
  destruct (run_page_view p1 _ _ (BasicPageGuard.GetDataMut (BasicPageGuard.make f)) pid Unlatched
    (modify TablePage.Init) (TablePage.Init Page.zeros) Hv1 Hg1 Hpid (lookup_singleton_eq _ _))
    as (p2 & E2 & Hv2 & Hm2 & Hs2).
  { cbn. by rewrite decide_True. }
  { apply length_Init, length_replicate. }
  pose proof (guards_steady _ _ _ _ _ pid Unlatched Hv1 (lookup_singleton_eq _ _) Hs2 Hg1) as Hg2.
  destruct (Basic_Drop_view p2 _ _ (BasicPageGuard.GetDataMut (BasicPageGuard.make f)) pid Hv2 Hg2 (lookup_singleton_eq _ _))
    as (p3 & E3 & Hv3 & Hm3 & _ & Hk3); [by left|].
  rewrite delete_singleton_eq in Hv3. set (s3 := mk_table_heap p3 m').
  assert ((0 <=? fresh_page s) = true) as Hpos by (apply Z.leb_le; unfold fresh_page; lia).
  rewrite (bind_ok _ _ s tt s3).
  2:{ rewrite (bind_ok _ _ _ _ _ E). cbn [fst snd]. change (page_number_ pid) with (fresh_page s).
      unfold assert_that, assertion, INVALID_PAGE_ID. rewrite Hpos.
      destruct (Z.eqb_spec (fresh_page s) (-1)); [unfold fresh_page in *; lia|]. cbn [negb andb].
      rewrite (bind_ok (lift (Ok tt)) _ s1 tt s1) by done.
      rewrite (bind_ok _ _ _ _ _ (with_pool_ok _ s1 _ _ E2)).
      by rewrite (bind_ok _ _ _ _ _ (with_pool_ok _ (mk_table_heap p2 m') _ _ E3)). }
  rewrite (bind_ok get_state _ s3 s3 s3) by done. unfold assert_that, assertion.
  change (TableMeta.GetLastTableHeapDataPageId (table_meta_ s3)) with (fresh_page s). rewrite Hpos.
  assert (moves {[pid]} (bpm_ s) p3) as Hm.
  { etrans; [exact Hm1|]. apply (moves_weaken ∅); [done|]. by etrans. }
  unfold lift. split; [|split; [|split; [|split; [|done]]]].
  - apply (heap_ok_build s3 _ _ Ho Hv3); cbn [linked chain_page]; try done.
    + by exists [], empty_page.
    + apply NoDup_singleton.
    + intros n a Hn. case_decide; [|done]. injection Hn as <-. subst n.
      split; [cbn; unfold fresh_page in *; lia|]. split_and!; [done|by apply Hk3|].
      change (page_of_heap s3 (fresh_page s)) with pid. rewrite decide_True by done. apply Init_rep, length_replicate.
    + intros n Hn. cbn in Hn. apply (mv_absent _ _ _ Hm); [|apply Hfresh; unfold fresh_page in *; lia].
      intros [= ->]%elem_of_singleton. unfold fresh_page in *. cbn in Hn. lia.
    + cbn. unfold fresh_page in *. lia.
  - unfold TableHeap.TableHeap. rewrite (bind_ok get_state _ s3 s3 s3) by done.
    change (TableMeta.GetLastTableHeapDataPageId (table_meta_ s3)) with (fresh_page s).
    unfold INVALID_PAGE_ID. destruct (Z.eqb_spec (fresh_page s) (-1)); [unfold fresh_page in *; lia|].
    rewrite (bind_ok (mret tt) _ s3 tt s3), (bind_ok get_state _ s3 s3 s3) by done.
    change (TableMeta.GetLastTableHeapDataPageId (table_meta_ s3)) with (fresh_page s).
    unfold assert_that, assertion. by rewrite Hpos.
  - intros q Hq Hne. change (bpm_ s3) with p3. rewrite (vw_content _ _ _ Hv3) by done.
    by rewrite !decide_False by done.
  - apply (apart_view _ _ _ _ _ Hm Hv3); [by intros q ->%elem_of_singleton|].
    intros q Hq. by rewrite !decide_False by by intros ->.
Qed.

(** ** Properties *)

(** C5: the heap refines the chain of pages.  Each operation, from any state that represents
    a chain, gives the answer of the specification and leaves a state that represents the
    specified chain; or the buffer pool has no frame for it, the operation throws
    [std::runtime_error], and the table is what it was.  Pages are created, linked, evicted
    and read back on the way; no pin and no latch is left behind. *)
Theorem heap_refines s ch o : heap_ok s ch -> heap_op_ok s ch o ->
  match heap_step o s with
  | (r, s') =>
    (r = (spec_heap (table_oid_ (table_meta_ s)) (fresh_page s) o ch).1 /\
     heap_ok s' (spec_heap (table_oid_ (table_meta_ s)) (fresh_page s) o ch).2) \/
    (r = Err StdRuntimeError /\ heap_ok s' ch)
  end.
Proof.
  intros Hok Ho. destruct o as [m t|m rid|rid|rid]; cbn [heap_op_ok heap_step spec_heap] in *.
  - destruct Ho as [Hf Hg]. pose proof (InsertTuple_heap s ch m t Hok Hf Hg) as Hi.
    unfold mbind, M_bind. destruct (TableHeap.InsertTuple m t s) as [[r|e] s'].
    + left. cbn zeta in Hi. destruct Hi as (-> & Hi & _). done.
    + right. destruct Hi as (-> & Hi & _). done.
  - destruct (rid_ok_page _ _ _ Ho) as (n & a & Hp & Ha & Hn & Hs).
    pose proof (UpdateTupleMeta_heap s ch n a m rid Hok Hp Ha Hs) as Hu.
    unfold mbind, M_bind. rewrite Hn, Ha. cbn [fst snd].
    destruct (TableHeap.UpdateTupleMeta m rid s) as [r s'].
    destruct Hu as (_ & [[-> Hu]|[-> ->]]); [|by right].
    by destruct ((spec_update a m rid).1) as [[]|]; left.
  - destruct (rid_ok_page _ _ _ Ho) as (n & a & Hp & Ha & Hn & Hs).
    pose proof (GetTuple_heap s ch n a rid Hok Hp Ha Hs) as Hg.
    unfold mbind, M_bind, on_page. rewrite Hn, Ha. cbn [fst snd].
    destruct (TableHeap.GetTuple rid s) as [r s'].
    destruct Hg as ([->|[-> ->]] & Hg & _); [|by right]. by destruct (spec_get a rid); left.
  - destruct (rid_ok_page _ _ _ Ho) as (n & a & Hp & Ha & Hn & Hs).
    pose proof (GetTupleMeta_heap s ch n a rid Hok Hp Ha Hs) as Hg.
    unfold mbind, M_bind, on_page. rewrite Hn, Ha. cbn [fst snd].
    destruct (TableHeap.GetTupleMeta rid s) as [r s'].
    destruct Hg as ([->|[-> ->]] & Hg & _); [|by right]. by destruct (spec_get a rid); left.
Qed.

(** The constructor of [TableHeap] on a table without pages makes one empty page, the
    table's next one, and leaves the heap ready; on a table that has its pages it changes
    nothing. *)
Theorem TableHeap_constructs s : pool_ok (bpm_ s) -> idle (bpm_ s) ->
  table_oid_ (table_meta_ s) <> INVALID_TABLE_OID -> can_grow s ->
  -1 <= last_table_data_page_id_ (table_meta_ s) ->
  last_table_heap_data_page_id_ (table_meta_ s) = INVALID_PAGE_ID ->
  (forall n, last_table_data_page_id_ (table_meta_ s) < n -> page_table_ (bpm_ s) !! page_of_heap s n = None) ->
  match TableHeap.TableHeap s with
  | (Ok _, s') => heap_ok s' [(fresh_page s, empty_page)] /\ TableHeap.TableHeap s' = (Ok tt, s') /\
      forall q, ps_storable q -> q <> page_of_heap s (fresh_page s) -> content (bpm_ s') q = content (bpm_ s) q
  | (Err e, s') => e = StdRuntimeError /\ s' = s
  end.
Proof.
  intros Hok Hidle Ho Hgr Hd Hl Hf. pose proof (construct_spec s Hok Hidle Ho Hgr Hd Hl Hf) as Hc.
  destruct (TableHeap.TableHeap s) as [[r|e] s']; [|done]. by destruct Hc as (? & ? & ? & _ & _).
Qed.

(** ** Rows that were inserted *)
Lemma chain_insert_row fresh pre n a m t : NoDup (pre ++ [(n, a)]).*1 ->
  chain_page (pre ++ [(n, a)]) fresh = None ->
  let r := chain_insert fresh (pre ++ [(n, a)]) m t in
  chain_row r.2 r.1.1 r.1.2 = Some (m, Tuple.data_ t) /\ chain_row (pre ++ [(n, a)]) r.1.1 r.1.2 = None /\
  0 <= r.1.2 /\ is_Some (chain_page r.2 r.1.1) /\
  forall k slot row, chain_row (pre ++ [(n, a)]) k slot = Some row ->
    is_Some (chain_page r.2 k) /\ chain_row r.2 k slot = Some row.
Proof.
  intros Hnd Hfr. rewrite chain_insert_app. destruct (chain_page_last pre n a Hnd) as [Hlast _].
  assert (chain_page pre n = None) as Hno.
  { rewrite fmap_app, NoDup_app in Hnd. destruct Hnd as (Hnd & Hni & _).
    destruct (chain_page pre n) as [b|] eqn:E; [|done]. apply chain_page_elem in E; [|done].
    exfalso. apply (Hni n); [|by left]. apply list_elem_of_fmap. by exists (n, b). }
  assert (fresh <> n) as Hfn by (intros ->; congruence).
  rewrite chain_page_app in Hfr. destruct (chain_page pre fresh) eqn:Ef; [done|]. clear Hfr.
  unfold chain_row. destruct (room a t); cbn [fst snd].
  - rewrite !chain_page_app, Hno. cbn. rewrite !decide_True by done. cbn [tp_rows add_row].
    rewrite Nat2Z.id, list_lookup_middle by done. split_and!; [done|by rewrite lookup_ge_None_2|lia|done|].
    intros k slot row. rewrite !chain_page_app. destruct (chain_page pre k); [done|]. cbn.
    case_decide; [|done]. intros Hr. split; [done|]. cbn. by apply lookup_app_l_Some.
  - rewrite !chain_page_app, Ef. cbn. rewrite !(decide_False (P := n = fresh)), decide_True by done.
    split_and!; [done|done|lia|done|].
    intros k slot row. rewrite !chain_page_app. destruct (chain_page pre k); [done|]. cbn.
    by case_decide.
Qed.

Fixpoint insert_all (rows : list (TupleMeta * Tuple)) : M heap (list RID) :=
  match rows with
  | [] => mret []
  | (m, t) :: rows =>
    r ← TableHeap.InsertTuple m t;
    match r with
    | Some rid => rids ← insert_all rows; mret (rid :: rids)
    | None => throw UndefinedBehaviour
    end
  end.

(** Rows still to be read back from [s']. *)
Definition stored s' ch' (rid : RID) (row : TupleMeta * list byte) : Prop :=
  rid_ok s' ch' rid /\ chain_row ch' (page_number_ (rid_page_id_ rid)) (slot_num_ rid) = Some row.

Lemma insert_all_heap rows s ch : heap_ok s ch -> Forall (fun r => fits r.2) rows ->
  (forall n, fresh_page s <= n < fresh_page s + Z.of_nat (length rows) ->
     n < 2 ^ 31 /\ ps_storable (page_of_heap s n)) ->
  match insert_all rows s with
  | (Ok rids, s') => exists ch', heap_ok s' ch' /\ NoDup rids /\ length rids = length rows /\
      table_oid_ (table_meta_ s') = table_oid_ (table_meta_ s) /\
      (forall i rid m t, rids !! i = Some rid -> rows !! i = Some (m, t) ->
         stored s' ch' rid (m, Tuple.data_ t) /\
         chain_row ch (page_number_ (rid_page_id_ rid)) (slot_num_ rid) = None) /\
      (forall k slot row, chain_row ch k slot = Some row ->
         is_Some (chain_page ch' k) /\ chain_row ch' k slot = Some row)
  | (Err e, s') => e = StdRuntimeError /\ exists ch', heap_ok s' ch'
  end.
Proof.
  revert s ch. induction rows as [|[m t] rows IH]; intros s ch Hok Hall Hgr; cbn [insert_all].
  { cbn. exists ch. split_and!; try done; [constructor|].
    intros k slot row Hr. unfold chain_row in *. by destruct (chain_page ch k). }
  apply Forall_cons in Hall as [Hf Hall]. cbn [length] in Hgr.
  pose proof (InsertTuple_heap s ch m t Hok Hf) as Hi.
  destruct (hp_last _ _ Hok) as (pre & a & Ech).
  assert (chain_page ch (fresh_page s) = None) as Hnone.
  { destruct (chain_page ch (fresh_page s)) as [b|] eqn:E; [|done].
    destruct (hp_pages _ _ Hok _ _ E) as (? & _). unfold fresh_page in *. lia. }
  pose proof (hp_nodup _ _ Hok) as Hnd. rewrite Ech in Hnd, Hnone.
  pose proof (chain_insert_row (fresh_page s) pre _ a m t Hnd Hnone) as Hrow. rewrite <- Ech in Hrow.
  unfold mbind at 1, M_bind at 1. destruct (TableHeap.InsertTuple m t s) as [[r|e] s1].
  2:{ destruct Hi as (-> & Hi & _); [apply Hgr; lia|]. split; [done|]. by exists ch. }
  cbn zeta in Hi, Hrow. destruct Hi as (-> & Hok1 & (_ & _ & Hoid & _) & Hfr & _); [apply Hgr; lia|].
  set (spec := chain_insert (fresh_page s) ch m t) in *.
  destruct Hrow as (Hnew & Hold & Hpos & Hsome & Hkeep).
  assert (Z.of_nat (length spec.2) <= Z.of_nat (length ch) + 1 /\ Z.of_nat (length ch) <= Z.of_nat (length spec.2)) as [Hl1 Hl2].
  { unfold spec. rewrite Ech. pose proof (chain_insert_length (fresh_page s) pre (last_table_heap_data_page_id_ (table_meta_ s)) a m t). lia. }
  specialize (IH s1 spec.2 Hok1 Hall). unfold mbind, M_bind.
  destruct (insert_all rows s1) as [[rids|e] s2].
  2:{ apply IH. intros n Hn. unfold page_of_heap. rewrite Hoid. apply Hgr. lia. }
  destruct IH as (ch' & Hok2 & Hndr & Hlen & Hoid2 & Hst & Hk2).
  { intros n Hn. unfold page_of_heap. rewrite Hoid. apply Hgr. lia. }
  exists ch'. destruct (Hk2 _ _ _ Hnew) as [Hs2 Hr2].
  split; [done|]. split; [|split; [cbn; by rewrite Hlen|split; [congruence|split]]].
  - apply NoDup_cons. split; [|done]. intros Hin. apply list_elem_of_lookup in Hin as [i Hri].
    destruct (lookup_lt_is_Some_2 rows i) as [[m' t'] Hrow].
    { rewrite <- Hlen. by apply lookup_lt_Some in Hri. }
    destruct (Hst i _ m' t' Hri Hrow) as [_ Hn]. cbn in Hn. congruence.
  - intros [|i] rid m' t' Hrid Hrow; cbn in Hrid, Hrow.
    + injection Hrid as <-. injection Hrow as <- <-. split; [|done]. split; [|done].
      split_and!; try done. cbn. congruence.
    + destruct (Hst i rid m' t' Hrid Hrow) as [Hs3 Hn]. split; [done|].
      apply eq_None_not_Some. intros [row E]. destruct (Hkeep _ _ _ E). congruence.
  - intros k slot row Hr. destruct (Hkeep k slot row Hr) as [_ Hr1]. by apply Hk2.
Qed.

(** C8: rows that were inserted are read back.  If a sequence of inserts succeeds, the record
    ids it returns are distinct, and reading one returns the meta data and the bytes that
    were inserted under it; rows that were in the table before are still there.  The
    sequence can only fail for want of a frame in the buffer pool, and then the table is
    intact. *)
Theorem inserted_rows_are_read_back rows s ch : heap_ok s ch -> Forall (fun r => fits r.2) rows ->
  (forall n, fresh_page s <= n < fresh_page s + Z.of_nat (length rows) ->
     n < 2 ^ 31 /\ ps_storable (page_of_heap s n)) ->
  match insert_all rows s with
  | (Ok rids, s') => NoDup rids /\ length rids = length rows /\
      (forall i rid m t, rids !! i = Some rid -> rows !! i = Some (m, t) ->
         (TableHeap.GetTuple rid s').1 ∈
           [Ok (Some (m, mk_Tuple rid (Tuple.data_ t))); Err StdRuntimeError]) /\
      (forall rid m bs, rid_ok s ch rid -> spec_heap (table_oid_ (table_meta_ s)) 0 (HGet rid) ch =
           (Ok (ATuple (Some (m, mk_Tuple rid bs))), ch) ->
         (TableHeap.GetTuple rid s').1 ∈ [Ok (Some (m, mk_Tuple rid bs)); Err StdRuntimeError])
  | (Err e, s') => e = StdRuntimeError /\ exists ch', heap_ok s' ch'
  end.
Proof.
  intros Hok Hall Hgr. pose proof (insert_all_heap rows s ch Hok Hall Hgr) as Hi.
  destruct (insert_all rows s) as [[rids|e] s']; [|done].
  destruct Hi as (ch' & Hok' & Hnd & Hlen & Hoid & Hst & Hkeep).
  assert (forall rid row, stored s' ch' rid row -> (TableHeap.GetTuple rid s').1 ∈
    [Ok (Some (row.1, mk_Tuple rid row.2)); Err StdRuntimeError]) as Hget.
  { intros rid [m bs] [Hr Hrow]. destruct (rid_ok_page _ _ _ Hr) as (n & a & Hp & Ha & Hn & Hs).
    pose proof (GetTuple_heap s' ch' n a rid Hok' Hp Ha Hs) as Hg. rewrite Hn in Hrow.
    unfold chain_row in Hrow. rewrite Ha in Hrow.
    destruct (TableHeap.GetTuple rid s') as [r s2]. unfold spec_get in Hg. rewrite Hrow in Hg.
    destruct Hg as ([->|[-> _]] & _); [left|right; left]. }
  split_and!; try done.
  - intros i rid m t Hrid Hrow. exact (Hget rid (m, Tuple.data_ t) (proj1 (Hst i rid m t Hrid Hrow))).
  - intros rid m bs Hr Hspec. cbn in Hspec. apply (f_equal fst) in Hspec. cbn in Hspec. unfold on_page in Hspec.
    destruct Hr as (Ht & [a Ha] & Hs). rewrite Ha in Hspec. unfold spec_get in Hspec.
    destruct (tp_rows a !! Z.to_nat (slot_num_ rid)) as [[m' bs']|] eqn:E; [|done]. injection Hspec as -> ->.
    destruct (Hkeep (page_number_ (rid_page_id_ rid)) (slot_num_ rid) (m, bs)) as [Hsome Hrow].
    { unfold chain_row. by rewrite Ha. }
    apply (Hget rid (m, bs)). split; [|done]. split; [congruence|done].
Qed.
End heap.

(** ** Concrete runs *)
#[local] Existing Instance memory_store.
#[local] Existing Instance map_order.
#[local] Existing Instance libstdcxx_layout.
Abbreviation mem_heap := (table_heap (gmap PageId (list byte))).

(** Table 0, whose page 0 is in use elsewhere. *)
Definition heap0 : mem_heap :=
  mk_table_heap small_pool (mk_TableMeta demo_schema "t" 0 0 INVALID_PAGE_ID 0).
Definition heap1 : mem_heap := (TableHeap.TableHeap heap0).2.
Definition live : TupleMeta := mk_TupleMeta false.

Lemma heap0_construct : match TableHeap.TableHeap heap0 with
  | (Ok _, s') => heap_ok s' [(1, empty_page)]
  | (Err _, _) => False
  end.
Proof.
  pose proof (construct_spec heap0 (proj1 small_pool_ok) (proj2 small_pool_ok) ltac:(done)
    (conj eq_refl I) ltac:(cbn; lia) eq_refl (fun n _ => eq_refl)) as Hc.
  destruct (TableHeap.TableHeap heap0) as [[r|e] s'] eqn:E; [apply Hc|].
  vm_compute in E. discriminate.
Qed.

Lemma heap1_ok : heap_ok heap1 [(1, empty_page)].
Proof.
  pose proof heap0_construct as Hc. unfold heap1.
  destruct (TableHeap.TableHeap heap0) as [[r|e] s']; [exact Hc|done].
Qed.

Lemma TableHeap_constructs_witness : match TableHeap.TableHeap heap0 with
  | (Ok _, s') => heap_ok s' [(fresh_page heap0, empty_page)]
  | (Err _, _) => False
  end.
Proof.
  pose proof (TableHeap_constructs heap0 (proj1 small_pool_ok) (proj2 small_pool_ok) ltac:(done)
    (conj eq_refl I) ltac:(cbn; lia) eq_refl (fun n _ => eq_refl)) as Hc.
  destruct (TableHeap.TableHeap heap0) as [[r|e] s'] eqn:E; [apply Hc|].
  vm_compute in E. discriminate.
Defined.

Lemma three_bytes_fits : fits three_bytes.
Proof. split; vm_compute; [done|intros [=]]. Qed.

Lemma heap1_can_grow : can_grow heap1.
Proof. split; [vm_compute; done|exact I]. Qed.

Lemma heap_refines_witness :
  match heap_step (HInsert live three_bytes) heap1 with
  | (r, s') => r = Ok (AInserted (Some (mk_RID (mk_PageId 0 1) 0))) /\
      heap_ok s' [(1, add_row empty_page live three_bytes)]
  end.
Proof.
  pose proof (heap_refines heap1 _ (HInsert live three_bytes) heap1_ok (conj three_bytes_fits heap1_can_grow)) as Hs.
  destruct (heap_step (HInsert live three_bytes) heap1) as [r s'] eqn:E.
  destruct Hs as [[Hr Hok]|[-> _]].
  - split; [rewrite Hr; vm_compute; done|exact Hok].
  - vm_compute in E. discriminate.
Defined.

Lemma inserted_rows_are_read_back_witness :
  match insert_all [(live, three_bytes); (live, three_bytes)] heap1 with
  | (Ok rids, s') => NoDup rids /\ length rids = 2%nat
  | (Err _, _) => False
  end.
Proof.
  pose proof (inserted_rows_are_read_back [(live, three_bytes); (live, three_bytes)] heap1 _ heap1_ok) as Hs.
  destruct (insert_all _ heap1) as [[rids|e] s'] eqn:E.
  - destruct Hs as (Hnd & Hl & _).
    + repeat constructor; apply three_bytes_fits.
    + intros n Hn. split; [|exact I].
      assert (fresh_page heap1 = 2) as Hf by (vm_compute; done). rewrite Hf in Hn. cbn in Hn. lia.
    + split; [exact Hnd|exact Hl].
  - vm_compute in E. discriminate.
Defined.
