(* ===== verification/TableScan.v ===== *)
(** * Scanning a table: [query/executors/seq_scan_executor.cpp] over [TableIterator]

    The executor is an iterator and the schema of its output; it logs every row, and the
    log message is built whatever the log level. *)
From S2P Require Import Prelude Bytes Types Value Schema Tuple TablePage DiskManager BufferPool.
From S2P Require Import BufferPoolProps PageGuard TableMeta TableHeap TableHeapProps.
From S2P Require Import TableHeapThms.
Open Scope Z_scope.

Module SeqScanExecutor.
Section executor.
Context {D : Type} `{PageStore D} `{!HashOrder Z bool} `{!TupleInfoLayout}.
Abbreviation heap := (table_heap D).

(** The constructor: a heap on the table, and an iterator. *)
Definition make : M heap TableIterator := TableHeap.TableHeap;; TableHeap.MakeIterator.

(** [Next(tuple, rid)]: the return value and what the two references hold then. *)
Definition Next (output_schema : Schema) (tuple : Tuple) (rid : RID) (table_iter_ : TableIterator) :
    M heap (bool * Tuple * RID * TableIterator) :=
  if TableIterator.IsEnd table_iter_ then mret (false, tuple, rid, table_iter_)
  else
    tuple_opt ← TableIterator.GetTuple table_iter_;
    match tuple_opt with
    | Some (meta, t) =>
      lift (Tuple.ToString t output_schema);;
      let rid := TableIterator.GetRID table_iter_ in
      table_iter_ ← TableIterator.next table_iter_;
      mret (true, t, rid, table_iter_)
    | None => mret (true, tuple, rid, table_iter_)
    end.
End executor.
End SeqScanExecutor.

(** ** The rows of a chain, in the order of a scan *)
Definition rows_from (oid n : Z) (i : nat) (rows : list (TupleMeta * list byte)) : list (RID * list byte) :=
  imap (fun j r => (mk_RID (mk_PageId oid n) (Z.of_nat (i + j)), r.2)) rows.
Fixpoint chain_rows (oid : Z) (ch : chain) : list (RID * list byte) :=
  match ch with
  | [] => []
  | (n, a) :: ch => rows_from oid n 0 (tp_rows a) ++ chain_rows oid ch
  end.
(** From row [i] of the first page on. *)
Definition remaining (oid : Z) (ch : chain) (i : nat) : list (RID * list byte) :=
  match ch with
  | [] => []
  | (n, a) :: ch => rows_from oid n i (drop i (tp_rows a)) ++ chain_rows oid ch
  end.

(** Pages are in the order they were allocated, and only the last may be empty. *)
Fixpoint in_order (ch : chain) : Prop :=
  match ch with
  | [] => True
  | (n, a) :: rest =>
    match rest with
    | (m, _) :: _ => n < m /\ (0 < length (tp_rows a))%nat
    | [] => True
    end /\ in_order rest
  end.

Lemma in_order_insert fresh ch m t : in_order ch -> fits t -> (forall n a, (n, a) ∈ ch -> n < fresh) ->
  in_order (chain_insert fresh ch m t).2.
Proof.
  intros Hin Hf Hfr. induction ch as [|[n a] ch IH]; [done|].
  destruct ch as [|[n' a'] ch].
  - cbn. destruct (room a t) eqn:Hr; [done|]. cbn. split_and!; try done.
    + apply (Hfr n a). left.
    + destruct (tp_rows a) as [|r rows] eqn:E; [|cbn; lia].
      rewrite (fits_empty t a Hf E) in Hr. done.
  - change (in_order ((n, a) :: (chain_insert fresh ((n', a') :: ch) m t).2)).
    destruct Hin as [[Hlt Hne] Hin]. specialize (IH Hin ltac:(intros k b Hk; apply (Hfr k b); by right)).
    assert (exists b rest, (chain_insert fresh ((n', a') :: ch) m t).2 = (n', b) :: rest) as (b & rest & E).
    { destruct ch as [|p ch]; cbn; [|by eexists _, _]. destruct (room a' t); by eexists _, _. }
    rewrite E in IH |- *. by split.
Qed.

Lemma in_order_app pre ch : in_order (pre ++ ch) -> in_order ch.
Proof. induction pre as [|[n a] pre IH]; [done|]. cbn [app in_order]. intros [_ Hi]. by apply IH. Qed.

(** Every page comes before the last. *)
Lemma in_order_last n a ch l b : in_order ((n, a) :: ch ++ [(l, b)]) -> n < l.
Proof.
  revert n a. induction ch as [|[m c] ch IH]; intros n a; cbn [app in_order]; [lia|].
  intros [[Hlt _] Hin]. specialize (IH m c Hin). lia.
Qed.

Section scan.
Context {D : Type} `{PageStore D} `{!HashOrder Z bool} `{!TupleInfoLayout}.
#[local] Set Default Proof Using "Type*".
Abbreviation heap := (table_heap D).
Implicit Types (s : heap) (ch : chain).

(** All that [Next] yields, until it returns false. *)
Fixpoint scan (fuel : nat) (output_schema : Schema) (it : TableIterator) : M heap (list (Tuple * RID)) :=
  match fuel with
  | O => throw UndefinedBehaviour
  | S fuel =>
    r ← SeqScanExecutor.Next output_schema Tuple.dummy RID_default it;
    let '(more, tuple, rid, it) := r in
    if more : bool then rest ← scan fuel output_schema it; mret ((tuple, rid) :: rest) else mret []
  end.

Definition at_end (oid : Z) (stop : RID) : TableIterator :=
  mk_TableIterator (mk_RID (mk_PageId oid INVALID_PAGE_ID) 0) stop.

(** The chain [cur] has the rows of [src], a chain that ends in page [l]: rows may have been
    added to page [l] since, and pages behind it. *)
Definition still (l : Z) (src cur : chain) : Prop := forall n a, chain_page src n = Some a ->
  exists a', chain_page cur n = Some a' /\ tp_rows a `prefix_of` tp_rows a' /\ (n <> l -> a' = a).
Lemma still_refl l src : still l src src.
Proof using. intros n a Hn. by exists a. Qed.

(** What is known of the page under the cursor: it is the last, or another one follows. *)
Lemma cursor_page (pre : chain) n a post l b : in_order (pre ++ (n, a) :: post) -> linked (pre ++ (n, a) :: post) ->
  (exists pre', pre ++ (n, a) :: post = pre' ++ [(l, b)]) ->
  (post = [] /\ n = l /\ a = b) \/ (n < l /\ exists n' a' post', post = (n', a') :: post' /\ tp_next a = n').
Proof using.
  intros Hord Hli [pre' Hl]. apply in_order_app in Hord.
  destruct (exists_last (l := (n, a) :: post) ltac:(done)) as (mid & [l' b'] & E).
  assert (l' = l /\ b' = b) as [-> ->].
  { rewrite E, app_assoc in Hl. apply app_inj_tail in Hl as [_ [= -> ->]]. done. }
  rewrite E in Hord. destruct mid as [|p mid]; cbn in E; [injection E as -> -> ->; by left|].
  injection E as <- ->. right. split; [by eapply in_order_last|].
  assert (forall n' a' (post' : chain), linked (pre ++ (n, a) :: (n', a') :: post') -> tp_next a = n') as Hnext.
  { clear. intros n' a' post' Hli. induction pre as [|[k c] pre IH]; cbn [app linked] in Hli; [by destruct Hli|]. apply IH, Hli. }
  destruct mid as [|[n' a'] mid]; eexists _, _, _; (split; [done|]); by eapply Hnext.
Qed.

(** Where the cursor goes from row [i] of a page. *)
Lemma cursor_advance oid p (pre : chain) n a a' post i l b : in_order (pre ++ (n, a) :: post) -> linked (pre ++ (n, a) :: post) ->
  (exists pre', pre ++ (n, a) :: post = pre' ++ [(l, b)]) -> 0 <= n -> rep p a' -> tp_rows a `prefix_of` tp_rows a' ->
  (n <> l -> a' = a) -> (i < length (tp_rows a))%nat ->
  let stop := mk_RID (mk_PageId oid l) (Z.of_nat (length (tp_rows b))) in
  TableIterator.advance oid (mk_TableIterator (mk_RID (mk_PageId oid n) (Z.of_nat i)) stop) p =
  Ok (if decide (S i < length (tp_rows a))%nat
      then mk_TableIterator (mk_RID (mk_PageId oid n) (Z.of_nat (S i))) stop
      else match post with
           | (n', _) :: _ => mk_TableIterator (mk_RID (mk_PageId oid n') 0) stop
           | [] => at_end oid stop
           end).
Proof.
  intros Hord Hli Hl Hn0 Hrep Hpre Hsame Hi stop. pose proof (prefix_length _ _ Hpre) as Hlen'.
  assert (Z.of_nat (length (tp_rows a')) < 2 ^ 16) as Hlen.
  { pose proof (rep_used _ _ Hrep) as Hu. pose proof (row_bytes_nonneg (tp_rows a')).
    unfold used, PAGE_SIZE, TUPLE_INFO_SIZE, TABLE_PAGE_HEADER_SIZE in Hu. lia. }
  pose proof (cursor_page pre n a post l b Hord Hli Hl) as Hcase.
  assert (0 <= l) as Hl0 by (destruct Hcase as [(_ & <- & _)|[Hlt _]]; lia).
  unfold TableIterator.advance, stop. cbn [it_rid_ stop_at_rid_ rid_page_id_ slot_num_ page_number_].
  rewrite (uwrap_id 32) by width. replace (Z.of_nat i + 1) with (Z.of_nat (S i)) by lia.
  assert ((l =? INVALID_PAGE_ID) = false) as -> by (apply Z.eqb_neq; unfold INVALID_PAGE_ID; lia). cbn [negb].
  assert (forall k, RID_eqb (mk_RID (mk_PageId oid n) k) (mk_RID (mk_PageId oid l) (Z.of_nat (length (tp_rows b)))) =
    (n =? l) && (k =? Z.of_nat (length (tp_rows b)))) as Heq.
  { intros k. unfold RID_eqb, PageId_eqb. cbn. by rewrite Z.eqb_refl. }
  rewrite Heq. unfold PageId_eqb. cbn [table_id_ page_number_]. rewrite Z.eqb_refl. cbn [andb].
  unfold TablePage.GetNumTuples, TablePage.GetNextPageId. rewrite (rep_num _ _ Hrep), (rep_next _ _ Hrep).
  destruct Hcase as [(-> & -> & ->)|(Hlt & n' & c & post' & -> & Hnext)].
  - rewrite Z.eqb_refl, Z.ltb_irrefl. cbn [orb andb].
    destruct (Z.leb_spec (Z.of_nat (S i)) (Z.of_nat (length (tp_rows b)))); [|lia]. cbn [assertion mbind res_bind].
    case_decide; destruct (Z.eqb_spec (Z.of_nat (S i)) (Z.of_nat (length (tp_rows b)))); try lia; [|done].
    by destruct (Z.ltb_spec (Z.of_nat (S i)) (Z.of_nat (length (tp_rows a')))); [|lia].
  - rewrite Hsame by lia. destruct (Z.ltb_spec n l); [|lia]. destruct (Z.eqb_spec n l); [lia|].
    cbn [orb andb assertion mbind res_bind]. rewrite Hnext.
    case_decide; destruct (Z.ltb_spec (Z.of_nat (S i)) (Z.of_nat (length (tp_rows a)))); try lia; done.
Qed.

Lemma rows_from_cons oid n i r rows :
  rows_from oid n i (r :: rows) = (mk_RID (mk_PageId oid n) (Z.of_nat i), r.2) :: rows_from oid n (S i) rows.
Proof.
  unfold rows_from. cbn. rewrite Nat.add_0_r. f_equal. apply imap_ext. intros j x _. cbn.
  do 3 f_equal. lia.
Qed.

(** A row of the chain, as the executor hands it out. *)
Definition out (r : RID * list byte) : Tuple * RID := (mk_Tuple r.1 r.2, r.1).
(** The rows can be printed. *)
Definition printable (output_schema : Schema) (ch : chain) : Prop :=
  forall n a m bs rid, (n, a) ∈ ch -> (m, bs) ∈ tp_rows a ->
    exists str, Tuple.ToString (mk_Tuple rid bs) output_schema = Ok str.

(** Looking at a page of a heap changes no table. *)
Lemma read_page_heap {A} s ch n a (look : list byte -> res A) : heap_ok s ch -> chain_page ch n = Some a ->
  (forall e, look (content (bpm_ s) (page_of_heap s n)) = Err e -> is_exception e = true) ->
  match TableHeap.read_page (page_of_heap s n) look s with
  | (r, s') => (r = look (content (bpm_ s) (page_of_heap s n)) \/ r = Err StdRuntimeError) /\
      heap_ok s' ch /\ table_meta_ s' = table_meta_ s /\ apart (table_oid_ (table_meta_ s)) (bpm_ s) (bpm_ s')
  end.
Proof.
  intros Hok Hn He. destruct (hp_pages _ _ Hok n a Hn) as (Hrg & _ & Hk & _).
  pose proof (read_page_spec s (page_of_heap s n) look (hp_pool _ _ Hok) (hp_idle _ _ Hok) (heap_ok_page _ _ _ _ Hok Hn) Hk He) as Hr.
  destruct (TableHeap.read_page _ _ s) as [r s']. destruct Hr as (Hr & Hm & Hv & Hmv). split_and!.
  - destruct Hr as [->|[-> _]]; [by left|by right].
  - apply (heap_ok_same s s' _ _ Hok Hm Hv Hmv). intros q ->%elem_of_singleton. exists n. split; [done|lia].
  - done.
  - apply (apart_view _ _ _ _ _ Hmv Hv); [by intros q ->%elem_of_singleton|done].
Qed.

(** The iterator after row [i] of page [n]. *)
Definition step_to (oid n : Z) (a : table_page) (post : chain) (i : nat) (stop : RID) : TableIterator :=
  if decide (S i < length (tp_rows a))%nat
  then mk_TableIterator (mk_RID (mk_PageId oid n) (Z.of_nat (S i))) stop
  else match post with
       | (n', _) :: _ => mk_TableIterator (mk_RID (mk_PageId oid n') 0) stop
       | [] => at_end oid stop
       end.

(** One row, from a heap that may have grown since the iterator was made. *)
Lemma Next_spec output_schema tuple0 rid0 s cur (pre : chain) n a post i stop l b m bs : heap_ok s cur ->
  still l (pre ++ (n, a) :: post) cur -> NoDup (pre ++ (n, a) :: post).*1 -> linked (pre ++ (n, a) :: post) ->
  in_order (pre ++ (n, a) :: post) -> tp_rows a !! i = Some (m, bs) ->
  (exists pre', pre ++ (n, a) :: post = pre' ++ [(l, b)]) ->
  printable output_schema ((n, a) :: post) ->
  stop = mk_RID (page_of_heap s l) (Z.of_nat (length (tp_rows b))) ->
  let rid := mk_RID (page_of_heap s n) (Z.of_nat i) in
  match SeqScanExecutor.Next output_schema tuple0 rid0 (mk_TableIterator rid stop) s with
  | (r, s') => (r = Ok (true, mk_Tuple rid bs, rid, step_to (table_oid_ (table_meta_ s)) n a post i stop) \/ r = Err StdRuntimeError) /\
      heap_ok s' cur /\ table_meta_ s' = table_meta_ s /\ apart (table_oid_ (table_meta_ s)) (bpm_ s) (bpm_ s')
  end.
Proof.
  intros Hok Hstill Hnd Hli Hord Hrow Hl Hpr Hst rid.
  assert (chain_page (pre ++ (n, a) :: post) n = Some a) as Hsn by (apply chain_page_elem; [done|]; apply elem_of_app; right; left).
  destruct (Hstill n a Hsn) as (a' & Hn & Hpre & Hsame).
  destruct (hp_pages _ _ Hok n a' Hn) as ([Hn0 _] & _ & _ & Hrep).
  unfold SeqScanExecutor.Next, TableIterator.IsEnd. cbn [it_rid_].
  assert ((page_number_ (rid_page_id_ rid) =? INVALID_PAGE_ID) = false) as ->
    by (apply Z.eqb_neq; cbn; unfold INVALID_PAGE_ID; lia).
  unfold TableIterator.GetTuple, TableIterator.GetRID, TableHeap.GetTuple. cbn [it_rid_ rid rid_page_id_].
  pose proof (prefix_lookup_Some _ _ _ _ Hrow Hpre) as Hrow'.
  assert ((ret ← TablePage.GetTuple rid (content (bpm_ s) (page_of_heap s n)); Ok (Some (ret.1, Tuple.SetRid ret.2 rid))) =
    Ok (Some (m, mk_Tuple rid bs))) as El.
  { rewrite (GetTuple_rep _ a' rid Hrep ltac:(cbn; lia)). unfold spec_get, rid. cbn [slot_num_]. by rewrite Nat2Z.id, Hrow'. }
  match goal with |- context [TableHeap.read_page _ ?look] => pose proof (read_page_heap s cur n a' look Hok Hn) as Hg end.
  fold rid in Hg |- *. unfold mbind at 1, M_bind at 1. cbv beta in Hg. rewrite El in Hg. specialize (Hg ltac:(done)).
  destruct (TableHeap.read_page _ _ s) as [r s1]. destruct Hg as (Hr & Hok1 & Hm1 & Hap1).
  destruct Hr as [->| ->]; [|by split_and!; [right|..]].
  destruct (Hpr n a m bs rid) as [str Hstr]; [left|by eapply list_elem_of_lookup_2|].
  rewrite (bind_ok (lift _) _ s1 str s1) by (unfold lift; by rewrite Hstr).
  assert (page_of_heap s1 = page_of_heap s) as Hpg by (unfold page_of_heap; by rewrite Hm1).
  pose proof (hp_pages _ _ Hok1 n a' Hn) as (_ & _ & _ & Hrep1).
  unfold TableIterator.next. unfold mbind at 1, M_bind at 1. rewrite (bind_ok get_state _ s1 s1 s1) by done. cbn [it_rid_ rid rid_page_id_].
  pose proof (cursor_advance (table_oid_ (table_meta_ s1)) _ pre n a a' post i l b Hord Hli Hl Hn0 Hrep1 Hpre Hsame ltac:(by eapply lookup_lt_Some)) as Ha.
  cbv zeta in Ha. rewrite Hm1 in Ha. fold (page_of_heap s n) (page_of_heap s l) in Ha. rewrite <- Hst in Ha.
  match goal with |- context [TableHeap.read_page _ ?look] => pose proof (read_page_heap s1 cur n a' look Hok1 Hn) as Hx end.
  rewrite Hm1 in Hx. fold rid in Ha, Hx |- *. rewrite Ha in Hx. rewrite Hpg in Hx. specialize (Hx ltac:(done)).
  rewrite Hm1. destruct (TableHeap.read_page _ _ s1) as [r s2]. destruct Hx as (Hr & Hok2 & Hm2 & Hap2).
  assert (apart (table_oid_ (table_meta_ s)) (bpm_ s) (bpm_ s2)) as Hap by by etrans.
  destruct Hr as [-> | ->]; (split_and!; [|done|congruence|done]); [by left|by right].
Qed.

(** A chain to read, with its last page. *)
Record scannable src (l : Z) (b : table_page) : Prop := {
  sc_nodup : NoDup src.*1;
  sc_linked : linked src;
  sc_order : in_order src;
  sc_last : exists pre, src = pre ++ [(l, b)];
  sc_rows : (0 < length (tp_rows b))%nat
}.
(** The iterator has the rows [todo] before it. *)
Definition ahead (oid : Z) src (l : Z) (b : table_page) (output_schema : Schema) (it : TableIterator)
    (todo : list (RID * list byte)) : Prop :=
  let stop := mk_RID (mk_PageId oid l) (Z.of_nat (length (tp_rows b))) in
  match todo with
  | [] => it = at_end oid stop
  | _ => exists pre n a post i, src = pre ++ (n, a) :: post /\ (i < length (tp_rows a))%nat /\
      printable output_schema ((n, a) :: post) /\
      it = mk_TableIterator (mk_RID (mk_PageId oid n) (Z.of_nat i)) stop /\ todo = remaining oid ((n, a) :: post) i
  end.

(** Every page has a row. *)
Lemma page_rows src l b pre n a post : scannable src l b -> src = pre ++ (n, a) :: post -> (0 < length (tp_rows a))%nat.
Proof using.
  intros [_ _ Hord [pre' Hl] Hb] ->. apply in_order_app in Hord. destruct post as [|[n' a'] post].
  - by apply app_inj_tail in Hl as [_ [= _ ->]].
  - by destruct Hord as [[_ ?] _].
Qed.

Lemma ahead_row oid src l b output_schema it r todo : scannable src l b -> ahead oid src l b output_schema it (r :: todo) ->
  let stop := mk_RID (mk_PageId oid l) (Z.of_nat (length (tp_rows b))) in
  exists pre n a post i m, src = pre ++ (n, a) :: post /\ tp_rows a !! i = Some (m, r.2) /\
    r.1 = mk_RID (mk_PageId oid n) (Z.of_nat i) /\ it = mk_TableIterator r.1 stop /\ printable output_schema ((n, a) :: post) /\
    ahead oid src l b output_schema (step_to oid n a post i stop) todo.
Proof.
  intros Hsc (pre & n & a & post & i & Hsrc & Hi & Hpr & -> & Htodo) stop.
  destruct (lookup_lt_is_Some_2 (tp_rows a) i Hi) as [[m bs] Hrow]. cbn [remaining] in Htodo.
  rewrite (drop_S _ _ _ Hrow), rows_from_cons in Htodo. injection Htodo as -> ->.
  exists pre, n, a, post, i, m. split_and!; try done. unfold step_to. case_decide as Hmore.
  - destruct (lookup_lt_is_Some_2 (tp_rows a) (S i) Hmore) as [[m2 bs2] Hrow2].
    rewrite (drop_S _ _ _ Hrow2), rows_from_cons. exists pre, n, a, post, (S i). split_and!; try done.
    cbn [remaining]. by rewrite (drop_S _ _ _ Hrow2), rows_from_cons.
  - rewrite drop_ge by lia. destruct post as [|[n' a'] post]; [done|]. cbn [rows_from imap app chain_rows].
    assert (src = (pre ++ [(n, a)]) ++ (n', a') :: post) as Hsrc' by by rewrite Hsrc, <- app_assoc.
    pose proof (page_rows _ _ _ _ _ _ _ Hsc Hsrc') as Ha'. destruct (tp_rows a') as [|[m2 bs2] rows] eqn:Er; [cbn in Ha'; lia|].
    rewrite rows_from_cons. exists (pre ++ [(n, a)]), n', a', post, 0%nat. rewrite Er. split_and!; try done.
    + intros k c m' bs' rid' Hin. apply (Hpr k c). by right.
    + cbn [remaining]. by rewrite drop_0, Er, rows_from_cons.
Qed.

(** [Next] hands out the first of the rows before it. *)
Lemma Next_ahead output_schema tuple0 rid0 s cur src l b it r todo : heap_ok s cur -> still l src cur -> scannable src l b ->
  ahead (table_oid_ (table_meta_ s)) src l b output_schema it (r :: todo) ->
  match SeqScanExecutor.Next output_schema tuple0 rid0 it s with
  | (x, s') => ((exists it', x = Ok (true, mk_Tuple r.1 r.2, r.1, it') /\ ahead (table_oid_ (table_meta_ s)) src l b output_schema it' todo) \/
        x = Err StdRuntimeError) /\
      heap_ok s' cur /\ table_meta_ s' = table_meta_ s /\ apart (table_oid_ (table_meta_ s)) (bpm_ s) (bpm_ s')
  end.
Proof.
  intros Hok Hstill Hsc Hah.
  destruct (ahead_row _ _ _ _ _ _ _ _ Hsc Hah) as (pre & n & a & post & i & m & Hsrc & Hrow & Hr & -> & Hpr & Hnext).
  rewrite Hsrc in Hstill. destruct Hsc as [Hnd Hli Hord Hl Hb]. rewrite Hsrc in Hnd, Hli, Hord, Hl.
  pose proof (Next_spec output_schema tuple0 rid0 s cur pre n a post i _ l b m r.2 Hok Hstill Hnd Hli Hord Hrow Hl Hpr eq_refl) as Hx.
  cbn zeta in Hx. unfold page_of_heap in Hx. rewrite <- Hr in Hx.
  destruct (SeqScanExecutor.Next _ _ _ _ s) as [x s']. destruct Hx as (Hx & Hrest). split; [|exact Hrest].
  destruct Hx as [-> | ->]; [left|by right]. by eexists.
Qed.

Lemma scan_from output_schema fuel s src l b it todo : heap_ok s src -> scannable src l b ->
  ahead (table_oid_ (table_meta_ s)) src l b output_schema it todo -> (length todo < fuel)%nat ->
  match scan fuel output_schema it s with
  | (Ok rows, s') => rows = out <$> todo /\ heap_ok s' src
  | (Err e, s') => e = StdRuntimeError /\ heap_ok s' src
  end.
Proof.
  revert s it todo. induction fuel as [|fuel IH]; intros s it todo Hok Hsc Hah Hfuel; [lia|].
  destruct todo as [|r todo]; [by rewrite Hah|]. cbn [scan length] in *.
  pose proof (Next_ahead output_schema Tuple.dummy RID_default s src src l b it r todo Hok (still_refl l _) Hsc Hah) as Hx.
  unfold mbind, M_bind. destruct (SeqScanExecutor.Next _ _ _ _ s) as [x s1].
  destruct Hx as ([(it' & -> & Hah')| ->] & Hok1 & Hm1 & _); [|done]. rewrite <- Hm1 in Hah'.
  specialize (IH s1 it' todo Hok1 Hsc Hah' ltac:(lia)). destruct (scan fuel _ _ s1) as [[rows|e] s2]; [|done].
  by destruct IH as [-> ?].
Qed.

Lemma heap_ok_no_construct s ch : heap_ok s ch -> TableHeap.TableHeap s = (Ok tt, s).
Proof.
  intros Hok. destruct (hp_last _ _ Hok) as (pre & a & ->).
  destruct (chain_page_last _ _ _ (hp_nodup _ _ Hok)) as [Hlast _].
  destruct (hp_pages _ _ Hok _ _ Hlast) as ([Hl _] & _).
  unfold TableHeap.TableHeap. rewrite (bind_ok get_state _ s s s) by done. unfold TableMeta.GetLastTableHeapDataPageId.
  assert ((last_table_heap_data_page_id_ (table_meta_ s) =? INVALID_PAGE_ID) = false) as ->
    by (apply Z.eqb_neq; unfold INVALID_PAGE_ID; lia).
  rewrite (bind_ok (mret tt) _ s tt s), (bind_ok get_state _ s s s) by done.
  unfold assert_that, assertion. by rewrite (proj2 (Z.leb_le _ _) Hl).
Qed.

Lemma MakeIterator_spec s ch l b : heap_ok s ch -> (exists pre, ch = pre ++ [(l, b)]) ->
  match TableHeap.MakeIterator s with
  | (r, s') => (r = Ok (mk_TableIterator (mk_RID (page_of_heap s 1) 0)
        (mk_RID (page_of_heap s l) (Z.of_nat (length (tp_rows b))))) \/ r = Err StdRuntimeError) /\
      heap_ok s' ch /\ table_meta_ s' = table_meta_ s /\ apart (table_oid_ (table_meta_ s)) (bpm_ s) (bpm_ s')
  end.
Proof.
  intros Hok [pre Hl]. assert (last_table_heap_data_page_id_ (table_meta_ s) = l) as El.
  { destruct (hp_last _ _ Hok) as (p & x & E). rewrite Hl in E. by apply app_inj_tail in E as [_ [= -> _]]. }
  pose proof (hp_nodup _ _ Hok) as Hnd. rewrite Hl in Hnd. destruct (chain_page_last _ _ _ Hnd) as [Hlast _].
  rewrite <- Hl in Hlast. destruct (hp_pages _ _ Hok _ _ Hlast) as (_ & _ & _ & Hrep).
  unfold TableHeap.MakeIterator. rewrite (bind_ok get_state _ s s s) by done.
  unfold TableMeta.GetLastTableHeapDataPageId. rewrite El. fold (page_of_heap s l).
  match goal with |- context [TableHeap.read_page _ ?look] => pose proof (read_page_heap s ch l b look Hok Hlast ltac:(done)) as Hr end.
  unfold mbind, M_bind. destruct (TableHeap.read_page _ _ s) as [r s']. destruct Hr as (Hr & Hrest).
  unfold TablePage.GetNumTuples in Hr. rewrite (rep_num _ _ Hrep) in Hr.
  destruct Hr as [-> | ->]; (split; [|exact Hrest]); [by left|by right].
Qed.

Lemma heap_scannable s ch (pre : chain) l b : heap_ok s ch -> in_order ch -> ch = pre ++ [(l, b)] -> (0 < length (tp_rows b))%nat ->
  scannable ch l b.
Proof using. intros Hok Hord Hl Hb. split; try done; [apply Hok..|by exists pre]. Qed.

(** A new scan has every row from page 1 on before it. *)
Lemma scan_made output_schema s ch pre a post l b : heap_ok s ch -> scannable ch l b -> ch = pre ++ (1, a) :: post ->
  printable output_schema ((1, a) :: post) -> let oid := table_oid_ (table_meta_ s) in
  match SeqScanExecutor.make s with
  | (r, s') => ((exists it, r = Ok it /\ ahead oid ch l b output_schema it (chain_rows oid ((1, a) :: post))) \/ r = Err StdRuntimeError) /\
      heap_ok s' ch /\ table_meta_ s' = table_meta_ s /\ apart oid (bpm_ s) (bpm_ s')
  end.
Proof.
  intros Hok Hsc Hch Hpr oid. unfold SeqScanExecutor.make. rewrite (bind_ok _ _ _ _ _ (heap_ok_no_construct s ch Hok)).
  pose proof (MakeIterator_spec s ch l b Hok (sc_last _ _ _ Hsc)) as Hmk.
  destruct (TableHeap.MakeIterator s) as [r s1]. destruct Hmk as (Hr & Hrest). split; [|exact Hrest].
  destruct Hr as [-> | ->]; [left|by right]. eexists. split; [done|].
  pose proof (page_rows _ _ _ _ _ _ _ Hsc Hch) as Ha. cbn [chain_rows].
  destruct (tp_rows a) as [|r rows] eqn:Er; [cbn in Ha; lia|]. rewrite rows_from_cons. cbn [app ahead].
  exists pre, 1, a, post, 0%nat. rewrite Er. split_and!; try done. cbn [remaining]. by rewrite drop_0, Er, rows_from_cons.
Qed.

(** ** Properties *)

(** C9: a sequential scan returns the rows of the table, page by page in the order of the
    chain, each with its record id, and then ends; rows marked as deleted are returned
    too.  It begins at page 1, where the table starts when page 0 went to the header of a
    primary key index; pages that come before page 1 are not visited.  It stops early only
    when the pool has no frame, and the table is not changed in any case. *)
Theorem full_scan output_schema s ch (pre : chain) a (post pre' : chain) (l : Z) b (fuel : nat) : heap_ok s ch -> in_order ch ->
  ch = pre ++ (1, a) :: post -> ch = pre' ++ [(l, b)] -> (0 < length (tp_rows b))%nat ->
  printable output_schema ((1, a) :: post) ->
  (length (chain_rows (table_oid_ (table_meta_ s)) ((1%Z, a) :: post)) < fuel)%nat ->
  match (it ← SeqScanExecutor.make; scan fuel output_schema it) s with
  | (Ok rows, s') => rows = out <$> chain_rows (table_oid_ (table_meta_ s)) ((1, a) :: post) /\ heap_ok s' ch
  | (Err e, s') => e = StdRuntimeError /\ heap_ok s' ch
  end.
Proof.
  intros Hok Hord Hch Hch' Hb Hpr Hfuel. pose proof (heap_scannable s ch pre' l b Hok Hord Hch' Hb) as Hsc.
  pose proof (scan_made output_schema s ch pre a post l b Hok Hsc Hch Hpr) as Hmk. cbn zeta in Hmk.
  unfold mbind, M_bind. destruct (SeqScanExecutor.make s) as [r s1]. destruct Hmk as ([(it & -> & Hah)| ->] & Hok1 & Hm1 & _); [|done].
  rewrite <- Hm1 in Hah, Hfuel |- *. exact (scan_from output_schema fuel s1 ch l b it _ Hok1 Hsc Hah Hfuel).
Qed.

(** C39: scanning a table that has no rows yet does not yield an empty result: the first
    [Next] asks the empty page for its slot 0 and throws. *)
Theorem scan_of_empty_table output_schema (fuel : nat) s : heap_ok s [(1, empty_page)] ->
  match (it ← SeqScanExecutor.make; scan (S fuel) output_schema it) s with
  | (r, s') => (r = Err Exception \/ r = Err StdRuntimeError) /\ heap_ok s' [(1, empty_page)]
  end.
Proof.
  intros Hok. pose proof (MakeIterator_spec s _ 1 empty_page Hok (ex_intro _ [] eq_refl)) as Hmk.
  unfold SeqScanExecutor.make. unfold mbind at 1, M_bind at 1.
  rewrite (bind_ok _ _ _ _ _ (heap_ok_no_construct s _ Hok)).
  destruct (TableHeap.MakeIterator s) as [r s1]. destruct Hmk as ([-> | ->] & Hok1 & Hm1 & _); [|by split; [right|]].
  cbn [scan]. set (rid := mk_RID (page_of_heap s 1) 0).
  assert (page_of_heap s = page_of_heap s1) as Hpg by (unfold page_of_heap; by rewrite Hm1).
  pose proof (GetTuple_heap s1 _ 1 empty_page rid Hok1 (eq_trans eq_refl (f_equal (fun f => f 1) Hpg)) eq_refl
    ltac:(cbn; lia)) as Hg. cbn in Hg. unfold mbind at 1, M_bind at 1. unfold SeqScanExecutor.Next.
  change (TableIterator.IsEnd _) with false. cbv iota. unfold TableIterator.GetTuple. cbn [it_rid_].
  unfold mbind at 1, M_bind at 1. destruct (TableHeap.GetTuple rid s1) as [r s2].
  destruct Hg as ([-> |[-> _]] & Hg & _); (split; [|done]); [by left|by right].
Qed.
End scan.

(** ** Concrete runs *)
#[local] Existing Instance memory_store.
#[local] Existing Instance map_order.
#[local] Existing Instance libstdcxx_layout.

(** The heap with one row. *)
Definition heap2 : table_heap (gmap PageId (list byte)) := (TableHeap.InsertTuple live three_bytes heap1).2.
Definition page1 : table_page := add_row empty_page live three_bytes.

Lemma heap2_ok : heap_ok heap2 [(1, page1)].
Proof.
  pose proof (InsertTuple_heap heap1 _ live three_bytes heap1_ok three_bytes_fits heap1_can_grow) as Hi.
  unfold heap2. destruct (TableHeap.InsertTuple live three_bytes heap1) as [[r|e] s'] eqn:E.
  - cbn zeta in Hi. apply Hi.
  - vm_compute in E. discriminate.
Qed.

Lemma full_scan_witness :
  match (it ← SeqScanExecutor.make; scan 2 Schema.empty it) heap2 with
  | (Ok rows, s') => rows = [(mk_Tuple (mk_RID (mk_PageId 0 1) 0) [x01; x02; x03], mk_RID (mk_PageId 0 1) 0)]
  | (Err _, _) => False
  end.
Proof.
  pose proof (full_scan Schema.empty heap2 [(1, page1)] [] page1 [] [] 1 page1 2%nat heap2_ok) as Hs.
  destruct ((it ← SeqScanExecutor.make; scan 2 Schema.empty it) heap2) as [[rows|e] s'] eqn:E.
  - clear E. destruct Hs as [-> _].
    + split; exact I.
    + reflexivity.
    + reflexivity.
    + cbn. lia.
    + intros n a m bs rid _ _. eexists. reflexivity.
    + cbn. lia.
    + assert (table_oid_ (table_meta_ heap2) = 0) as -> by (vm_compute; reflexivity). reflexivity.
  - vm_compute in E. discriminate.
Defined.

Lemma scan_of_empty_table_witness :
  exists s', (it ← SeqScanExecutor.make; scan 1 Schema.empty it) heap1 = (Err Exception, s').
Proof.
  pose proof (scan_of_empty_table Schema.empty 0 heap1 heap1_ok) as Hs.
  destruct ((it ← SeqScanExecutor.make; scan 1 Schema.empty it) heap1) as [r s'] eqn:E.
  destruct Hs as [[->| ->] _].
  - exists s'. reflexivity.
  - vm_compute in E. discriminate.
Defined.
