(* ===== verification/Index.v ===== *)
(** * Index meta data, keys and their order: [index/index.hpp], [index/index_typdef.hpp] *)
From S2P Require Import Prelude Bytes Streams Serializer Codec CodecFacts Types Value Schema.
From S2P Require Import Tuple BufferPool TableMeta.
Open Scope Z_scope.

(** [IndexConstraintType] and [IndexType]; a value read from a file may name no enumerator. *)
Inductive IndexConstraintType : Type := NONE | UNIQUE | PRIMARY | FOREIGN | CONSTRAINT_OTHER (n : Z).
Inductive IndexType : Type := BPlusTreeIndex | HashTableIndex | INDEX_OTHER (n : Z).

#[export] Instance IndexConstraintType_eq_dec : EqDecision IndexConstraintType.
Proof. solve_decision. Defined.
#[export] Instance IndexType_eq_dec : EqDecision IndexType.
Proof. solve_decision. Defined.

Definition IndexConstraintType_to_Z (t : IndexConstraintType) : Z :=
  match t with NONE => 0 | UNIQUE => 1 | PRIMARY => 2 | FOREIGN => 3 | CONSTRAINT_OTHER n => n end.
Definition IndexConstraintType_of_Z (z : Z) : IndexConstraintType :=
  if z =? 0 then NONE else if z =? 1 then UNIQUE else if z =? 2 then PRIMARY
  else if z =? 3 then FOREIGN else CONSTRAINT_OTHER z.
Definition IndexType_to_Z (t : IndexType) : Z :=
  match t with BPlusTreeIndex => 0 | HashTableIndex => 1 | INDEX_OTHER n => n end.
Definition IndexType_of_Z (z : Z) : IndexType :=
  if z =? 0 then BPlusTreeIndex else if z =? 1 then HashTableIndex else INDEX_OTHER z.

Record IndexMeta := mk_IndexMeta {
  index_name_ : string;
  index_table_id_ : Z;                (* int32_t *)
  index_id_ : Z;                (* int32_t *)
  key_col_ : Column;
  index_constraint_type_ : IndexConstraintType;
  header_page_id_ : Z;          (* int32_t *)
  index_type_ : IndexType
}.

Module IndexMeta.
(** The constructor does not initialise [index_id_]: [index_id] is what the memory held. *)
Definition make (name : string) (table_id : Z) (key_col : Column) (constraint : IndexConstraintType)
    (index_type : IndexType) (index_id : Z) : IndexMeta :=
  mk_IndexMeta name table_id index_id key_col constraint INVALID_PAGE_ID index_type.

Definition set_header_page_id (id : Z) (m : IndexMeta) : IndexMeta :=
  mk_IndexMeta (index_name_ m) (index_table_id_ m) (index_id_ m) (key_col_ m) (index_constraint_type_ m) id (index_type_ m).

Section serialization.
Context {St : Type} `{ReadStream St}.
Definition constraint_c : codec St IndexConstraintType :=
  enum_c uint8_c IndexConstraintType_to_Z IndexConstraintType_of_Z.
Definition index_type_c : codec St IndexType := enum_c int32_c IndexType_to_Z IndexType_of_Z.

Definition Serialize (m : IndexMeta) : W :=
  WriteProperty (St:=St) 100 string_c (index_name_ m) +++
  WriteProperty (St:=St) 101 int32_c (index_table_id_ m) +++
  WriteProperty (St:=St) 102 Column.column_c (key_col_ m) +++
  WriteProperty (St:=St) 103 int32_c (index_id_ m) +++
  WriteProperty (St:=St) 104 constraint_c (index_constraint_type_ m) +++
  WriteProperty (St:=St) 105 int32_c (header_page_id_ m) +++
  WriteProperty (St:=St) 106 index_type_c (index_type_ m).

Definition Deserialize : M (deser St) IndexMeta :=
  name ← ReadProperty 100 string_c;
  table_id ← ReadProperty 101 int32_c;
  key_col ← ReadProperty 102 Column.column_c;
  index_id ← ReadProperty 103 int32_c;
  index_constraint_type ← ReadProperty 104 constraint_c;
  header_page_id ← ReadProperty 105 int32_c;
  index_type ← ReadProperty 106 index_type_c;
  mret (mk_IndexMeta name table_id index_id key_col index_constraint_type header_page_id index_type).

Definition index_meta_ptr_c : codec St (option IndexMeta) := ptr_c Serialize Deserialize.
End serialization.

Definition persisted (m : IndexMeta) : IndexMeta :=
  mk_IndexMeta (index_name_ m) (index_table_id_ m) (index_id_ m) (Column.persisted (key_col_ m))
    (index_constraint_type_ m) (header_page_id_ m) (index_type_ m).
Definition valid (m : IndexMeta) : Prop :=
  string_valid (index_name_ m) /\ in_s 32 (index_table_id_ m) /\ in_s 32 (index_id_ m) /\ Column.valid (key_col_ m) /\
  (in_u 8 (IndexConstraintType_to_Z (index_constraint_type_ m)) /\
   IndexConstraintType_of_Z (IndexConstraintType_to_Z (index_constraint_type_ m)) = index_constraint_type_ m) /\
  in_s 32 (header_page_id_ m) /\
  (in_s 32 (IndexType_to_Z (index_type_ m)) /\ IndexType_of_Z (IndexType_to_Z (index_type_ m)) = index_type_ m).
End IndexMeta.

Section round_trip.
Context {St : Type} `{ReadStream St}.
Lemma IndexMeta_serial m : IndexMeta.valid m ->
  serial (IndexMeta.Serialize (St:=St) m) IndexMeta.Deserialize (IndexMeta.persisted m).
Proof.
  intros (Hn & Ht & Hi & Hk & Hc & Hh & Hx). unfold IndexMeta.Serialize, IndexMeta.Deserialize.
  eapply serial_bind; [eapply property_ok; [apply _|by split|done]|].
  eapply serial_bind; [eapply property_ok; [apply _|by split|done]|].
  eapply serial_bind.
  { apply (property_image _ Column.persisted Column.valid); [|by split|done].
    intros c Hv. by apply serial_object, Column_serial. }
  repeat (eapply serial_bind; [eapply property_ok; [apply _|by split|done]|]).
  eapply serial_map; [eapply property_ok; [apply _|by split|done]|done].
Qed.
End round_trip.

(** ** Keys *)

(** [IndexKeyType]: eight bytes. *)
Abbreviation IndexKeyType := (list byte).

(** [ConvertArrayToInt32]: signed 32-bit shifts and ors. *)
Definition ConvertArrayToInt32 (arr : IndexKeyType) : res Z :=
  bs ← mem_read 0 4 arr;
  Ok (swrap 32 (foldr (fun b z => Z.lor (byte_to_Z b) (Z.shiftl z 8)) 0 bs)).
Definition IndexKeyTypeToString (key : IndexKeyType) : res string :=
  z ← ConvertArrayToInt32 key; Ok ("Key[" +:+ pretty.pretty z +:+ "]")%string.

(** [Comparator]: 0 when equal, 1 when greater, -1 when less. *)
Abbreviation Comparator := (IndexKeyType -> IndexKeyType -> res Z).

(** [Compare<T>] for an integer type: [decode] is the cast of the first bytes. *)
Definition Compare (decode : IndexKeyType -> Z) : Comparator := fun a b =>
  Ok (if decode a <? decode b then -1 else if decode b <? decode a then 1 else 0).
(** [Compare<std::string>] copies a [std::string] from eight bytes that hold none. *)
Definition CompareString : Comparator := fun a b => Err UndefinedBehaviour.

Definition GetComparator (type_id : TypeId) : res Comparator :=
  match type_id with
  | BOOLEAN => Ok (Compare (fun k => le_u 1 (rd 0 1 k)))
  | INTEGER => Ok (Compare (fun k => le_s 4 (rd 0 4 k)))
  | TIMESTAMP => Ok (Compare (fun k => le_u 8 (rd 0 8 k)))
  | VARCHAR => Ok CompareString
  | _ => Err InvalidArgument
  end.

Module Index.
(** [Index::AllocatePage] *)
Definition AllocatePage (m : TableMeta) : res (PageId * TableMeta) :=
  r ← TableMeta.IncrementTableDataPageId m;
  Ok (mk_PageId (table_oid_ r.2) r.1, r.2).

Definition ConvertTupleToKey `{Value.StringLayout} (m : IndexMeta) (tuple : Tuple) : res IndexKeyType :=
  value ← Tuple.GetValue_col tuple (key_col_ m);
  _ ← Value.ToString value;
  Value.ConvertToIndexKeyType value.
End Index.

(** ** Order on keys *)

(** A comparator that orders the keys of [valid] by an integer. *)
Class OrderedKeys (cmp : Comparator) (valid : IndexKeyType -> Prop) (rank : IndexKeyType -> Z) : Prop := {
  cmp_rank a b : valid a -> valid b ->
    cmp a b = Ok (if rank a <? rank b then -1 else if rank b <? rank a then 1 else 0);
  cmp_total a b : exists c, cmp a b = Ok c;
  rank_inj a b : valid a -> valid b -> rank a = rank b -> a = b
}.

(** Keys of [INTEGER] columns: four bytes of the value, four zeros. *)
Definition int_key (z : Z) : IndexKeyType := le_bytes 4 z ++ replicate 4 x00.
Definition int_rank (k : IndexKeyType) : Z := le_s 4 (rd 0 4 k).
Definition is_int_key (k : IndexKeyType) : Prop := exists z, in_s 32 z /\ k = int_key z.

Lemma int_rank_key z : in_s 32 z -> int_rank (int_key z) = z.
Proof.
  intros Hz. unfold int_rank, int_key, rd. rewrite drop_0, take_app_length' by (by rewrite length_le_bytes).
  by apply le_s_bytes; [lia|].
Qed.

#[export] Instance int_keys_ordered : OrderedKeys (Compare int_rank) is_int_key int_rank.
Proof.
  split; [done|by eexists|]. intros a b (za & Ha & ->) (zb & Hb & ->). rewrite !int_rank_key by done. by intros ->.
Qed.

Lemma ConvertToIndexKeyType_int `{Value.StringLayout} z : in_s 32 z ->
  Value.ConvertToIndexKeyType (mk_Value INTEGER (VInt32 z) false) = Ok (int_key z).
Proof.
  intros Hz. unfold Value.ConvertToIndexKeyType. cbn [type_id_ value_ Value.variant_bytes].
  rewrite mem_read_ok by (rewrite length_le_bytes; lia). cbn [mbind res_bind].
  assert (rd 0 4 (le_bytes 4 z) = le_bytes 4 z) as ->.
  { unfold rd. rewrite drop_0. apply take_ge. by rewrite length_le_bytes. }
  rewrite mem_write_ok by (rewrite length_le_bytes; cbn; lia). unfold wr, int_key.
  by rewrite length_le_bytes.
Qed.
