(* ===== verification/BtreePage.v ===== *)
(** * Pages of the B+ tree: [storage/page/btree_page.hpp], [btree_header_page.hpp],
    [btree_leaf_page.hpp], [btree_internal_page.hpp]

    The classes overlay the bytes of a page: a common header, then what the kind of page
    adds.  Log messages are left out. *)
From S2P Require Import Prelude Bytes Types Value Index.
Open Scope Z_scope.

(** [IndexPageType], an [int] in the page. *)
Definition INVALID_INDEX_PAGE : Z := 0.
Definition HEADER_PAGE : Z := 1.
Definition LEAF_PAGE : Z := 2.
Definition INTERNAL_PAGE : Z := 3.

Definition BTREE_PAGE_HEADER_SIZE : nat := 32.
Definition LEAF_PAGE_HEADER_SIZE : Z := 40.
Definition LEAF_NODE_SIZE : nat := 20.
Definition LEAF_MAX_NODE_SIZE : Z := (PAGE_SIZE - LEAF_PAGE_HEADER_SIZE) / Z.of_nat LEAF_NODE_SIZE.
Definition INTERNAL_PAGE_HEADER_SIZE : nat := 32.
Definition INTERNAL_NODE_SIZE : nat := 12.
Definition INTERNAL_MAX_NODE_SIZE : Z :=
  (PAGE_SIZE - Z.of_nat INTERNAL_PAGE_HEADER_SIZE) / Z.of_nat INTERNAL_NODE_SIZE.

(** ** The common header *)
Module BtreePage.
Abbreviation page := (list byte).

Definition GetPageType (p : page) : Z := le_s 4 (rd 0 4 p).
Definition SetPageType (v : Z) (p : page) : page := wr 0 (le_bytes 4 v) p.
Definition GetParentPageId (p : page) : Z := le_s 4 (rd 4 4 p).
Definition SetParentPageId (v : Z) (p : page) : page := wr 4 (le_bytes 4 v) p.
Definition GetPageId (p : page) : Z := le_s 4 (rd 8 4 p).
Definition SetPageId (v : Z) (p : page) : page := wr 8 (le_bytes 4 v) p.
Definition GetSize (p : page) : Z := le_u 8 (rd 16 8 p).
Definition SetSize (v : Z) (p : page) : page := wr 16 (le_bytes 8 v) p.
Definition IncreaseSize (amount : Z) (p : page) : page := SetSize (uwrap 64 (GetSize p + amount)) p.
Definition max_size_ (p : page) : Z := le_u 8 (rd 24 8 p).
Definition GetMaxSize (p : page) : res Z := _ ← assertion (0 <? max_size_ p); Ok (max_size_ p).
Definition SetMaxSize (max_size : Z) (p : page) : res page :=
  _ ← assertion (0 <? max_size); Ok (wr 24 (le_bytes 8 max_size) p).
Definition IsLeafPage (p : page) : bool := GetPageType p =? LEAF_PAGE.
Definition IsInternalPage (p : page) : bool := GetPageType p =? INTERNAL_PAGE.
Definition IsRootPage (p : page) : bool := GetParentPageId p =? INVALID_PAGE_ID.
Definition GetMinSize (p : page) : Z :=
  if IsLeafPage p then max_size_ p / 2 else uwrap 64 (max_size_ p + 1) / 2.
End BtreePage.
Import BtreePage.

(** ** The header page *)
Module BtreeHeaderPage.
Definition GetRootPageId (p : page) : Z := le_s 4 (rd 32 4 p).
Definition SetRootPageId (v : Z) (p : page) : page := wr 32 (le_bytes 4 v) p.
Definition TreeIsEmpty (p : page) : bool := GetRootPageId p =? INVALID_PAGE_ID.
Definition Init (p : page) : page := SetPageType HEADER_PAGE (SetRootPageId INVALID_PAGE_ID p).
End BtreeHeaderPage.

(** ** Arrays of nodes: [std::lower_bound], [std::move_backward] *)

(** [std::lower_bound] over [len] nodes from index [first] on, halving the range;
    [before i] is the comparison with node [i]. *)
Fixpoint lower_bound (fuel : nat) (before : Z -> res bool) (first len : Z) : res Z :=
  match fuel with
  | O => Ok first
  | S fuel =>
    if len <=? 0 then Ok first
    else
      let half := len / 2 in
      b ← before (first + half);
      if b : bool then lower_bound fuel before (first + half + 1) (len - half - 1)
      else lower_bound fuel before first half
  end.

Section nodes.
Variable node_array_ : nat.       (* where the array starts *)
Variable node_size : nat.

Definition node_pos (index : Z) : nat := node_array_ + node_size * Z.to_nat index.
(** Nodes [first], ..., [last - 1] moved up by one. *)
Definition move_up (first last : Z) (p : page) : res page :=
  nodes ← mem_read (node_pos first) (node_size * Z.to_nat (last - first)) p;
  mem_write (node_pos (first + 1)) nodes p.
Definition key_at (index : Z) (p : page) : res IndexKeyType := mem_read (node_pos index) 8 p.
(** Index of the first of the nodes [first], ..., [last - 1] whose key is not before [key]. *)
Definition find_key (cmp : Comparator) (key : IndexKeyType) (first last : Z) (p : page) : res Z :=
  if last <? first then Err UndefinedBehaviour
  else
    lower_bound 64 (fun i => k ← key_at i p; c ← cmp k key; Ok (c <? 0)) first (last - first).
End nodes.

(** Where the compiler puts the array behind the 36 bytes of the members. *)
Class LeafLayout := {
  leaf_nodes : nat;
  leaf_nodes_bounds : (36 <= leaf_nodes <= 40)%nat
}.
Definition packed_leaf : LeafLayout.
Proof. refine {| leaf_nodes := 36 |}; lia. Defined.

(** [RID] in memory: page number, table id, slot number. *)
Definition rid_bytes (rid : RID) : list byte :=
  le_bytes 4 (page_number_ (rid_page_id_ rid)) ++ le_bytes 4 (table_id_ (rid_page_id_ rid)) ++
  le_bytes 4 (slot_num_ rid).
Definition rid_of (bs : list byte) : RID :=
  mk_RID (mk_PageId (le_s 4 (rd 4 4 bs)) (le_s 4 (rd 0 4 bs))) (le_u 4 (rd 8 4 bs)).

(** ** Leaf pages *)
Module BtreeLeafPage.
Section leaf.
Context `{LeafLayout}.

Definition GetNextPageId (p : page) : Z := le_s 4 (rd 32 4 p).
Definition SetNextPageId (v : Z) (p : page) : page := wr 32 (le_bytes 4 v) p.
Definition KeyAt (index : Z) (p : page) : res IndexKeyType := key_at leaf_nodes LEAF_NODE_SIZE index p.
Definition ValueAt (index : Z) (p : page) : res RID :=
  bs ← mem_read (node_pos leaf_nodes LEAF_NODE_SIZE index + 8) 12 p; Ok (rid_of bs).
Definition set_node (index : Z) (key : IndexKeyType) (value : RID) (p : page) : res page :=
  mem_write (node_pos leaf_nodes LEAF_NODE_SIZE index) (key ++ rid_bytes value) p.

Definition Init (page_id parent_id : Z) (p : page) : res page :=
  let p := SetPageType LEAF_PAGE p in
  let p := SetSize 0 p in
  let p := SetPageId page_id p in
  let p := SetParentPageId parent_id p in
  let p := SetNextPageId INVALID_PAGE_ID p in
  p ← SetMaxSize LEAF_MAX_NODE_SIZE p;
  _ ← GetMaxSize p;
  Ok p.

Definition FindKeyIndex (key : IndexKeyType) (cmp : Comparator) (p : page) : res Z :=
  _ ← GetMaxSize p;
  find_key leaf_nodes LEAF_NODE_SIZE cmp key 0 (GetSize p) p.

Definition Insert (key : IndexKeyType) (value : RID) (cmp : Comparator) : M page unit :=
  p ← get_state;
  max ← lift (GetMaxSize p);
  if GetSize p =? max then throw RuntimeException
  else
    key_idx ← lift (FindKeyIndex key cmp p);
    exists_ ← lift (if GetSize p =? 0 then Ok false
                    else k ← KeyAt key_idx p; c ← cmp k key; Ok (c =? 0));
    if exists_ : bool then mret tt
    else
      p ← lift (if key_idx =? GetSize p then Ok p
                else move_up leaf_nodes LEAF_NODE_SIZE key_idx (GetSize p) p);
      p ← lift (set_node key_idx key value p);
      modify (fun _ => IncreaseSize 1 p).

Definition Lookup (key : IndexKeyType) (cmp : Comparator) (p : page) : res (option RID) :=
  target_index ← FindKeyIndex key cmp p;
  leaf_key ← KeyAt target_index p;
  if (target_index <? GetSize p) && bool_decide (leaf_key = key) then
    v ← ValueAt target_index p; Ok (Some v)
  else Ok None.

(** [size] nodes, as bytes. *)
Definition CopyNFrom (items : list byte) (size : Z) (p : page) : res page :=
  _ ← GetMaxSize p;
  p ← mem_write (node_pos leaf_nodes LEAF_NODE_SIZE (GetSize p)) items p;
  Ok (IncreaseSize size p).
(** The two pages afterwards. *)
Definition MoveHalfTo (p recipient : page) : res (page * page) :=
  max ← GetMaxSize p;
  let start_split_indx := GetMinSize p in
  let p := SetSize start_split_indx p in
  let size := uwrap 64 (max - start_split_indx) in
  items ← mem_read (node_pos leaf_nodes LEAF_NODE_SIZE start_split_indx) (LEAF_NODE_SIZE * Z.to_nat size) p;
  recipient ← CopyNFrom items size recipient;
  Ok (p, recipient).
End leaf.
End BtreeLeafPage.

(** ** Internal pages: the first key is not used *)
Module BtreeInternalPage.
Definition pos (index : Z) : nat := node_pos INTERNAL_PAGE_HEADER_SIZE INTERNAL_NODE_SIZE index.

Definition Init (page_id parent_id : Z) (p : page) : res page :=
  let p := SetPageType INTERNAL_PAGE p in
  let p := SetPageId page_id p in
  let p := SetSize 0 p in
  p ← SetMaxSize INTERNAL_MAX_NODE_SIZE p;
  Ok (SetParentPageId parent_id p).

Definition KeyAt (index : Z) (p : page) : res IndexKeyType :=
  key_at INTERNAL_PAGE_HEADER_SIZE INTERNAL_NODE_SIZE index p.
Definition SetKeyAt (index : Z) (key : IndexKeyType) (p : page) : res page := mem_write (pos index) key p.
Definition ValueAt (index : Z) (p : page) : res Z :=
  bs ← mem_read (pos index + 8) 4 p; Ok (le_s 4 bs).
Definition SetValueAt (index value : Z) (p : page) : res page :=
  mem_write (pos index + 8) (le_bytes 4 value) p.

(** [std::find_if] from index [i] on, over [n] nodes. *)
Fixpoint find_value (n : nat) (value i : Z) (p : page) : res Z :=
  match n with
  | O => Ok i
  | S n => v ← ValueAt i p; if v =? value then Ok i else find_value n value (i + 1) p
  end.
Definition ValueIndex (value : Z) (p : page) : res Z := find_value (Z.to_nat (GetSize p)) value 0 p.

Definition Lookup (key : IndexKeyType) (cmp : Comparator) (p : page) : res Z :=
  target ← find_key INTERNAL_PAGE_HEADER_SIZE INTERNAL_NODE_SIZE cmp key 1 (GetSize p) p;
  if target =? GetSize p then ValueAt (GetSize p - 1) p
  else
    k ← KeyAt target p;
    c ← cmp key k;
    if c =? 0 then ValueAt target p else ValueAt (target - 1) p.

Definition PopulateNewRoot (old_value : Z) (new_key : IndexKeyType) (new_value : Z) (p : page) : res page :=
  p ← SetValueAt 0 old_value p;
  p ← SetKeyAt 1 new_key p;
  p ← SetValueAt 1 new_value p;
  Ok (SetSize 2 p).

Definition InsertNodeAfter (old_value : Z) (new_key : IndexKeyType) (new_value : Z) (p : page) : res page :=
  i ← ValueIndex old_value p;
  _ ← assertion (i <? GetSize p);
  let new_value_idx := i + 1 in
  p ← move_up INTERNAL_PAGE_HEADER_SIZE INTERNAL_NODE_SIZE new_value_idx (GetSize p) p;
  p ← SetKeyAt new_value_idx new_key p;
  p ← SetValueAt new_value_idx new_value p;
  Ok (IncreaseSize 1 p).
End BtreeInternalPage.
