(* ===== verification/BtreePageFacts.v ===== *)
(** * Nodes of the B+ tree as sorted lists

    [array_rep] reads the array of nodes of a page as a list; the binary search, the shift
    and the copies of the page classes are operations on that list. *)
From S2P Require Import Prelude Bytes Types Value Index BtreePage.
Import BtreePage.
Open Scope Z_scope.

(** ** Binary search *)
Lemma lower_bound_spec fuel (before : Z -> res bool) first len k : 0 <= len < 2 ^ Z.of_nat fuel ->
  first <= k <= first + len ->
  (forall i, first <= i < first + len -> before i = Ok (i <? k)) ->
  lower_bound fuel before first len = Ok k.
Proof.
  revert first len. induction fuel as [|fuel IH]; intros first len Hlen Hk Hb; cbn [lower_bound].
  { cbn in Hlen. f_equal. lia. }
  destruct (Z.leb_spec len 0); [f_equal; lia|].
  rewrite Nat2Z.inj_succ, Z.pow_succ_r in Hlen by lia.
  pose proof (Z.div_lt len 2 ltac:(lia) ltac:(lia)). pose proof (Z.div_pos len 2 ltac:(lia) ltac:(lia)).
  pose proof (Z.div_mod len 2 ltac:(lia)). pose proof (Z.mod_pos_bound len 2 ltac:(lia)).
  rewrite Hb by lia. cbn [mbind res_bind].
  destruct (Z.ltb_spec (first + len / 2) k); apply IH; try lia; intros i Hi; apply Hb; lia.
Qed.

Lemma rd_rd off n off' m p : (off' + m <= n)%nat -> rd off' m (rd off n p) = rd (off + off') m p.
Proof.
  intros Hm. apply list_eq. intros i. destruct (decide (i < m)%nat).
  - rewrite !lookup_rd by lia. f_equal. lia.
  - unfold rd. by rewrite !lookup_take_ge by lia.
Qed.

(** ** Arrays of nodes *)
Section nodes.
Variables (base sz : nat).
Hypothesis sz_key : (8 <= sz)%nat.
#[local] Set Default Proof Using "Type*".
Abbreviation node_pos := (node_pos base sz).

Record array_rep (p : list byte) (l : list (list byte)) : Prop := {
  ar_room : (base + sz * length l <= length p)%nat;
  ar_node i bs : l !! i = Some bs -> length bs = sz /\ rd (base + sz * i) sz p = bs
}.

Lemma pos_nat (i : nat) : node_pos (Z.of_nat i) = (base + sz * i)%nat.
Proof. unfold BtreePage.node_pos. by rewrite Nat2Z.id. Qed.

Lemma key_at_rep p l i bs : array_rep p l -> l !! i = Some bs ->
  key_at base sz (Z.of_nat i) p = Ok (take 8 bs).
Proof.
  intros Hr Hi. destruct (ar_node _ _ Hr i bs Hi) as [Hl Hrd]. pose proof (ar_room _ _ Hr) as Hroom.
  pose proof (lookup_lt_Some _ _ _ Hi). unfold key_at. rewrite pos_nat.
  rewrite mem_read_ok by nia. f_equal. rewrite <- Hrd. unfold rd. by rewrite take_take, Nat.min_l by lia.
Qed.

Lemma value_at_rep p l i bs off n : array_rep p l -> l !! i = Some bs -> (off + n <= sz)%nat ->
  mem_read (node_pos (Z.of_nat i) + off) n p = Ok (rd off n bs).
Proof.
  intros Hr Hi Hn. destruct (ar_node _ _ Hr i bs Hi) as [Hl Hrd]. pose proof (ar_room _ _ Hr) as Hroom.
  pose proof (lookup_lt_Some _ _ _ Hi). rewrite pos_nat. rewrite mem_read_ok by nia.
  rewrite <- Hrd. by rewrite rd_rd by lia.
Qed.

(** Shifting a tail up and filling the gap inserts a node. *)
Lemma array_insert_rep p l (i : nat) node : array_rep p l -> (i <= length l)%nat -> length node = sz ->
  (base + sz * S (length l) <= length p)%nat ->
  exists p1, (if Z.of_nat i =? Z.of_nat (length l) then Ok p
              else move_up base sz (Z.of_nat i) (Z.of_nat (length l)) p) = Ok p1 /\
    move_up base sz (Z.of_nat i) (Z.of_nat (length l)) p = Ok p1 /\ length p1 = length p /\
    (forall off n, (off + n <= base)%nat -> rd off n (wr (base + sz * i) node p1) = rd off n p) /\
    array_rep (wr (base + sz * i) node p1) (take i l ++ node :: drop i l) /\
    (forall off n, (base + sz * S (length l) <= off)%nat -> rd off n (wr (base + sz * i) node p1) = rd off n p).
Proof.
  intros Hr Hi Hn Hroom.
  set (tail := rd (base + sz * i) (sz * (length l - i)) p).
  assert (length tail = sz * (length l - i))%nat as Htail by (apply length_rd; nia).
  set (p1 := wr (base + sz * S i) tail p).
  assert (move_up base sz (Z.of_nat i) (Z.of_nat (length l)) p = Ok p1) as Hmv.
  { unfold move_up. rewrite pos_nat. replace (Z.to_nat (Z.of_nat (length l) - Z.of_nat i)) with (length l - i)%nat by lia.
    rewrite mem_read_ok by nia. cbn [mbind res_bind].
    replace (Z.of_nat i + 1) with (Z.of_nat (S i)) by lia. rewrite pos_nat. fold tail.
    by rewrite mem_write_ok by nia. }
  assert (length p1 = length p) as Hp1 by (apply length_wr; nia).
  exists p1. split_and!; [|done|done| | |].
  - destruct (Z.eqb_spec (Z.of_nat i) (Z.of_nat (length l))) as [E|E]; [|done].
    f_equal. unfold p1, wr. assert (tail = []) as -> by (apply nil_length_inv; nia).
    cbn. by rewrite Nat.add_0_r, take_drop.
  - intros off n Hoff. rewrite rd_wr_ne by nia. unfold p1. by rewrite rd_wr_ne by nia.
  - split.
    + rewrite length_wr by nia. rewrite length_app, length_take. cbn. rewrite length_drop. nia.
    + intros j bs Hj. destruct (lt_eq_lt_dec j i) as [[Hlt| ->]|Hgt].
      * rewrite lookup_app_l, lookup_take_lt in Hj by (rewrite ?length_take; lia).
        destruct (ar_node _ _ Hr j bs Hj) as [Hl Hrd]. split; [done|].
        rewrite rd_wr_ne by nia. unfold p1. by rewrite rd_wr_ne by nia.
      * rewrite list_lookup_middle in Hj by (rewrite length_take; lia). injection Hj as <-. split; [done|].
        by apply rd_wr_all; [|nia].
      * rewrite lookup_app_r in Hj by (rewrite length_take; lia). rewrite length_take, Nat.min_l in Hj by lia.
        destruct j as [|j]; [lia|]. replace (S j - i)%nat with (S (j - i)) in Hj by lia.
        change (drop i l !! (j - i)%nat = Some bs) in Hj. rewrite lookup_drop in Hj. replace (i + (j - i))%nat with j in Hj by lia.
        destruct (ar_node _ _ Hr j bs Hj) as [Hl Hrd]. pose proof (lookup_lt_Some _ _ _ Hj). split; [done|].
        rewrite rd_wr_ne by nia. unfold p1.
        assert (base + sz * S j = (base + sz * S i) + sz * (j - i))%nat as -> by nia.
        rewrite <- (rd_rd _ (sz * (length l - i)) (sz * (j - i)) sz) by nia.
        rewrite (rd_wr_all _ _ tail) by (done || nia). unfold tail. rewrite rd_rd by nia.
        rewrite <- Hrd. f_equal. nia.
  - intros off n Hoff. rewrite rd_wr_ne by nia. unfold p1. by rewrite rd_wr_ne by nia.
Qed.

(** Copying a block of nodes behind another array. *)
Lemma append_rep p l items ms : array_rep p l -> items = concat ms -> Forall (fun m => length m = sz) ms ->
  (base + sz * (length l + length ms) <= length p)%nat ->
  array_rep (wr (base + sz * length l) items p) (l ++ ms) /\ length items = (sz * length ms)%nat.
Proof.
  intros Hr -> Hms Hroom.
  assert (forall ns : list (list byte), Forall (fun m => length m = sz) ns -> length (concat ns) = (sz * length ns)%nat) as Hlen.
  { intros ns. induction 1 as [|m ns Hm _ IH]; cbn; [lia|]. rewrite length_app. nia. }
  split; [|by apply Hlen]. split.
  - rewrite length_wr by (rewrite Hlen by done; nia). rewrite length_app. nia.
  - intros i bs Hi. destruct (decide (i < length l)%nat).
    + rewrite lookup_app_l in Hi by done. destruct (ar_node _ _ Hr i bs Hi) as [? Hrd]. split; [done|].
      by rewrite rd_wr_ne by nia.
    + rewrite lookup_app_r in Hi by lia.
      assert (length bs = sz) as Hbs by (eapply Forall_lookup in Hms; [exact Hms|exact Hi]). split; [done|].
      destruct (list_elem_of_split_length ms (i - length l) bs Hi) as (l1 & l2 & Ems & Hl1).
      assert (concat ms = concat l1 ++ bs ++ concat l2) as Ec by (by rewrite Ems, concat_app).
      assert (length (concat l1) = sz * (i - length l))%nat as Hc1.
      { rewrite Hlen; [by rewrite Hl1|]. rewrite Ems in Hms. by apply Forall_app in Hms as [? _]. }
      replace (base + sz * i)%nat with ((base + sz * length l) + sz * (i - length l))%nat by nia.
      pose proof (lookup_lt_Some _ _ _ Hi).
      rewrite <- (rd_rd _ (length (concat ms))) by (rewrite Hlen by done; nia).
      rewrite rd_wr_eq by nia. rewrite Ec, <- Hc1. unfold rd. rewrite drop_app_length.
      rewrite <- Hbs. by rewrite take_app_length.
Qed.

(** A block of nodes, read. *)
Lemma block_rep p l (i : nat) : array_rep p l -> (i <= length l)%nat ->
  mem_read (node_pos (Z.of_nat i)) (sz * (length l - i)) p = Ok (concat (drop i l)).
Proof.
  intros Hr Hi. pose proof (ar_room _ _ Hr) as Hroom. rewrite pos_nat, mem_read_ok by nia. f_equal.
  remember (length l - i)%nat as n eqn:Hn. revert i Hi Hn. induction n as [|n IH]; intros i Hi Hn.
  - rewrite drop_ge by lia. unfold rd. by rewrite Nat.mul_0_r.
  - destruct (lookup_lt_is_Some_2 l i) as [bs Hbs]; [lia|]. rewrite (drop_S _ _ _ Hbs). cbn [concat].
    destruct (ar_node _ _ Hr i bs Hbs) as [Hl Hrd]. rewrite <- (IH (S i)) by lia. rewrite <- Hrd at 1.
    unfold rd. replace (sz * S n)%nat with (sz + sz * n)%nat by lia. rewrite <- take_take_drop, drop_drop.
    do 3 f_equal. lia.
Qed.

Lemma array_rep_take p l n : array_rep p l -> array_rep p (take n l).
Proof.
  intros Hr. pose proof (ar_room _ _ Hr). split; [rewrite length_take; nia|].
  intros i bs [Hi _]%lookup_take_Some. by apply (ar_node _ _ Hr).
Qed.

Lemma array_rep_ext p p' l : array_rep p l -> length p' = length p ->
  (forall off n, (base <= off)%nat -> rd off n p' = rd off n p) -> array_rep p' l.
Proof.
  intros Hr Hl He. pose proof (ar_room _ _ Hr). split; [lia|].
  intros i bs Hi. rewrite He by lia. by apply (ar_node _ _ Hr).
Qed.
End nodes.
