(* ===== verification/BtreeNodes.v ===== *)
(** * Leaf and internal pages of the B+ tree as sorted lists of entries *)
From S2P Require Import Prelude Bytes Types Value Index BtreePage BtreePageFacts.
From Stdlib Require Import Sorting.Sorted.
Import BtreePage.
Open Scope Z_scope.

(** The search of a page over a sorted array. *)
Lemma find_key_spec base sz (cmp : Comparator) key first last k p : first <= k <= last -> last < 2 ^ 63 ->
  0 <= first ->
  (forall i, first <= i < last -> exists x c, key_at base sz i p = Ok x /\ cmp x key = Ok c /\
     (c <? 0) = (i <? k)) ->
  find_key base sz cmp key first last p = Ok k.
Proof.
  intros Hk Hl Hf Hc. unfold find_key. destruct (Z.ltb_spec last first); [lia|].
  apply lower_bound_spec; [|lia|].
  - change (Z.of_nat 64) with 64. split; [lia|]. change (2 ^ 64) with (2 ^ 63 * 2). lia.
  - intros i Hi. destruct (Hc i ltac:(lia)) as (x & c & -> & Hcmp & <-). cbn [mbind res_bind]. by rewrite Hcmp.
Qed.

(** ** Sorted lists of entries *)
Section sorted.
Context {V : Type} (rank : IndexKeyType -> Z).
Implicit Types (l : list (IndexKeyType * V)).

Definition sorted l : Prop := StronglySorted (fun a b => rank a.1 < rank b.1) l.
(** How many entries come before rank [r]. *)
Fixpoint position (r : Z) l : nat :=
  match l with
  | [] => O
  | e :: l => if rank e.1 <? r then S (position r l) else O
  end.

Lemma position_le r l : (position r l <= length l)%nat.
Proof. induction l as [|e l IH]; cbn; [lia|]. destruct (_ <? _); lia. Qed.

Lemma position_spec r l i e : sorted l -> l !! i = Some e -> (rank e.1 <? r) = bool_decide (i < position r l)%nat.
Proof.
  intros Hs. revert i. induction Hs as [|x l Hs IH Hall]; intros i Hi; [done|]. cbn [position].
  destruct i as [|i]; cbn in Hi.
  - injection Hi as ->. destruct (rank e.1 <? r) eqn:E; [by rewrite bool_decide_true by lia|by rewrite bool_decide_false by lia].
  - destruct (Z.ltb_spec (rank x.1) r) as [Hx|Hx].
    + rewrite (IH i Hi). apply bool_decide_ext. lia.
    + rewrite bool_decide_false by lia. apply Z.ltb_ge.
      eapply Forall_lookup in Hall; [|exact Hi]. cbn in Hall. lia.
Qed.

Lemma sorted_lt l i j a b : sorted l -> l !! i = Some a -> l !! j = Some b -> (i < j)%nat -> rank a.1 < rank b.1.
Proof.
  intros Hs. revert i j. induction Hs as [|y l Hs IH Hall]; intros i j Hi Hj Hij; [done|].
  destruct j as [|j]; [lia|]. destruct i as [|i]; cbn in Hi, Hj; [|apply (IH i j); try done; lia].
  injection Hi as ->. eapply Forall_lookup in Hall; [|exact Hj]. done.
Qed.

(** An entry goes where the keys below it end. *)
Definition insert_at_rank (e : IndexKeyType * V) l : list (IndexKeyType * V) :=
  let i := position (rank e.1) l in take i l ++ e :: drop i l.
(** The entry with a key, if any: keys are unique. *)
Definition lookup_key (key : IndexKeyType) l : option V :=
  match l !! position (rank key) l with
  | Some (k, v) => if bool_decide (k = key) then Some v else None
  | None => None
  end.

Lemma sorted_insert e l : sorted l -> (forall x, x ∈ l -> rank x.1 <> rank e.1) -> sorted (insert_at_rank e l).
Proof.
  intros Hs Hne. unfold insert_at_rank.
  induction Hs as [|x l Hs IH Hall]; cbn [position take drop app].
  { constructor; constructor. }
  assert (rank x.1 <> rank e.1) as Hx by (apply Hne; left).
  destruct (Z.ltb_spec (rank x.1) (rank e.1)) as [Hlt|Hge]; cbn [take drop app].
  - constructor; [apply IH; intros y Hy; apply Hne; by right|].
    apply Forall_app. split; [by apply Forall_take|]. constructor; [done|by apply Forall_drop].
  - constructor; [by constructor|]. constructor; [lia|].
    eapply Forall_impl; [exact Hall|]. cbn. lia.
Qed.

Lemma lookup_insert_at_rank e l : lookup_key e.1 (insert_at_rank e l) = Some e.2.
Proof.
  unfold lookup_key. assert (position (rank e.1) (insert_at_rank e l) = position (rank e.1) l) as ->.
  { unfold insert_at_rank. induction l as [|x l IH]; cbn [position take drop app]; [by rewrite Z.ltb_irrefl|].
    destruct (rank x.1 <? rank e.1) eqn:E; cbn [take drop app position]; [by rewrite E, IH|by rewrite Z.ltb_irrefl]. }
  unfold insert_at_rank. rewrite list_lookup_middle by (rewrite length_take; pose proof (position_le (rank e.1) l); lia).
  destruct e as [k v]. by rewrite bool_decide_true.
Qed.
End sorted.

(** ** Leaf pages *)
Record leaf_page := mk_leaf_page {
  lp_id : Z;
  lp_parent : Z;
  lp_next : Z;
  lp_entries : list (IndexKeyType * RID)
}.

Definition leaf_bytes (e : IndexKeyType * RID) : list byte := e.1 ++ rid_bytes e.2.
Definition rid_valid (rid : RID) : Prop :=
  in_s 32 (page_number_ (rid_page_id_ rid)) /\ in_s 32 (table_id_ (rid_page_id_ rid)) /\ in_u 32 (slot_num_ rid).

Lemma length_rid_bytes rid : length (rid_bytes rid) = 12%nat.
Proof. unfold rid_bytes. by rewrite !length_app, !length_le_bytes. Qed.

Lemma rid_of_bytes rid : rid_valid rid -> rid_of (rid_bytes rid) = rid.
Proof.
  destruct rid as [[t n] s]. intros (Hn & Ht & Hs). cbn in Hn, Ht, Hs. unfold rid_of, rid_bytes. cbn.
  assert (rd 0 4 (le_bytes 4 n ++ le_bytes 4 t ++ le_bytes 4 s) = le_bytes 4 n) as ->.
  { unfold rd. rewrite drop_0, take_app_length' by (by rewrite length_le_bytes). done. }
  assert (rd 4 4 (le_bytes 4 n ++ le_bytes 4 t ++ le_bytes 4 s) = le_bytes 4 t) as ->.
  { unfold rd. rewrite drop_app_length' by (by rewrite length_le_bytes).
    by rewrite take_app_length' by (by rewrite length_le_bytes). }
  assert (rd 8 4 (le_bytes 4 n ++ le_bytes 4 t ++ le_bytes 4 s) = le_bytes 4 s) as ->.
  { unfold rd. rewrite app_assoc, drop_app_length' by (by rewrite length_app, !length_le_bytes).
    apply take_ge. by rewrite length_le_bytes. }
  rewrite !le_s_bytes, le_u_bytes by (done || lia). done.
Qed.

Section leaf.
Context `{LeafLayout} (cmp : Comparator) (valid : IndexKeyType -> Prop) (rank : IndexKeyType -> Z)
  `{!OrderedKeys cmp valid rank}.
#[local] Set Default Proof Using "Type*".

Definition entry_valid (e : IndexKeyType * RID) : Prop := valid e.1 /\ length e.1 = 8%nat /\ rid_valid e.2.

Record leaf_rep (p : list byte) (a : leaf_page) : Prop := {
  lr_length : length p = page_size;
  lr_type : GetPageType p = LEAF_PAGE;
  lr_id : GetPageId p = lp_id a;
  lr_parent : GetParentPageId p = lp_parent a;
  lr_next : BtreeLeafPage.GetNextPageId p = lp_next a;
  lr_size : GetSize p = Z.of_nat (length (lp_entries a));
  lr_max : max_size_ p = LEAF_MAX_NODE_SIZE;
  lr_room : Z.of_nat (length (lp_entries a)) <= LEAF_MAX_NODE_SIZE;
  lr_nodes : array_rep leaf_nodes LEAF_NODE_SIZE p (leaf_bytes <$> lp_entries a);
  lr_valid : Forall entry_valid (lp_entries a)
}.

Definition with_entries (a : leaf_page) (l : list (IndexKeyType * RID)) : leaf_page :=
  mk_leaf_page (lp_id a) (lp_parent a) (lp_next a) l.

(** The key in the slot behind the last entry: left over from earlier contents. *)
Definition stale_key (p : list byte) (a : leaf_page) : IndexKeyType :=
  rd (leaf_nodes + LEAF_NODE_SIZE * length (lp_entries a)) 8 p.
Definition equal_to (k key : IndexKeyType) : bool :=
  match cmp k key with Ok c => c =? 0 | Err _ => false end.

Lemma leaf_key_at p a i e : leaf_rep p a -> lp_entries a !! i = Some e ->
  BtreeLeafPage.KeyAt (Z.of_nat i) p = Ok e.1.
Proof.
  intros Hr Hi. pose proof (lr_valid _ _ Hr) as Hv. eapply Forall_lookup in Hv as (_ & Hl & _); [|exact Hi].
  unfold BtreeLeafPage.KeyAt. erewrite key_at_rep; [|unfold LEAF_NODE_SIZE; lia|apply (lr_nodes _ _ Hr)|].
  2:{ rewrite list_lookup_fmap, Hi. done. }
  unfold leaf_bytes. by rewrite take_app_length' by done.
Qed.

Lemma leaf_value_at p a i e : leaf_rep p a -> lp_entries a !! i = Some e ->
  BtreeLeafPage.ValueAt (Z.of_nat i) p = Ok e.2.
Proof.
  intros Hr Hi. pose proof (lr_valid _ _ Hr) as Hv. eapply Forall_lookup in Hv as (_ & Hl & Hrid); [|exact Hi].
  unfold BtreeLeafPage.ValueAt. erewrite value_at_rep; [|unfold LEAF_NODE_SIZE; lia|apply (lr_nodes _ _ Hr)| |].
  2:{ rewrite list_lookup_fmap, Hi. done. } 2:{ unfold LEAF_NODE_SIZE. lia. }
  cbn [mbind res_bind]. f_equal. unfold leaf_bytes, rd. rewrite drop_app_length' by done.
  rewrite take_ge by (rewrite length_rid_bytes; lia). by apply rid_of_bytes.
Qed.

Lemma leaf_max_ok p a : leaf_rep p a -> GetMaxSize p = Ok LEAF_MAX_NODE_SIZE.
Proof. intros Hr. unfold GetMaxSize. by rewrite (lr_max _ _ Hr). Qed.

Lemma leaf_find p a key : leaf_rep p a -> sorted rank (lp_entries a) -> valid key ->
  BtreeLeafPage.FindKeyIndex key cmp p = Ok (Z.of_nat (position rank (rank key) (lp_entries a))).
Proof.
  intros Hr Hs Hk. unfold BtreeLeafPage.FindKeyIndex. rewrite (leaf_max_ok p a Hr). cbn [mbind res_bind].
  pose proof (position_le rank (rank key) (lp_entries a)). pose proof (lr_room _ _ Hr) as Hroom.
  change LEAF_MAX_NODE_SIZE with 202 in Hroom. rewrite (lr_size _ _ Hr).
  apply find_key_spec; [lia|width|lia|]. intros i Hi.
  destruct (lookup_lt_is_Some_2 (lp_entries a) (Z.to_nat i)) as [e He]; [lia|].
  pose proof (lr_valid _ _ Hr) as Hv. eapply Forall_lookup in Hv as (Hve & _); [|exact He].
  replace i with (Z.of_nat (Z.to_nat i)) by lia. eexists e.1, _.
  split; [by eapply leaf_key_at|]. split; [by apply cmp_rank|].
  pose proof (position_spec rank (rank key) _ _ _ Hs He) as Hp.
  destruct (Z.ltb_spec (rank e.1) (rank key)); symmetry in Hp.
  - apply bool_decide_eq_true in Hp. cbn. symmetry. apply Z.ltb_lt. lia.
  - apply bool_decide_eq_false in Hp. destruct (rank key <? rank e.1); cbn; symmetry; apply Z.ltb_ge; lia.
Qed.

(** *** Inserting and looking up *)
Lemma leaf_Lookup p a key : leaf_rep p a -> sorted rank (lp_entries a) -> valid key ->
  Z.of_nat (length (lp_entries a)) < LEAF_MAX_NODE_SIZE ->
  BtreeLeafPage.Lookup key cmp p = Ok (lookup_key rank key (lp_entries a)).
Proof.
  intros Hr Hs Hk Hroom. change LEAF_MAX_NODE_SIZE with 202 in Hroom. unfold BtreeLeafPage.Lookup, lookup_key.
  rewrite (leaf_find p a key Hr Hs Hk). cbn [mbind res_bind].
  pose proof (position_le rank (rank key) (lp_entries a)) as Hle. rewrite (lr_size _ _ Hr).
  destruct (lp_entries a !! position rank (rank key) (lp_entries a)) as [[k v]|] eqn:E.
  - rewrite (leaf_key_at p a _ _ Hr E). cbn [mbind res_bind fst]. pose proof (lookup_lt_Some _ _ _ E).
    destruct (Z.ltb_spec (Z.of_nat (position rank (rank key) (lp_entries a))) (Z.of_nat (length (lp_entries a)))); [|lia].
    cbn [andb]. case_bool_decide; [|done]. by rewrite (leaf_value_at p a _ _ Hr E).
  - apply lookup_ge_None in E. unfold BtreeLeafPage.KeyAt, key_at, BtreePage.node_pos.
    pose proof leaf_nodes_bounds. pose proof (lr_length _ _ Hr) as Hl. assert (page_size = 4096%nat) as Hps by done.
    unfold LEAF_NODE_SIZE. rewrite mem_read_ok by lia. cbn [mbind res_bind].
    by destruct (Z.ltb_spec (Z.of_nat (position rank (rank key) (lp_entries a))) (Z.of_nat (length (lp_entries a)))); [lia|].
Qed.

(** The page after an entry went in at index [i]. *)
Lemma insert_leaf_rep p a i e p1 : leaf_rep p a -> (i <= length (lp_entries a))%nat -> entry_valid e ->
  Z.of_nat (length (lp_entries a)) < LEAF_MAX_NODE_SIZE ->
  (if Z.of_nat i =? GetSize p then Ok p
   else move_up leaf_nodes LEAF_NODE_SIZE (Z.of_nat i) (GetSize p) p) = Ok p1 ->
  exists p2, BtreeLeafPage.set_node (Z.of_nat i) e.1 e.2 p1 = Ok p2 /\
    leaf_rep (IncreaseSize 1 p2) (with_entries a (take i (lp_entries a) ++ e :: drop i (lp_entries a))) /\
    (forall off n, (leaf_nodes + LEAF_NODE_SIZE * S (length (lp_entries a)) <= off)%nat ->
       rd off n (IncreaseSize 1 p2) = rd off n p).
Proof.
  intros Hr Hi He Hroom Hp1. change LEAF_MAX_NODE_SIZE with 202 in Hroom. rewrite (lr_size _ _ Hr) in Hp1.
  pose proof leaf_nodes_bounds as Hb. pose proof (lr_length _ _ Hr) as Hl. assert (page_size = 4096%nat) as Hps by done.
  assert (length (leaf_bytes e) = LEAF_NODE_SIZE) as Hle.
  { unfold leaf_bytes. destruct He as (_ & He & _). rewrite length_app, He, length_rid_bytes. done. }
  destruct (array_insert_rep leaf_nodes LEAF_NODE_SIZE ltac:(unfold LEAF_NODE_SIZE; lia) p (leaf_bytes <$> lp_entries a) i
    (leaf_bytes e) (lr_nodes _ _ Hr)) as (p1' & E1 & _ & Hlen & Hout & Hrep & Htail);
    [by rewrite length_fmap|done|rewrite length_fmap; unfold LEAF_NODE_SIZE; lia|].
  rewrite length_fmap in E1. rewrite E1 in Hp1. injection Hp1 as ->.
  set (p2 := wr (leaf_nodes + LEAF_NODE_SIZE * i) (leaf_bytes e) p1) in *.
  assert (length p2 = 4096%nat) as Hp2 by (unfold p2; rewrite length_wr; rewrite ?Hle; unfold LEAF_NODE_SIZE; lia).
  exists p2. split.
  { unfold BtreeLeafPage.set_node. rewrite pos_nat by (unfold LEAF_NODE_SIZE; lia).
    change (e.1 ++ rid_bytes e.2) with (leaf_bytes e). rewrite mem_write_ok; [done|]. rewrite Hle. unfold LEAF_NODE_SIZE. lia. }
  assert (forall off n, (off + n <= leaf_nodes)%nat -> rd off n p2 = rd off n p) as Hhead by done.
  unfold IncreaseSize, SetSize, GetSize. rewrite Hhead by lia. fold (GetSize p). rewrite (lr_size _ _ Hr).
  rewrite uwrap_id by width.
  split.
  2:{ intros off n Hoff. rewrite rd_wr_ne by lens. apply Htail. by rewrite length_fmap. }
  split; cbn [lp_id lp_parent lp_next lp_entries with_entries].
  - lens.
  - unfold GetPageType. ranges. rewrite Hhead by lia. apply (lr_type _ _ Hr).
  - unfold GetPageId. ranges. rewrite Hhead by lia. apply (lr_id _ _ Hr).
  - unfold GetParentPageId. ranges. rewrite Hhead by lia. apply (lr_parent _ _ Hr).
  - unfold BtreeLeafPage.GetNextPageId. ranges. rewrite Hhead by lia. apply (lr_next _ _ Hr).
  - unfold GetSize. ranges. rewrite le_u_bytes by width. rewrite length_app, length_take. cbn. rewrite length_drop. lia.
  - unfold max_size_. ranges. rewrite Hhead by lia. apply (lr_max _ _ Hr).
  - change LEAF_MAX_NODE_SIZE with 202. rewrite length_app, length_take. cbn. rewrite length_drop. lia.
  - rewrite fmap_app, fmap_cons, fmap_take, fmap_drop. eapply array_rep_ext; [unfold LEAF_NODE_SIZE; lia|exact Hrep|lens|].
    intros off n Ho. by rewrite rd_wr_ne by lens.
  - apply Forall_app. split; [apply Forall_take, (lr_valid _ _ Hr)|].
    constructor; [done|]. apply Forall_drop, (lr_valid _ _ Hr).
Qed.

(** Everything [Insert] may do. *)
Lemma leaf_Insert p a key v : leaf_rep p a -> sorted rank (lp_entries a) -> entry_valid (key, v) ->
  Z.of_nat (length (lp_entries a)) < LEAF_MAX_NODE_SIZE ->
  exists p', BtreeLeafPage.Insert key v cmp p = (Ok tt, p') /\
    if bool_decide (is_Some (lookup_key rank key (lp_entries a))) ||
       (bool_decide (0 < length (lp_entries a) /\ position rank (rank key) (lp_entries a) = length (lp_entries a))%nat &&
        equal_to (stale_key p a) key)
    then p' = p
    else leaf_rep p' (with_entries a (insert_at_rank rank (key, v) (lp_entries a))) /\
         (forall x, x ∈ lp_entries a -> rank x.1 <> rank key) /\
         (forall off n, (leaf_nodes + LEAF_NODE_SIZE * S (length (lp_entries a)) <= off)%nat -> rd off n p' = rd off n p).
Proof.
  intros Hr Hs He Hroom. pose proof He as (Hk & Hk8 & _). cbn in Hk, Hk8.
  set (i := position rank (rank key) (lp_entries a)).
  pose proof (position_le rank (rank key) (lp_entries a)) as Hi. fold i in Hi.
  unfold BtreeLeafPage.Insert. rewrite (bind_ok get_state _ p p p) by done.
  rewrite (bind_ok (lift _) _ p LEAF_MAX_NODE_SIZE p) by (unfold lift; by rewrite (leaf_max_ok p a Hr)).
  rewrite (lr_size _ _ Hr). destruct (Z.eqb_spec (Z.of_nat (length (lp_entries a))) LEAF_MAX_NODE_SIZE); [lia|].
  rewrite (bind_ok (lift _) _ p (Z.of_nat i) p) by (unfold lift; by rewrite (leaf_find p a key Hr Hs Hk)).
  assert (exists b, (if Z.of_nat (length (lp_entries a)) =? 0 then Ok false
      else k ← BtreeLeafPage.KeyAt (Z.of_nat i) p; c ← cmp k key; Ok (c =? 0)) = Ok b /\
    b = bool_decide (is_Some (lookup_key rank key (lp_entries a))) ||
       (bool_decide (0 < length (lp_entries a) /\ i = length (lp_entries a))%nat && equal_to (stale_key p a) key) /\
    (b = false -> forall x, x ∈ lp_entries a -> rank x.1 <> rank key)) as (b & -> & <- & Hnew).
  { unfold lookup_key. fold i. destruct (lp_entries a !! i) as [[k w]|] eqn:E.
    - pose proof (lookup_lt_Some _ _ _ E).
      destruct (Z.eqb_spec (Z.of_nat (length (lp_entries a))) 0); [lia|].
      rewrite (leaf_key_at p a _ _ Hr E). cbn [mbind res_bind fst].
      pose proof (lr_valid _ _ Hr) as Hv. eapply Forall_lookup in Hv as (Hvk & _); [|exact E]. cbn in Hvk.
      rewrite (cmp_rank k key Hvk Hk). cbn [mbind res_bind].
      rewrite (bool_decide_false (0 < _ /\ i = _)%nat) by lia. cbn [andb]. rewrite orb_false_r.
      pose proof (position_spec rank (rank key) _ _ _ Hs E) as Hp. rewrite bool_decide_false in Hp by (fold i; lia).
      cbn in Hp. rewrite Hp. eexists. split; [done|].
      destruct (Z.ltb_spec (rank key) (rank k)) as [Hlt|Hge].
      + split; [rewrite (bool_decide_false (k = key)) by (intros ->; lia); by rewrite bool_decide_false by (by intros [? ?])|].
        intros _ x Hx. apply list_elem_of_lookup in Hx as [j Hj].
        pose proof (position_spec rank (rank key) _ _ _ Hs Hj) as Hpj.
        destruct (decide (j < i)%nat) as [Hji|Hji].
        * rewrite bool_decide_true in Hpj by done. lia.
        * intros Heq. assert (j = i) as ->; [|rewrite E in Hj; injection Hj as <-; cbn in Heq; lia].
          destruct (decide (j = i)) as [|Hne]; [done|exfalso].
          assert (rank k < rank x.1) as Hlt2; [|lia].
          exact (sorted_lt rank _ i j (k, w) x Hs E Hj ltac:(lia)).
      + assert (k = key) as -> by (apply rank_inj; [done|done|apply Z.ltb_ge in Hp; lia]).
        rewrite (bool_decide_true (key = key)) by done. by rewrite bool_decide_true.
    - apply lookup_ge_None in E. assert (i = length (lp_entries a)) as Hil by lia.
      rewrite (bool_decide_false (is_Some None)) by (by intros [? ?]). cbn [orb].
      assert (forall x, x ∈ lp_entries a -> rank x.1 <> rank key) as Hall.
      { intros x Hx. apply list_elem_of_lookup in Hx as [j Hj]. pose proof (lookup_lt_Some _ _ _ Hj).
        pose proof (position_spec rank (rank key) _ _ _ Hs Hj) as Hpj. rewrite bool_decide_true in Hpj by (fold i; lia). lia. }
      destruct (Z.eqb_spec (Z.of_nat (length (lp_entries a))) 0).
      + rewrite bool_decide_false by lia. by exists false.
      + rewrite bool_decide_true by lia. cbn [andb].
        pose proof leaf_nodes_bounds. pose proof (lr_length _ _ Hr). assert (page_size = 4096%nat) as Hps by done.
        unfold BtreeLeafPage.KeyAt, key_at. rewrite pos_nat by (unfold LEAF_NODE_SIZE; lia).
        change LEAF_MAX_NODE_SIZE with 202 in Hroom. rewrite mem_read_ok by (unfold LEAF_NODE_SIZE; lia). cbn [mbind res_bind].
        rewrite Hil. fold (stale_key p a). destruct (cmp_total (stale_key p a) key) as [c Hc].
        unfold equal_to. rewrite Hc. cbn [mbind res_bind]. eexists. by split_and!. }
  rewrite (bind_ok (lift _) _ p _ p) by done.
  destruct b; [by exists p|].
  destruct (array_insert_rep leaf_nodes LEAF_NODE_SIZE ltac:(unfold LEAF_NODE_SIZE; lia) p (leaf_bytes <$> lp_entries a) i
    (leaf_bytes (key, v)) (lr_nodes _ _ Hr)) as (p1 & E1 & _).
  { by rewrite length_fmap. }
  { unfold leaf_bytes. cbn. by rewrite length_app, Hk8, length_rid_bytes. }
  { pose proof leaf_nodes_bounds. pose proof (lr_length _ _ Hr). assert (page_size = 4096%nat) as Hps by done.
    change LEAF_MAX_NODE_SIZE with 202 in Hroom. rewrite length_fmap. unfold LEAF_NODE_SIZE. lia. }
  rewrite length_fmap in E1. rewrite (bind_ok (lift _) _ p p1 p) by (unfold lift; by rewrite E1).
  destruct (insert_leaf_rep p a i (key, v) p1 Hr Hi He Hroom) as (p2 & E2 & Hrep & Htail); [by rewrite (lr_size _ _ Hr)|].
  cbn [fst snd] in E2. rewrite (bind_ok (lift _) _ p p2 p) by (unfold lift; by rewrite E2).
  eexists. split; [done|]. split; [exact Hrep|]. split; [by apply Hnew|exact Htail].
Qed.

(** *** Splitting a full page *)
Lemma set_size_rep p a n : leaf_rep p a -> (n <= length (lp_entries a))%nat ->
  leaf_rep (SetSize (Z.of_nat n) p) (with_entries a (take n (lp_entries a))).
Proof.
  intros Hr Hn. pose proof leaf_nodes_bounds as Hb. pose proof (lr_length _ _ Hr) as Hl.
  pose proof (lr_room _ _ Hr) as Hroom. change LEAF_MAX_NODE_SIZE with 202 in Hroom.
  assert (page_size = 4096%nat) as Hps by done. unfold SetSize.
  split; cbn [lp_id lp_parent lp_next lp_entries with_entries].
  - lens.
  - unfold GetPageType. ranges. apply (lr_type _ _ Hr).
  - unfold GetPageId. ranges. apply (lr_id _ _ Hr).
  - unfold GetParentPageId. ranges. apply (lr_parent _ _ Hr).
  - unfold BtreeLeafPage.GetNextPageId. ranges. apply (lr_next _ _ Hr).
  - unfold GetSize. ranges. rewrite le_u_bytes by width. rewrite length_take. lia.
  - unfold max_size_. ranges. apply (lr_max _ _ Hr).
  - change LEAF_MAX_NODE_SIZE with 202. rewrite length_take. lia.
  - rewrite fmap_take. apply (array_rep_ext leaf_nodes LEAF_NODE_SIZE ltac:(unfold LEAF_NODE_SIZE; lia) p); [|lens|].
    + apply array_rep_take; [unfold LEAF_NODE_SIZE; lia|apply (lr_nodes _ _ Hr)].
    + intros off k Ho. by rewrite rd_wr_ne by lens.
  - apply Forall_take, (lr_valid _ _ Hr).
Qed.

(** Entries copied behind those that are there. *)
Lemma leaf_CopyNFrom r b l : leaf_rep r b -> Forall entry_valid l ->
  Z.of_nat (length (lp_entries b) + length l) <= LEAF_MAX_NODE_SIZE ->
  exists r', BtreeLeafPage.CopyNFrom (concat (leaf_bytes <$> l)) (Z.of_nat (length l)) r = Ok r' /\
    leaf_rep r' (with_entries b (lp_entries b ++ l)) /\
    (forall off n, (leaf_nodes + LEAF_NODE_SIZE * (length (lp_entries b) + length l) <= off)%nat -> rd off n r' = rd off n r).
Proof.
  intros Hb Hl Hroom. change LEAF_MAX_NODE_SIZE with 202 in Hroom.
  pose proof leaf_nodes_bounds as Hln. pose proof (lr_length _ _ Hb) as Hlb.
  assert (page_size = 4096%nat) as Hps by done.
  unfold BtreeLeafPage.CopyNFrom. rewrite (leaf_max_ok r b Hb). cbn [mbind res_bind].
  rewrite (lr_size _ _ Hb). rewrite pos_nat by (unfold LEAF_NODE_SIZE; lia).
  assert (Forall (fun m => length m = LEAF_NODE_SIZE) (leaf_bytes <$> l)) as Hms.
  { apply Forall_fmap, (Forall_impl _ _ _ Hl). intros e (_ & He & _).
    cbn. unfold leaf_bytes. rewrite length_app, He, length_rid_bytes. done. }
  destruct (append_rep leaf_nodes LEAF_NODE_SIZE ltac:(unfold LEAF_NODE_SIZE; lia) r _ _ _ (lr_nodes _ _ Hb) eq_refl Hms)
    as [Hap Hlen]; [rewrite !length_fmap; unfold LEAF_NODE_SIZE; lia|].
  rewrite !length_fmap in Hlen, Hap. set (items := concat _) in *.
  rewrite mem_write_ok by (rewrite Hlen; unfold LEAF_NODE_SIZE; lia). cbn [mbind res_bind].
  set (r1 := wr _ items r) in *.
  assert (length r1 = 4096%nat) as Hr1 by (unfold r1; rewrite length_wr; rewrite ?Hlen; unfold LEAF_NODE_SIZE; lia).
  assert (forall off n, (off + n <= leaf_nodes)%nat -> rd off n r1 = rd off n r) as Hhead.
  { intros off n Ho. unfold r1. by rewrite rd_wr_ne by (rewrite ?Hlen; unfold LEAF_NODE_SIZE; lia). }
  eexists. split; [done|].
  unfold IncreaseSize, SetSize, GetSize. rewrite Hhead by lia. fold (GetSize r). rewrite (lr_size _ _ Hb).
  rewrite uwrap_id by width.
  split.
  2:{ intros off n Hoff. rewrite rd_wr_ne by lens. unfold r1. rewrite rd_wr_ne; rewrite ?Hlen; unfold LEAF_NODE_SIZE in *; done || lia. }
  split; cbn [lp_id lp_parent lp_next lp_entries with_entries].
  - lens.
  - unfold GetPageType. ranges. rewrite Hhead by lia. apply (lr_type _ _ Hb).
  - unfold GetPageId. ranges. rewrite Hhead by lia. apply (lr_id _ _ Hb).
  - unfold GetParentPageId. ranges. rewrite Hhead by lia. apply (lr_parent _ _ Hb).
  - unfold BtreeLeafPage.GetNextPageId. ranges. rewrite Hhead by lia. apply (lr_next _ _ Hb).
  - unfold GetSize. ranges. rewrite le_u_bytes by width. rewrite length_app. lia.
  - unfold max_size_. ranges. rewrite Hhead by lia. apply (lr_max _ _ Hb).
  - change LEAF_MAX_NODE_SIZE with 202. rewrite length_app. lia.
  - rewrite fmap_app. apply (array_rep_ext leaf_nodes LEAF_NODE_SIZE ltac:(unfold LEAF_NODE_SIZE; lia) r1); [exact Hap|lens|].
    intros off n Ho. by rewrite rd_wr_ne by lens.
  - apply Forall_app. split; [apply (lr_valid _ _ Hb)|done].
Qed.

Lemma leaf_MoveHalfTo p a r b : leaf_rep p a -> Z.of_nat (length (lp_entries a)) = LEAF_MAX_NODE_SIZE ->
  leaf_rep r b -> lp_entries b = [] ->
  exists p' r', BtreeLeafPage.MoveHalfTo p r = Ok (p', r') /\
    leaf_rep p' (with_entries a (take 101 (lp_entries a))) /\
    leaf_rep r' (with_entries b (drop 101 (lp_entries a))) /\
    (forall off n, (leaf_nodes <= off)%nat -> rd off n p' = rd off n p) /\
    (forall off n, (leaf_nodes + LEAF_NODE_SIZE * 101 <= off)%nat -> rd off n r' = rd off n r).
Proof.
  intros Hr Hfull Hb Hempty. change LEAF_MAX_NODE_SIZE with 202 in Hfull.
  pose proof leaf_nodes_bounds as Hln. pose proof (lr_length _ _ Hr) as Hl.
  assert (page_size = 4096%nat) as Hps by done.
  unfold BtreeLeafPage.MoveHalfTo. rewrite (leaf_max_ok p a Hr). cbn [mbind res_bind].
  assert (GetMinSize p = 101) as Hmin.
  { unfold GetMinSize, IsLeafPage. rewrite (lr_type _ _ Hr), (lr_max _ _ Hr). done. }
  rewrite Hmin. change (uwrap 64 (LEAF_MAX_NODE_SIZE - 101)) with 101.
  pose proof (set_size_rep p a 101 Hr ltac:(lia)) as Hp'. change (Z.of_nat 101) with 101 in Hp'.
  assert (array_rep leaf_nodes LEAF_NODE_SIZE (SetSize 101 p) (leaf_bytes <$> lp_entries a)) as Har.
  { apply (array_rep_ext leaf_nodes LEAF_NODE_SIZE ltac:(unfold LEAF_NODE_SIZE; lia) p); [apply (lr_nodes _ _ Hr)|unfold SetSize; lens|].
    intros off n Ho. unfold SetSize. by rewrite rd_wr_ne by lens. }
  pose proof (block_rep leaf_nodes LEAF_NODE_SIZE ltac:(unfold LEAF_NODE_SIZE; lia) _ _ 101 Har
    ltac:(rewrite length_fmap; lia)) as Hblk. rewrite length_fmap in Hblk.
  replace (length (lp_entries a) - 101)%nat with (Z.to_nat 101) in Hblk by lia. change (Z.of_nat 101) with 101 in Hblk.
  rewrite Hblk. cbn [mbind res_bind]. rewrite <- fmap_drop.
  assert (length (drop 101 (lp_entries a)) = 101%nat) as Hld by (rewrite length_drop; lia).
  destruct (leaf_CopyNFrom r b (drop 101 (lp_entries a)) Hb) as (r' & E & Hr' & Htail).
  { apply Forall_drop, (lr_valid _ _ Hr). }
  { rewrite Hempty, Hld. done. }
  rewrite Hld in E. change (Z.of_nat 101) with 101 in E. rewrite E. cbn [mbind res_bind].
  rewrite Hempty in Hr', Htail. exists (SetSize 101 p), r'. rewrite Hld in Htail. split_and!; try done.
  intros off n Ho. unfold SetSize. by rewrite rd_wr_ne by lens.
Qed.
End leaf.

(** ** Internal pages *)
Record internal_page := mk_internal_page {
  ip_id : Z;
  ip_parent : Z;
  ip_entries : list (IndexKeyType * Z)
}.
Definition internal_bytes (e : IndexKeyType * Z) : list byte := e.1 ++ le_bytes 4 e.2.

(** The child whose range holds rank [r]: the keys are the lower ends of the ranges, and
    [first] is the child below them all. *)
Fixpoint child_for (rank : IndexKeyType -> Z) (r first : Z) (l : list (IndexKeyType * Z)) : Z :=
  match l with
  | [] => first
  | (k, v) :: l => if rank k <=? r then child_for rank r v l else first
  end.

Section internal.
Context (cmp : Comparator) (valid : IndexKeyType -> Prop) (rank : IndexKeyType -> Z)
  `{!OrderedKeys cmp valid rank}.
#[local] Set Default Proof Using "Type*".

(** The page, or a buffer that holds one entry more. *)
Record internal_rep (p : list byte) (a : internal_page) : Prop := {
  ir_header : (32 <= length p)%nat;
  ir_type : GetPageType p = INTERNAL_PAGE;
  ir_id : GetPageId p = ip_id a;
  ir_parent : GetParentPageId p = ip_parent a;
  ir_size : GetSize p = Z.of_nat (length (ip_entries a));
  ir_small : Z.of_nat (length (ip_entries a)) < 2 ^ 16;
  ir_max : max_size_ p = INTERNAL_MAX_NODE_SIZE;
  ir_nodes : array_rep INTERNAL_PAGE_HEADER_SIZE INTERNAL_NODE_SIZE p (internal_bytes <$> ip_entries a);
  ir_valid : Forall (fun e => length e.1 = 8%nat /\ in_s 32 e.2) (ip_entries a)
}.

Lemma internal_key_at p a i e : internal_rep p a -> ip_entries a !! i = Some e ->
  BtreeInternalPage.KeyAt (Z.of_nat i) p = Ok e.1.
Proof.
  intros Hr Hi. pose proof (ir_valid _ _ Hr) as Hv. eapply Forall_lookup in Hv as (Hl & _); [|exact Hi].
  unfold BtreeInternalPage.KeyAt. erewrite key_at_rep; [|unfold INTERNAL_NODE_SIZE; lia|apply (ir_nodes _ _ Hr)|].
  2:{ rewrite list_lookup_fmap, Hi. done. }
  unfold internal_bytes. by rewrite take_app_length' by done.
Qed.

Lemma internal_value_at p a i e : internal_rep p a -> ip_entries a !! i = Some e ->
  BtreeInternalPage.ValueAt (Z.of_nat i) p = Ok e.2.
Proof.
  intros Hr Hi. pose proof (ir_valid _ _ Hr) as Hv. eapply Forall_lookup in Hv as (Hl & Hr32); [|exact Hi].
  unfold BtreeInternalPage.ValueAt, BtreeInternalPage.pos.
  erewrite value_at_rep; [|unfold INTERNAL_NODE_SIZE; lia|apply (ir_nodes _ _ Hr)| |].
  2:{ rewrite list_lookup_fmap, Hi. done. } 2:{ unfold INTERNAL_NODE_SIZE. lia. }
  cbn [mbind res_bind]. f_equal. unfold internal_bytes, rd. rewrite drop_app_length' by done.
  rewrite take_ge by (rewrite length_le_bytes; lia). by apply le_s_bytes; [lia|].
Qed.

Lemma child_for_position r first (l : list (IndexKeyType * Z)) : sorted rank l ->
  child_for rank r first l =
    match l !! position rank r l with
    | Some (k, v) => if rank k =? r then v
                     else match position rank r l with O => first | S i => from_option snd 0 (l !! i) end
    | None => match position rank r l with O => first | S i => from_option snd 0 (l !! i) end
    end.
Proof.
  intros Hs. revert first. induction Hs as [|[k v] l Hs IH Hall]; intros first; [done|]. cbn [child_for position fst].
  destruct (Z.ltb_spec (rank k) r) as [Hlt|Hge].
  - destruct (Z.leb_spec (rank k) r); [|lia]. rewrite IH. cbn [lookup list_lookup].
    destruct (position rank r l) as [|i] eqn:Ep; [|done]. by destruct l as [|[k' v'] l].
  - cbn [lookup list_lookup]. destruct (Z.leb_spec (rank k) r) as [Hle|Hgt].
    + destruct (Z.eqb_spec (rank k) r); [|lia]. destruct l as [|[k' v'] l]; [done|]. cbn [child_for].
      apply Forall_cons in Hall as [Hall _]. cbn in Hall. by destruct (Z.leb_spec (rank k') r); [lia|].
    + by destruct (Z.eqb_spec (rank k) r); [lia|].
Qed.

Lemma internal_Lookup p a k0 v0 l key : internal_rep p a -> ip_entries a = (k0, v0) :: l ->
  sorted rank l -> Forall (fun e => valid e.1) l -> valid key ->
  BtreeInternalPage.Lookup key cmp p = Ok (child_for rank (rank key) v0 l).
Proof.
  intros Hr He Hs Hv Hk. pose proof (position_le rank (rank key) l) as Hle. pose proof (ir_small _ _ Hr) as Hsm.
  assert (forall i e, l !! i = Some e -> ip_entries a !! S i = Some e) as Hcons by (intros i e Hi; by rewrite He).
  unfold BtreeInternalPage.Lookup. rewrite (ir_size _ _ Hr), He. cbn [length] in *. rewrite He in Hsm. cbn [length] in Hsm.
  erewrite (find_key_spec _ _ cmp key 1 _ (1 + Z.of_nat (position rank (rank key) l))); [|lia|width|lia|].
  2:{ intros i Hi. destruct (lookup_lt_is_Some_2 l (Z.to_nat i - 1)) as [e Hie]; [lia|].
      eapply Forall_lookup in Hv as Hve; [|exact Hie]. exists e.1. eexists. split; [|split; [by apply cmp_rank|]].
      - pose proof (internal_key_at p a _ e Hr (Hcons _ _ Hie)) as Hx. unfold BtreeInternalPage.KeyAt in Hx.
        by replace (Z.of_nat (S (Z.to_nat i - 1))) with i in Hx by lia.
      - pose proof (position_spec rank (rank key) _ _ _ Hs Hie) as Hp.
        destruct (Z.ltb_spec (rank e.1) (rank key)); symmetry in Hp.
        + apply bool_decide_eq_true in Hp. cbn. symmetry. apply Z.ltb_lt. lia.
        + apply bool_decide_eq_false in Hp. destruct (rank key <? rank e.1); cbn; symmetry; apply Z.ltb_ge; lia. }
  cbn [mbind res_bind]. rewrite child_for_position by done.
  set (i := position rank (rank key) l) in *.
  assert (forall j, (j <= length l)%nat -> BtreeInternalPage.ValueAt (Z.of_nat j) p =
    Ok match j with O => v0 | S j => from_option snd 0 (l !! j) end) as Hval.
  { intros [|j] Hj; [apply (internal_value_at p a 0 (k0, v0) Hr); by rewrite He|].
    destruct (lookup_lt_is_Some_2 l j) as [e Hje]; [lia|]. rewrite Hje. by apply (internal_value_at p a (S j) e Hr), Hcons. }
  destruct (l !! i) as [[k v]|] eqn:E.
  - pose proof (lookup_lt_Some _ _ _ E). destruct (Z.eqb_spec (1 + Z.of_nat i) (Z.of_nat (S (length l)))); [lia|].
    replace (1 + Z.of_nat i) with (Z.of_nat (S i)) by lia.
    rewrite (internal_key_at p a (S i) (k, v) Hr) by auto. cbn [mbind res_bind fst].
    eapply Forall_lookup in Hv as Hvk; [|exact E]. cbn in Hvk.
    assert (cmp key k = _) as -> by exact (cmp_rank key k Hk Hvk). cbn [mbind res_bind].
    pose proof (position_spec rank (rank key) _ _ _ Hs E) as Hp. rewrite bool_decide_false in Hp by (fold i; lia).
    cbn in Hp. apply Z.ltb_ge in Hp.
    destruct (Z.ltb_spec (rank key) (rank k)).
    + destruct (Z.eqb_spec (rank k) (rank key)); [lia|]. cbn [Z.eqb].
      replace (Z.of_nat (S i) - 1) with (Z.of_nat i) by lia. apply Hval. lia.
    + destruct (Z.ltb_spec (rank k) (rank key)); [lia|]. destruct (Z.eqb_spec (rank k) (rank key)); [|lia].
      cbn [Z.eqb]. by rewrite Hval, E by lia.
  - apply lookup_ge_None in E. destruct (Z.eqb_spec (1 + Z.of_nat i) (Z.of_nat (S (length l)))); [|lia].
    replace (Z.of_nat (S (length l)) - 1) with (Z.of_nat i) by lia. rewrite Hval by lia. done.
Qed.
End internal.

(** ** Inserting into an internal page *)
Lemma find_value_ok p a v i : internal_rep p a -> forall n j, (j + n = length (ip_entries a))%nat -> (j <= i)%nat ->
  (exists e, ip_entries a !! i = Some e /\ e.2 = v) ->
  (forall k e, (k < i)%nat -> ip_entries a !! k = Some e -> e.2 <> v) ->
  BtreeInternalPage.find_value n v (Z.of_nat j) p = Ok (Z.of_nat i).
Proof.
  intros Hr n. induction n as [|n IH]; intros j Hn Hj He Hne; destruct He as (e & He & Hv).
  { apply lookup_lt_Some in He. lia. }
  cbn [BtreeInternalPage.find_value]. destruct (lookup_lt_is_Some_2 (ip_entries a) j) as [e' He']; [lia|].
  rewrite (internal_value_at p a j e' Hr He'). cbn [mbind res_bind].
  destruct (decide (j = i)) as [->|Hji].
  - rewrite He in He'. injection He' as <-. by rewrite Hv, Z.eqb_refl.
  - destruct (Z.eqb_spec e'.2 v) as [Heq|_]; [by destruct (Hne j e' ltac:(lia) He')|].
    replace (Z.of_nat j + 1) with (Z.of_nat (S j)) by lia. apply IH; [lia|lia|by exists e|done].
Qed.

Lemma wr_wr_app off bs bs' (m : list byte) : (off + length bs + length bs' <= length m)%nat ->
  wr (off + length bs) bs' (wr off bs m) = wr off (bs ++ bs') m.
Proof.
  intros Hl. apply list_eq. intros j. rewrite !lookup_wr by (rewrite ?length_wr by lia; lia).
  rewrite length_app.
  repeat case_decide; try lia; try done.
  - by rewrite lookup_app_l by lia.
  - rewrite lookup_app_r by lia. f_equal. lia.
Qed.

(** The node goes behind the one that points to [old_value]. *)
Lemma internal_InsertNodeAfter p a i e key w : internal_rep p a -> ip_entries a !! i = Some e ->
  (forall k e', (k < i)%nat -> ip_entries a !! k = Some e' -> e'.2 <> e.2) ->
  length key = 8%nat -> in_s 32 w -> Z.of_nat (length (ip_entries a)) < 2 ^ 16 - 1 ->
  (INTERNAL_PAGE_HEADER_SIZE + INTERNAL_NODE_SIZE * S (length (ip_entries a)) <= length p)%nat ->
  exists p', BtreeInternalPage.InsertNodeAfter e.2 key w p = Ok p' /\ length p' = length p /\
    internal_rep p' (mk_internal_page (ip_id a) (ip_parent a)
      (take (S i) (ip_entries a) ++ (key, w) :: drop (S i) (ip_entries a))).
Proof.
  intros Hr He Hne Hk Hw Hsm Hroom. pose proof (lookup_lt_Some _ _ _ He) as Hi.
  assert (8 <= INTERNAL_NODE_SIZE)%nat as Hsz by (unfold INTERNAL_NODE_SIZE; lia).
  assert (length (internal_bytes (key, w)) = INTERNAL_NODE_SIZE) as Hnode.
  { unfold internal_bytes. cbn [fst snd]. by rewrite length_app, Hk, length_le_bytes. }
  unfold BtreeInternalPage.InsertNodeAfter, BtreeInternalPage.ValueIndex. rewrite (ir_size _ _ Hr), Nat2Z.id.
  rewrite (find_value_ok p a e.2 i Hr _ 0) by (try done; try lia; by exists e). cbn [mbind res_bind].
  unfold assertion. destruct (Z.ltb_spec (Z.of_nat i) (Z.of_nat (length (ip_entries a)))); [|lia]. cbn [mbind res_bind].
  destruct (array_insert_rep INTERNAL_PAGE_HEADER_SIZE INTERNAL_NODE_SIZE Hsz p (internal_bytes <$> ip_entries a) (S i)
    (internal_bytes (key, w)) (ir_nodes _ _ Hr)) as (p1 & _ & E1 & Hlen & Hhead & Hrep & _).
  { rewrite length_fmap. lia. } { exact Hnode. } { by rewrite length_fmap. }
  rewrite length_fmap in E1. replace (Z.of_nat i + 1) with (Z.of_nat (S i)) by lia. rewrite E1. cbn [mbind res_bind].
  unfold BtreeInternalPage.SetKeyAt, BtreeInternalPage.SetValueAt, BtreeInternalPage.pos.
  rewrite pos_nat by done.
  set (o := (INTERNAL_PAGE_HEADER_SIZE + INTERNAL_NODE_SIZE * S i)%nat) in *.
  assert (32 <= o /\ o + 12 <= length p1)%nat as [Ho Hon] by (unfold o, INTERNAL_PAGE_HEADER_SIZE, INTERNAL_NODE_SIZE in *; lia).
  rewrite mem_write_ok by lia. cbn [mbind res_bind].
  rewrite mem_write_ok by (rewrite length_wr, length_le_bytes by lia; lia). cbn [mbind res_bind].
  rewrite <- Hk. rewrite wr_wr_app by (rewrite length_le_bytes; lia).
  change (key ++ le_bytes 4 w) with (internal_bytes (key, w)).
  set (p2 := wr o (internal_bytes (key, w)) p1) in *.
  assert (length p2 = length p) as Hp2.
  { unfold p2. rewrite length_wr; [done|]. rewrite Hnode. unfold INTERNAL_NODE_SIZE. lia. }
  unfold INTERNAL_PAGE_HEADER_SIZE in Hhead.
  exists (IncreaseSize 1 p2). split; [done|].
  unfold IncreaseSize, SetSize, GetSize. rewrite Hhead by lia. fold (GetSize p). rewrite (ir_size _ _ Hr).
  rewrite uwrap_id by width. pose proof (ir_header _ _ Hr). split; [lens|].
  split; cbn [ip_id ip_parent ip_entries].
  - lens.
  - unfold GetPageType. ranges. rewrite Hhead by lia. apply (ir_type _ _ Hr).
  - unfold GetPageId. ranges. rewrite Hhead by lia. apply (ir_id _ _ Hr).
  - unfold GetParentPageId. ranges. rewrite Hhead by lia. apply (ir_parent _ _ Hr).
  - unfold GetSize. ranges. rewrite le_u_bytes by width. rewrite length_app, length_take. cbn [length]. rewrite length_drop. lia.
  - rewrite length_app, length_take. cbn [length]. rewrite length_drop. lia.
  - unfold max_size_. ranges. rewrite Hhead by lia. apply (ir_max _ _ Hr).
  - rewrite fmap_app, fmap_cons, fmap_take, fmap_drop.
    apply (array_rep_ext INTERNAL_PAGE_HEADER_SIZE INTERNAL_NODE_SIZE Hsz p2); [exact Hrep|lens|].
    intros off n Hoff. unfold INTERNAL_PAGE_HEADER_SIZE in Hoff. by rewrite rd_wr_ne by lens.
  - apply Forall_app. split; [apply Forall_take, (ir_valid _ _ Hr)|].
    constructor; [done|]. apply Forall_drop, (ir_valid _ _ Hr).
Qed.
