(* ===== verification/BtreeThms.v ===== *)
(** * What leaf and internal pages of the B+ tree promise

    Leaf pages are sorted finite maps, internal pages are routing tables: [Insert],
    [Lookup], [MoveHalfTo] and [InsertNodeAfter] against those specifications, and the one
    way in which [Insert] departs from its own. *)
From S2P Require Import Prelude Bytes Types Value Index BtreePage BtreePageFacts BtreeNodes.
From Stdlib Require Import Sorting.Sorted.
Import BtreePage.
Open Scope Z_scope.

(** ** Sorted lists as finite maps *)
Section maps.
Context (cmp : Comparator) (valid : IndexKeyType -> Prop) (rank : IndexKeyType -> Z)
  `{!OrderedKeys cmp valid rank} {V : Type}.
Implicit Types l : list (IndexKeyType * V).
#[local] Set Default Proof Using "Type*".

Lemma position_at l i e : sorted rank l -> l !! i = Some e -> position rank (rank e.1) l = i.
Proof.
  intros Hs Hi. pose proof (position_spec rank (rank e.1) l i e Hs Hi) as H1.
  rewrite Z.ltb_irrefl in H1. symmetry in H1. apply bool_decide_eq_false in H1.
  destruct (decide (position rank (rank e.1) l = i)) as [|Hne]; [done|exfalso].
  set (j := position rank (rank e.1) l) in *. pose proof (lookup_lt_Some _ _ _ Hi).
  destruct (lookup_lt_is_Some_2 l j) as [x Hx]; [lia|].
  pose proof (position_spec rank (rank e.1) l j x Hs Hx) as H2. fold j in H2. rewrite bool_decide_false in H2 by lia.
  pose proof (sorted_lt rank l j i x e Hs Hx Hi ltac:(lia)). lia.
Qed.

Lemma lookup_key_elem l key v : sorted rank l -> lookup_key rank key l = Some v <-> (key, v) ∈ l.
Proof.
  intros Hs. unfold lookup_key. split.
  - destruct (l !! position rank (rank key) l) as [[k w]|] eqn:E; [|done]. case_bool_decide as Hk; [|done].
    intros [= ->]. subst. by apply list_elem_of_lookup_2 in E.
  - intros [i Hi]%list_elem_of_lookup. pose proof (position_at l i (key, v) Hs Hi) as Hp. cbn in Hp. rewrite Hp, Hi. by rewrite bool_decide_true.
Qed.

Lemma elem_insert_at_rank (x e : IndexKeyType * V) l : x ∈ insert_at_rank rank e l <-> x = e \/ x ∈ l.
Proof.
  unfold insert_at_rank. rewrite elem_of_app, elem_of_cons.
  assert (x ∈ l <-> x ∈ take (position rank (rank e.1) l) l \/ x ∈ drop (position rank (rank e.1) l) l) as ->;
    [|tauto]. by rewrite <- elem_of_app, take_drop.
Qed.

Lemma option_ext (o1 o2 : option V) : (forall v, o1 = Some v <-> o2 = Some v) -> o1 = o2.
Proof. intros H. destruct o1 as [v|]; [symmetry; by apply H|]. destruct o2 as [v|]; [by apply H|done]. Qed.

Lemma lookup_key_insert_ne e l k : sorted rank l -> (forall x, x ∈ l -> rank x.1 <> rank e.1) -> k <> e.1 ->
  lookup_key rank k (insert_at_rank rank e l) = lookup_key rank k l.
Proof.
  intros Hs Hne Hk. apply option_ext. intros v.
  rewrite !lookup_key_elem, elem_insert_at_rank by (done || by apply sorted_insert).
  split; [intros [<-|?]; [done|done]|by right].
Qed.

Lemma sorted_take n l : sorted rank l -> sorted rank (take n l).
Proof.
  intros Hs. revert n. induction Hs as [|x l Hs IH Hall]; intros [|n]; cbn; try constructor; [apply IH|by apply Forall_take].
Qed.
Lemma sorted_drop n l : sorted rank l -> sorted rank (drop n l).
Proof. intros Hs. revert n. induction Hs as [|x l Hs IH Hall]; intros [|n]; cbn; try done; constructor; done. Qed.

(** A list cut in two: the keys tell the halves apart. *)
Lemma lookup_split l n e key : sorted rank l -> l !! n = Some e ->
  lookup_key rank key l =
    if rank key <? rank e.1 then lookup_key rank key (take n l) else lookup_key rank key (drop n l).
Proof.
  intros Hs Hn. apply option_ext. intros v.
  assert (forall i x, l !! i = Some x -> (i < n)%nat <-> rank x.1 < rank e.1) as Hcut.
  { intros i x Hi. split; [intros Hlt; exact (sorted_lt rank l i n x e Hs Hi Hn Hlt)|]. intros Hlt.
    destruct (decide (i < n)%nat) as [|Hge]; [done|exfalso]. destruct (decide (i = n)) as [->|Hne].
    - rewrite Hn in Hi. injection Hi as ->. lia.
    - pose proof (sorted_lt rank l n i e x Hs Hn Hi ltac:(lia)). lia. }
  destruct (Z.ltb_spec (rank key) (rank e.1)) as [Hlt|Hge];
    rewrite !lookup_key_elem by (done || by apply sorted_take || by apply sorted_drop).
  - split; intros [i Hi]%list_elem_of_lookup; apply list_elem_of_lookup; exists i.
    + rewrite lookup_take_lt; [done|]. by apply (Hcut i (key, v)).
    + apply lookup_take_Some in Hi. by destruct Hi.
  - split; intros [i Hi]%list_elem_of_lookup; apply list_elem_of_lookup.
    + exists (i - n)%nat. rewrite lookup_drop. replace (n + (i - n))%nat with i; [done|].
      assert (~ (i < n)%nat); [|lia]. rewrite (Hcut i (key, v) Hi). cbn. lia.
    + rewrite lookup_drop in Hi. by exists (n + i)%nat.
Qed.
End maps.

(** ** Leaf pages *)
Section leaf.
Context `{LeafLayout} (cmp : Comparator) (valid : IndexKeyType -> Prop) (rank : IndexKeyType -> Z)
  `{!OrderedKeys cmp valid rank}.
#[local] Set Default Proof Using "Type*".

Lemma Init_leaf_rep page_id parent_id p : length p = page_size -> in_s 32 page_id -> in_s 32 parent_id ->
  exists p', BtreeLeafPage.Init page_id parent_id p = Ok p' /\
    leaf_rep valid p' (mk_leaf_page page_id parent_id INVALID_PAGE_ID []) /\
    (forall off n, (36 <= off)%nat -> rd off n p' = rd off n p).
Proof.
  intros Hl Hid Hpar. assert (page_size = 4096%nat) as Hps by done. pose proof leaf_nodes_bounds as Hb.
  unfold BtreeLeafPage.Init, BtreeLeafPage.SetNextPageId, SetParentPageId, SetPageId, SetSize, SetPageType, SetMaxSize,
    assertion. change (0 <? LEAF_MAX_NODE_SIZE) with true. cbn [mbind res_bind]. unfold GetMaxSize.
  set (q := wr 24 _ _). assert (max_size_ q = LEAF_MAX_NODE_SIZE) as Hmax by (unfold max_size_, q; by ranges).
  rewrite Hmax. change (0 <? LEAF_MAX_NODE_SIZE) with true. cbn [assertion mbind res_bind].
  exists q. split; [done|]. unfold q in *. clear q. split.
  2:{ intros off n Ho. by rewrite !rd_wr_ne by lens. }
  split; cbn [lp_id lp_parent lp_next lp_entries length].
  - lens.
  - unfold GetPageType. by ranges.
  - unfold GetPageId. ranges. by apply le_s_bytes; [lia|].
  - unfold GetParentPageId. ranges. by apply le_s_bytes; [lia|].
  - unfold BtreeLeafPage.GetNextPageId. by ranges.
  - unfold GetSize. by ranges.
  - exact Hmax.
  - done.
  - split; [|by intros [|i] bs Hi]. cbn. unfold LEAF_NODE_SIZE. lens.
  - constructor.
Qed.

(** C10: [BtreeLeafPage::Insert] on a page with room implements insertion into a finite
    map: a key that is there keeps its value, another one is added in its place of the
    order, and [BtreeLeafPage::Lookup] answers for every key from then on as the map
    does.  The code compares the new key with the slot behind the last entry, so what is
    left there must not happen to equal it. *)
Theorem leaf_insert_refines p a key v : leaf_rep valid p a -> sorted rank (lp_entries a) ->
  entry_valid valid (key, v) -> Z.of_nat (length (lp_entries a)) < LEAF_MAX_NODE_SIZE - 1 ->
  lp_entries a = [] \/ equal_to cmp (stale_key p a) key = false ->
  exists p' l, BtreeLeafPage.Insert key v cmp p = (Ok tt, p') /\ leaf_rep valid p' (with_entries a l) /\
    sorted rank l /\ forall k, valid k ->
      BtreeLeafPage.Lookup k cmp p' =
        Ok (if decide (k = key) then Some (default v (lookup_key rank key (lp_entries a)))
            else lookup_key rank k (lp_entries a)).
Proof.
  intros Hr Hs He Hroom Hstale. change (LEAF_MAX_NODE_SIZE - 1) with 201 in Hroom.
  destruct (leaf_Insert cmp valid rank p a key v Hr Hs He) as (p' & E & Hp');
    [change LEAF_MAX_NODE_SIZE with 202; lia|].
  assert ((bool_decide (0 < length (lp_entries a) /\ position rank (rank key) (lp_entries a) = length (lp_entries a))%nat &&
    equal_to cmp (stale_key p a) key) = false) as Hno.
  { destruct Hstale as [->| ->]; [by rewrite bool_decide_false by (cbn; lia)|apply andb_false_r]. }
  rewrite Hno, orb_false_r in Hp'. clear Hno. case_bool_decide as Hin.
  - subst p'. exists p, (lp_entries a). split_and!; [done|by destruct a|done|]. intros k Hk.
    rewrite (leaf_Lookup cmp valid rank p a) by (done || change LEAF_MAX_NODE_SIZE with 202; lia).
    case_decide; [subst k|done]. by destruct Hin as [w ->].
  - destruct Hp' as (Hr' & Hne & _). exists p', (insert_at_rank rank (key, v) (lp_entries a)).
    assert (sorted rank (insert_at_rank rank (key, v) (lp_entries a))) as Hs' by (by apply sorted_insert).
    split_and!; [done|done|done|]. intros k Hk. erewrite (leaf_Lookup cmp valid rank); [|exact Hr'|done|done|].
    2:{ cbn. change LEAF_MAX_NODE_SIZE with 202. unfold insert_at_rank. rewrite length_app, length_take. cbn [length].
        rewrite length_drop. lia. }
    cbn [lp_entries with_entries]. case_decide as Hkk.
    + subst k. rewrite (lookup_insert_at_rank rank (key, v)). cbn. destruct (lookup_key rank key (lp_entries a)); [|done].
      destruct Hin. by eexists.
    + by rewrite (lookup_key_insert_ne cmp valid rank (key, v)).
Qed.

(** C30: [BtreeLeafPage::Insert] reads the key of the slot behind the last entry when the new
    key is larger than all of the page ([node_array_[key_idx]] with [key_idx == GetSize()]):
    when the bytes left there happen to equal the new key, it is taken for a duplicate and
    dropped, and [Lookup] does not find it. *)
Theorem leaf_insert_drops p a key v : leaf_rep valid p a -> sorted rank (lp_entries a) ->
  entry_valid valid (key, v) -> Z.of_nat (length (lp_entries a)) < LEAF_MAX_NODE_SIZE ->
  lp_entries a <> [] -> Forall (fun e => rank e.1 < rank key) (lp_entries a) ->
  equal_to cmp (stale_key p a) key = true ->
  BtreeLeafPage.Insert key v cmp p = (Ok tt, p) /\ BtreeLeafPage.Lookup key cmp p = Ok None.
Proof.
  intros Hr Hs He Hroom Hne Hall Hstale.
  assert (position rank (rank key) (lp_entries a) = length (lp_entries a)) as Hpos.
  { clear Hr Hs Hroom Hne Hstale. induction Hall as [|e l Hlt _ IH]; [done|]. cbn. apply Z.ltb_lt in Hlt. by rewrite Hlt, IH. }
  destruct (leaf_Insert cmp valid rank p a key v Hr Hs He Hroom) as (p' & E & Hp').
  rewrite Hstale, Hpos, (bool_decide_true (_ /\ _)), orb_true_r in Hp'.
  2:{ destruct (lp_entries a); [done|]. cbn. lia. }
  subst p'. split; [done|]. rewrite (leaf_Lookup cmp valid rank p a) by (done || apply He).
  unfold lookup_key. rewrite Hpos. by rewrite lookup_ge_None_2.
Qed.

(** C11: [BtreeLeafPage::MoveHalfTo] cuts a full page in two at entry 101 and loses nothing:
    both pages are well formed and sorted, and [Lookup] finds every key where a parent that
    separates at the sibling's first key sends the search. *)
Theorem leaf_split p a r b : leaf_rep valid p a -> sorted rank (lp_entries a) ->
  Z.of_nat (length (lp_entries a)) = LEAF_MAX_NODE_SIZE -> leaf_rep valid r b -> lp_entries b = [] ->
  exists p' r' risen, BtreeLeafPage.MoveHalfTo p r = Ok (p', r') /\
    (exists la lb, leaf_rep valid p' (with_entries a la) /\ leaf_rep valid r' (with_entries b lb) /\
       lp_entries a = la ++ lb /\ length la = 101%nat /\ sorted rank la /\ sorted rank lb) /\
    BtreeLeafPage.KeyAt 0 r' = Ok risen /\
    forall k, valid k ->
      BtreeLeafPage.Lookup k cmp (if rank k <? rank risen then p' else r') = Ok (lookup_key rank k (lp_entries a)).
Proof.
  intros Hr Hs Hfull Hb Hempty.
  destruct (leaf_MoveHalfTo cmp valid rank p a r b Hr Hfull Hb Hempty) as (p' & r' & E & Hp' & Hr' & _).
  change LEAF_MAX_NODE_SIZE with 202 in Hfull.
  destruct (lookup_lt_is_Some_2 (lp_entries a) 101) as [e He]; [lia|].
  exists p', r', e.1. split; [done|]. split; [|split].
  - exists (take 101 (lp_entries a)), (drop 101 (lp_entries a)).
    split_and!; [done|done|by rewrite take_drop|rewrite length_take; lia|by apply (sorted_take cmp valid rank)|by apply (sorted_drop cmp valid rank)].
  - apply (leaf_key_at cmp valid rank r' _ 0 e Hr'). cbn. rewrite lookup_drop. by rewrite Nat.add_0_r.
  - intros k Hk. rewrite (lookup_split cmp valid rank _ 101 e k Hs He). destruct (rank k <? rank e.1).
    + apply (leaf_Lookup cmp valid rank p' _ k Hp'); [by apply (sorted_take cmp valid rank)|done|].
      cbn. rewrite length_take. change LEAF_MAX_NODE_SIZE with 202. lia.
    + apply (leaf_Lookup cmp valid rank r' _ k Hr'); [by apply (sorted_drop cmp valid rank)|done|].
      cbn. rewrite length_drop. change LEAF_MAX_NODE_SIZE with 202. lia.
Qed.
End leaf.

(** ** Internal pages *)
Section internal.
Context (cmp : Comparator) (valid : IndexKeyType -> Prop) (rank : IndexKeyType -> Z)
  `{!OrderedKeys cmp valid rank}.
#[local] Set Default Proof Using "Type*".

Lemma child_for_spec r v0 (l : list (IndexKeyType * Z)) k0 : sorted rank l ->
  exists i e, ((k0, v0) :: l) !! i = Some e /\ child_for rank r v0 l = e.2 /\ (i = 0%nat \/ rank e.1 <= r) /\
    forall e', ((k0, v0) :: l) !! S i = Some e' -> r < rank e'.1.
Proof.
  intros Hs. revert k0 v0. induction Hs as [|[k v] l Hs IH Hall]; intros k0 v0; cbn [child_for].
  { exists 0%nat, (k0, v0). split_and!; [done|done|by left|done]. }
  destruct (Z.leb_spec (rank k) r) as [Hle|Hgt].
  - destruct (IH k v) as (i & e & Hi & -> & Hlow & Hup). exists (S i), e. split_and!; [done|done| |done].
    right. destruct Hlow as [->|?]; [|done]. cbn in Hi. by injection Hi as <-.
  - exists 0%nat, (k0, v0). split_and!; [done|done|by left|]. intros e' [= <-]. done.
Qed.

Lemma child_in r v0 (l : list (IndexKeyType * Z)) : child_for rank r v0 l ∈ v0 :: l.*2.
Proof.
  revert v0. induction l as [|[k v] l IH]; intros v0; cbn [child_for fmap list_fmap]; [by left|].
  destruct (rank k <=? r); [by right|by left].
Qed.

Lemma child_for_insert r v0 (l : list (IndexKeyType * Z)) i c key w : sorted rank l ->
  NoDup (v0 :: l.*2) -> (v0 :: l.*2) !! i = Some c ->
  (forall e, l !! i = Some e -> rank key < rank e.1) ->
  (forall j e, i = S j -> l !! j = Some e -> rank e.1 < rank key) ->
  child_for rank r v0 (take i l ++ (key, w) :: drop i l) =
    if (child_for rank r v0 l =? c) && (rank key <=? r) then w else child_for rank r v0 l.
Proof.
  intros Hs Hnd. revert i v0 Hnd. induction Hs as [|[k v] l Hs IH Hall]; intros i v0 Hnd Hi Hup Hlow.
  - destruct i as [|[|i]]; [|done|done]. injection Hi as ->. cbn. rewrite Z.eqb_refl. by destruct (rank key <=? r).
  - apply NoDup_cons in Hnd as [Hni Hnd]. destruct i as [|i]; cbn [take drop app child_for].
    + injection Hi as ->. pose proof (Hup _ eq_refl) as Hk. cbn in Hk.
      destruct (Z.leb_spec (rank key) r); destruct (Z.leb_spec (rank k) r); try lia.
      * destruct (Z.eqb_spec (child_for rank r v l) c) as [<-|]; [|done]. destruct Hni. apply child_in.
      * by rewrite Z.eqb_refl.
      * by rewrite andb_false_r.
    + destruct (Z.leb_spec (rank k) r) as [Hle|Hgt].
      * apply IH; [done|done|exact Hup|]. intros j e -> He. apply (Hlow (S j) e eq_refl He).
      * assert (rank k < rank key \/ i <> 0%nat) as Hk.
        { destruct i as [|i]; [left; apply (Hlow 0%nat (k, v) eq_refl eq_refl)|by right]. }
        destruct (Z.eqb_spec v0 c) as [->|]; [|done]. destruct Hni.
        cbn in Hi. apply list_elem_of_lookup. by exists i.
Qed.

Lemma separator_place (l : list (IndexKeyType * Z)) i key : sorted rank l -> (i <= length l)%nat ->
  (forall e, l !! i = Some e -> rank key < rank e.1) ->
  (forall j e, i = S j -> l !! j = Some e -> rank e.1 < rank key) ->
  position rank (rank key) l = i /\ forall x, x ∈ l -> rank x.1 <> rank key.
Proof.
  intros Hs. revert i. induction Hs as [|x l Hs IH Hall]; intros i Hil Hup Hlow.
  { destruct i; [|cbn in Hil; lia]. split; [done|]. by intros x ?%elem_of_nil. }
  cbn [position]. destruct i as [|i].
  - pose proof (Hup x eq_refl). destruct (Z.ltb_spec (rank x.1) (rank key)); [lia|]. split; [done|].
    intros y [->|Hy]%elem_of_cons; [lia|]. apply list_elem_of_lookup in Hy as [j Hy].
    eapply Forall_lookup in Hall; [|exact Hy]. cbn in Hall. lia.
  - cbn in Hil. assert (rank x.1 < rank key) as Hx.
    { destruct i as [|i]; [by apply (Hlow 0%nat)|]. destruct (lookup_lt_is_Some_2 l i) as [y Hy]; [lia|].
      pose proof (Hlow (S i) y eq_refl Hy). eapply Forall_lookup in Hall; [|exact Hy]. cbn in Hall. lia. }
    destruct (IH i) as [-> Hne]; [lia|exact Hup|intros j e -> He; by apply (Hlow (S j))|].
    destruct (Z.ltb_spec (rank x.1) (rank key)); [|lia]. split; [done|].
    intros y [->|Hy]%elem_of_cons; [lia|by apply Hne].
Qed.

(** [BtreeInternalPage::Lookup] on a page whose keys are sorted returns the child whose
    key is the largest one not above the key searched, the first child when there is none
    (the first key is not looked at). *)
Theorem internal_lookup_routes p a key : internal_rep p a -> ip_entries a <> [] ->
  sorted rank (tail (ip_entries a)) -> Forall (fun e => valid e.1) (tail (ip_entries a)) -> valid key ->
  exists i e, ip_entries a !! i = Some e /\ BtreeInternalPage.Lookup key cmp p = Ok e.2 /\
    (i = 0%nat \/ rank e.1 <= rank key) /\
    forall e', ip_entries a !! S i = Some e' -> rank key < rank e'.1.
Proof.
  intros Hr Hne Hs Hv Hk. destruct (ip_entries a) as [|[k0 v0] l] eqn:Ea; [done|]. cbn [tail] in *.
  destruct (child_for_spec (rank key) v0 l k0 Hs) as (i & e & Hi & Hc & Hlow & Hup).
  exists i, e. rewrite <- Hc. split_and!; try done. by apply (internal_Lookup cmp valid rank p a k0).
Qed.

(** C12: [BtreeInternalPage::InsertNodeAfter] registers a sibling behind the child that was
    split: afterwards [Lookup] sends the keys that went to the child and are not below the
    separator to the sibling, and every other key where it sent it before. *)
Theorem InsertNodeAfter_routes p a i e key w : internal_rep p a -> ip_entries a !! i = Some e ->
  sorted rank (tail (ip_entries a)) -> Forall (fun e => valid e.1) (tail (ip_entries a)) ->
  NoDup (ip_entries a).*2 -> valid key -> length key = 8%nat -> in_s 32 w ->
  (i <> 0%nat -> rank e.1 < rank key) ->
  (forall e', ip_entries a !! S i = Some e' -> rank key < rank e'.1) ->
  Z.of_nat (length (ip_entries a)) < INTERNAL_MAX_NODE_SIZE -> length p = page_size ->
  exists p' a', BtreeInternalPage.InsertNodeAfter e.2 key w p = Ok p' /\
    internal_rep p' a' /\ length (ip_entries a') = S (length (ip_entries a)) /\
    sorted rank (tail (ip_entries a')) /\
    forall k, valid k -> exists c, BtreeInternalPage.Lookup k cmp p = Ok c /\
      BtreeInternalPage.Lookup k cmp p' = Ok (if (c =? e.2) && (rank key <=? rank k) then w else c).
Proof.
  intros Hr Hi Hs Hv Hnd Hkey Hk8 Hw Hlow Hup Hroom Hl. change INTERNAL_MAX_NODE_SIZE with 338 in Hroom.
  assert (page_size = 4096%nat) as Hps by done.
  destruct (internal_InsertNodeAfter p a i e key w Hr Hi) as (p' & E & _ & Hr'); [|done|done|width| |].
  { intros j e' Hj He' Heq. apply (NoDup_lookup _ j i e.2) in Hnd; [lia| |].
    - rewrite list_lookup_fmap, He'. cbn. by rewrite Heq.
    - by rewrite list_lookup_fmap, Hi. }
  { unfold INTERNAL_PAGE_HEADER_SIZE, INTERNAL_NODE_SIZE. lia. }
  exists p'. eexists. split; [exact E|]. split; [exact Hr'|]. cbn [ip_entries] in *.
  destruct (ip_entries a) as [|[k0 v0] l] eqn:Ea; [done|]. cbn [take drop app tail fmap list_fmap] in *.
  assert (forall e, l !! i = Some e -> rank key < rank e.1) as Hup' by exact Hup.
  assert (forall j e, i = S j -> l !! j = Some e -> rank e.1 < rank key) as Hlow'.
  { intros j e' -> He'. change (l !! j = Some e) in Hi. rewrite He' in Hi. injection Hi as ->. by apply Hlow. }
  pose proof (lookup_lt_Some _ _ _ Hi) as Hil. cbn in Hil.
  destruct (separator_place l i key Hs ltac:(lia) Hup' Hlow') as [Hpos Hne].
  assert (take i l ++ (key, w) :: drop i l = insert_at_rank rank (key, w) l) as Hins.
  { unfold insert_at_rank. cbn [fst]. by rewrite Hpos. }
  split; [cbn; rewrite length_app, length_take; cbn [length]; rewrite length_drop; lia|].
  split; [rewrite Hins; by apply sorted_insert|].
  intros k Hk. exists (child_for rank (rank k) v0 l). split; [by apply (internal_Lookup cmp valid rank p a k0)|].
  rewrite (internal_Lookup cmp valid rank p' _ k0 v0 (take i l ++ (key, w) :: drop i l) k Hr'); [| |rewrite Hins; by apply sorted_insert| |done].
  - rewrite (child_for_insert (rank k) v0 l i e.2 key w Hs Hnd); try done.
    change (v0 :: l.*2) with (snd <$> ((k0, v0) :: l)). by rewrite list_lookup_fmap, Hi.
  - done.
  - apply Forall_app. split; [by apply Forall_take|]. constructor; [done|by apply Forall_drop].
Qed.
End internal.

(** ** Concrete pages *)
Section concrete.
#[local] Existing Instance packed_leaf.
Abbreviation cmp := (Compare int_rank).

Definition blank_leaf : list byte :=
  match BtreeLeafPage.Init 1 INVALID_PAGE_ID (replicate page_size x00) with Ok p => p | Err _ => [] end.
Definition rid1 : RID := mk_RID (mk_PageId 0 2) 3.
Definition leaf_of (l : list (IndexKeyType * RID)) : list byte :=
  match BtreeLeafPage.CopyNFrom (concat (leaf_bytes <$> l)) (Z.of_nat (length l)) blank_leaf with
  | Ok p => p | Err _ => []
  end.
Definition int_entries (zs : list Z) : list (IndexKeyType * RID) := (fun z => (int_key z, rid1)) <$> zs.

Lemma int_entry_valid z : in_s 32 z -> entry_valid is_int_key (int_key z, rid1).
Proof.
  intros Hz. split; [by exists z|]. split; [|done]. unfold int_key. cbn [fst]. by rewrite length_app, length_le_bytes.
Qed.

Lemma leaf_of_rep zs : Forall (in_s 32) zs -> Z.of_nat (length zs) <= LEAF_MAX_NODE_SIZE ->
  leaf_rep is_int_key (leaf_of (int_entries zs)) (mk_leaf_page 1 INVALID_PAGE_ID INVALID_PAGE_ID (int_entries zs)).
Proof.
  intros Hz Hl.
  destruct (Init_leaf_rep cmp is_int_key int_rank 1 INVALID_PAGE_ID (replicate page_size x00)) as (p & E & Hp & _); [done|done|done|].
  destruct (leaf_CopyNFrom cmp is_int_key int_rank p _ (int_entries zs) Hp) as (r & E' & Hr & _).
  { apply Forall_fmap, (Forall_impl _ _ _ Hz). apply int_entry_valid. }
  { cbn [lp_entries length]. unfold int_entries. rewrite length_fmap. lia. }
  unfold leaf_of, blank_leaf. rewrite E, E'. exact Hr.
Qed.

Lemma int_entries_sorted zs : Forall (in_s 32) zs -> StronglySorted Z.lt zs -> sorted int_rank (int_entries zs).
Proof.
  intros Hz Hs. induction Hs as [|z zs Hs IH Hall]; [constructor|]. apply Forall_cons in Hz as [Hz Hzs].
  constructor; [by apply IH|]. apply Forall_fmap. eapply Forall_impl; [exact (proj2 (Forall_and _ _) (conj Hzs Hall))|].
  intros y [Hy Hlt]. cbn. by rewrite !int_rank_key.
Qed.

Lemma seqZ_sorted n : forall m, StronglySorted Z.lt (seqZ m n).
Proof.
  intros m. destruct (Z.le_gt_cases n 0) as [|Hn]; [rewrite seqZ_nil by lia; constructor|].
  revert m. apply (Z_lt_induction (fun n => forall m, StronglySorted Z.lt (seqZ m n))); [|lia]. clear n Hn.
  intros n IH m. destruct (Z.le_gt_cases n 0); [rewrite seqZ_nil by lia; constructor|].
  rewrite seqZ_cons by lia. constructor; [apply IH; lia|]. apply Forall_forall. intros x Hx%elem_of_seqZ. lia.
Qed.
Lemma seqZ_in_s m n : 0 <= m -> m + n < 2 ^ 31 -> Forall (in_s 32) (seqZ m n).
Proof. intros. apply Forall_forall. intros x Hx%elem_of_seqZ. width. Qed.

Lemma leaf_insert_refines_witness : exists p' (l : list (IndexKeyType * RID)),
  BtreeLeafPage.Insert (int_key 5) rid1 cmp (leaf_of (int_entries [-1])) = (Ok tt, p') /\
  sorted int_rank l /\ BtreeLeafPage.Lookup (int_key 5) cmp p' = Ok (Some rid1).
Proof.
  destruct (leaf_insert_refines cmp is_int_key int_rank (leaf_of (int_entries [-1]))
    (mk_leaf_page 1 INVALID_PAGE_ID INVALID_PAGE_ID (int_entries [-1])) (int_key 5) rid1)
    as (p' & l & E & _ & Hs & Hl).
  - apply leaf_of_rep; [repeat constructor; width|done].
  - apply int_entries_sorted; [repeat constructor; width|repeat constructor].
  - apply int_entry_valid. width.
  - done.
  - right. vm_compute. reflexivity.
  - exists p', l. split_and!; [exact E|exact Hs|]. rewrite (Hl (int_key 5)) by (exists 5; split; [width|done]). by rewrite decide_True.
Defined.

Lemma leaf_insert_drops_witness :
  BtreeLeafPage.Insert (int_key 0) rid1 cmp (leaf_of (int_entries [-1])) = (Ok tt, leaf_of (int_entries [-1])) /\
  BtreeLeafPage.Lookup (int_key 0) cmp (leaf_of (int_entries [-1])) = Ok None.
Proof.
  apply (leaf_insert_drops cmp is_int_key int_rank (leaf_of (int_entries [-1]))
    (mk_leaf_page 1 INVALID_PAGE_ID INVALID_PAGE_ID (int_entries [-1])) (int_key 0) rid1).
  - apply leaf_of_rep; [repeat constructor; width|done].
  - apply int_entries_sorted; [repeat constructor; width|repeat constructor].
  - apply int_entry_valid. width.
  - done.
  - done.
  - repeat constructor.
  - vm_compute. reflexivity.
Defined.

Lemma leaf_split_witness : exists p' r' risen,
  BtreeLeafPage.MoveHalfTo (leaf_of (int_entries (seqZ 0 202))) (leaf_of (int_entries [])) = Ok (p', r') /\
  BtreeLeafPage.KeyAt 0 r' = Ok risen.
Proof.
  destruct (leaf_split cmp is_int_key int_rank (leaf_of (int_entries (seqZ 0 202)))
    (mk_leaf_page 1 INVALID_PAGE_ID INVALID_PAGE_ID (int_entries (seqZ 0 202))) (leaf_of (int_entries []))
    (mk_leaf_page 1 INVALID_PAGE_ID INVALID_PAGE_ID (int_entries []))) as (p' & r' & risen & E & _ & Hk & _).
  - apply leaf_of_rep; [apply seqZ_in_s; width|reflexivity].
  - apply int_entries_sorted; [apply seqZ_in_s; width|apply seqZ_sorted].
  - reflexivity.
  - apply leaf_of_rep; [constructor|done].
  - reflexivity.
  - exists p', r', risen. split; [exact E|exact Hk].
Defined.
(** A root with two children: page 7 below key 10, page 8 from there on. *)
Definition small_root : list byte :=
  match (p ← BtreeInternalPage.Init 3 INVALID_PAGE_ID (replicate page_size x00);
         BtreeInternalPage.PopulateNewRoot 7 (int_key 10) 8 p) with Ok p => p | Err _ => [] end.
Definition small_entries : list (IndexKeyType * Z) := [(replicate 8 x00, 7); (int_key 10, 8)].

Lemma small_root_rep : internal_rep small_root (mk_internal_page 3 INVALID_PAGE_ID small_entries).
Proof.
  assert (length small_root = 4096%nat) as Hl by (apply Nat2Z.inj; vm_compute; reflexivity).
  split; cbn [ip_id ip_parent ip_entries].
  - rewrite Hl. lia.
  - vm_compute. reflexivity.
  - vm_compute. reflexivity.
  - vm_compute. reflexivity.
  - vm_compute. reflexivity.
  - reflexivity.
  - vm_compute. reflexivity.
  - split; [rewrite Hl; unfold INTERNAL_PAGE_HEADER_SIZE, INTERNAL_NODE_SIZE; cbn; lia|].
    intros [|[|i]] bs Hi; [| |done]; injection Hi as <-; (split; [reflexivity|vm_compute; reflexivity]).
  - repeat constructor; cbn; width.
Qed.

Lemma internal_lookup_routes_witness : BtreeInternalPage.Lookup (int_key 12) cmp small_root = Ok 8.
Proof.
  destruct (internal_lookup_routes cmp is_int_key int_rank small_root
    (mk_internal_page 3 INVALID_PAGE_ID small_entries) (int_key 12)) as (i & e & Hi & E & _ & Hup).
  - exact small_root_rep.
  - discriminate.
  - repeat constructor.
  - constructor; [exists 10; split; [width|reflexivity]|constructor].
  - exists 12. split; [width|reflexivity].
  - destruct i as [|[|i]]; [exfalso; specialize (Hup _ eq_refl); vm_compute in Hup; discriminate Hup| |discriminate Hi].
    rewrite E. injection Hi as <-. reflexivity.
Defined.

Lemma InsertNodeAfter_routes_witness : exists p',
  BtreeInternalPage.InsertNodeAfter 7 (int_key 5) 9 small_root = Ok p' /\
  BtreeInternalPage.Lookup (int_key 6) cmp p' = Ok 9.
Proof.
  destruct (InsertNodeAfter_routes cmp is_int_key int_rank small_root
    (mk_internal_page 3 INVALID_PAGE_ID small_entries) 0 (replicate 8 x00, 7) (int_key 5) 9)
    as (p' & a' & E & _ & _ & _ & Hr).
  - exact small_root_rep.
  - reflexivity.
  - repeat constructor.
  - constructor; [exists 10; split; [width|reflexivity]|constructor].
  - change (NoDup [7; 8]). apply NoDup_cons. split; [intros Hin; apply list_elem_of_singleton in Hin; discriminate|apply NoDup_singleton].
  - exists 5. split; [width|reflexivity].
  - reflexivity.
  - width.
  - intros H. by destruct H.
  - intros e' [= <-]. reflexivity.
  - reflexivity.
  - vm_compute. reflexivity.
  - exists p'. split; [exact E|]. destruct (Hr (int_key 6)) as (c & Ec & Ec').
    + exists 6. split; [width|reflexivity].
    + rewrite Ec'. vm_compute in Ec. injection Ec as <-. reflexivity.
Defined.
End concrete.
