(* ===== verification/Watermark.v ===== *)
(** * Read timestamps of running transactions: [concurrency/watermark.hpp]

    The watermark is the oldest read timestamp in use, found by counting up from the
    previous one. *)
From S2P Require Import Prelude.
From stdpp Require Import gmultiset.
Open Scope Z_scope.

Record Watermark := mk_Watermark {
  commit_ts_ : Z;                   (* int64_t *)
  watermark_ : Z;                   (* int64_t *)
  current_reads_ : gmap Z Z         (* timestamps to counts (int) *)
}.

Module Watermark.
Definition make (commit_ts : Z) : Watermark := mk_Watermark commit_ts commit_ts ∅.
Definition with_reads (reads : gmap Z Z) (w : Watermark) : Watermark :=
  mk_Watermark (commit_ts_ w) (watermark_ w) reads.
Definition with_watermark (ts : Z) (w : Watermark) : Watermark :=
  mk_Watermark (commit_ts_ w) ts (current_reads_ w).

(** [current_reads_[read_ts]], which makes an entry of 0 where there is none. *)
Definition count (reads : gmap Z Z) (read_ts : Z) : Z := default 0 (reads !! read_ts).
(** [++] and [--] on an [int]. *)
Definition int_ok (z : Z) : res Z := if decide (in_s 32 z) then Ok z else Err UndefinedBehaviour.

(** [for (timestamp_t i = watermark_;; i++)] until [i] is in the map.  Without such an [i]
    the counter ends in a signed overflow; [horizon] is how far there is anything to find. *)
Fixpoint probe (steps : nat) (i : Z) (reads : gmap Z Z) : res Z :=
  match steps with
  | O => Err UndefinedBehaviour
  | S steps => match reads !! i with Some _ => Ok i | None => probe steps (i + 1) reads end
  end.
Definition last_read (reads : gmap Z Z) : Z := foldr Z.max (- 2 ^ 63) (map_to_list reads).*1.
Definition horizon (i : Z) (reads : gmap Z Z) : nat := Z.to_nat (last_read reads - i + 1).
Definition advance : M Watermark unit :=
  w ← get_state;
  ts ← lift (probe (horizon (watermark_ w) (current_reads_ w)) (watermark_ w) (current_reads_ w));
  modify (with_watermark ts).

Definition AddTxn (read_ts : Z) : M Watermark unit :=
  w ← get_state;
  if read_ts <? commit_ts_ w then throw RuntimeException
  else
    n ← lift (int_ok (count (current_reads_ w) read_ts + 1));
    modify (with_reads (<[read_ts := n]> (current_reads_ w)));;
    advance.

Definition RemoveTxn (read_ts : Z) : M Watermark unit :=
  w ← get_state;
  n ← lift (int_ok (count (current_reads_ w) read_ts - 1));
  let reads := if n =? 0 then delete read_ts (current_reads_ w) else <[read_ts := n]> (current_reads_ w) in
  modify (with_reads reads);;
  if bool_decide (reads = ∅) then modify (fun w => with_watermark (commit_ts_ w) w)
  else advance.

Definition UpdateCommitTs (commit_ts : Z) (w : Watermark) : Watermark :=
  mk_Watermark commit_ts (watermark_ w) (current_reads_ w).
Definition GetWatermark (w : Watermark) : Z :=
  if bool_decide (current_reads_ w = ∅) then commit_ts_ w else watermark_ w.
End Watermark.

(** ** The search *)
Lemma last_read_ge reads i n : reads !! i = Some n -> i <= Watermark.last_read reads.
Proof.
  intros Hi. apply elem_of_map_to_list in Hi. unfold Watermark.last_read.
  induction (map_to_list reads) as [|[j m] l IH]; [by apply not_elem_of_nil in Hi|].
  cbn. apply elem_of_cons in Hi as [[= -> ->]|Hi]; [lia|]. specialize (IH Hi). lia.
Qed.

Lemma probe_finds steps i reads k : i <= k -> is_Some (reads !! k) ->
  (forall j, i <= j < k -> reads !! j = None) -> (Z.to_nat (k - i) < steps)%nat ->
  Watermark.probe steps i reads = Ok k.
Proof.
  revert i. induction steps as [|steps IH]; intros i Hik Hk Hno Hs; [lia|]. cbn.
  destruct (decide (i = k)) as [->|Hne]; [by destruct Hk as [n ->]|].
  rewrite Hno by lia. apply IH; [lia|done|intros; apply Hno; lia|lia].
Qed.

Lemma probe_fails steps i reads : (forall j, i <= j -> reads !! j = None) ->
  Watermark.probe steps i reads = Err UndefinedBehaviour.
Proof.
  revert i. induction steps as [|steps IH]; intros i Hno; [done|]. cbn. rewrite Hno by lia. apply IH.
  intros. apply Hno. lia.
Qed.

(** The horizon is far enough: more steps give the same result. *)
Lemma probe_horizon steps i reads : (Watermark.horizon i reads <= steps)%nat ->
  Watermark.probe steps i reads = Watermark.probe (Watermark.horizon i reads) i reads.
Proof.
  remember (Watermark.horizon i reads) as h eqn:Eh. revert i steps Eh. induction h as [|h IH]; intros i steps Eh Hs.
  - rewrite probe_fails; [done|]. intros j Hj. destruct (reads !! j) eqn:E; [|done].
    apply last_read_ge in E. unfold Watermark.horizon in Eh. lia.
  - destruct steps as [|steps]; [lia|]. cbn. destruct (reads !! i); [done|]. apply IH; [|lia].
    unfold Watermark.horizon in *. lia.
Qed.

(** ** The specification: a commit timestamp and the multiset of timestamps being read *)
Abbreviation ledger := (Z * gmultiset Z)%type.

Definition oldest (l : ledger) (ts : Z) : Prop :=
  if decide (l.2 = ∅) then ts = l.1 else ts ∈ l.2 /\ forall x, x ∈ l.2 -> ts <= x.

Record wm_rep (w : Watermark) (l : ledger) : Prop := {
  wr_commit : commit_ts_ w = l.1;
  wr_reads r : current_reads_ w !! r =
    if decide (r ∈ l.2) then Some (Z.of_nat (multiplicity r l.2)) else None;
  wr_mark : if decide (l.2 = ∅) then watermark_ w <= l.1
    else watermark_ w ∈ l.2 /\ forall x, x ∈ l.2 -> watermark_ w <= x;
  wr_range : in_s 64 l.1;
  wr_size : Z.of_nat (size l.2) < 2 ^ 31
}.

Inductive wm_op : Type := Add (read_ts : Z) | Remove (read_ts : Z) | Commit (commit_ts : Z).

Definition wm_step (o : wm_op) : M Watermark unit :=
  match o with
  | Add r => Watermark.AddTxn r
  | Remove r => Watermark.RemoveTxn r
  | Commit c => modify (Watermark.UpdateCommitTs c)
  end.
Definition ledger_step (o : wm_op) (l : ledger) : ledger :=
  match o with
  | Add r => (l.1, l.2 ⊎ {[+ r +]})
  | Remove r => (l.1, l.2 ∖ {[+ r +]})
  | Commit c => (c, l.2)
  end.
(** Transactions begin at or behind the last commit and not before the oldest reader, end
    once, and commit timestamps do not decrease. *)
Definition wm_legal (o : wm_op) (l : ledger) : Prop :=
  match o with
  | Add r => l.1 <= r /\ (l.2 <> ∅ -> exists x, x ∈ l.2 /\ x <= r) /\ in_s 64 r /\
      Z.of_nat (size l.2) + 1 < 2 ^ 31
  | Remove r => r ∈ l.2
  | Commit c => l.1 <= c /\ in_s 64 c
  end.

Fixpoint wm_run (ops : list wm_op) : M Watermark unit :=
  match ops with [] => mret tt | o :: ops => wm_step o;; wm_run ops end.
Fixpoint ledger_run (ops : list wm_op) (l : ledger) : ledger :=
  match ops with [] => l | o :: ops => ledger_run ops (ledger_step o l) end.
Fixpoint wm_legal_run (ops : list wm_op) (l : ledger) : Prop :=
  match ops with [] => True | o :: ops => wm_legal o l /\ wm_legal_run ops (ledger_step o l) end.

(** ** Refinement *)
Definition counts (reads : gmap Z Z) (R : gmultiset Z) : Prop := forall r,
  reads !! r = if decide (r ∈ R) then Some (Z.of_nat (multiplicity r R)) else None.

Lemma size_multiplicity r (R : gmultiset Z) : (multiplicity r R <= size R)%nat.
Proof.
  induction R as [|x R IH] using gmultiset_ind; [by rewrite multiplicity_empty; lia|].
  rewrite multiplicity_disj_union, gmultiset_size_disj_union, gmultiset_size_singleton, multiplicity_singleton.
  case_decide; lia.
Qed.

Lemma counts_of reads R r : counts reads R -> Watermark.count reads r = Z.of_nat (multiplicity r R).
Proof.
  intros Hr. unfold Watermark.count. rewrite (Hr r). case_decide as Hin; [done|].
  apply not_elem_of_multiplicity in Hin. by rewrite Hin.
Qed.

Lemma counts_empty reads R : counts reads R -> reads = ∅ <-> R = ∅.
Proof.
  intros Hr. split; intros ->.
  - apply gmultiset_eq. intros x. specialize (Hr x). rewrite lookup_empty in Hr. case_decide as Hx; [done|].
    apply not_elem_of_multiplicity in Hx. by rewrite multiplicity_empty.
  - apply map_eq. intros x. rewrite (Hr x), lookup_empty, decide_False; [done|]. by intros ?%gmultiset_elem_of_empty.
Qed.

Lemma counts_set reads R R' r n : counts reads R -> multiplicity r R' = Z.to_nat n -> 0 < n ->
  (forall x, x <> r -> multiplicity x R' = multiplicity x R) -> counts (<[r := n]> reads) R'.
Proof.
  intros Hr Hm Hn Hne x. destruct (decide (x = r)) as [->|Hx].
  - rewrite lookup_insert_eq, Hm. rewrite decide_True by (rewrite elem_of_multiplicity; lia). f_equal. lia.
  - rewrite lookup_insert_ne, (Hr x) by done. rewrite Hne by done. apply decide_ext.
    by rewrite !elem_of_multiplicity, Hne.
Qed.

(** Counting up from below reaches the oldest timestamp. *)
Lemma advance_rep w R : counts (current_reads_ w) R -> R <> ∅ -> (forall r, r ∈ R -> watermark_ w <= r) ->
  exists k, Watermark.advance w = (Ok tt, Watermark.with_watermark k w) /\ k ∈ R /\ forall x, x ∈ R -> k <= x.
Proof.
  intros Hreads Hne Hlow.
  assert (forall n : nat, (exists r, r ∈ R /\ (Z.to_nat (r - watermark_ w) < n)%nat) ->
    exists k, k ∈ R /\ forall x, x ∈ R -> k <= x) as Hmin.
  { induction n as [|n IH]; intros (r & Hr & Hn); [lia|].
    destruct (decide (Exists (fun x => x < r) (elements R))) as [(x & Hx & Hlt)%Exists_exists|Hno].
    - apply IH. exists x. apply list_elem_of_In, gmultiset_elem_of_elements in Hx. pose proof (Hlow x Hx). split; [done|lia].
    - exists r. split; [done|]. intros x Hx. destruct (Z.le_gt_cases r x); [done|]. destruct Hno.
      apply Exists_exists. exists x. split; [by apply list_elem_of_In, gmultiset_elem_of_elements|lia]. }
  destruct (gmultiset_choose _ Hne) as [r0 Hr0].
  destruct (Hmin (S (Z.to_nat (r0 - watermark_ w)))) as (k & Hk & Hmink); [exists r0; split; [done|lia]|].
  exists k. split; [|done]. unfold Watermark.advance, lift, get_state, mbind, M_bind.
  assert (is_Some (current_reads_ w !! k)) as Hsome by (rewrite (Hreads k), decide_True; done).
  pose proof Hsome as [n Hn]. apply last_read_ge in Hn. pose proof (Hlow k Hk).
  rewrite (probe_finds _ _ _ k); [done|done|done| |].
  - intros j Hj. rewrite (Hreads j), decide_False; [done|]. intros Hjin. pose proof (Hmink j Hjin). lia.
  - unfold Watermark.horizon. lia.
Qed.

Lemma AddTxn_rep w l r : wm_rep w l -> wm_legal (Add r) l ->
  exists w', Watermark.AddTxn r w = (Ok tt, w') /\ wm_rep w' (ledger_step (Add r) l).
Proof.
  intros Hr (Hc & Hlow & Hrange & Hsize). unfold Watermark.AddTxn.
  rewrite (bind_ok get_state _ w w w) by done. rewrite (wr_commit _ _ Hr).
  destruct (Z.ltb_spec r l.1); [lia|]. rewrite (counts_of _ _ r (wr_reads _ _ Hr)).
  pose proof (size_multiplicity r l.2). unfold Watermark.int_ok. rewrite decide_True by width.
  set (n := Z.of_nat (multiplicity r l.2) + 1).
  rewrite (bind_ok (lift _) _ w n w) by done.
  rewrite (bind_ok (modify _) _ w tt (Watermark.with_reads (<[r := n]> (current_reads_ w)) w)) by done.
  assert (counts (<[r := n]> (current_reads_ w)) (l.2 ⊎ {[+ r +]})) as Hreads.
  { apply (counts_set _ _ _ _ _ (wr_reads _ _ Hr)); [|lia|].
    - rewrite multiplicity_disj_union, multiplicity_singleton_eq. lia.
    - intros x Hx. rewrite multiplicity_disj_union, multiplicity_singleton_ne by done. lia. }
  destruct (advance_rep (Watermark.with_reads (<[r := n]> (current_reads_ w)) w) _ Hreads) as (k & E & Hk & Hmin).
  { intros He. apply (f_equal (multiplicity r)) in He. rewrite multiplicity_disj_union, multiplicity_singleton_eq, multiplicity_empty in He. lia. }
  { cbn. intros x. rewrite gmultiset_elem_of_disj_union, gmultiset_elem_of_singleton.
    pose proof (wr_mark _ _ Hr) as Hm. case_decide as He.
    - rewrite He, gmultiset_elem_of_empty. intros [[]| ->]. lia.
    - destruct (Hlow He) as (y & Hy & Hyr). destruct Hm as [_ Hm]. pose proof (Hm y Hy). intros [Hx| ->]; [by apply Hm|lia]. }
  eexists. split; [exact E|]. cbn [ledger_step]. split; cbn [fst snd].
  - apply (wr_commit _ _ Hr).
  - exact Hreads.
  - cbn. rewrite decide_False; [done|]. intros He. rewrite He in Hk. by apply gmultiset_elem_of_empty in Hk.
  - apply (wr_range _ _ Hr).
  - rewrite gmultiset_size_disj_union, gmultiset_size_singleton. lia.
Qed.

Lemma RemoveTxn_rep w l r : wm_rep w l -> wm_legal (Remove r) l ->
  exists w', Watermark.RemoveTxn r w = (Ok tt, w') /\ wm_rep w' (ledger_step (Remove r) l).
Proof.
  intros Hr Hin. cbn in Hin. unfold Watermark.RemoveTxn.
  rewrite (bind_ok get_state _ w w w) by done. rewrite (counts_of _ _ r (wr_reads _ _ Hr)).
  pose proof (size_multiplicity r l.2). pose proof (wr_size _ _ Hr). pose proof Hin as Hmul.
  rewrite elem_of_multiplicity in Hmul. unfold Watermark.int_ok. rewrite decide_True by width.
  set (n := Z.of_nat (multiplicity r l.2) - 1). rewrite (bind_ok (lift _) _ w n w) by done.
  set (reads := if n =? 0 then delete r (current_reads_ w) else <[r := n]> (current_reads_ w)). cbv zeta.
  assert (multiplicity r (l.2 ∖ {[+ r +]}) = Z.to_nat n) as Hmr.
  { rewrite multiplicity_difference, multiplicity_singleton_eq. unfold n. lia. }
  assert (forall x, x <> r -> multiplicity x (l.2 ∖ {[+ r +]}) = multiplicity x l.2) as Hmne.
  { intros x Hx. rewrite multiplicity_difference, multiplicity_singleton_ne by done. lia. }
  assert (counts reads (l.2 ∖ {[+ r +]})) as Hreads.
  { unfold reads. destruct (Z.eqb_spec n 0) as [Hn|Hn].
    - intros x. destruct (decide (x = r)) as [->|Hx].
      + rewrite lookup_delete_eq, decide_False; [done|]. rewrite elem_of_multiplicity, Hmr. lia.
      + rewrite lookup_delete_ne, (wr_reads _ _ Hr x), Hmne by done. apply decide_ext.
        by rewrite !elem_of_multiplicity, Hmne.
    - apply (counts_set _ _ _ _ _ (wr_reads _ _ Hr)); [done|unfold n in *; lia|done]. }
  rewrite (bind_ok (modify _) _ w tt (Watermark.with_reads reads w)) by done.
  assert (Z.of_nat (size (l.2 ∖ {[+ r +]})) < 2 ^ 31) as Hsize.
  { rewrite gmultiset_size_difference by (by apply gmultiset_singleton_subseteq_l). lia. }
  destruct (bool_decide (reads = ∅)) eqn:He.
  - apply bool_decide_eq_true in He. apply (counts_empty _ _ Hreads) in He.
    eexists. split; [done|]. cbn [ledger_step]. split; cbn [fst snd]; [apply (wr_commit _ _ Hr)|done| |apply (wr_range _ _ Hr)|done].
    rewrite decide_True by done. cbn. rewrite (wr_commit _ _ Hr). lia.
  - apply bool_decide_eq_false in He. rewrite (counts_empty _ _ Hreads) in He.
    pose proof (wr_mark _ _ Hr) as Hm. rewrite decide_False in Hm.
    2:{ intros Hl. rewrite Hl in Hin. by apply gmultiset_elem_of_empty in Hin. }
    destruct (advance_rep (Watermark.with_reads reads w) _ Hreads He) as (k & E & Hk & Hmin).
    { cbn. intros x Hx. apply Hm. rewrite elem_of_multiplicity in Hx |- *. rewrite multiplicity_difference in Hx. lia. }
    eexists. split; [exact E|]. cbn [ledger_step]. split; cbn [fst snd]; [apply (wr_commit _ _ Hr)|exact Hreads| |apply (wr_range _ _ Hr)|done].
    rewrite decide_False by done. done.
Qed.

Lemma wm_step_rep o w l : wm_rep w l -> wm_legal o l ->
  exists w', wm_step o w = (Ok tt, w') /\ wm_rep w' (ledger_step o l).
Proof.
  intros Hr Hl. destruct o as [r|r|c]; [by apply AddTxn_rep|by apply RemoveTxn_rep|].
  destruct Hl as [Hc Hrange]. eexists. split; [done|]. split; cbn; try apply Hr; try done.
  pose proof (wr_mark _ _ Hr) as Hm. destruct (decide (l.2 = ∅)); [lia|done].
Qed.

Lemma wm_run_rep ops w l : wm_rep w l -> wm_legal_run ops l ->
  exists w', wm_run ops w = (Ok tt, w') /\ wm_rep w' (ledger_run ops l).
Proof.
  revert w l. induction ops as [|o ops IH]; intros w l Hr Hl; [by exists w|]. destruct Hl as [Ho Hl].
  destruct (wm_step_rep o w l Hr Ho) as (w1 & E & Hr1). cbn [wm_run]. rewrite (bind_ok _ _ _ _ _ E). by apply IH.
Qed.

Lemma make_rep c : in_s 64 c -> wm_rep (Watermark.make c) (c, ∅).
Proof.
  intros Hc. split; cbn [Watermark.make commit_ts_ watermark_ current_reads_ fst snd]; try done.
  by rewrite decide_True by done.
Qed.

(** C19: the watermark is the oldest read timestamp in use.  Driven through any sequence in
    which transactions begin at or behind the last commit and not before the oldest running
    one, end once, and commit timestamps do not decrease, no call fails, every search for
    the next timestamp ends, and [GetWatermark] answers the least timestamp among the
    running transactions, or the last commit when there are none. *)
Theorem watermark_is_oldest_read c ops : in_s 64 c -> wm_legal_run ops (c, ∅) ->
  exists w, wm_run ops (Watermark.make c) = (Ok tt, w) /\
    oldest (ledger_run ops (c, ∅)) (Watermark.GetWatermark w).
Proof.
  intros Hc Hl. destruct (wm_run_rep ops _ _ (make_rep c Hc) Hl) as (w & E & Hr). exists w. split; [done|].
  unfold oldest, Watermark.GetWatermark. pose proof (wr_mark _ _ Hr) as Hm.
  pose proof (counts_empty _ _ (wr_reads _ _ Hr)) as He. case_decide as Hl2.
  - rewrite bool_decide_true by (by apply He). apply (wr_commit _ _ Hr).
  - by rewrite bool_decide_false by (by rewrite He).
Qed.

(** C35: [AddTxn] accepts a transaction that reads before the watermark as long as it reads
    behind the last commit, but its search only counts upwards: [GetWatermark] then skips
    the older reader, and when the newer one ends, the search finds nothing above the
    watermark and runs on until the counter overflows. *)
Theorem watermark_skips_older_reader c r s : c <= r < s -> in_s 64 s ->
  exists w, wm_run [Add s; Add r] (Watermark.make c) = (Ok tt, w) /\
    ledger_run [Add s; Add r] (c, ∅) = (c, {[+ s; r +]}) /\ Watermark.GetWatermark w = s /\
    (Watermark.RemoveTxn s w).1 = Err UndefinedBehaviour.
Proof.
  intros Hcr Hs. set (w1 := mk_Watermark c s {[s := 1]}). set (w2 := mk_Watermark c s (<[r := 1]> {[s := 1]})).
  assert (Watermark.AddTxn s (Watermark.make c) = (Ok tt, w1)) as E1.
  { unfold Watermark.AddTxn. rewrite (bind_ok get_state _ _ (Watermark.make c) _ eq_refl). cbn [Watermark.make commit_ts_ current_reads_].
    destruct (Z.ltb_spec s c); [lia|]. rewrite (bind_ok (lift _) _ _ 1 (Watermark.make c)) by done.
    rewrite (bind_ok (modify _) _ _ tt (mk_Watermark c c {[s := 1]})) by done.
    unfold Watermark.advance, lift, get_state, mbind, M_bind. cbn [current_reads_ watermark_].
    rewrite (probe_finds _ _ _ s); [done|lia|by rewrite lookup_singleton_eq| |].
    - intros j Hj. by rewrite lookup_singleton_ne by lia.
    - pose proof (last_read_ge {[s := 1]} s 1 (lookup_singleton_eq _ _)). unfold Watermark.horizon. lia. }
  assert (Watermark.AddTxn r w1 = (Ok tt, w2)) as E2.
  { unfold Watermark.AddTxn. rewrite (bind_ok get_state _ _ w1 _ eq_refl). cbn [w1 commit_ts_ current_reads_].
    destruct (Z.ltb_spec r c); [lia|]. unfold Watermark.count. rewrite lookup_singleton_ne by lia.
    rewrite (bind_ok (lift _) _ _ 1 w1) by done.
    rewrite (bind_ok (modify _) _ _ tt w2) by done.
    unfold Watermark.advance, lift, get_state, mbind, M_bind. cbn [w2 current_reads_ watermark_].
    rewrite (probe_finds _ _ _ s); [done|lia| |lia|].
    - rewrite lookup_insert_ne by lia. by rewrite lookup_singleton_eq.
    - assert (is_Some ((<[r := 1]> {[s := 1]} : gmap Z Z) !! s)) as [n Hn].
      { rewrite lookup_insert_ne by lia. by rewrite lookup_singleton_eq. }
      apply last_read_ge in Hn. unfold Watermark.horizon. lia. }
  exists w2. split; [|split; [|split]].
  - cbn [wm_run wm_step]. rewrite (bind_ok _ _ _ _ _ E1). by rewrite (bind_ok _ _ _ _ _ E2).
  - unfold ledger_run, ledger_step. cbn [fst snd]. by rewrite (left_id_L ∅ (⊎)).
  - unfold Watermark.GetWatermark. rewrite bool_decide_false; [done|]. cbn. apply insert_non_empty.
  - unfold Watermark.RemoveTxn. rewrite (bind_ok get_state _ _ w2 _ eq_refl). cbn [w2 current_reads_].
    unfold Watermark.count. rewrite lookup_insert_ne, lookup_singleton_eq by lia.
    rewrite (bind_ok (lift _) _ _ 0 w2) by done. cbn [Z.eqb]. cbv zeta.
    rewrite delete_insert_ne by lia. rewrite delete_singleton_eq.
    rewrite (bind_ok (modify _) _ _ tt (Watermark.with_reads (<[r := 1]> ∅) w2)) by done.
    rewrite bool_decide_false by apply insert_non_empty.
    unfold Watermark.advance, lift, get_state, mbind, M_bind. cbn [w2 Watermark.with_reads current_reads_ watermark_].
    rewrite probe_fails; [done|]. intros j Hj. by rewrite lookup_insert_ne, lookup_empty by lia.
Qed.

Lemma watermark_is_oldest_read_witness :
  exists w, wm_run [Add 1; Add 3; Commit 4; Remove 1; Add 5] (Watermark.make 0) = (Ok tt, w) /\
    Watermark.GetWatermark w = 3.
Proof.
  destruct (watermark_is_oldest_read 0 [Add 1; Add 3; Commit 4; Remove 1; Add 5]) as (w & E & _).
  - width.
  - cbn. split_and!; try done; try width; try multiset_solver.
    + intros _. exists 1. split; [vm_compute; lia|lia].
    + intros _. exists 3. split; [vm_compute; lia|lia].
  - exists w. split; [exact E|]. vm_compute in E. injection E as <-. reflexivity.
Defined.

Lemma watermark_skips_older_reader_witness :
  exists w, wm_run [Add 5; Add 3] (Watermark.make 0) = (Ok tt, w) /\ Watermark.GetWatermark w = 5.
Proof.
  destruct (watermark_skips_older_reader 0 3 5) as (w & E & _ & Hw & _); [lia|width|]. by exists w.
Defined.
