(* ===== verification/Transactions.v ===== *)
(** * Transactions: [concurrency/transaction.hpp], [concurrency/transaction_manager.hpp]

    A page in a transaction's page set is the number of its frame; a [Transaction &] is the
    id under which the manager keeps it. *)
From S2P Require Import Prelude Types Watermark.
From stdpp Require Import gmultiset.
Open Scope Z_scope.

Inductive IsolationLevel : Type := READ_UNCOMMITTED | REPEATABLE_READ | READ_COMMITTED.

Record Transaction := mk_Transaction {
  txn_id_ : Z;                        (* int64_t *)
  isolation_level_ : IsolationLevel;
  read_ts_ : Z;
  txn_commit_ts_ : Z;
  page_set_ : list Z;                 (* a deque of pages latched during an index operation *)
  deleted_page_set_ : gset Z
}.

Module Transaction.
Definition make (txn_id : Z) (isolation_level : IsolationLevel) : Transaction :=
  mk_Transaction txn_id isolation_level 0 INVALID_TS [] ∅.
Definition with_page_set (l : list Z) (t : Transaction) : Transaction :=
  mk_Transaction (txn_id_ t) (isolation_level_ t) (read_ts_ t) (txn_commit_ts_ t) l (deleted_page_set_ t).
Definition with_read_ts (ts : Z) (t : Transaction) : Transaction :=
  mk_Transaction (txn_id_ t) (isolation_level_ t) ts (txn_commit_ts_ t) (page_set_ t) (deleted_page_set_ t).
Definition GetPageSet (t : Transaction) : list Z := page_set_ t.
Definition AddIntoPageSet (page : Z) (t : Transaction) : Transaction := with_page_set (page_set_ t ++ [page]) t.
Definition GetReadTs (t : Transaction) : Z := read_ts_ t.
Definition GetCommitTs (t : Transaction) : Z := txn_commit_ts_ t.
End Transaction.

Record TransactionManager := mk_TransactionManager {
  next_txn_id_ : Z;                   (* int64_t *)
  txn_map_ : gmap Z Transaction;
  last_commit_ts_ : Z;
  running_txns_ : Watermark
}.

Module TransactionManager.
Definition make : TransactionManager := mk_TransactionManager TXN_START_ID ∅ 0 (Watermark.make 0).
Definition with_running {A} (m : M Watermark A) : M TransactionManager A := fun s =>
  match m (running_txns_ s) with
  | (r, w) => (r, mk_TransactionManager (next_txn_id_ s) (txn_map_ s) (last_commit_ts_ s) w)
  end.

(** The counter is atomic, so it wraps. *)
Definition Begin (isolation_level : IsolationLevel) : M TransactionManager Z :=
  s ← get_state;
  let txn_id := next_txn_id_ s in
  modify (fun s => mk_TransactionManager (swrap 64 (txn_id + 1)) (txn_map_ s) (last_commit_ts_ s) (running_txns_ s));;
  match txn_map_ s !! txn_id with
  | Some _ => throw RuntimeException
  | None =>
    let txn := Transaction.with_read_ts (last_commit_ts_ s) (Transaction.make txn_id isolation_level) in
    modify (fun s => mk_TransactionManager (next_txn_id_ s) (<[txn_id := txn]> (txn_map_ s)) (last_commit_ts_ s)
                       (running_txns_ s));;
    with_running (Watermark.AddTxn (read_ts_ txn));;
    mret txn_id
  end.
Definition Commit (txn : Z) : M TransactionManager bool := mret true.
Definition Abort (txn : Z) : M TransactionManager unit := mret tt.
Definition GetWatermark (s : TransactionManager) : Z := Watermark.GetWatermark (running_txns_ s).
End TransactionManager.

(** ** Reachable states *)
Inductive txn_op : Type := OpBegin (isolation_level : IsolationLevel) | OpCommit (txn : Z) | OpAbort (txn : Z).

(** One call of the manager: the transaction it began, if any. *)
Inductive tm_step : txn_op -> TransactionManager -> option Z -> TransactionManager -> Prop :=
| step_begin i s txn s' : TransactionManager.Begin i s = (Ok txn, s') -> tm_step (OpBegin i) s (Some txn) s'
| step_commit txn s s' : is_Some (txn_map_ s !! txn) -> TransactionManager.Commit txn s = (Ok true, s') ->
    tm_step (OpCommit txn) s None s'
| step_abort txn s s' : is_Some (txn_map_ s !! txn) -> TransactionManager.Abort txn s = (Ok tt, s') ->
    tm_step (OpAbort txn) s None s'.

(** Reachable from a new manager; [n] transactions were begun on the way. *)
Inductive reachable : nat -> TransactionManager -> Prop :=
| reach_new : reachable 0 TransactionManager.make
| reach_step n o s txn s' : reachable n s -> tm_step o s txn s' ->
    reachable (match txn with Some _ => S n | None => n end) s'.

Record tm_ok (n : nat) (s : TransactionManager) : Prop := {
  tm_next : next_txn_id_ s = TXN_START_ID + Z.of_nat n;
  tm_last : last_commit_ts_ s = 0;
  tm_running : wm_rep (running_txns_ s) (0, n *: {[+ 0 +]});
  tm_txns id : is_Some (txn_map_ s !! id) <-> TXN_START_ID <= id < TXN_START_ID + Z.of_nat n;
  tm_txn id t : txn_map_ s !! id = Some t -> exists i, t = Transaction.make id i
}.

Lemma begin_ok n s i : tm_ok n s -> Z.of_nat n + 1 < 2 ^ 31 ->
  exists s', TransactionManager.Begin i s = (Ok (TXN_START_ID + Z.of_nat n), s') /\ tm_ok (S n) s'.
Proof.
  intros Hok Hn. unfold TransactionManager.Begin. rewrite (bind_ok get_state _ s s s eq_refl). cbv zeta.
  rewrite (tm_next _ _ Hok). set (id := TXN_START_ID + Z.of_nat n).
  assert (txn_map_ s !! id = None) as Hid.
  { apply eq_None_not_Some. intros H%(tm_txns _ _ Hok). lia. }
  rewrite Hid, (tm_last _ _ Hok).
  destruct (AddTxn_rep (running_txns_ s) _ 0 (tm_running _ _ Hok)) as (w & E & Hw).
  { cbn [wm_legal fst snd]. split_and!; [lia| |width|].
    - intros Hne. destruct (gmultiset_choose _ Hne) as [x Hx]. exists x. split; [done|].
      apply gmultiset_elem_of_scalar_mul in Hx as [_ Hx]. apply gmultiset_elem_of_singleton in Hx. lia.
    - rewrite gmultiset_size_scalar_mul, gmultiset_size_singleton. lia. }
  unfold modify, mbind, M_bind, TransactionManager.with_running, mret, M_ret.
  cbn [running_txns_ Transaction.with_read_ts Transaction.make read_ts_ next_txn_id_ txn_map_ last_commit_ts_].
  rewrite E. eexists. split; [done|]. split; cbn [running_txns_ next_txn_id_ txn_map_ last_commit_ts_].
  - unfold id, TXN_START_ID. rewrite swrap_id by width. lia.
  - apply (tm_last _ _ Hok).
  - cbn [ledger_step fst snd] in Hw. rewrite gmultiset_scalar_mul_S_r. exact Hw.
  - intros j. destruct (decide (j = id)) as [->|Hj].
    + rewrite lookup_insert_eq. unfold id. split; [lia|by eexists].
    + rewrite lookup_insert_ne by done. rewrite (tm_txns _ _ Hok). unfold id in Hj. lia.
  - intros j t. destruct (decide (j = id)) as [->|Hj].
    + rewrite lookup_insert_eq. intros [= <-]. by exists i.
    + rewrite lookup_insert_ne by done. apply (tm_txn _ _ Hok).
Qed.

Lemma reachable_ok n s : reachable n s -> Z.of_nat n < 2 ^ 31 -> tm_ok n s.
Proof.
  induction 1 as [|n o s txn s' Hr IH Hstep]; intros Hn.
  - split; [cbn; lia|done|exact (make_rep 0 ltac:(width))| |].
    + intros id. cbn. rewrite lookup_empty. split; [by intros [? ?]|lia].
    + intros id t. cbn. by rewrite lookup_empty.
  - inversion Hstep as [i s1 t s2 E|t s1 s2 _ E|t s1 s2 _ E]; subst; cbn in Hn.
    + destruct (begin_ok n s i (IH ltac:(lia)) ltac:(lia)) as (s2 & E' & Hok). rewrite E in E'. by injection E' as _ ->.
    + injection E as <-. by apply IH.
    + injection E as <-. by apply IH.
Qed.

(** C34: whatever calls were made, [Begin] succeeds and hands out a new id; and since neither
    [Commit] nor [Abort] does anything, every transaction ever begun is still registered,
    reads at timestamp 0 and has no commit timestamp, and the watermark stays at 0. *)
Theorem transactions_never_advance n s : reachable n s -> Z.of_nat n + 1 < 2 ^ 31 ->
  (forall i, exists txn s', TransactionManager.Begin i s = (Ok txn, s') /\ txn_map_ s !! txn = None) /\
  (forall txn, is_Some (txn_map_ s !! txn) <-> TXN_START_ID <= txn < TXN_START_ID + Z.of_nat n) /\
  (forall txn t, txn_map_ s !! txn = Some t -> txn_id_ t = txn /\
     Transaction.GetReadTs t = 0 /\ Transaction.GetCommitTs t = INVALID_TS) /\
  TransactionManager.GetWatermark s = 0.
Proof.
  intros Hr Hn. assert (tm_ok n s) as Hok by (apply reachable_ok; [done|lia]). split_and!.
  - intros i. destruct (begin_ok n s i Hok Hn) as (s' & E & _). eexists _, s'. split; [exact E|].
    apply eq_None_not_Some. intros H%(tm_txns _ _ Hok). lia.
  - apply (tm_txns _ _ Hok).
  - intros txn t Ht. by destruct (tm_txn _ _ Hok txn t Ht) as [i ->].
  - unfold TransactionManager.GetWatermark, Watermark.GetWatermark. pose proof (tm_running _ _ Hok) as Hw.
    case_bool_decide; [apply (wr_commit _ _ Hw)|]. pose proof (wr_mark _ _ Hw) as Hm. cbn [fst snd] in Hm.
    rewrite decide_False in Hm by (rewrite <- (counts_empty _ _ (wr_reads _ _ Hw)); done).
    destruct Hm as [Hm _]. apply gmultiset_elem_of_scalar_mul in Hm as [_ Hm]. by apply gmultiset_elem_of_singleton in Hm.
Qed.

Definition one_txn : TransactionManager := (TransactionManager.Begin READ_COMMITTED TransactionManager.make).2.

Lemma transactions_never_advance_witness :
  exists t, txn_map_ one_txn !! TXN_START_ID = Some t /\ Transaction.GetReadTs t = 0 /\
    Transaction.GetCommitTs t = INVALID_TS /\ TransactionManager.GetWatermark one_txn = 0.
Proof.
  destruct (transactions_never_advance 1 one_txn) as (_ & Hin & Ht & Hw).
  - apply (reach_step 0 (OpBegin READ_COMMITTED) TransactionManager.make (Some TXN_START_ID)); [constructor|].
    constructor. vm_compute. reflexivity.
  - reflexivity.
  - destruct (Hin TXN_START_ID) as [_ [t Hl]]; [vm_compute; split; [discriminate|reflexivity]|].
    exists t. split; [exact Hl|]. destruct (Ht _ _ Hl) as (_ & Hr & Hc). split; [exact Hr|]. split; [exact Hc|exact Hw].
Defined.
