(* ===== verification/BTreeIndex.v ===== *)
(** * The B+ tree index: [index/bplus_tree_index.hpp], and what internal pages do through
    the buffer pool ([storage/page/btree_internal_page.hpp], [MoveHalfTo], [CopyNFrom])

    A [Page &], and the node that lies in it, is the number of its frame; it stays valid
    when the page is unpinned, as in the code, and then names whatever the frame holds.
    The transaction of the call is part of the state, for its page set. *)
From S2P Require Import Prelude Bytes Types Value Schema Tuple DiskManager BufferPool PageGuard.
From S2P Require Import TableMeta Index BtreePage Transactions.
Import BtreePage.
Open Scope Z_scope.

Record btree (D : Type) := mk_btree {
  bt_bpm_ : BufferPool D;
  bt_table_meta_ : TableMeta;
  bt_index_meta_ : IndexMeta;
  bt_txn_ : Transaction
}.
Arguments mk_btree {D}. Arguments bt_bpm_ {D}. Arguments bt_table_meta_ {D}.
Arguments bt_index_meta_ {D}. Arguments bt_txn_ {D}.

Inductive Operation : Type := SEARCH | INSERT | DELETE.
#[export] Instance Operation_eq_dec : EqDecision Operation.
Proof. solve_decision. Defined.

(** The index as a page allocator. *)
Definition index_allocator : PageAllocator TableMeta := {| AllocatePage := Index.AllocatePage |}.

(** More levels than a tree with 2^31 page numbers can have. *)
Definition LEVELS : nat := 64.

Module BTreeIndex.
Section index.
Context {D : Type} `{PageStore D} `{!HashOrder Z bool} `{!LeafLayout} `{!Value.StringLayout}.
Variable comparator_ : Comparator.
Abbreviation tree := (btree D).

(** *** Access to the parts of the state *)
Definition with_pool {A} (m : M (BufferPool D) A) : M tree A := fun s =>
  match m (bt_bpm_ s) with
  | (r, p) => (r, mk_btree p (bt_table_meta_ s) (bt_index_meta_ s) (bt_txn_ s))
  end.
Definition set_page_set (l : list Z) : M tree unit :=
  modify (fun s => mk_btree (bt_bpm_ s) (bt_table_meta_ s) (bt_index_meta_ s) (Transaction.with_page_set l (bt_txn_ s))).
Definition AddIntoPageSet (page : Z) : M tree unit :=
  modify (fun s => mk_btree (bt_bpm_ s) (bt_table_meta_ s) (bt_index_meta_ s) (Transaction.AddIntoPageSet page (bt_txn_ s))).
Definition set_header_page_id (n : Z) : M tree unit :=
  modify (fun s => mk_btree (bt_bpm_ s) (bt_table_meta_ s) (IndexMeta.set_header_page_id n (bt_index_meta_ s)) (bt_txn_ s)).
Definition table_page (page_number : Z) : M tree PageId :=
  s ← get_state; mret (mk_PageId (table_oid_ (bt_table_meta_ s)) page_number).

(** The bytes under a reference, read and changed. *)
Definition node (page : Z) : M tree (list byte) :=
  p ← with_pool (BufferPool.get_page page); mret (Page.GetData p).
Definition store (page : Z) (bytes : list byte) : M tree unit := with_pool (write_frame page bytes).
Definition on_node {A} (page : Z) (m : M (list byte) A) : M tree A :=
  bytes ← node page; store page (m bytes).2;; lift (m bytes).1.
Definition page_id (page : Z) : M tree PageId :=
  p ← with_pool (BufferPool.get_page page); mret (Page.GetPageId p).

(** [NewPage] with the index as the allocator; a new [BasicPageGuard] adds nothing to it. *)
Definition new_page : M tree (Z * PageId) := fun s =>
  match @BufferPool.NewPage _ _ _ _ index_allocator (bt_table_meta_ s) (bt_bpm_ s) with
  | (Ok (f, id, m), p) => (Ok (f, id), mk_btree p m (bt_index_meta_ s) (bt_txn_ s))
  | (Err e, p) => (Err e, mk_btree p (bt_table_meta_ s) (bt_index_meta_ s) (bt_txn_ s))
  end.
(** [NewPageGuarded(...).UpgradeWrite().AsMut<T>()], up to the end of the
    statement, where the temporary guard releases the page: the reference is left. *)
Definition new_page_unguarded : M tree (Z * PageId) :=
  r ← new_page;
  g ← with_pool (BasicPageGuard.UpgradeWrite (BasicPageGuard.make r.1));
  with_pool (WritePageGuard.Drop (BasicPageGuard.GetDataMut g.1));;
  mret r.

(** [BTreeIndex::BTreeIndex], after the base class has chosen [comparator_]. *)
Definition BTreeIndex : M tree unit :=
  s ← get_state;
  (if header_page_id_ (bt_index_meta_ s) =? INVALID_PAGE_ID then
     r ← new_page;
     g ← with_pool (BasicPageGuard.UpgradeWrite (BasicPageGuard.make r.1));
     let header_pg := BasicPageGuard.GetDataMut g.1 in
     header_page ← node r.1;
     let header_page := BtreeHeaderPage.Init header_page in
     store r.1 header_page;;
     assert_that (INVALID_PAGE_ID <=? page_number_ r.2);;
     store r.1 (BtreeHeaderPage.SetRootPageId INVALID_PAGE_ID header_page);;
     set_header_page_id (page_number_ r.2);;
     with_pool (WritePageGuard.Drop header_pg);; mret tt
   else mret tt);;
  s ← get_state;
  assert_that (0 <=? header_page_id_ (bt_index_meta_ s)).

(** *** Latches and pins *)
Definition IsSafeNode (node : list byte) (operation : Operation) : res bool :=
  _ ← assertion (bool_decide (operation <> SEARCH));
  match operation with
  | INSERT =>
    max ← GetMaxSize node;
    Ok ((IsLeafPage node && (GetSize node <? max)) || (negb (IsLeafPage node) && (GetSize node <? max)))
  | _ => Ok (GetMinSize node <? GetSize node)
  end.

(** The first page of the page set, unlatched and unpinned with a flag. *)
Definition release_front (is_dirty : bool) (page : Z) (rest : list Z) : M tree unit :=
  set_page_set rest;;
  with_pool (latch_op Page.WUnlatch page);;
  id ← page_id page;
  with_pool (BufferPool.UnpinPage id is_dirty);; mret tt.

Definition ReleaseHeaderPageAndMarkDirty : M tree unit :=
  s ← get_state;
  match page_set_ (bt_txn_ s) with
  | [] => throw UndefinedBehaviour
  | page :: rest =>
    header ← node page;
    assert_that (GetPageType header =? HEADER_PAGE);;
    release_front true page rest
  end.

Fixpoint release_all (pages : list Z) : M tree unit :=
  match pages with
  | [] => mret tt
  | page :: rest => release_front false page rest;; release_all rest
  end.
Definition ReleaseParentWriteLatches : M tree unit :=
  s ← get_state; release_all (page_set_ (bt_txn_ s)).

(** *** Searching *)
Fixpoint descend (fuel : nat) (key : IndexKeyType) (operation : Operation) (page : Z) (has_parent : bool) :
    M tree (Z * bool) :=
  match fuel with
  | O => throw UndefinedBehaviour
  | S fuel =>
    btree_node ← node page;
    if IsLeafPage btree_node then mret (page, has_parent)
    else
      child_page_id ← lift (BtreeInternalPage.Lookup key comparator_ btree_node);
      assert_that (0 <? child_page_id);;
      id ← table_page child_page_id;
      child_page ← with_pool (BufferPool.FetchPage id);
      match operation with
      | SEARCH =>
        with_pool (latch_op Page.RLatch child_page);;
        with_pool (latch_op Page.RUnlatch page);;
        id ← page_id page;
        with_pool (BufferPool.UnpinPage id false);; mret tt
      | _ =>
        with_pool (latch_op Page.WLatch child_page);;
        AddIntoPageSet page;;
        child_btree_node ← node child_page;
        safe ← lift (IsSafeNode child_btree_node operation);
        if safe : bool then ReleaseParentWriteLatches else mret tt
      end;;
      descend fuel key operation child_page true
  end.

Definition SearchLeafPage (key : IndexKeyType) (operation : Operation) (header_page : Z) : M tree Z :=
  header_node ← node header_page;
  let root_page_id := BtreeHeaderPage.GetRootPageId header_node in
  assert_that (0 <? root_page_id);;
  id ← table_page root_page_id;
  page ← with_pool (BufferPool.FetchPage id);
  match operation with
  | SEARCH => with_pool (latch_op Page.RUnlatch header_page);; with_pool (latch_op Page.RLatch page)
  | _ => with_pool (latch_op Page.WLatch page)
  end;;
  r ← descend LEVELS key operation page false;
  leaf_node ← node r.1;
  assert_that (negb r.2 || (0 <? GetParentPageId leaf_node));;
  mret r.1.

Definition header_raw_page : M tree Z :=
  s ← get_state;
  with_pool (BufferPool.FetchPage (mk_PageId (table_oid_ (bt_table_meta_ s)) (header_page_id_ (bt_index_meta_ s)))).

(** What is pushed to [values], if anything. *)
Definition InternalScanKey (key : IndexKeyType) : M tree (option RID) :=
  header ← header_raw_page;
  with_pool (latch_op Page.RLatch header);;
  leaf_raw_page ← SearchLeafPage key SEARCH header;
  leaf_page ← node leaf_raw_page;
  value ← lift (BtreeLeafPage.Lookup key comparator_ leaf_page);
  with_pool (latch_op Page.RUnlatch leaf_raw_page);;
  id ← page_id leaf_raw_page;
  with_pool (BufferPool.UnpinPage id false);;
  mret value.

(** *** Splitting *)
Definition SplitLeaf (leaf : Z) : M tree Z :=
  r ← new_page;
  assert_that (0 <? page_number_ r.2);;
  old ← node leaf;
  new ← node r.1;
  let new := SetPageType (GetPageType old) new in
  new ← lift (BtreeLeafPage.Init (page_number_ r.2) (GetParentPageId old) new);
  halves ← lift (BtreeLeafPage.MoveHalfTo old new);
  store leaf halves.1;; store r.1 halves.2;;
  mret r.1.

(** [CopyNFrom] of an internal page: the copied children get the page as their parent, each
    through a guard that is gone before the write. *)
Fixpoint adopt (n : nat) (i : Z) (page : Z) : M tree unit :=
  match n with
  | O => mret tt
  | S n =>
    p ← node page;
    value ← lift (BtreeInternalPage.ValueAt (i + GetSize p) p);
    id ← table_page value;
    g ← with_pool (FetchPageBasic id);
    child ← with_pool (deref g);
    with_pool (BasicPageGuard.Drop (BasicPageGuard.GetDataMut g));;
    p ← node page;
    on_node child (modify (SetParentPageId (GetPageId p)));;
    adopt n (i + 1) page
  end.
Definition CopyNFrom (items : list byte) (size : Z) (page : Z) : M tree unit :=
  p ← node page;
  p ← lift (mem_write (BtreeInternalPage.pos (GetSize p)) items p);
  store page p;;
  adopt (Z.to_nat size) 0 page;;
  on_node page (modify (IncreaseSize size)).

(** [MoveHalfTo] of an internal node that lies in a buffer: the buffer afterwards. *)
Definition MoveHalfTo (buffer : list byte) (recipient : Z) : M tree (list byte) :=
  let start_split_indx := GetMinSize buffer in
  let original_size := GetSize buffer in
  let buffer := SetSize start_split_indx buffer in
  let size := uwrap 64 (original_size - start_split_indx) in
  items ← lift (mem_read (BtreeInternalPage.pos start_split_indx) (INTERNAL_NODE_SIZE * Z.to_nat size) buffer);
  CopyNFrom items size recipient;;
  mret buffer.

Definition SplitInternal (buffer : list byte) : M tree (list byte * Z) :=
  r ← new_page;
  assert_that (0 <? page_number_ r.2);;
  on_node r.1 (modify (SetPageType (GetPageType buffer)));;
  new ← node r.1;
  new ← lift (BtreeInternalPage.Init (page_number_ r.2) (GetParentPageId buffer) new);
  store r.1 new;;
  buffer ← MoveHalfTo buffer r.1;
  mret (buffer, r.1).

(** Two nodes, the key between them, and the header page, all by reference; a parent that is
    full is split in a copy with room for one more node. *)
Fixpoint InsertIntoParent (fuel : nat) (original_node sibling_new_node : Z) (key : IndexKeyType) (header_page : Z) :
    M tree unit :=
  match fuel with
  | O => throw UndefinedBehaviour
  | S fuel =>
    original ← node original_node;
    sibling ← node sibling_new_node;
    if IsRootPage original then
      r ← new_page_unguarded;
      let new_page_id := page_number_ r.2 in
      new_internal_node ← node r.1;
      new_internal_node ← lift (BtreeInternalPage.Init new_page_id INVALID_PAGE_ID new_internal_node);
      new_internal_node ← lift (BtreeInternalPage.PopulateNewRoot (GetPageId original) key (GetPageId sibling) new_internal_node);
      store r.1 new_internal_node;;
      on_node original_node (modify (SetParentPageId new_page_id));;
      on_node sibling_new_node (modify (SetParentPageId new_page_id));;
      on_node header_page (modify (BtreeHeaderPage.SetRootPageId new_page_id));;
      ReleaseHeaderPageAndMarkDirty;;
      ReleaseParentWriteLatches
    else
      id ← table_page (GetParentPageId original);
      parent_page ← with_pool (BufferPool.FetchPage id);
      parent_internal_node ← node parent_page;
      max ← lift (GetMaxSize parent_internal_node);
      if GetSize parent_internal_node <? max then
        parent_internal_node ← lift (BtreeInternalPage.InsertNodeAfter (GetPageId original) key (GetPageId sibling) parent_internal_node);
        store parent_page parent_internal_node;;
        ReleaseParentWriteLatches;;
        id ← page_id parent_page;
        with_pool (BufferPool.UnpinPage id true);; mret tt
      else
        let size := Z.to_nat (GetSize parent_internal_node) in
        let used := (INTERNAL_PAGE_HEADER_SIZE + INTERNAL_NODE_SIZE * size)%nat in
        copied ← lift (mem_read 0 used parent_internal_node);
        let buffer := copied ++ replicate INTERNAL_NODE_SIZE x00 in
        copy_parent_node ← lift (BtreeInternalPage.InsertNodeAfter (GetPageId original) key (GetPageId sibling) buffer);
        r ← SplitInternal copy_parent_node;
        let copy_parent_node := r.1 in
        let parent_new_sibling_node := r.2 in
        new_sibling ← node parent_new_sibling_node;
        new_key ← lift (BtreeInternalPage.KeyAt 0 new_sibling);
        kept ← lift (mem_read 0 (INTERNAL_PAGE_HEADER_SIZE + INTERNAL_NODE_SIZE * Z.to_nat (GetMinSize copy_parent_node))
                       copy_parent_node);
        parent ← node parent_page;
        parent ← lift (mem_write 0 kept parent);
        store parent_page parent;;
        InsertIntoParent fuel parent_page parent_new_sibling_node new_key header_page;;
        id ← page_id parent_page;
        with_pool (BufferPool.UnpinPage id true);;
        new_sibling ← node parent_new_sibling_node;
        id ← table_page (GetPageId new_sibling);
        with_pool (BufferPool.UnpinPage id true);; mret tt
  end.

(** *** Inserting *)
Definition InsertIntoLeaf (key : IndexKeyType) (value : RID) (header_page : Z) : M tree bool :=
  leaf_page ← SearchLeafPage key INSERT header_page;
  leaf_node ← node leaf_page;
  let size := GetSize leaf_node in
  on_node leaf_page (BtreeLeafPage.Insert key value comparator_);;
  leaf_node ← node leaf_page;
  let new_size := GetSize leaf_node in
  max ← lift (GetMaxSize leaf_node);
  if max <=? new_size then
    sibling_leaf_node ← SplitLeaf leaf_page;
    leaf_node ← node leaf_page;
    on_node sibling_leaf_node (modify (BtreeLeafPage.SetNextPageId (BtreeLeafPage.GetNextPageId leaf_node)));;
    sibling ← node sibling_leaf_node;
    on_node leaf_page (modify (BtreeLeafPage.SetNextPageId (GetPageId sibling)));;
    sibling ← node sibling_leaf_node;
    risen_key ← lift (BtreeLeafPage.KeyAt 0 sibling);
    InsertIntoParent LEVELS leaf_page sibling_leaf_node risen_key header_page;;
    with_pool (latch_op Page.WUnlatch leaf_page);;
    id ← page_id leaf_page;
    with_pool (BufferPool.UnpinPage id true);;
    sibling ← node sibling_leaf_node;
    id ← table_page (GetPageId sibling);
    with_pool (BufferPool.UnpinPage id true);;
    mret true
  else
    ReleaseParentWriteLatches;;
    with_pool (latch_op Page.WUnlatch leaf_page);;
    id ← page_id leaf_page;
    with_pool (BufferPool.UnpinPage id true);;
    mret (negb (new_size =? size)).

Definition CreateNewRoot (key : IndexKeyType) (value : RID) (header_page : Z) : M tree unit :=
  r ← new_page_unguarded;
  let root_page_id := page_number_ r.2 in
  leaf_page ← node r.1;
  leaf_page ← lift (BtreeLeafPage.Init root_page_id INVALID_PAGE_ID leaf_page);
  store r.1 leaf_page;;
  assert_that (0 <? root_page_id);;
  on_node header_page (modify (BtreeHeaderPage.SetRootPageId root_page_id));;
  on_node r.1 (BtreeLeafPage.Insert key value comparator_).

Definition InternalInsertRecord (key : IndexKeyType) (value : RID) : M tree bool :=
  header ← header_raw_page;
  with_pool (latch_op Page.WLatch header);;
  AddIntoPageSet header;;
  header_page ← node header;
  if BtreeHeaderPage.TreeIsEmpty header_page then
    CreateNewRoot key value header;;
    ReleaseParentWriteLatches;;
    mret true
  else InsertIntoLeaf key value header.

(** Nothing is deleted, and the leaf stays latched. *)
Definition InternalDeleteRecord (key : IndexKeyType) : M tree bool :=
  header ← header_raw_page;
  with_pool (latch_op Page.WLatch header);;
  AddIntoPageSet header;;
  header_page ← node header;
  if BtreeHeaderPage.TreeIsEmpty header_page then ReleaseParentWriteLatches;; mret false
  else
    leaf_page ← SearchLeafPage key DELETE header;
    leaf_node ← node leaf_page;
    mret true.

(** *** The interface of [Index]; the transaction is the one in the state. *)
Definition InsertRecord (tuple : Tuple) (rid : RID) : M tree bool :=
  s ← get_state;
  key ← lift (Index.ConvertTupleToKey (bt_index_meta_ s) tuple);
  lift (IndexKeyTypeToString key);;
  InternalInsertRecord key rid.
Definition DeleteRecord (tuple : Tuple) : M tree bool :=
  s ← get_state;
  key ← lift (Index.ConvertTupleToKey (bt_index_meta_ s) tuple);
  InternalDeleteRecord key.
(** [rids] afterwards, and whether the key was found. *)
Definition ScanKey (tuple : Tuple) (rids : list RID) : M tree (bool * list RID) :=
  s ← get_state;
  key ← lift (Index.ConvertTupleToKey (bt_index_meta_ s) tuple);
  lift (IndexKeyTypeToString key);;
  value ← InternalScanKey key;
  mret match value with Some rid => (true, rids ++ [rid]) | None => (false, rids) end.
End index.
End BTreeIndex.
