(* ===== verification/BTreePool.v ===== *)
(** * The B+ tree's view of the buffer pool

    The index holds references to pages across calls of the pool.  A [world] is what such a
    client knows: which pages are pinned, how often and how they are latched, the bytes of
    every page, the frames of the pages it holds, and which pages would survive eviction.
    [wp] runs a step of the index: it returns, or it fails in one of the ways allowed, of
    which a pool without a frame left is always one; the rules below give one step each. *)
From stdpp Require Import functions.
From S2P Require Import Prelude Bytes Types Value Schema Tuple DiskManager BufferPool BufferPoolProps.
From S2P Require Import PageGuard TableMeta Index BtreePage Transactions BTreeIndex.
Open Scope Z_scope.

Record world := mk_world {
  w_pins : PageId -> Z;
  w_latch : PageId -> latch;
  w_bytes : PageId -> list byte;
  w_frame : PageId -> Z;
  w_held : PageId -> Prop;      (* the frame is known, and it is pinned or dirty *)
  w_safe : PageId -> Prop;      (* evicting the page loses nothing *)
  w_unused : PageId -> Prop;    (* not in the pool *)
  w_dirty : PageId -> Prop      (* the frame is marked dirty *)
}.

Section pool.
Context {D : Type} `{PageStore D} `{!HashOrder Z bool}.
Abbreviation pool := (BufferPool D).
Implicit Types (s : pool) (f : Z) (pid q : PageId) (l : latch) (w : world).
#[local] Set Default Proof Using "Type*".

Definition held s pid f : Prop := page_table_ s !! pid = Some f /\
  (0 < pins s pid \/ exists p, BufferPool.frame s f = Some p /\ is_dirty_ p = true).

Record stands s w : Prop := {
  st_ok : pool_ok s;
  st_pins q : pins s q = w_pins w q;
  st_latch q : latch_of s q = w_latch w q;
  st_bytes q : ps_storable q -> content s q = w_bytes w q;
  st_held q : w_held w q -> held s q (w_frame w q);
  st_safe q : w_safe w q -> ps_storable q /\ kept s q /\ told s q;
  st_unused q : w_unused w q -> page_table_ s !! q = None;
  st_dirty q : w_dirty w q -> dirty s q
}.

(** What the steps do to a world. *)
Definition w_pin pid f w : world :=
  mk_world (<[pid := w_pins w pid + 1]> (w_pins w)) (w_latch w) (w_bytes w) (<[pid := f]> (w_frame w))
    (fun q => q = pid \/ (w_held w q /\ 0 < w_pins w q)) (w_safe w) (w_unused w)
    (fun q => w_dirty w q /\ (q = pid \/ 0 < w_pins w q)).
Definition w_unpin pid (is_dirty : bool) w : world :=
  mk_world (<[pid := w_pins w pid - 1]> (w_pins w)) (w_latch w) (w_bytes w) (w_frame w)
    (fun q => (w_held w q /\ 0 < w_pins w q /\ q <> pid) \/ (w_held w q /\ q = pid /\ is_dirty = true)) (fun q => w_safe w q \/ (q = pid /\ is_dirty = true /\ ps_storable q))
    (w_unused w) (fun q => w_dirty w q \/ (q = pid /\ is_dirty = true)).
Definition w_relatch pid l w : world :=
  mk_world (w_pins w) (<[pid := l]> (w_latch w)) (w_bytes w) (w_frame w) (w_held w) (w_safe w) (w_unused w)
    (w_dirty w).
Definition w_write pid bs w : world :=
  mk_world (w_pins w) (w_latch w) (<[pid := bs]> (w_bytes w)) (w_frame w) (w_held w)
    (fun q => w_safe w q /\ (q = pid -> w_pins w q = 0 \/ w_dirty w q)) (w_unused w) (w_dirty w).
Definition w_create pid f w : world :=
  mk_world (<[pid := 1]> (w_pins w)) (<[pid := Unlatched]> (w_latch w)) (<[pid := Page.zeros]> (w_bytes w))
    (<[pid := f]> (w_frame w)) (fun q => q = pid \/ (w_held w q /\ 0 < w_pins w q))
    (fun q => w_safe w q /\ q <> pid) (fun q => w_unused w q /\ q <> pid) (fun q => w_dirty w q /\ 0 < w_pins w q).

Lemma told_unpinned s pid : pool_ok s -> pins s pid = 0 -> told s pid.
Proof.
  intros Hok Hz. unfold told, content. destruct (page_table_ s !! pid) as [f|] eqn:E; [|by left].
  destruct (mapped_frame s pid f Hok E) as (_ & p & Hp & Hid & _ & _ & _ & Hpn & _). rewrite Hp. cbn [from_option].
  destruct (is_dirty_ p) eqn:Hd; [right; by exists f, p|left]. apply (po_clean _ _ Hok pid f p); congruence.
Qed.

Lemma pins_nonneg s pid : pool_ok s -> 0 <= pins s pid.
Proof.
  intros Hok. unfold pins. destruct (page_table_ s !! pid) as [f|] eqn:E; [|done].
  destruct (mapped_frame s pid f Hok E) as (_ & p & Hp & _ & Hr & _). rewrite Hp. apply Hr.
Qed.

Lemma held_frame s pid f : pool_ok s -> held s pid f ->
  exists p, BufferPool.frame s f = Some p /\ page_id_ p = pid /\ data_ p = content s pid /\ rwlatch_ p = latch_of s pid.
Proof.
  intros Hok [Ht _]. destruct (mapped_frame s pid f Hok Ht) as (_ & p & Hp & Hid & _ & _ & Hc & _ & Hl).
  exists p. by split_and!.
Qed.

Lemma held_exclusive s pid q f : pool_ok s -> held s pid f -> held s q f -> pid = q.
Proof. intros Hok [H1 _] [H2 _]. by apply (table_inj _ s pid q f Hok). Qed.

Lemma can_allocate_dec s : can_allocate s \/ ~ can_allocate s.
Proof using All.
  unfold can_allocate. destruct (free_list_ s); [|by left; left].
  pose proof (Evict_spec (frame_store_ s)) as He.
  destruct (RandomBogoReplacer.Evict (frame_store_ s)) as [[g|] r].
  - left. right. exists g. by destruct He.
  - right. destruct He as [_ He]. intros [?|[g Hg]]; [done|by apply (He g)].
Qed.

(** *** One step each *)
Lemma pool_fetch s w pid : stands s w -> page_ok pid -> 0 < w_pins w pid \/ w_safe w pid ->
  w_pins w pid < 2 ^ 16 - 1 -> ~ w_unused w pid ->
  (exists f s', BufferPool.FetchPage pid s = (Ok f, s') /\ stands s' (w_pin pid f w) /\
     (0 < w_pins w pid -> w_held w pid -> f = w_frame w pid)) \/
  (BufferPool.FetchPage pid s = (Err StdRuntimeError, s) /\ ~ can_allocate s).
Proof.
  intros Hs Hpid Hin Hmax Hun. pose proof (st_ok _ _ Hs) as Hok. rewrite <- (st_pins _ _ Hs) in Hin, Hmax.
  assert (fetchable s pid \/ (page_table_ s !! pid = None /\ ~ can_allocate s)) as [Hf|[Ht Hno]].
  { unfold fetchable. destruct (page_table_ s !! pid) as [f|] eqn:Ht; [by left|].
    destruct (can_allocate_dec s) as [Hc|Hc]; [left|by right]. split; [|done]. destruct Hin as [Hp|Hsafe].
    - unfold pins in Hp. rewrite Ht in Hp. lia.
    - apply (kept_absent s pid); [|done]. by apply (st_safe _ _ Hs). }
  2:{ right. split; [|done]. apply FetchPage_full; try done. apply Hpid. }
  left. destruct (FetchPage_fetched s pid Hok Hpid Hf) as (f & s' & E & Hft).
  destruct (ft_frame _ _ _ _ Hft) as (Ht & _). exists f, s'. split; [done|].
  assert (forall q, pins s' q = w_pins (w_pin pid f w) q) as Hpins.
  { intros q. rewrite (ft_pins _ _ _ _ Hft), (st_pins _ _ Hs). cbn. case_decide as Hq.
    - subst. by rewrite fn_lookup_insert.
    - rewrite fn_lookup_insert_ne by done. lia. }
  split; [split|].
  - apply (ft_ok _ _ _ _ Hft).
  - done.
  - intros q. rewrite (ft_latch _ _ _ _ Hft). apply (st_latch _ _ Hs).
  - intros q Hq. rewrite (ft_content _ _ _ _ Hft) by done. by apply (st_bytes _ _ Hs).
  - intros q Hq. cbn in Hq |- *. destruct (decide (q = pid)) as [->|Hne].
    + rewrite fn_lookup_insert. split; [done|left]. rewrite (ft_pins _ _ _ _ Hft), decide_True by done.
      pose proof (pins_nonneg s pid Hok). lia.
    + rewrite fn_lookup_insert_ne by done. destruct Hq as [|[Hh Hp]]; [done|].
      destruct (st_held _ _ Hs q Hh) as [Htq _]. rewrite <- (st_pins _ _ Hs) in Hp. split.
      * by rewrite (ft_table _ _ _ _ Hft q Hp).
      * left. rewrite (ft_pins _ _ _ _ Hft), decide_False by done. lia.
  - intros q Hq. destruct (st_safe _ _ Hs q Hq) as (Hst & Hk & Htd).
    split_and!; [done|by apply (ft_kept _ _ _ _ Hft)|by apply (ft_told _ _ _ _ Hft)].
  - intros q Hq. apply (ft_absent _ _ _ _ Hft); [by intros ->|by apply (st_unused _ _ Hs)].
  - intros q [Hdq Hq]. rewrite <- (st_pins _ _ Hs) in Hq. apply (ft_dirty _ _ _ _ Hft); [done|by apply (st_dirty _ _ Hs)].
  - intros Hp Hh. destruct (st_held _ _ Hs pid Hh) as [Htq _]. rewrite <- (st_pins _ _ Hs) in Hp.
    rewrite (ft_table _ _ _ _ Hft pid Hp) in Ht. congruence.
Qed.

Lemma pool_new {A} `{PageAllocator A} s w (a a' : A) pid : stands s w -> page_ok pid ->
  AllocatePage a = Ok (pid, a') -> w_unused w pid ->
  (exists f s', BufferPool.NewPage a s = (Ok (f, pid, a'), s') /\ stands s' (w_create pid f w)) \/
  (BufferPool.NewPage a s = (Err StdRuntimeError, s) /\ ~ can_allocate s).
Proof.
  intros Hs Hpid Hall Hun. pose proof (st_ok _ _ Hs) as Hok. pose proof (st_unused _ _ Hs _ Hun) as Ht.
  destruct (can_allocate_dec s) as [Hcan|Hno].
  2:{ right. split; [|done]. unfold BufferPool.NewPage. by rewrite (bind_ok _ _ _ _ _ (AllocateFrame_none s Hok Hno)). }
  left. destruct (NewPage_created s a a' pid Hok Hpid Hall Ht Hcan) as (f & s' & E & Hcr).
  destruct (cr_frame _ _ _ _ Hcr) as (Ht' & p & Hp & _ & Hd & Hpn).
  destruct (content_of s' pid f p Hp Ht') as (H1 & H2 & _).
  exists f, s'. split; [done|].
  assert (forall q, q <> pid -> pins s' q = w_pins w q) as Hpins.
  { intros q Hq. destruct (cr_other _ _ _ _ Hcr q Hq) as (-> & _). apply (st_pins _ _ Hs). }
  split; cbn.
  - apply (cr_ok _ _ _ _ Hcr).
  - intros q. destruct (decide (q = pid)) as [->|Hne]; [by rewrite fn_lookup_insert, H2|].
    rewrite fn_lookup_insert_ne by done. by apply Hpins.
  - intros q. destruct (decide (q = pid)) as [->|Hne]; [rewrite fn_lookup_insert; apply (cr_latch _ _ _ _ Hcr)|].
    rewrite fn_lookup_insert_ne by done. destruct (cr_other _ _ _ _ Hcr q Hne) as (_ & -> & _). apply (st_latch _ _ Hs).
  - intros q Hq. destruct (decide (q = pid)) as [->|Hne]; [by rewrite fn_lookup_insert, H1|].
    rewrite fn_lookup_insert_ne by done. destruct (cr_other _ _ _ _ Hcr q Hne) as (_ & _ & ->); [|done].
    by apply (st_bytes _ _ Hs).
  - intros q Hq. destruct (decide (q = pid)) as [->|Hne].
    + rewrite fn_lookup_insert. split; [done|left]. lia.
    + rewrite fn_lookup_insert_ne by done. destruct Hq as [|[Hh Hp']]; [done|].
      destruct (st_held _ _ Hs q Hh) as [Htq _]. rewrite <- (st_pins _ _ Hs) in Hp'. split.
      * by rewrite (cr_table _ _ _ _ Hcr q Hp').
      * left. rewrite Hpins by done. by rewrite <- (st_pins _ _ Hs).
  - intros q [Hq Hne]. destruct (st_safe _ _ Hs q Hq) as (Hst & Hk & Htd).
    split_and!; [done|by apply (cr_kept _ _ _ _ Hcr)|by apply (cr_told _ _ _ _ Hcr)].
  - intros q [Hq Hne]. apply (cr_absent _ _ _ _ Hcr); [done|by apply (st_unused _ _ Hs)].
  - intros q [Hdq Hq]. rewrite <- (st_pins _ _ Hs) in Hq. apply (cr_dirty _ _ _ _ Hcr); [done|by apply (st_dirty _ _ Hs)].
Qed.

Lemma pool_unpin s w pid (is_dirty : bool) : stands s w -> 0 < w_pins w pid ->
  (w_pins w pid = 1 -> w_latch w pid = Unlatched) -> (w_pins w pid = 1 -> is_dirty = true \/ w_safe w pid) ->
  exists s', BufferPool.UnpinPage pid is_dirty s = (Ok true, s') /\ stands s' (w_unpin pid is_dirty w).
Proof.
  intros Hs Hp Hl Hd. rewrite <- (st_pins _ _ Hs) in Hp, Hl, Hd. rewrite <- (st_latch _ _ Hs) in Hl.
  destruct (UnpinPage_ok s pid is_dirty (st_ok _ _ Hs) Hp Hl) as (s' & E & Hok' & Hk & Hkd & _).
  { intros H1. destruct (Hd H1) as [|Hsf]; [by left|right]. by apply (st_safe _ _ Hs). }
  exists s'. split; [done|]. split; cbn; [done| | | | | | |].
  - intros q. destruct (Hk q) as (_ & _ & -> & _). rewrite (st_pins _ _ Hs). case_decide as Hq.
    + subst. by rewrite fn_lookup_insert.
    + rewrite fn_lookup_insert_ne by done. lia.
  - intros q. destruct (Hk q) as (_ & -> & _). apply (st_latch _ _ Hs).
  - intros q Hq. destruct (Hk q) as (-> & _). by apply (st_bytes _ _ Hs).
  - intros q Hq. assert (w_held w q) as Hh by tauto. destruct (st_held _ _ Hs q Hh) as [Ht _].
    assert (page_table_ s' !! q = Some (w_frame w q)) as Ht' by (destruct (Hk q) as (_ & _ & _ & -> & _); done).
    split; [done|]. destruct Hq as [(_ & Hpq & Hne)|(_ & -> & Hdi)].
    + left. destruct (Hk q) as (_ & _ & -> & _). rewrite decide_False by done. rewrite (st_pins _ _ Hs). lia.
    + right. destruct (Hkd pid ltac:(by right)) as (f & p & Hf & Hfp & Hdp). assert (f = w_frame w pid) as <- by congruence. by exists p.
  - intros q [Hq|(-> & Hdi & Hst)].
    + destruct (st_safe _ _ Hs q Hq) as (Hst & Hkq & Htq). split_and!; [done|by apply Hk..].
    + split; [done|]. split; right; apply Hkd; by right.
  - intros q Hq. destruct (Hk q) as (_ & _ & _ & -> & _). by apply (st_unused _ _ Hs).
  - intros q Hq. apply Hkd. destruct Hq; [left; by apply (st_dirty _ _ Hs)|by right].
Qed.

Lemma pool_latch s w pid f (op : Page -> res Page) l : stands s w -> w_held w pid -> f = w_frame w pid ->
  0 < w_pins w pid -> (forall p, rwlatch_ p = w_latch w pid -> op p = Ok (Page.with_latch l p)) ->
  exists s', latch_op op f s = (Ok tt, s') /\ stands s' (w_relatch pid l w).
Proof.
  intros Hs Hh -> Hp Hop. pose proof (st_ok _ _ Hs) as Hok. destruct (st_held _ _ Hs pid Hh) as [Ht _].
  rewrite <- (st_pins _ _ Hs) in Hp.
  set (f := w_frame w pid) in *. destruct (mapped_frame s pid f Hok Ht) as (_ & p & Hfp & Hid & Hr & Hlen & Hc & Hpn & Hlt).
  unfold latch_op. rewrite (bind_ok _ _ _ _ _ (get_page_ok s f p Hfp)).
  rewrite (bind_ok (lift _) _ s (Page.with_latch l p) s).
  2:{ unfold lift. rewrite Hop; [done|]. by rewrite <- Hlt, (st_latch _ _ Hs). }
  eexists; split; [done|].
  destruct (modify_frame s pid f p (Page.with_latch l p) (frame_store_ s) Hok Ht Hfp) as (Hok' & Hfr & Hoth); cbn; try done; try lia.
  { intros g Hg. left. split; [|done]. intros ->.
    destruct (po_evictable _ _ Hok f Hg) as (p0 & Hp0 & Hz & _). rewrite Hfp in Hp0. injection Hp0 as <-. lia. }
  change (BufferPool.set_store _ ?x) with x in Hok', Hfr, Hoth. set (s' := BufferPool.set_pages _ _) in *.
  destruct (content_of s' pid f _ Hfr Ht) as (H1 & H2 & H3). cbn in H1, H2, H3.
  assert (forall q, pins s' q = pins s q /\ content s' q = content s q) as Hsame.
  { intros q. destruct (decide (q = pid)) as [->|Hne]; [by rewrite H1, H2, Hpn, Hc|]. by destruct (Hoth q Hne) as (-> & -> & _). }
  split; cbn; [done| | | | | | |].
  - intros q. destruct (Hsame q) as [-> _]. apply (st_pins _ _ Hs).
  - intros q. destruct (decide (q = pid)) as [->|Hne]; [by rewrite fn_lookup_insert|].
    rewrite fn_lookup_insert_ne by done. destruct (Hoth q Hne) as (_ & _ & ->). apply (st_latch _ _ Hs).
  - intros q Hq. destruct (Hsame q) as [_ ->]. by apply (st_bytes _ _ Hs).
  - intros q Hq. destruct (st_held _ _ Hs q Hq) as [Htq Hdq]. split; [done|].
    destruct Hdq as [Hpq|(p' & Hp' & Hd')]; [left; by destruct (Hsame q) as [-> _]|]. right.
    unfold s'. rewrite (frame_update s f (Page.with_latch l p)) by (by exists p). case_decide as Heq; [|by exists p'].
    eexists. split; [done|]. rewrite Heq in Hp'. cbn. congruence.
  - intros q Hq. destruct (st_safe _ _ Hs q Hq) as (Hst & Hk & Htd). split_and!; [done| |].
    + by apply (kept_update s f p (Page.with_latch l p) (frame_store_ s) (disk_manager_ s) q Hfp); [|left|].
    + by apply (told_update s f p (Page.with_latch l p) (frame_store_ s) (disk_manager_ s) q Hfp); [|right|].
  - intros q Hq. by apply (st_unused _ _ Hs).
  - intros q Hq. apply (dirty_update s f p (Page.with_latch l p) (frame_store_ s) (disk_manager_ s) q Hfp); [done|].
    by apply (st_dirty _ _ Hs).
Qed.

Lemma pool_write s w pid f bs : stands s w -> w_held w pid -> f = w_frame w pid -> length bs = page_size ->
  exists s', write_frame f bs s = (Ok tt, s') /\ stands s' (w_write pid bs w).
Proof.
  intros Hs Hh -> Hl. pose proof (st_ok _ _ Hs) as Hok. destruct (st_held _ _ Hs pid Hh) as [Ht Hdp].
  set (f := w_frame w pid) in *. destruct (mapped_frame s pid f Hok Ht) as (_ & p & Hfp & Hid & Hr & Hlen & Hc & Hpn & Hlt).
  unfold write_frame. rewrite (update_page_ok s f p _ Hfp). eexists; split; [done|].
  assert (pin_count_ p = 0 -> is_dirty_ p = true) as Hdirty.
  { destruct Hdp as [|(p' & Hp' & Hd)]; [lia|]. intros _. congruence. }
  destruct (modify_frame s pid f p (Page.with_data bs p) (frame_store_ s) Hok Ht Hfp) as (Hok' & Hfr & Hoth); cbn; try done; try lia.
  { intros Hz. apply (po_latch _ _ Hok f p Hfp Hz). }
  { intros Hz Hd. by rewrite Hdirty in Hd. }
  { intros g Hg. destruct (decide (g = f)) as [->|]; [right; split; [done|]|by left].
    destruct (po_evictable _ _ Hok f Hg) as (p0 & Hp0 & Hz & _). congruence. }
  change (BufferPool.set_store _ ?x) with x in Hok', Hfr, Hoth. set (s' := BufferPool.set_pages _ _) in *.
  destruct (content_of s' pid f _ Hfr Ht) as (H1 & H2 & H3). cbn in H1, H2, H3.
  assert (forall q, pins s' q = pins s q /\ latch_of s' q = latch_of s q) as Hsame.
  { intros q. destruct (decide (q = pid)) as [->|Hne]; [by rewrite H2, H3, Hpn, Hlt|]. by destruct (Hoth q Hne) as (_ & -> & ->). }
  split; cbn; [done| | | | | | |].
  - intros q. destruct (Hsame q) as [-> _]. apply (st_pins _ _ Hs).
  - intros q. destruct (Hsame q) as [_ ->]. apply (st_latch _ _ Hs).
  - intros q Hq. destruct (decide (q = pid)) as [->|Hne]; [by rewrite fn_lookup_insert|].
    rewrite fn_lookup_insert_ne by done. destruct (Hoth q Hne) as (-> & _). by apply (st_bytes _ _ Hs).
  - intros q Hq. destruct (st_held _ _ Hs q Hq) as [Htq Hdq]. split; [done|].
    destruct Hdq as [Hpq|(p' & Hp' & Hd')]; [left; by destruct (Hsame q) as [-> _]|]. right.
    unfold s'. rewrite (frame_update s f (Page.with_data bs p)) by (by exists p). case_decide as Heq; [|by exists p'].
    eexists. split; [done|]. rewrite Heq in Hp'. cbn. congruence.
  - intros q [Hq Hz]. destruct (st_safe _ _ Hs q Hq) as (Hst & Hk & Htd). split_and!; [done| |].
    + by apply (kept_update s f p (Page.with_data bs p) (frame_store_ s) (disk_manager_ s) q Hfp); [|left|].
    + apply (told_update s f p (Page.with_data bs p) (frame_store_ s) (disk_manager_ s) q Hfp); [done| |done].
      intros Hqf. left. pose proof (table_inj _ s q pid f Hok Hqf Ht) as ->. destruct (Hz eq_refl) as [Hz'|Hdq].
      * apply Hdirty. by rewrite <- Hpn, (st_pins _ _ Hs).
      * destruct (st_dirty _ _ Hs pid Hdq) as (g & p0 & Hg & Hp0 & Hd0). cbn. congruence.
  - intros q Hq. by apply (st_unused _ _ Hs).
  - intros q Hq. apply (dirty_update s f p (Page.with_data bs p) (frame_store_ s) (disk_manager_ s) q Hfp); [done|].
    by apply (st_dirty _ _ Hs).
Qed.
End pool.

(** ** Steps of the index *)

(** How a step may fail; to run out of frames is always one of the ways. *)
Definition exhausted `{PageStore D} `{!HashOrder Z bool} (s : btree D) : Prop := ~ can_allocate (bt_bpm_ s).
Class Failing (D : Type) `{PageStore D} `{!HashOrder Z bool} := {
  fails : failure -> btree D -> Prop;
  fails_exhausted s : exhausted s -> fails StdRuntimeError s
}.
(** Nothing else may happen; or anything may. *)
Definition only_exhausted `{PageStore D} `{!HashOrder Z bool} : Failing D.
Proof. by refine {| fails e s := e = StdRuntimeError /\ exhausted s |}. Defined.
Definition any_failure `{PageStore D} `{!HashOrder Z bool} : Failing D.
Proof. by refine {| fails _ _ := True |}. Defined.

Section steps.
Context {D : Type} `{PageStore D} `{!HashOrder Z bool} `{!LeafLayout} `{!Value.StringLayout} `{!Failing D}.
Abbreviation tree := (btree D).
Implicit Types (s : tree) (f : Z) (pid q : PageId) (l : latch) (w : world) (m : TableMeta) (im : IndexMeta) (ps : list Z).
#[local] Set Default Proof Using "Type*".

(** The state of an index: its pool, the meta data, and the pages latched by the call. *)
Record at_world s m im ps w : Prop := {
  at_pool : stands (bt_bpm_ s) w;
  at_meta : bt_table_meta_ s = m;
  at_index : bt_index_meta_ s = im;
  at_set : page_set_ (bt_txn_ s) = ps
}.

(** The step returns, and then [Q] holds, or it fails in an allowed way. *)
Definition wp {A} (c : M tree A) (Q : A -> tree -> Prop) s : Prop :=
  match c s with
  | (Ok a, s') => Q a s'
  | (Err e, s') => fails e s'
  end.

Lemma wp_bind {A B} (c : M tree A) (k : A -> M tree B) Q s :
  wp c (fun a => wp (k a) Q) s -> wp (c ≫= k) Q s.
Proof. unfold wp, mbind, M_bind. destruct (c s) as [[a|e] s']; done. Qed.
Lemma wp_mono {A} (c : M tree A) (Q Q' : A -> tree -> Prop) s :
  wp c Q s -> (forall a s', Q a s' -> Q' a s') -> wp c Q' s.
Proof. unfold wp. destruct (c s) as [[a|e] s']; auto. Qed.
Lemma wp_ret {A} (a : A) (Q : A -> tree -> Prop) s : Q a s -> wp (mret a) Q s.
Proof. done. Qed.
Lemma wp_get Q s : Q s s -> wp get_state Q s.
Proof. done. Qed.
Lemma wp_lift {A} (r : res A) a (Q : A -> tree -> Prop) s : r = Ok a -> Q a s -> wp (lift r) Q s.
Proof. by intros ->. Qed.
Lemma wp_assert b (Q : unit -> tree -> Prop) s : b = true -> Q tt s -> wp (assert_that b) Q s.
Proof. by intros ->. Qed.

Lemma wp_with_pool_ok {A} (c : M (BufferPool D) A) a p s m im ps w (Q : A -> tree -> Prop) : at_world s m im ps w ->
  c (bt_bpm_ s) = (Ok a, p) -> (forall s', bt_bpm_ s' = p -> bt_table_meta_ s' = m -> bt_index_meta_ s' = im ->
    page_set_ (bt_txn_ s') = ps -> Q a s') -> wp (BTreeIndex.with_pool c) Q s.
Proof. intros [Hp Hm Hi Hps] E HQ. unfold wp, BTreeIndex.with_pool. rewrite E. apply HQ; done. Qed.

Lemma wp_fetch s m im ps w pid Q : at_world s m im ps w -> page_ok pid -> 0 < w_pins w pid \/ w_safe w pid ->
  w_pins w pid < 2 ^ 16 - 1 -> ~ w_unused w pid ->
  (forall f s', at_world s' m im ps (w_pin pid f w) -> (0 < w_pins w pid -> w_held w pid -> f = w_frame w pid) -> Q f s') ->
  wp (BTreeIndex.with_pool (BufferPool.FetchPage pid)) Q s.
Proof.
  intros Hs Hpid Hin Hmax Hun HQ.
  destruct (pool_fetch _ w pid (at_pool _ _ _ _ _ Hs) Hpid Hin Hmax Hun) as [(f & p & E & Hst & Hf)|[E Hno]].
  - apply (wp_with_pool_ok _ f p s m im ps w Q Hs E). intros s' Hp Hm Hi Hps. apply HQ; [|done]. split; try done. by rewrite Hp.
  - unfold wp, BTreeIndex.with_pool. rewrite E. by apply fails_exhausted.
Qed.

Lemma wp_unpin s m im ps w pid is_dirty Q : at_world s m im ps w -> 0 < w_pins w pid ->
  (w_pins w pid = 1 -> w_latch w pid = Unlatched) -> (w_pins w pid = 1 -> is_dirty = true \/ w_safe w pid) ->
  (forall s', at_world s' m im ps (w_unpin pid is_dirty w) -> Q true s') ->
  wp (BTreeIndex.with_pool (BufferPool.UnpinPage pid is_dirty)) Q s.
Proof.
  intros Hs Hp Hl Hd HQ. destruct (pool_unpin _ w pid is_dirty (at_pool _ _ _ _ _ Hs) Hp Hl Hd) as (p & E & Hst).
  apply (wp_with_pool_ok _ true p s m im ps w Q Hs E). intros s' Hb Hm Hi Hps. apply HQ. split; try done. by rewrite Hb.
Qed.

Lemma wp_latch s m im ps w pid f (op : Page -> res Page) l Q : at_world s m im ps w -> w_held w pid -> f = w_frame w pid ->
  0 < w_pins w pid -> (forall p, rwlatch_ p = w_latch w pid -> op p = Ok (Page.with_latch l p)) ->
  (forall s', at_world s' m im ps (w_relatch pid l w) -> Q tt s') ->
  wp (BTreeIndex.with_pool (latch_op op f)) Q s.
Proof.
  intros Hs Hh Hf Hp Hop HQ. destruct (pool_latch _ w pid f op l (at_pool _ _ _ _ _ Hs) Hh Hf Hp Hop) as (p & E & Hst).
  apply (wp_with_pool_ok _ tt p s m im ps w Q Hs E). intros s' Hb Hm Hi Hps. apply HQ. split; try done. by rewrite Hb.
Qed.

(** The four ways to latch a page nobody else has latched. *)
Lemma wp_WLatch s m im ps w pid f Q : at_world s m im ps w -> w_held w pid -> f = w_frame w pid -> 0 < w_pins w pid ->
  w_latch w pid = Unlatched -> (forall s', at_world s' m im ps (w_relatch pid Exclusive w) -> Q tt s') ->
  wp (BTreeIndex.with_pool (latch_op Page.WLatch f)) Q s.
Proof. intros Hs Hh Hf Hp Hl. eapply wp_latch; [done..|]. intros p Hpl. unfold Page.WLatch. by rewrite Hpl, Hl. Qed.
Lemma wp_WUnlatch s m im ps w pid f Q : at_world s m im ps w -> w_held w pid -> f = w_frame w pid -> 0 < w_pins w pid ->
  w_latch w pid = Exclusive -> (forall s', at_world s' m im ps (w_relatch pid Unlatched w) -> Q tt s') ->
  wp (BTreeIndex.with_pool (latch_op Page.WUnlatch f)) Q s.
Proof. intros Hs Hh Hf Hp Hl. eapply wp_latch; [done..|]. intros p Hpl. unfold Page.WUnlatch. by rewrite Hpl, Hl. Qed.
Lemma wp_RLatch s m im ps w pid f Q : at_world s m im ps w -> w_held w pid -> f = w_frame w pid -> 0 < w_pins w pid ->
  w_latch w pid = Unlatched -> (forall s', at_world s' m im ps (w_relatch pid (Shared 1) w) -> Q tt s') ->
  wp (BTreeIndex.with_pool (latch_op Page.RLatch f)) Q s.
Proof. intros Hs Hh Hf Hp Hl. eapply wp_latch; [done..|]. intros p Hpl. unfold Page.RLatch. by rewrite Hpl, Hl. Qed.
Lemma wp_RUnlatch s m im ps w pid f Q : at_world s m im ps w -> w_held w pid -> f = w_frame w pid -> 0 < w_pins w pid ->
  w_latch w pid = Shared 1 -> (forall s', at_world s' m im ps (w_relatch pid Unlatched w) -> Q tt s') ->
  wp (BTreeIndex.with_pool (latch_op Page.RUnlatch f)) Q s.
Proof. intros Hs Hh Hf Hp Hl. eapply wp_latch; [done..|]. intros p Hpl. unfold Page.RUnlatch. by rewrite Hpl, Hl. Qed.

Lemma wp_get_page s m im ps w pid f Q : at_world s m im ps w -> w_held w pid -> f = w_frame w pid ->
  (forall p, page_id_ p = pid -> data_ p = content (bt_bpm_ s) pid -> Q p s) ->
  wp (BTreeIndex.with_pool (BufferPool.get_page f)) Q s.
Proof.
  intros Hs Hh -> HQ. pose proof (at_pool _ _ _ _ _ Hs) as Hst.
  destruct (held_frame _ pid _ (st_ok _ _ Hst) (st_held _ _ Hst pid Hh)) as (p & Hp & Hid & Hd & _).
  unfold wp, BTreeIndex.with_pool. rewrite (get_page_ok _ _ p Hp). destruct s. by apply HQ.
Qed.

Lemma wp_node s m im ps w pid f Q : at_world s m im ps w -> w_held w pid -> f = w_frame w pid -> page_ok pid ->
  Q (w_bytes w pid) s -> wp (BTreeIndex.node f) Q s.
Proof.
  intros Hs Hh Hf [Hst _] HQ. unfold BTreeIndex.node. apply wp_bind. eapply wp_get_page; try done. intros p Hid Hd.
  apply wp_ret. unfold Page.GetData. rewrite Hd, (st_bytes _ _ (at_pool _ _ _ _ _ Hs)); done.
Qed.
Lemma wp_page_id s m im ps w pid f Q : at_world s m im ps w -> w_held w pid -> f = w_frame w pid ->
  Q pid s -> wp (BTreeIndex.page_id f) Q s.
Proof.
  intros Hs Hh Hf HQ. unfold BTreeIndex.page_id. apply wp_bind. eapply wp_get_page; try done. intros p Hid Hd.
  apply wp_ret. unfold Page.GetPageId. by rewrite Hid.
Qed.
Lemma wp_store s m im ps w pid f bs Q : at_world s m im ps w -> w_held w pid -> f = w_frame w pid ->
  length bs = page_size -> (forall s', at_world s' m im ps (w_write pid bs w) -> Q tt s') ->
  wp (BTreeIndex.store f bs) Q s.
Proof.
  intros Hs Hh Hf Hl HQ. destruct (pool_write _ w pid f bs (at_pool _ _ _ _ _ Hs) Hh Hf Hl) as (p & E & Hst).
  apply (wp_with_pool_ok _ tt p s m im ps w Q Hs E). intros s' Hb Hm Hi Hps. apply HQ. split; try done. by rewrite Hb.
Qed.
Lemma wp_on_node {A} s m im ps w pid f (c : M (list Byte.byte) A) a bs Q : at_world s m im ps w -> w_held w pid ->
  f = w_frame w pid -> page_ok pid -> c (w_bytes w pid) = (Ok a, bs) -> length bs = page_size ->
  (forall s', at_world s' m im ps (w_write pid bs w) -> Q a s') -> wp (BTreeIndex.on_node f c) Q s.
Proof.
  intros Hs Hh Hf Hpid E Hl HQ. unfold BTreeIndex.on_node. apply wp_bind. eapply wp_node; try done. rewrite E.
  apply wp_bind. by eapply wp_store.
Qed.

Lemma wp_table_page s m im ps w n Q : at_world s m im ps w -> Q (mk_PageId (table_oid_ m) n) s ->
  wp (BTreeIndex.table_page n) Q s.
Proof. intros Hs HQ. unfold BTreeIndex.table_page. apply wp_bind, wp_get, wp_ret. by rewrite (at_meta _ _ _ _ _ Hs). Qed.
Lemma wp_set_page_set s m im ps ps' w Q : at_world s m im ps w -> (forall s', at_world s' m im ps' w -> Q tt s') ->
  wp (BTreeIndex.set_page_set ps') Q s.
Proof. intros [] HQ. apply HQ. by split. Qed.
Lemma wp_set_header_page_id s m im ps w n Q : at_world s m im ps w ->
  (forall s', at_world s' m (IndexMeta.set_header_page_id n im) ps w -> Q tt s') ->
  wp (BTreeIndex.set_header_page_id n) Q s.
Proof. intros [] HQ. apply HQ. split; try done. cbn. by subst. Qed.
Lemma wp_AddIntoPageSet s m im ps w f Q : at_world s m im ps w -> (forall s', at_world s' m im (ps ++ [f]) w -> Q tt s') ->
  wp (BTreeIndex.AddIntoPageSet f) Q s.
Proof. intros [] HQ. apply HQ. split; try done. cbn. by subst. Qed.

Lemma wp_new_page s m m' im ps w pid Q : at_world s m im ps w -> page_ok pid -> Index.AllocatePage m = Ok (pid, m') ->
  w_unused w pid -> (forall f s', at_world s' m' im ps (w_create pid f w) -> Q (f, pid) s') ->
  wp BTreeIndex.new_page Q s.
Proof.
  intros Hs Hpid Hall Hun HQ. destruct Hs as [Hst <- <- <-]. unfold wp, BTreeIndex.new_page.
  destruct (@pool_new _ _ _ _ index_allocator _ w (bt_table_meta_ s) m' pid Hst Hpid Hall Hun) as [(f & p & -> & Hp)|[-> Hno]].
  - apply HQ. by split.
  - by apply fails_exhausted.
Qed.

(** A page of the set goes: unlatched, and unpinned with a flag. *)
Lemma wp_release_front s m im ps w pid f rest is_dirty Q : at_world s m im ps w -> w_held w pid -> f = w_frame w pid ->
  0 < w_pins w pid -> w_latch w pid = Exclusive -> (w_pins w pid = 1 -> is_dirty = true \/ w_safe w pid) ->
  (forall s', at_world s' m im rest (w_unpin pid is_dirty (w_relatch pid Unlatched w)) -> Q tt s') ->
  wp (BTreeIndex.release_front is_dirty f rest) Q s.
Proof.
  intros Hs Hh Hf Hp Hl Hd HQ. unfold BTreeIndex.release_front. apply wp_bind. eapply wp_set_page_set; [done|].
  intros s1 Hs1. apply wp_bind. eapply (wp_WUnlatch _ _ _ _ _ pid); [done..|].
  intros s2 Hs2. apply wp_bind. eapply (wp_page_id _ _ _ _ _ pid); [done|done|done|].
  apply wp_bind. eapply wp_unpin; [done|done| |done|].
  { intros _. cbn. by rewrite fn_lookup_insert. }
  intros s3 Hs3. by apply wp_ret, HQ.
Qed.

(** What is known can be forgotten. *)
Lemma at_world_weaken s m im ps w w' : at_world s m im ps w ->
  (forall q, w_pins w' q = w_pins w q) -> (forall q, w_latch w' q = w_latch w q) ->
  (forall q, w_bytes w' q = w_bytes w q) -> (forall q, w_held w' q -> w_held w q /\ w_frame w' q = w_frame w q) ->
  (forall q, w_safe w' q -> w_safe w q) -> (forall q, w_unused w' q -> w_unused w q) -> (forall q, w_dirty w' q -> w_dirty w q) ->
  at_world s m im ps w'.
Proof.
  intros [Hst Hm Hi Hps] Hp Hl Hb Hh Hsf Hu Hdi. split; try done. destruct Hst as [Hok Sp Sl Sb Sh Ss Su Sd].
  split; [done| | | | | | |]; intros q.
  - by rewrite Hp.
  - by rewrite Hl.
  - rewrite Hb. apply Sb.
  - intros Hq. destruct (Hh q Hq) as [Hq' ->]. by apply Sh.
  - intros Hq. by apply Ss, Hsf.
  - intros Hq. by apply Su, Hu.
  - intros Hq. by apply Sd, Hdi.
Qed.

Lemma wp_with_pool_bind {A B} (c : M (BufferPool D) A) (k : A -> M (BufferPool D) B) (Q : B -> tree -> Prop) s :
  wp (BTreeIndex.with_pool c) (fun a => wp (BTreeIndex.with_pool (k a)) Q) s -> wp (BTreeIndex.with_pool (c ≫= k)) Q s.
Proof.
  unfold wp, BTreeIndex.with_pool, mbind, M_bind. destruct (c (bt_bpm_ s)) as [[a|e] p]; cbn; [|done].
  by destruct (k a p) as [[b|e] p'].
Qed.
Lemma wp_with_pool_ret {A} (a : A) (Q : A -> tree -> Prop) s : Q a s -> wp (BTreeIndex.with_pool (mret a)) Q s.
Proof. intros HQ. unfold wp, BTreeIndex.with_pool. destruct s. exact HQ. Qed.

Definition w_forget w : world :=
  mk_world (w_pins w) (w_latch w) (w_bytes w) (w_frame w) (fun _ => False) (w_safe w) (w_unused w) (fun _ => False).
Lemma at_world_forget s m im ps w : at_world s m im ps w -> at_world s m im ps (w_forget w).
Proof. intros Hs. eapply at_world_weaken; [exact Hs|..]; done. Qed.

(** A new page whose guard is gone at once: nothing pins it. *)
Definition w_fresh pid f w : world :=
  mk_world (<[pid := 0]> (w_pins w)) (<[pid := Unlatched]> (w_latch w)) (<[pid := Page.zeros]> (w_bytes w))
    (<[pid := f]> (w_frame w)) (fun q => q = pid \/ (w_held w q /\ 0 < w_pins w q))
    (fun q => w_safe w q \/ q = pid) (fun q => w_unused w q /\ q <> pid)
    (fun q => w_dirty w q /\ 0 < w_pins w q).

Lemma wp_new_page_unguarded s m m' im ps w pid Q : at_world s m im ps w -> page_ok pid ->
  Index.AllocatePage m = Ok (pid, m') -> w_unused w pid ->
  (forall f s', at_world s' m' im ps (w_fresh pid f w) -> Q (f, pid) s') ->
  wp BTreeIndex.new_page_unguarded Q s.
Proof.
  intros Hs Hpid Hall Hun HQ. unfold BTreeIndex.new_page_unguarded. apply wp_bind. eapply wp_new_page; [done..|].
  intros f s1 Hs1. cbn [fst snd]. apply wp_bind. unfold BasicPageGuard.UpgradeWrite, deref. cbn [page_ BasicPageGuard.make].
  apply wp_with_pool_bind, wp_with_pool_ret, wp_with_pool_bind.
  eapply (wp_WLatch _ _ _ _ _ pid); [exact Hs1|by left|cbn; by rewrite fn_lookup_insert..|]. clear s1 Hs1. intros s1 Hs1.
  apply wp_with_pool_ret. cbn [fst snd]. apply wp_bind. unfold WritePageGuard.Drop, BasicPageGuard.GetDataMut. cbn [page_ BasicPageGuard.make g_is_dirty_].
  apply wp_with_pool_bind. eapply (wp_WUnlatch _ _ _ _ _ pid); [exact Hs1|by left|cbn; by rewrite fn_lookup_insert..|].
  clear s1 Hs1. intros s1 Hs1. unfold BasicPageGuard.Drop. cbn [page_ g_is_dirty_]. apply wp_with_pool_bind.
  eapply (wp_get_page _ _ _ _ _ pid); [exact Hs1|by left|cbn; by rewrite fn_lookup_insert|]. intros p Hp _.
  apply wp_with_pool_bind. unfold Page.GetPageId. rewrite Hp.
  eapply wp_unpin; [exact Hs1|cbn; by rewrite fn_lookup_insert| |by left|].
  { intros _. cbn. by rewrite fn_lookup_insert. }
  intros s2 Hs2. apply wp_with_pool_ret, wp_ret, HQ. eapply at_world_weaken; [exact Hs2|..]; cbn.
  - intros q. unfold insert, fn_insert. repeat case_decide; subst; first [congruence|lia].
  - intros q. unfold insert, fn_insert. by repeat case_decide.
  - done.
  - intros q Hq. split; [|done]. destruct Hq as [->|[Hq Hq0]].
    + right. split_and!; [by left|done|done].
    + destruct (decide (q = pid)) as [->|Hne]; [right; split_and!; [by left|done|done]|].
      left. split_and!; [by right| |done]. by rewrite fn_lookup_insert_ne.
  - intros q [Hq| ->]; [|right; split_and!; [done|done|apply Hpid]].
    destruct (decide (q = pid)) as [->|Hne]; [right; split_and!; [done|done|apply Hpid]|]. left. by split.
  - done.
  - intros q Hq. by left.
Qed.
End steps.
