(* ===== verification/BTreeShape.v ===== *)
(** * The shape of a B+ tree in memory

    A tree is its root page and the leaves below it: [span] lays the leaves of an internal
    page side by side, each with the range of keys it is for.  An internal root that splits
    never gets a parent (see BTreeFull), so two levels are all there are. *)
From S2P Require Import Prelude Bytes Types Value Index BtreePage BtreePageFacts BtreeNodes BtreeThms.
From Stdlib Require Import Sorting.Sorted.
Import BtreePage.
Open Scope Z_scope.

(** ** Ranges of keys: an end that is missing is infinite *)
Definition le_bound (lo : option Z) (r : Z) : Prop := match lo with Some b => b <= r | None => True end.
Definition lt_bound (r : Z) (hi : option Z) : Prop := match hi with Some b => r < b | None => True end.
Definition in_range (lo hi : option Z) (r : Z) : Prop := le_bound lo r /\ lt_bound r hi.
Definition lt_bounds (lo hi : option Z) : Prop := match lo with Some b => lt_bound b hi | None => True end.

Definition zero_key : IndexKeyType := replicate 8 x00.

Section leaves.
Context `{LeafLayout} (cmp : Comparator) (valid : IndexKeyType -> Prop) (rank : IndexKeyType -> Z)
  `{!OrderedKeys cmp valid rank}.
Abbreviation entries := (list (IndexKeyType * RID)).
#[local] Set Default Proof Using "Type*".

Definition slot_key (p : list byte) (i : nat) : IndexKeyType := rd (leaf_nodes + LEAF_NODE_SIZE * i) 8 p.

(** A leaf for the keys from [lo] up to [hi].  The slots behind the entries hold zeros, or
    keys that went to a sibling. *)
Record leaf_at (p : list byte) (parent pid next : Z) (lo hi : option Z) (es : entries) : Prop := {
  la_rep : leaf_rep valid p (mk_leaf_page pid parent next es);
  la_sorted : sorted rank es;
  la_range : Forall (fun e => in_range lo hi (rank e.1)) es;
  la_slack i : (length es <= i < 202)%nat ->
    slot_key p i = zero_key \/ (valid (slot_key p i) /\ ~ lt_bound (rank (slot_key p i)) hi)
}.

Lemma leaf_at_Lookup p parent pid next lo hi es key : leaf_at p parent pid next lo hi es -> valid key ->
  (length es < 202)%nat -> BtreeLeafPage.Lookup key cmp p = Ok (lookup_key rank key es).
Proof.
  intros Hl Hk Hn. apply (leaf_Lookup cmp valid rank p _ key (la_rep _ _ _ _ _ _ _ Hl) (la_sorted _ _ _ _ _ _ _ Hl) Hk).
  cbn. change LEAF_MAX_NODE_SIZE with 202. lia.
Qed.

(** A stale key never equals a new one that belongs into the leaf. *)
Lemma slack_differs k key hi : valid key -> lt_bound (rank key) hi -> equal_to cmp zero_key key = false ->
  k = zero_key \/ (valid k /\ ~ lt_bound (rank k) hi) -> equal_to cmp k key = false.
Proof.
  intros Hk Hhi Hz [->|[Hv Hno]]; [done|]. unfold equal_to. rewrite (cmp_rank k key Hv Hk).
  assert (rank k <> rank key) by congruence. destruct (Z.ltb_spec (rank k) (rank key)); [done|].
  by destruct (Z.ltb_spec (rank key) (rank k)); [|lia].
Qed.

Lemma leaf_at_Insert p parent pid next lo hi es key v : leaf_at p parent pid next lo hi es -> entry_valid valid (key, v) ->
  in_range lo hi (rank key) -> equal_to cmp zero_key key = false -> (length es < 202)%nat ->
  exists p', BtreeLeafPage.Insert key v cmp p = (Ok tt, p') /\
    if bool_decide (is_Some (lookup_key rank key es)) then p' = p
    else leaf_at p' parent pid next lo hi (insert_at_rank rank (key, v) es) /\
      (forall x, x ∈ es -> rank x.1 <> rank key) /\ length (insert_at_rank rank (key, v) es) = S (length es).
Proof.
  intros Hl He Hr Hz Hn. pose proof He as (Hk & _ & _). cbn in Hk.
  destruct (leaf_Insert cmp valid rank p _ key v (la_rep _ _ _ _ _ _ _ Hl) (la_sorted _ _ _ _ _ _ _ Hl) He)
    as (p' & E & Hp'); cbn [lp_entries] in *; [change LEAF_MAX_NODE_SIZE with 202; lia|].
  exists p'. split; [done|].
  assert (equal_to cmp (stale_key p (mk_leaf_page pid parent next es)) key = false) as Hst.
  { apply (slack_differs _ key hi Hk (proj2 Hr) Hz). exact (la_slack _ _ _ _ _ _ _ Hl (length es) ltac:(lia)). }
  rewrite Hst, andb_false_r, orb_false_r in Hp'. case_bool_decide; [done|]. destruct Hp' as (Hrep & Hne & Htail).
  assert (length (insert_at_rank rank (key, v) es) = S (length es)) as Hlen.
  { unfold insert_at_rank. rewrite length_app, length_take. cbn [length]. rewrite length_drop.
    pose proof (position_le rank (rank key) es). cbn. lia. }
  split_and!; [split|done|done].
  - exact Hrep.
  - apply sorted_insert; [apply (la_sorted _ _ _ _ _ _ _ Hl)|done].
  - apply Forall_forall. intros x [->|Hx]%(elem_insert_at_rank cmp valid rank); [done|].
    by apply (proj1 (Forall_forall _ _) (la_range _ _ _ _ _ _ _ Hl)).
  - intros i Hi. rewrite Hlen in Hi. unfold slot_key.
    rewrite Htail by (cbn [lp_entries]; unfold LEAF_NODE_SIZE; lia). apply (la_slack _ _ _ _ _ _ _ Hl). lia.
Qed.

(** A page just made: no entries, zeros behind the header. *)
Lemma Init_fresh page_id parent_id p : length p = page_size -> in_s 32 page_id -> in_s 32 parent_id ->
  (forall off n, (36 <= off)%nat -> rd off n p = rd off n (replicate page_size x00)) ->
  exists p', BtreeLeafPage.Init page_id parent_id p = Ok p' /\
    forall lo hi, leaf_at p' parent_id page_id INVALID_PAGE_ID lo hi [].
Proof.
  intros Hlp Hid Hpar Hz. destruct (Init_leaf_rep cmp valid rank page_id parent_id p) as (p' & E & Hrep & Hsame);
    [done|done|done|]. exists p'. split; [done|]. intros lo hi. split; [exact Hrep|constructor|constructor|].
  intros i Hi. left. unfold slot_key. pose proof leaf_nodes_bounds. rewrite Hsame, Hz by lia.
  apply list_eq. intros j. unfold zero_key. destruct (decide (j < 8)%nat).
  - assert (page_size = 4096%nat) as Hps by done. rewrite lookup_rd by lia.
    rewrite !lookup_replicate_2 by (unfold LEAF_NODE_SIZE; lia). done.
  - unfold rd. rewrite lookup_take_ge by lia. symmetry. apply lookup_ge_None. rewrite length_replicate. lia.
Qed.

Lemma leaf_at_split p r parent pid next sib lo hi es : leaf_at p parent pid next lo hi es -> length es = 202%nat ->
  leaf_at r parent sib INVALID_PAGE_ID lo hi [] ->
  exists p' r' e, BtreeLeafPage.MoveHalfTo p r = Ok (p', r') /\ es !! 101%nat = Some e /\
    leaf_at p' parent pid next lo (Some (rank e.1)) (take 101 es) /\
    leaf_at r' parent sib INVALID_PAGE_ID (Some (rank e.1)) hi (drop 101 es) /\
    BtreeLeafPage.KeyAt 0 r' = Ok e.1 /\ valid e.1 /\ length e.1 = 8%nat /\
    lt_bounds lo (Some (rank e.1)) /\ lt_bound (rank e.1) hi.
Proof.
  intros Hl Hfull Hr. pose proof (la_sorted _ _ _ _ _ _ _ Hl) as Hs. pose proof (la_range _ _ _ _ _ _ _ Hl) as Hrg.
  destruct (leaf_MoveHalfTo cmp valid rank p _ r (mk_leaf_page sib parent INVALID_PAGE_ID []) (la_rep _ _ _ _ _ _ _ Hl))
    as (p' & r' & E & Hp' & Hr' & Hsame & Htail); cbn [lp_entries];
    [by rewrite Hfull|apply (la_rep _ _ _ _ _ _ _ Hr)|done|]. cbn [lp_entries] in *.
  destruct (lookup_lt_is_Some_2 es 101) as [e He]; [lia|]. destruct (lookup_lt_is_Some_2 es 0) as [e0 He0]; [lia|].
  pose proof (lr_valid _ _ _ (la_rep _ _ _ _ _ _ _ Hl)) as Hv. cbn [lp_entries] in Hv.
  assert (forall i x, es !! i = Some x -> (i < 101)%nat <-> rank x.1 < rank e.1) as Hcut.
  { intros i x Hi. destruct (lt_eq_lt_dec i 101) as [[Hlt| ->]|Hgt].
    - pose proof (sorted_lt rank es i 101 x e Hs Hi He Hlt). lia.
    - rewrite He in Hi. injection Hi as ->. lia.
    - pose proof (sorted_lt rank es 101 i e x Hs He Hi Hgt). lia. }
  assert (forall i x, es !! i = Some x -> in_range lo hi (rank x.1)) as Hin.
  { intros i x Hi. eapply Forall_lookup in Hrg; [|exact Hi]. done. }
  exists p', r', e. split; [done|]. split; [done|]. split_and!; [split|split| | | | |].
  - exact Hp'.
  - by apply (sorted_take cmp valid rank).
  - apply Forall_lookup. intros i x [Hi Hlt]%lookup_take_Some. split; [apply (Hin i x Hi)|]. by apply (Hcut i x Hi).
  - intros i Hi. rewrite length_take in Hi. unfold slot_key. rewrite Hsame by lia. right.
    destruct (lookup_lt_is_Some_2 es i) as [x Hx]; [lia|].
    assert (rd (leaf_nodes + LEAF_NODE_SIZE * i) 8 p = x.1) as ->.
    { pose proof (leaf_key_at cmp valid rank p _ i x (la_rep _ _ _ _ _ _ _ Hl) Hx) as Hkx.
      unfold BtreeLeafPage.KeyAt, key_at in Hkx. rewrite pos_nat in Hkx by (unfold LEAF_NODE_SIZE; lia).
      pose proof leaf_nodes_bounds. pose proof (lr_length _ _ _ (la_rep _ _ _ _ _ _ _ Hl)) as Hlp. assert (page_size = 4096%nat) as Hps by done.
      rewrite mem_read_ok in Hkx by (unfold LEAF_NODE_SIZE; lia). by injection Hkx. }
    eapply Forall_lookup in Hv as (Hvx & _); [|exact Hx]. split; [done|]. cbn. rewrite <- (Hcut i x Hx). lia.
  - exact Hr'.
  - by apply (sorted_drop cmp valid rank).
  - apply Forall_lookup. intros i x Hi. rewrite lookup_drop in Hi. split; [|apply (Hin _ x Hi)].
    cbn. pose proof (Hcut _ x Hi). lia.
  - intros i Hi. rewrite length_drop in Hi. unfold slot_key. rewrite Htail by (unfold LEAF_NODE_SIZE; lia).
    apply (la_slack _ _ _ _ _ _ _ Hr). cbn. lia.
  - apply (leaf_key_at cmp valid rank r' _ 0 e Hr'). cbn. rewrite lookup_drop. by rewrite Nat.add_0_r.
  - by eapply Forall_lookup in Hv as (? & _); [|exact He].
  - by eapply Forall_lookup in Hv as (_ & ? & _); [|exact He].
  - pose proof (Hin 0%nat e0 He0) as [Hlo _]. pose proof (proj1 (Hcut 0%nat e0 He0) ltac:(lia)).
    destruct lo as [b|]; [|done]. cbn in Hlo |- *. lia.
  - apply (Hin 101%nat e He).
Qed.

(** The pointers of a leaf, set. *)
Lemma leaf_at_next p parent pid next next' lo hi es : leaf_at p parent pid next lo hi es -> in_s 32 next' ->
  leaf_at (BtreeLeafPage.SetNextPageId next' p) parent pid next' lo hi es.
Proof.
  intros [[] ? ? Hsl] Hn. cbn [lp_id lp_parent lp_next lp_entries] in *. pose proof leaf_nodes_bounds.
  assert (page_size = 4096%nat) as Hps by done. unfold BtreeLeafPage.SetNextPageId. split; [split|done|done|]; cbn [lp_id lp_parent lp_next lp_entries].
  - lens.
  - unfold GetPageType. by ranges.
  - unfold GetPageId. by ranges.
  - unfold GetParentPageId. by ranges.
  - unfold BtreeLeafPage.GetNextPageId. ranges. by apply le_s_bytes; [lia|].
  - unfold GetSize. by ranges.
  - unfold max_size_. by ranges.
  - done.
  - apply (array_rep_ext leaf_nodes LEAF_NODE_SIZE ltac:(unfold LEAF_NODE_SIZE; lia) p); [done|lens|].
    intros off k Ho. by rewrite rd_wr_ne by lens.
  - done.
  - intros i Hi. unfold slot_key. rewrite rd_wr_ne by lens. by apply Hsl.
Qed.
Lemma leaf_at_parent p parent parent' pid next lo hi es : leaf_at p parent pid next lo hi es -> in_s 32 parent' ->
  leaf_at (SetParentPageId parent' p) parent' pid next lo hi es.
Proof.
  intros [[] ? ? Hsl] Hn. cbn [lp_id lp_parent lp_next lp_entries] in *. pose proof leaf_nodes_bounds.
  assert (page_size = 4096%nat) as Hps by done. unfold SetParentPageId. split; [split|done|done|]; cbn [lp_id lp_parent lp_next lp_entries].
  - lens.
  - unfold GetPageType. by ranges.
  - unfold GetPageId. by ranges.
  - unfold GetParentPageId. ranges. by apply le_s_bytes; [lia|].
  - unfold BtreeLeafPage.GetNextPageId. by ranges.
  - unfold GetSize. by ranges.
  - unfold max_size_. by ranges.
  - done.
  - apply (array_rep_ext leaf_nodes LEAF_NODE_SIZE ltac:(unfold LEAF_NODE_SIZE; lia) p); [done|lens|].
    intros off k Ho. by rewrite rd_wr_ne by lens.
  - done.
  - intros i Hi. unfold slot_key. rewrite rd_wr_ne by lens. by apply Hsl.
Qed.
End leaves.

Lemma rd_app off n k m : rd off (n + k) m = rd off n m ++ rd (off + n) k m.
Proof. unfold rd. by rewrite <- take_take_drop, drop_drop. Qed.

(** ** Leaves side by side *)
Section spans.
Context `{LeafLayout} (cmp : Comparator) (valid : IndexKeyType -> Prop) (rank : IndexKeyType -> Z)
  `{!OrderedKeys cmp valid rank}.
Abbreviation entries := (list (IndexKeyType * RID)).
Abbreviation nodes := (list (IndexKeyType * Z)).
Implicit Types (mem : Z -> list byte) (kids pre post : nodes) (es : entries) (lo hi : option Z).
#[local] Set Default Proof Using "Type*".

(** The key of a node, but for the first one of a page, is where its range begins. *)
Definition starts kids (b : option Z) : Prop :=
  match kids with (k, _) :: _ => b = Some (rank k) /\ valid k | [] => True end.
Definition first_page kids (next : Z) : Z := match kids with (_, v) :: _ => v | [] => next end.

(** The leaves [kids] of page [parent] cover the keys from [lo] up to [hi]; each points to
    the next, the last one to [next]. *)
Fixpoint span mem (parent : Z) kids (next : Z) lo hi es : Prop :=
  match kids with
  | [] => lo = hi /\ es = []
  | (_, v) :: rest => exists mid es1 es2, es = es1 ++ es2 /\
      leaf_at valid rank (mem v) parent v (first_page rest next) lo mid es1 /\ (101 <= length es1 < 202)%nat /\
      lt_bounds lo mid /\ starts rest mid /\ span mem parent rest next mid hi es2
  end.

Lemma first_page_app a b next : first_page (a ++ b) next = first_page a (first_page b next).
Proof. by destruct a as [|[k v] a]. Qed.

Lemma span_app mem parent a b next lo hi es : span mem parent (a ++ b) next lo hi es <->
  exists mid es1 es2, es = es1 ++ es2 /\ span mem parent a (first_page b next) lo mid es1 /\
    (a = [] \/ starts b mid) /\ span mem parent b next mid hi es2.
Proof.
  revert lo es. induction a as [|[k v] a IH]; intros lo es; cbn [app].
  - split; [intros Hs; exists lo, [], es; cbn; split_and!; [done|done|done|by left|done]|].
    intros (mid & es1 & es2 & -> & [-> ->] & _ & Hs). done.
  - cbn [span]. split.
    + intros (mid & es1 & es2 & -> & Hl & Hn & Hlt & Hst & Hs). apply IH in Hs as (mid' & esa & esb & -> & Ha & Hb & Hs).
      exists mid', (es1 ++ esa), esb. rewrite app_assoc. split; [done|]. split; [|split; [|done]].
      * exists mid, es1, esa. rewrite <- first_page_app. split_and!; try done; try lia. destruct a as [|[k' v'] a]; [exact I|exact Hst].
      * right. destruct Hb as [->|]; [|done]. cbn in Ha. destruct Ha as [<- _]. done.
    + intros (mid & esx & es2 & -> & (mid1 & es1 & esa & -> & Hl & Hn & Hlt & Hst & Ha) & Hb & Hs).
      exists mid1, es1, (esa ++ es2). rewrite <- app_assoc, first_page_app. split_and!; try done; try lia.
      * destruct a as [|[k' v'] a]; [|exact Hst]. cbn in Ha. destruct Ha as [-> _]. by destruct Hb.
      * apply IH. exists mid, esa, es2. split_and!; try done; try lia. destruct Hb as [|Hb]; [done|by right].
Qed.

Lemma span_frame mem mem' parent kids next lo hi es : (forall v, v ∈ kids.*2 -> mem' v = mem v) ->
  span mem parent kids next lo hi es -> span mem' parent kids next lo hi es.
Proof.
  revert lo es. induction kids as [|[k v] kids IH]; intros lo es Hm; cbn [span]; [done|].
  intros (mid & es1 & es2 & -> & Hl & Hn & Hlt & Hst & Hs). exists mid, es1, es2. split_and!; try done; try lia.
  - rewrite Hm; [done|]. cbn. left.
  - apply IH; [|done]. intros v' Hv'. apply Hm. cbn. by right.
Qed.

Lemma span_upper mem parent kids next b hi es r : starts kids b -> span mem parent kids next b hi es ->
  lt_bound r b -> lt_bound r hi.
Proof.
  revert b es. induction kids as [|[k v] kids IH]; intros b es; cbn [starts span]; [by intros _ [-> _]|].
  intros [-> _] (mid & es1 & es2 & -> & _ & _ & Hlt & Hst & Hs) Hr. apply (IH mid es2 Hst Hs).
  destruct mid as [m|]; [|done]. cbn in *. lia.
Qed.

Lemma span_entries mem parent kids next lo hi es : span mem parent kids next lo hi es ->
  sorted rank es /\ Forall (fun e => in_range lo hi (rank e.1)) es.
Proof.
  revert lo es. induction kids as [|[k v] kids IH]; intros lo es; cbn [span]; [intros [_ ->]; split; constructor|].
  intros (mid & es1 & es2 & -> & Hl & Hn & Hlt & Hst & Hs). destruct (IH mid es2 Hs) as [Hs2 Hr2].
  pose proof (la_range _ _ _ _ _ _ _ _ _ Hl) as Hr1. rewrite Forall_forall in Hr1, Hr2.
  assert (forall x, x ∈ es2 -> exists m, mid = Some m /\ m <= rank x.1) as Hlow.
  { intros x Hx. destruct kids as [|[k' v'] kids]; [destruct Hs as [_ ->]; by apply elem_of_nil in Hx|].
    destruct Hst as [-> _]. exists (rank k'). split; [done|]. apply (Hr2 x Hx). }
  split.
  - pose proof (la_sorted _ _ _ _ _ _ _ _ _ Hl) as Hs1. clear -Hs1 Hs2 Hr1 Hlow.
    induction Hs1 as [|x es1 Hs1 IH Hall]; [done|]. cbn. constructor.
    + apply IH. intros y Hy. apply Hr1. by right.
    + apply Forall_app. split; [done|]. apply Forall_forall. intros y Hy. destruct (Hlow y Hy) as (m & -> & Hm).
      destruct (Hr1 x (list_elem_of_here _ _)) as [_ Hx]. cbn in Hx. lia.
  - apply Forall_app. split; apply Forall_forall; intros x Hx.
    + destruct (Hr1 x Hx) as [Hlo Hhi]. split; [done|]. by eapply span_upper.
    + destruct (Hlow x Hx) as (m & -> & Hm). destruct (Hr2 x Hx) as [_ Hhi]. split; [|done].
      destruct lo as [b|]; [|done]. cbn in *. lia.
Qed.

Lemma span_keys mem parent k0 v0 kids next lo hi es : span mem parent ((k0, v0) :: kids) next lo hi es ->
  sorted rank kids /\ Forall (fun e => valid e.1) kids /\ Forall (fun e => lt_bounds lo (Some (rank e.1))) kids.
Proof.
  revert k0 v0 lo es. induction kids as [|[k v] kids IH]; intros k0 v0 lo es; [intros _; split_and!; constructor|].
  intros (mid & es1 & es2 & -> & Hl & Hn & Hlt & [-> Hv] & Hs). destruct (IH k v _ _ Hs) as (Hsrt & Hval & Hlow).
  split_and!; [constructor| constructor|constructor]; try done.
  eapply Forall_impl; [exact Hlow|]. intros [k' v']. destruct lo as [b|]; [|done]. cbn in Hlt |- *. lia.
Qed.

Lemma span_size mem parent kids next lo hi es : span mem parent kids next lo hi es ->
  (101 * length kids <= length es)%nat.
Proof.
  revert lo es. induction kids as [|[k v] kids IH]; intros lo es; cbn [span length]; [lia|].
  intros (mid & es1 & es2 & -> & _ & Hn & _ & _ & Hs). rewrite length_app. specialize (IH mid es2 Hs). lia.
Qed.

(** *** One leaf among the others *)
Record focused mem parent pre (k : IndexKeyType) (c : Z) post next lo hi (lo' hi' : option Z) (esL es' esR : entries) : Prop := {
  fo_left : span mem parent pre c lo lo' esL;
  fo_lo : (pre = [] /\ lo' = lo) \/ (lo' = Some (rank k) /\ valid k);
  fo_leaf : leaf_at valid rank (mem c) parent c (first_page post next) lo' hi' es';
  fo_size : (101 <= length es' < 202)%nat;
  fo_lt : lt_bounds lo' hi';
  fo_hi : starts post hi';
  fo_right : span mem parent post next hi' hi esR
}.

Lemma span_focus mem parent pre k c post next lo hi es : span mem parent (pre ++ (k, c) :: post) next lo hi es <->
  exists lo' hi' esL es' esR, es = esL ++ es' ++ esR /\
    focused mem parent pre k c post next lo hi lo' hi' esL es' esR.
Proof.
  rewrite span_app. cbn [first_page span]. split.
  - intros (lo' & esL & es2 & -> & HL & Hst & (hi' & es' & esR & -> & Hl & Hn & Hlt & Hst' & HR)).
    exists lo', hi', esL, es', esR. split; [done|]. split; try done.
    destruct Hst as [->|[-> Hv]]; [left|by right]. cbn in HL. by destruct HL.
  - intros (lo' & hi' & esL & es' & esR & -> & [HL Hlo Hl Hn Hlt Hst HR]). exists lo', esL, (es' ++ esR).
    split_and!; [done|done| |by exists hi', es', esR]. destruct Hlo as [[-> _]|[-> Hv]]; [by left|by right].
Qed.

(** Where the search goes, the key belongs. *)
Lemma focused_range mem parent pre k c post next lo hi lo' hi' esL es' esR r :
  focused mem parent pre k c post next lo hi lo' hi' esL es' esR -> in_range lo hi r ->
  (pre = [] \/ rank k <= r) -> (forall e, head post = Some e -> r < rank e.1) -> in_range lo' hi' r.
Proof.
  intros [HL Hlo _ _ _ Hst HR] [Hr1 Hr2] Hk Hp. split.
  - destruct Hlo as [[-> ->]|[-> _]]; [done|]. destruct Hk as [->|]; [|done]. cbn in HL.
    destruct HL as [<- _]. done.
  - destruct post as [|[k' v'] post]; [cbn in HR; destruct HR as [-> _]; done|]. destruct Hst as [-> _].
    exact (Hp _ eq_refl).
Qed.

Lemma focused_elem mem parent pre k c post next lo hi lo' hi' esL es' esR x :
  focused mem parent pre k c post next lo hi lo' hi' esL es' esR -> in_range lo' hi' (rank x.1) ->
  x ∈ esL ++ es' ++ esR <-> x ∈ es'.
Proof.
  intros Hf [Hr1 Hr2]. pose proof Hf as [HL Hlo _ _ _ Hst HR]. rewrite !elem_of_app. split; [|tauto].
  intros [Hx|[|Hx]]; [exfalso|done|exfalso].
  - destruct (span_entries _ _ _ _ _ _ _ HL) as [_ Ha]. destruct (proj1 (Forall_forall _ _) Ha x Hx) as [_ Hlt].
    destruct Hlo as [[-> _]|[-> _]]; [cbn in HL; destruct HL as [_ ->]; by apply elem_of_nil in Hx|]. cbn in Hlt, Hr1. lia.
  - destruct (span_entries _ _ _ _ _ _ _ HR) as [_ Ha]. destruct (proj1 (Forall_forall _ _) Ha x Hx) as [Hge _].
    destruct post as [|[k' v'] post]; [cbn in HR; destruct HR as [_ ->]; by apply elem_of_nil in Hx|].
    destruct Hst as [-> _]. cbn in Hge, Hr2. lia.
Qed.

(** The leaf in focus changed, or became two. *)
Lemma focused_one mem mem' parent pre k c post next lo hi lo' hi' esL es' esR es'' :
  focused mem parent pre k c post next lo hi lo' hi' esL es' esR ->
  (forall v, v ∈ pre.*2 \/ v ∈ post.*2 -> mem' v = mem v) ->
  leaf_at valid rank (mem' c) parent c (first_page post next) lo' hi' es'' -> (101 <= length es'' < 202)%nat ->
  span mem' parent (pre ++ (k, c) :: post) next lo hi (esL ++ es'' ++ esR).
Proof.
  intros [HL Hlo _ _ Hlt Hst HR] Hm Hl Hn. apply span_focus. exists lo', hi', esL, es'', esR. split; [done|].
  split; try done; (eapply span_frame; [|done]); intros v Hv; apply Hm; tauto.
Qed.

Lemma focused_two mem mem' parent pre k c k2 c2 post next lo hi lo' hi' esL es' esR esa esb :
  focused mem parent pre k c post next lo hi lo' hi' esL es' esR ->
  (forall v, v ∈ pre.*2 \/ v ∈ post.*2 -> mem' v = mem v) ->
  leaf_at valid rank (mem' c) parent c c2 lo' (Some (rank k2)) esa -> (101 <= length esa < 202)%nat ->
  leaf_at valid rank (mem' c2) parent c2 (first_page post next) (Some (rank k2)) hi' esb -> (101 <= length esb < 202)%nat ->
  valid k2 -> lt_bounds lo' (Some (rank k2)) -> lt_bound (rank k2) hi' ->
  span mem' parent (pre ++ (k, c) :: (k2, c2) :: post) next lo hi (esL ++ esa ++ esb ++ esR).
Proof.
  intros [HL Hlo _ _ Hlt Hst HR] Hm Ha Hna Hb Hnb Hk2 Hlow Hup. apply span_focus.
  exists lo', (Some (rank k2)), esL, esa, (esb ++ esR). split; [done|]. split; try done.
  - eapply span_frame; [|done]. intros v Hv. apply Hm. tauto.
  - cbn [span]. exists hi', esb, esR. split_and!; try done; try lia. eapply span_frame; [|done]. intros v Hv. apply Hm. tauto.
Qed.

(** ** Roots *)
Record root_at (p : list byte) (root : Z) kids : Prop := {
  ra_rep : internal_rep p (mk_internal_page root INVALID_PAGE_ID kids);
  ra_length : length p = page_size;
  ra_kids : (2 <= length kids)%nat
}.

(** The root is a leaf when it has no nodes. *)
Definition tree_at mem (root : Z) kids es : Prop :=
  match kids with
  | [] => leaf_at valid rank (mem root) INVALID_PAGE_ID root INVALID_PAGE_ID None None es /\ (length es < 202)%nat
  | _ => root_at (mem root) root kids /\ span mem root kids INVALID_PAGE_ID None None es
  end.
Definition tree_pages (root : Z) kids : list Z := root :: kids.*2.

Lemma tree_sorted mem root kids es : tree_at mem root kids es -> sorted rank es.
Proof.
  destruct kids as [|e kids]; [intros [Hl _]; apply (la_sorted _ _ _ _ _ _ _ _ _ Hl)|].
  intros [_ Hs]. by eapply span_entries.
Qed.

Lemma new_root_at p n old key new : length p = page_size -> in_s 32 n -> in_s 32 old -> in_s 32 new ->
  length key = 8%nat ->
  exists p1 p2 k0, BtreeInternalPage.Init n INVALID_PAGE_ID p = Ok p1 /\
    BtreeInternalPage.PopulateNewRoot old key new p1 = Ok p2 /\ root_at p2 n [(k0, old); (key, new)].
Proof.
  intros Hl Hn Hold Hnew Hk. assert (page_size = 4096%nat) as Hps by done.
  unfold BtreeInternalPage.Init, SetMaxSize, assertion. change (0 <? INTERNAL_MAX_NODE_SIZE) with true. cbn [mbind res_bind].
  set (p1 := SetParentPageId _ _). assert (length p1 = 4096%nat) as Hp1.
  { unfold p1, SetParentPageId, SetSize, SetPageId, SetPageType. lens. }
  exists p1. eexists _, (rd 32 8 p1). split; [done|].
  unfold BtreeInternalPage.PopulateNewRoot, BtreeInternalPage.SetValueAt, BtreeInternalPage.SetKeyAt, BtreeInternalPage.pos, node_pos,
    INTERNAL_PAGE_HEADER_SIZE, INTERNAL_NODE_SIZE.
  change (32 + 12 * Z.to_nat 0 + 8)%nat with 40%nat. change (32 + 12 * Z.to_nat 1)%nat with 44%nat. change (44 + 8)%nat with 52%nat.
  do 3 (rewrite mem_write_ok by lens; cbn [mbind res_bind]).
  split; [reflexivity|].
  split; [split|unfold SetSize; lens|cbn; lia]; cbn [ip_id ip_parent ip_entries length]; unfold SetSize.
  - lens.
  - unfold GetPageType. ranges. unfold p1, SetParentPageId, SetSize, SetPageId, SetPageType. by ranges.
  - unfold GetPageId. ranges. unfold p1, SetParentPageId, SetSize, SetPageId, SetPageType. ranges. by apply le_s_bytes; [lia|].
  - unfold GetParentPageId. ranges. unfold p1, SetParentPageId. by ranges.
  - unfold GetSize. by ranges.
  - done.
  - unfold max_size_. ranges. unfold p1, SetParentPageId, SetSize, SetPageId, SetPageType. by ranges.
  - split; [unfold INTERNAL_PAGE_HEADER_SIZE, INTERNAL_NODE_SIZE; cbn [length fmap list_fmap]; lens|].
    unfold INTERNAL_PAGE_HEADER_SIZE, INTERNAL_NODE_SIZE, internal_bytes.
    assert (length (rd 32 8 p1) = 8%nat) as Hk0 by (apply length_rd; lia).
    intros [|[|i]] bs Hi; [| |done]; injection Hi as <-; cbn [fst snd]; rewrite length_app, length_le_bytes; (split; [lia|]).
    + change (32 + 12 * 0)%nat with 32%nat. rewrite (rd_app 32 8 4). change (32 + 8)%nat with 40%nat. by ranges.
    + change (32 + 12 * 1)%nat with 44%nat. rewrite (rd_app 44 8 4). change (44 + 8)%nat with 52%nat.
      ranges. rewrite (rd_wr_all _ _ key) by (done || lens). by ranges.
  - assert (length (rd 32 8 p1) = 8%nat) as Hk0 by (apply length_rd; lia).
    apply Forall_cons_2; [done|]. apply Forall_cons_2; [done|]. constructor.
Qed.
End spans.
