(* ===== verification/BTreeIndexThms.v ===== *)
(** * The B+ tree as a map

    [index_at]: between calls, the header page names the root of a tree that holds the
    entries [es].  Searches and insertions against that list. *)
From stdpp Require Import functions.
From S2P Require Import Prelude Bytes Types Value Schema Tuple DiskManager BufferPool PageGuard TableMeta.
From S2P Require Import Index BtreePage BtreePageFacts BtreeNodes BtreeThms Transactions BTreeIndex.
From S2P Require Import BTreePool BTreeShape.
Import BtreePage.
Open Scope Z_scope.

Definition header_at (p : list byte) (root : Z) : Prop :=
  length p = page_size /\ GetPageType p = HEADER_PAGE /\ BtreeHeaderPage.GetRootPageId p = root.

Lemma LEVELS_two : exists n1 n2, LEVELS = S n1 /\ n1 = S n2.
Proof. by exists 63%nat, 62%nat. Qed.

(** Looking up what the steps did to a world. *)
Ltac world_step :=
  cbn [w_pins w_latch w_bytes w_frame w_held w_safe w_unused w_dirty w_pin w_unpin w_relatch w_write w_create w_forget w_fresh] in *;
  repeat first [ rewrite fn_lookup_insert | rewrite fn_lookup_insert_ne by congruence ].

(** A page whose reference is still good. *)
Ltac whold :=
  cbn [w_held w_pin w_unpin w_relatch w_write w_create w_forget w_fresh];
  lazymatch goal with
  | |- (_ /\ _ /\ _) \/ _ => first
      [ left; split; [whold|split; [world_step; lia|congruence]] | right; split; [whold|split; [reflexivity|reflexivity]] ]
  | |- _ \/ _ => first [ left; reflexivity | right; whold ]
  | |- _ /\ _ => split; [whold|split_and?; first [ congruence | world_step; lia ]]
  | |- _ => assumption
  end.
Ltac wsafe :=
  cbn [w_safe w_pin w_unpin w_relatch w_write w_create w_forget w_fresh];
  lazymatch goal with
  | |- _ \/ (_ /\ _ /\ _) => first [ left; wsafe | right; split; [reflexivity|split; [reflexivity|assumption]] ]
  | |- _ /\ (_ -> _) => split; [wsafe|];
      (let E := fresh in intros E; first [ congruence | left; subst; world_step; lia
        | match goal with Hq : _ = _ -> _ \/ _ |- _ =>
            specialize (Hq E); subst; world_step; rewrite ?fn_lookup_insert in Hq; world_step;
            (let Hq0 := fresh in destruct Hq as [Hq0|Hq0]; [left; lia|first [tauto | right; tauto]]) end ])
  | |- _ /\ _ => split; [wsafe|congruence]
  | |- _ => assumption
  end.
(** Hypotheses about members of short lists. *)
Ltac wmade :=
  repeat match goal with
  | Hin : _ ∈ _ :: _ |- _ => apply elem_of_cons in Hin as [?|Hin]
  | Hin : _ ∈ [] |- _ => by apply elem_of_nil in Hin
  | Hni : _ ∉ _ :: _ |- _ => apply not_elem_of_cons in Hni as [? Hni]
  end.
Ltac wpoint := world_step; unfold insert, fn_insert; repeat case_decide; wmade; subst; first [ done | congruence | lia ].
Ltac wlook := world_step; first [ reflexivity | assumption | lia | congruence ].

(** The world, seen more simply; [w_forget] ends the list of pages held. *)
Ltac wweak Hs :=
  eapply at_world_weaken; [exact Hs|..]; (let q := fresh "q" in intros q);
  [ wpoint | wpoint | wpoint
  | cbn [w_held w_pin w_unpin w_relatch w_write w_create w_forget w_fresh]; (let Hq := fresh in intros Hq;
      repeat (destruct Hq as [-> |[Hq _]]; [split; [whold|wpoint]|]); destruct Hq)
  | cbn [w_safe w_pin w_unpin w_relatch w_write w_create w_forget w_fresh]; (let Hq := fresh in intros Hq; repeat (destruct Hq as [Hq ?]); wsafe)
  | done
  | (let Hq := fresh in intros Hq; cbn in Hq |- *; tauto) ].

Section index.
Context {D : Type} `{PageStore D} `{!HashOrder Z bool} `{!LeafLayout} `{!Value.StringLayout} `{!Failing D}.
Context (cmp : Comparator) (valid : IndexKeyType -> Prop) (rank : IndexKeyType -> Z) `{!OrderedKeys cmp valid rank}.
Abbreviation tree := (btree D).
Abbreviation entries := (list (IndexKeyType * RID)).
Abbreviation nodes := (list (IndexKeyType * Z)).
Implicit Types (s : tree) (w : world) (m : TableMeta) (im : IndexMeta) (kids : nodes) (es : entries).
#[local] Set Default Proof Using "Type*".

Definition page_of m (n : Z) : PageId := mk_PageId (table_oid_ m) n.

Record index_at s m im w (root : Z) kids es : Prop := {
  ix_world : at_world s m im [] w;
  ix_header : header_at (w_bytes w (page_of m (header_page_id_ im))) root;
  ix_tree : tree_at valid rank (fun n => w_bytes w (page_of m n)) root kids es;
  ix_nodup : NoDup (header_page_id_ im :: tree_pages root kids);
  ix_pages n : n ∈ header_page_id_ im :: tree_pages root kids ->
    page_ok (page_of m n) /\ n <= last_table_data_page_id_ m /\ w_safe w (page_of m n) /\ w_latch w (page_of m n) = Unlatched;
  ix_pins n : n ∈ tree_pages root kids -> 0 < n /\ w_pins w (page_of m n) = 0;
  ix_hpins : 0 <= w_pins w (page_of m (header_page_id_ im));
  ix_unused q : w_unused w q <-> table_id_ q = table_oid_ m /\ last_table_data_page_id_ m < page_number_ q;
  ix_last : in_s 32 (last_table_data_page_id_ m)
}.

(** The page set is empty, and [w] is [w0] but for the pins of the header. *)
Lemma index_same s s' m im w w' root kids es : index_at s m im w root kids es -> at_world s' m im [] w' ->
  (forall q, w_bytes w' q = w_bytes w q) -> (forall q, w_latch w' q = w_latch w q) ->
  (forall q, w_safe w q -> w_safe w' q) -> (forall q, w_unused w' q <-> w_unused w q) ->
  (forall n, n ∈ tree_pages root kids -> w_pins w' (page_of m n) = 0) ->
  0 <= w_pins w' (page_of m (header_page_id_ im)) -> index_at s' m im w' root kids es.
Proof.
  intros [Hw Hh Ht Hnd Hpg Hpn Hhp Hun Hl] Hw' Hb Hla Hsf Hu Hpn' Hhp'. split; try done.
  - by rewrite Hb.
  - assert (forall n, w_bytes w' (page_of m n) = w_bytes w (page_of m n)) as Hm by done.
    destruct kids as [|e kids]; cbn [tree_at] in *; [by rewrite Hm|]. rewrite Hm. split; [apply Ht|].
    eapply (span_frame cmp valid rank); [|apply Ht]. done.
  - intros n Hn. destruct (Hpg n Hn) as (? & ? & ? & ?). rewrite Hla. auto.
  - intros n Hn. split; [by apply Hpn|by apply Hpn'].
  - intros q. by rewrite Hu.
Qed.

(** A leaf is where the descent ends. *)
Lemma wp_descend_leaf fuel key op s m im ps w pid f b Q : at_world s m im ps w -> w_held w pid ->
  f = w_frame w pid -> page_ok pid -> IsLeafPage (w_bytes w pid) = true ->
  Q (f, b) s -> wp (BTreeIndex.descend cmp (S fuel) key op f b) Q s.
Proof.
  intros Hs Hh Hf Hp Hl HQ. cbn [BTreeIndex.descend]. apply wp_bind. eapply wp_node; [done..|]. rewrite Hl. by apply wp_ret.
Qed.

Lemma leaf_is_leaf p parent pid next lo hi es : leaf_at valid rank p parent pid next lo hi es -> IsLeafPage p = true.
Proof. intros Hl. unfold IsLeafPage. by rewrite (lr_type _ _ _ (la_rep _ _ _ _ _ _ _ _ _ Hl)). Qed.
Lemma leaf_parent p parent pid next lo hi es : leaf_at valid rank p parent pid next lo hi es -> GetParentPageId p = parent.
Proof. intros Hl. apply (lr_parent _ _ _ (la_rep _ _ _ _ _ _ _ _ _ Hl)). Qed.
Lemma root_not_leaf p root kids : root_at p root kids -> IsLeafPage p = false.
Proof. intros Hr. unfold IsLeafPage. by rewrite (ir_type _ _ (ra_rep _ _ _ Hr)). Qed.

(** Where the root sends a key. *)
Lemma root_Lookup mem root kids es key : kids <> [] -> tree_at valid rank mem root kids es -> valid key ->
  exists pre k c post lo hi esL es' esR, kids = pre ++ (k, c) :: post /\ es = esL ++ es' ++ esR /\
    BtreeInternalPage.Lookup key cmp (mem root) = Ok c /\
    focused valid rank mem root pre k c post INVALID_PAGE_ID None None lo hi esL es' esR /\ in_range lo hi (rank key).
Proof.
  intros Hne Ht Hk. destruct kids as [|[k0 v0] kids]; [done|]. destruct Ht as [Hr Hs].
  destruct (span_keys cmp valid rank _ _ _ _ _ _ _ _ _ Hs) as (Hsrt & Hval & _).
  destruct (internal_lookup_routes cmp valid rank (mem root) _ key (ra_rep _ _ _ Hr)) as (i & [k c] & Hi & E & Hlow & Hup);
    [done|exact Hsrt|exact Hval|done|]. cbn [ip_entries] in *.
  destruct (list_elem_of_split_length _ _ _ Hi) as (pre & post & Ekids & Hpre).
  rewrite Ekids in Hs. apply (span_focus cmp valid rank) in Hs as (lo & hi & esL & es' & esR & -> & Hf).
  exists pre, k, c, post, lo, hi, esL, es', esR. split_and!; try done.
  eapply (focused_range cmp valid rank); [exact Hf|done| |].
  - destruct Hlow as [->|?]; [left|by right]. by apply nil_length_inv.
  - intros e He. apply Hup. rewrite Ekids, lookup_app_r by lia. replace (S i - length pre)%nat with 1%nat by lia.
    cbn. by destruct post.
Qed.

Lemma focused_lookup mem root pre k c post next lo hi lo' hi' esL es' esR key :
  focused valid rank mem root pre k c post next lo hi lo' hi' esL es' esR -> in_range lo' hi' (rank key) ->
  sorted rank (esL ++ es' ++ esR) -> sorted rank es' ->
  lookup_key rank key (esL ++ es' ++ esR) = lookup_key rank key es'.
Proof.
  intros Hf Hr Hs Hs'. apply option_ext. intros v. rewrite !(lookup_key_elem cmp valid rank) by done.
  by apply (focused_elem cmp valid rank _ _ _ _ _ _ _ _ _ _ _ _ _ _ _ Hf).
Qed.

(** ** Searching *)

(** The end of a search: the leaf is read, unlatched and unpinned. *)
Lemma wp_read_leaf s m im ps w pid f lo hi parent n next es key Q : at_world s m im ps w -> w_held w pid ->
  f = w_frame w pid -> w_pins w pid = 1 -> w_latch w pid = Shared 1 ->
  w_safe w pid -> page_ok pid ->
  leaf_at valid rank (w_bytes w pid) parent n next lo hi es -> (length es < 202)%nat -> valid key ->
  (forall s', at_world s' m im ps (w_unpin pid false (w_relatch pid Unlatched w)) ->
     Q (lookup_key rank key es) s') ->
  wp (leaf_page ← BTreeIndex.node f; value ← lift (BtreeLeafPage.Lookup key cmp leaf_page);
      BTreeIndex.with_pool (latch_op Page.RUnlatch f);; id ← BTreeIndex.page_id f;
      BTreeIndex.with_pool (BufferPool.UnpinPage id false);; mret value) Q s.
Proof.
  intros Hs Hh Hf Hp Hl Hsf Hok Hleaf Hn Hk HQ. apply wp_bind. eapply wp_node; [done..|].
  apply wp_bind. eapply wp_lift; [by eapply (leaf_at_Lookup cmp valid rank)|].
  apply wp_bind. eapply wp_RUnlatch; [done|done|done|lia|done|]. clear s Hs. intros s Hs.
  apply wp_bind. eapply (wp_page_id _ _ _ _ _ pid); [done|done|done|].
  apply wp_bind. eapply wp_unpin; [exact Hs|wlook|wlook|intros _; by right|]. intros s' Hs'. by apply wp_ret, HQ.
Qed.

(** What a client may rely on about one page of the index. *)
Record ready w m n : Prop := {
  rd_ok : page_ok (page_of m n);
  rd_used : ~ w_unused w (page_of m n);
  rd_safe : w_safe w (page_of m n);
  rd_latch : w_latch w (page_of m n) = Unlatched
}.
Lemma index_ready s m im w root kids es n : index_at s m im w root kids es ->
  n ∈ header_page_id_ im :: tree_pages root kids -> ready w m n.
Proof.
  intros [_ _ _ _ Hpg _ _ Hun _] Hn. destruct (Hpg n Hn) as (? & ? & ? & ?). split; try done.
  intros [_ Hlt]%Hun. cbn in Hlt. lia.
Qed.
Lemma index_node s m im w root kids es n : index_at s m im w root kids es -> n ∈ tree_pages root kids ->
  0 < n /\ w_pins w (page_of m n) = 0 /\ page_of m (header_page_id_ im) <> page_of m n.
Proof.
  intros [_ _ _ Hnd _ Hpn _ _ _] Hn. destruct (Hpn n Hn). split_and!; [done|done|]. intros [= E].
  apply NoDup_cons in Hnd as [Hni _]. apply Hni. by rewrite E.
Qed.
Lemma index_child s m im w root kids es pre k c post : index_at s m im w root kids es -> kids = pre ++ (k, c) :: post ->
  c ∈ tree_pages root kids /\ page_of m root <> page_of m c.
Proof.
  intros [_ _ _ Hnd _ _ _ _ _] ->. assert (c ∈ (pre ++ (k, c) :: post).*2) as Hc.
  { rewrite fmap_app. apply elem_of_app. right. left. }
  split; [by right|]. intros [= E]. apply NoDup_cons in Hnd as [_ [Hni _]%NoDup_cons]. apply Hni. by rewrite E.
Qed.

(** The header page, fetched. *)
Lemma wp_header s m im w root kids es Q : index_at s m im w root kids es ->
  w_pins w (page_of m (header_page_id_ im)) < 2 ^ 16 - 1 ->
  (forall f s', at_world s' m im [] (w_pin (page_of m (header_page_id_ im)) f w) -> Q f s') ->
  wp BTreeIndex.header_raw_page Q s.
Proof.
  intros Hix Hmax HQ. pose proof (ix_world _ _ _ _ _ _ _ Hix) as Hw. destruct (index_ready _ _ _ _ _ _ _ (header_page_id_ im) Hix) as [? ? ? ?]; [by left|].
  unfold BTreeIndex.header_raw_page. apply wp_bind, wp_get. rewrite (at_meta _ _ _ _ _ Hw), (at_index _ _ _ _ _ Hw).
  fold (page_of m (header_page_id_ im)). eapply wp_fetch; [exact Hw|done|by right|done|done|]. intros f s' Hs' _. by apply HQ.
Qed.

(** The way down to the leaf of a key: only the leaf stays latched and pinned, and the
    header, pinned once more than before. *)
Definition scanned PH fh pid f w := w_relatch pid (Shared 1) (w_pin pid f (w_forget (w_relatch PH Unlatched (w_pin PH fh w)))).

Lemma wp_search s m im w fh root kids es key Q : index_at s m im w root kids es -> valid key ->
  let PH := page_of m (header_page_id_ im) in
  forall s1, at_world s1 m im [] (w_relatch PH (Shared 1) (w_pin PH fh w)) ->
  (forall n f lo hi next parent es' s', n ∈ tree_pages root kids ->
    at_world s' m im [] (scanned PH fh (page_of m n) f w) ->
    leaf_at valid rank (w_bytes w (page_of m n)) parent n next lo hi es' -> (length es' < 202)%nat ->
    lookup_key rank key es' = lookup_key rank key es -> Q f s') ->
  wp (BTreeIndex.SearchLeafPage cmp key SEARCH fh) Q s1.
Proof.
  intros Hix Hk PH s1 Hs1 HQ. pose proof Hix as [_ (_ & _ & Hhr) Ht _ _ _ Hhp _ _]. set (PR := page_of m root).
  destruct (index_ready _ _ _ _ _ _ _ (header_page_id_ im) Hix) as [HokH HuH HsH HlH]; [by left|]. fold PH in HokH, HuH, HsH, HlH, Hhr, Hhp.
  destruct (index_ready _ _ _ _ _ _ _ root Hix) as [HokR HuR HsR HlR]; [right; left|].
  destruct (index_node _ _ _ _ _ _ _ root Hix) as (Hroot & HpR & HneR); [left|]. fold PH PR in HneR, HpR, HokR, HuR, HsR, HlR.
  unfold BTreeIndex.SearchLeafPage. apply wp_bind. eapply (wp_node _ _ _ _ _ PH); [exact Hs1|whold|wlook|done|].
  cbn [w_bytes w_relatch w_pin w_forget]. rewrite Hhr. apply wp_bind, wp_assert; [by apply Z.ltb_lt|].
  apply wp_bind. eapply wp_table_page; [exact Hs1|]. fold (page_of m root). fold PR.
  apply wp_bind. eapply wp_fetch; [exact Hs1|done|right; wsafe|wlook|done|]. intros fr s2 Hs2 _. clear s1 Hs1.
  apply wp_bind, wp_bind. eapply (wp_RUnlatch _ _ _ _ _ PH); [exact Hs2|whold|wlook|wlook|wlook|]. clear s2 Hs2. intros s2 Hs2.
  eapply (wp_RLatch _ _ _ _ _ PR); [exact Hs2|whold|wlook|wlook|wlook|]. clear s2 Hs2. intros s2 Hs3.
  assert (at_world s2 m im [] (scanned PH fh PR fr w)) as Hs2 by (unfold scanned; wweak Hs3). clear Hs3. unfold scanned in Hs2.
  destruct LEVELS_two as (n1 & n2 & -> & En). destruct (decide (kids = [])) as [->|Hne].
  - destruct Ht as [Hleaf Hn]. apply wp_bind. eapply (wp_descend_leaf _ _ _ _ _ _ _ _ PR); [exact Hs2|whold|wlook|done| |].
    { cbn [w_bytes w_relatch w_pin w_forget]. by eapply leaf_is_leaf. }
    cbn [fst snd]. apply wp_bind. eapply (wp_node _ _ _ _ _ PR); [exact Hs2|whold|wlook|done|].
    apply wp_bind, wp_assert; [done|]. apply wp_ret. eapply (HQ root); [left| |exact Hleaf|done|done].
    exact Hs2.
  - destruct (root_Lookup (fun n => w_bytes w (page_of m n)) root kids es key) as
      (pre & k & c & post & lo & hi & esL & es' & esR & Ekd & Ees & Elk & Hf & Hrange); [done..|].
    assert (root_at (w_bytes w PR) root kids) as Hr by (destruct kids; [done|apply Ht]). cbn beta in Elk. fold PR in Elk.
    destruct (index_child _ _ _ _ _ _ _ _ _ _ _ Hix Ekd) as [Hc HneRC].
    destruct (index_ready _ _ _ _ _ _ _ c Hix) as [HokC HuC HsC HlC]; [by right|].
    destruct (index_node _ _ _ _ _ _ _ c Hix Hc) as (Hcpos & HpC & HneC).
    pose proof Hf as [_ _ Hleaf Hsz _ _ _]. cbn beta in Hleaf.
    set (PC := page_of m c) in *. fold PR in HneRC. fold PH in HneC.
    apply wp_bind. cbn [BTreeIndex.descend]. apply wp_bind. eapply (wp_node _ _ _ _ _ PR); [exact Hs2|whold|wlook|done|].
    cbn [w_bytes w_relatch w_pin w_forget]. rewrite (root_not_leaf _ _ _ Hr). apply wp_bind. eapply wp_lift; [exact Elk|].
    apply wp_bind, wp_assert; [by apply Z.ltb_lt|]. apply wp_bind. eapply wp_table_page; [exact Hs2|]. fold (page_of m c). fold PC.
    apply wp_bind. eapply wp_fetch; [exact Hs2|done|right; wsafe|wlook|done|]. intros fc s3 Hs3 _. clear s2 Hs2.
    apply wp_bind, wp_bind. eapply (wp_RLatch _ _ _ _ _ PC); [exact Hs3|whold|wlook|wlook|wlook|]. clear s3 Hs3. intros s3 Hs3.
    apply wp_bind. eapply (wp_RUnlatch _ _ _ _ _ PR); [exact Hs3|whold|wlook|wlook|wlook|]. clear s3 Hs3. intros s3 Hs3.
    apply wp_bind. eapply (wp_page_id _ _ _ _ _ PR); [exact Hs3|whold|wlook|].
    apply wp_bind. eapply wp_unpin; [exact Hs3|wlook|intros _; wlook|intros _; right; wsafe|]. clear s3 Hs3. intros s3 Hs4.
    assert (at_world s3 m im [] (scanned PH fh PC fc w)) as Hs3 by (unfold scanned; wweak Hs4). clear Hs4. unfold scanned in Hs3.
    apply wp_ret. rewrite En. eapply (wp_descend_leaf _ _ _ _ _ _ _ _ PC); [exact Hs3|whold|wlook|done| |].
    { cbn [w_bytes w_relatch w_pin w_forget]. by eapply leaf_is_leaf. }
    cbn [fst snd]. apply wp_bind. eapply (wp_node _ _ _ _ _ PC); [exact Hs3|whold|wlook|done|].
    apply wp_bind, wp_assert.
    { cbn [w_bytes w_relatch w_pin w_forget negb orb]. rewrite (leaf_parent _ _ _ _ _ _ _ Hleaf). by apply Z.ltb_lt. }
    apply wp_ret. eapply (HQ c); [done| |exact Hleaf|lia|].
    + exact Hs3.
    + rewrite Ees. symmetry. eapply focused_lookup; [exact Hf|done| |apply (la_sorted _ _ _ _ _ _ _ _ _ Hleaf)].
      rewrite <- Ees. by eapply (tree_sorted cmp valid rank).
Qed.

Lemma wp_scan s m im w root kids es key : index_at s m im w root kids es -> valid key ->
  w_pins w (page_of m (header_page_id_ im)) < 2 ^ 16 - 1 ->
  wp (BTreeIndex.InternalScanKey cmp key) (fun r s' => r = lookup_key rank key es /\
    exists w', index_at s' m im w' root kids es /\
      w_pins w' (page_of m (header_page_id_ im)) = w_pins w (page_of m (header_page_id_ im)) + 1) s.
Proof.
  intros Hix Hk Hmax. set (PH := page_of m (header_page_id_ im)) in *. pose proof (ix_hpins _ _ _ _ _ _ _ Hix) as Hhp. fold PH in Hhp.
  destruct (index_ready _ _ _ _ _ _ _ (header_page_id_ im) Hix) as [HokH HuH HsH HlH]; [by left|]. fold PH in HokH, HuH, HsH, HlH.
  unfold BTreeIndex.InternalScanKey. apply wp_bind. eapply wp_header; [done..|]. fold PH. intros fh s1 Hs1.
  apply wp_bind. eapply (wp_RLatch _ _ _ _ _ PH); [exact Hs1|whold|wlook|wlook|wlook|]. clear s1 Hs1. intros s1 Hs1.
  apply wp_bind. eapply wp_search; [exact Hix|done|exact Hs1|]. fold PH. unfold scanned.
  intros n f lo hi next parent es' s2 Hn Hs2 Hleaf Hes' Hlk.
  destruct (index_ready _ _ _ _ _ _ _ n Hix) as [HokN HuN HsN HlN]; [by right|].
  destruct (index_node _ _ _ _ _ _ _ n Hix Hn) as (Hpos & HpN & HneN). set (PN := page_of m n) in *. fold PH in HneN.
  eapply (wp_read_leaf _ _ _ _ _ PN); [exact Hs2|whold|wlook|wlook|wlook|wsafe|done|exact Hleaf|done|done|].
  intros s3 Hs3. split; [done|]. eexists. split; [eapply index_same; [exact Hix|exact Hs3|done| | |done| |]|].
  - intros q. wpoint.
  - intros q Hq. wsafe.
  - intros n' Hn'. destruct (index_node _ _ _ _ _ _ _ n' Hix Hn') as (_ & Hz & Hne). fold PH in Hne. wpoint.
  - fold PH. wpoint.
  - fold PH. wpoint.
Qed.
End index.
