(* ===== verification/BTreeInsert.v ===== *)
(** * Insertions into the B+ tree

    The descent with write latches, then the leaf: an entry goes in, or is there already;
    a leaf that is full gives half of its entries to a new one, which the root learns of, or
    which gets a root to share. *)
From stdpp Require Import functions.
From S2P Require Import Prelude Bytes Types Value Schema Tuple DiskManager BufferPool PageGuard TableMeta.
From S2P Require Import Index BtreePage BtreePageFacts BtreeNodes BtreeThms Transactions BTreeIndex.
From S2P Require Import BTreePool BTreeShape BTreeIndexThms.
Import BtreePage.
Open Scope Z_scope.

(** New pages [news], all unpinned, and the bytes [bs]. *)
Definition w_make (news : list PageId) (bs : PageId -> list byte) w : world :=
  mk_world (fun q => if decide (q ∈ news) then 0 else w_pins w q)
    (fun q => if decide (q ∈ news) then Unlatched else w_latch w q) bs (w_frame w) (fun _ => False)
    (fun q => w_safe w q \/ q ∈ news) (fun q => w_unused w q /\ q ∉ news) (fun _ => False).

(** The world seen as [w_make]. *)
Ltac wmake Hs :=
  eapply at_world_weaken; [exact Hs|..]; (let q := fresh "q" in intros q);
  cbn [w_make w_pins w_latch w_bytes w_held w_safe w_unused w_dirty];
  [ wpoint | wpoint | wpoint
  | intros []
  | (let Hq := fresh in intros [Hq|Hq]; wmade; subst)
  | (let Hq := fresh in let Hni := fresh in intros [Hq Hni]; wmade; cbn; try by auto)
  | by intros [] ].

Section insert.
Context {D : Type} `{PageStore D} `{!HashOrder Z bool} `{!LeafLayout} `{!Value.StringLayout} `{!Failing D}.
Context (cmp : Comparator) (valid : IndexKeyType -> Prop) (rank : IndexKeyType -> Z) `{!OrderedKeys cmp valid rank}.
Abbreviation tree := (btree D).
Abbreviation entries := (list (IndexKeyType * RID)).
Abbreviation nodes := (list (IndexKeyType * Z)).
Implicit Types (s : tree) (w : world) (m : TableMeta) (im : IndexMeta) (kids : nodes) (es : entries).
#[local] Set Default Proof Using "Type*".

(** [w_lock]: a page fetched and latched for writing. *)
Definition w_lock pid f w : world := w_relatch pid Exclusive (w_pin pid f w).

Lemma leaf_safe p parent pid next lo hi es : leaf_at valid rank p parent pid next lo hi es -> (length es < 202)%nat ->
  BTreeIndex.IsSafeNode p INSERT = Ok true.
Proof.
  intros Hl Hn. unfold BTreeIndex.IsSafeNode, assertion, GetMaxSize. rewrite bool_decide_true by done. cbn [mbind res_bind].
  pose proof (la_rep _ _ _ _ _ _ _ _ _ Hl) as Hr. rewrite (lr_max _ _ _ Hr), (lr_size _ _ _ Hr).
  change (0 <? LEAF_MAX_NODE_SIZE) with true. cbn [assertion mbind res_bind lp_entries].
  rewrite (leaf_is_leaf cmp valid rank _ _ _ _ _ _ _ Hl).
  destruct (Z.ltb_spec (Z.of_nat (length es)) LEAF_MAX_NODE_SIZE) as [|Hc]; [done|]. change LEAF_MAX_NODE_SIZE with 202 in Hc. lia.
Qed.

(** ** The way down *)
Definition locked PH fh w := w_lock PH fh (w_forget w).

Lemma wp_lock_root s1 m im w fh root es key Q s : index_at valid rank s m im w root [] es ->
  let PH := page_of m (header_page_id_ im) in
  at_world s1 m im [fh] (locked PH fh w) ->
  (forall f s', at_world s' m im [fh] (w_lock (page_of m root) f (locked PH fh w)) -> Q f s') ->
  wp (BTreeIndex.SearchLeafPage cmp key INSERT fh) Q s1.
Proof.
  intros Hix PH Hs1 HQ. pose proof Hix as [_ (_ & _ & Hhr) Ht _ _ _ Hhp _ _]. set (PR := page_of m root) in *.
  destruct (index_ready cmp valid rank _ _ _ _ _ _ _ (header_page_id_ im) Hix) as [HokH HuH HsH HlH]; [by left|]. fold PH in HokH, HuH, HsH, HlH, Hhr, Hhp.
  destruct (index_ready cmp valid rank _ _ _ _ _ _ _ root Hix) as [HokR HuR HsR HlR]; [right; left|].
  destruct (index_node cmp valid rank _ _ _ _ _ _ _ root Hix) as (Hroot & HpR & HneR); [left|]. fold PH PR in HneR, HpR, HokR, HuR, HsR, HlR.
  unfold locked, w_lock in *.
  unfold BTreeIndex.SearchLeafPage. apply wp_bind. eapply (wp_node _ _ _ _ _ PH); [exact Hs1|whold|wlook|done|].
  cbn [w_bytes w_relatch w_pin w_forget]. rewrite Hhr. apply wp_bind, wp_assert; [by apply Z.ltb_lt|].
  apply wp_bind. eapply wp_table_page; [exact Hs1|]. fold (page_of m root). fold PR.
  apply wp_bind. eapply wp_fetch; [exact Hs1|done|right; wsafe|wlook|done|]. intros fr s2 Hs2 _. clear s1 Hs1.
  apply wp_bind. eapply (wp_WLatch _ _ _ _ _ PR); [exact Hs2|whold|wlook|wlook|wlook|]. clear s2 Hs2. intros s2 Hs2.
  destruct LEVELS_two as (n1 & n2 & -> & En). destruct Ht as [Hleaf Hn].
  apply wp_bind. eapply (wp_descend_leaf cmp valid rank _ _ _ _ _ _ _ _ PR); [exact Hs2|whold|wlook|done| |].
  { cbn [w_bytes w_relatch w_pin]. by eapply (leaf_is_leaf cmp valid rank). }
  cbn [fst snd]. apply wp_bind. eapply (wp_node _ _ _ _ _ PR); [exact Hs2|whold|wlook|done|].
  apply wp_bind, wp_assert; [done|]. by apply wp_ret, HQ.
Qed.

(** The header and the root are let go once the leaf is locked. *)
Lemma wp_release_above s1 m im w PH PR PC fh fr fc Q : PH <> PR -> PC <> PH -> PR <> PC ->
  w_safe w PH -> w_safe w PR -> w_latch w PH = Unlatched -> w_latch w PR = Unlatched -> 0 <= w_pins w PH -> w_pins w PR = 0 -> w_pins w PC = 0 ->
  at_world s1 m im [fh; fr] (w_lock PC fc (w_lock PR fr (locked PH fh w))) ->
  (forall s', at_world s' m im [] (w_lock PC fc (w_forget w)) -> Q tt s') ->
  wp BTreeIndex.ReleaseParentWriteLatches Q s1.
Proof.
  rename s1 into s3. intros Hne1 Hne2 Hne3 HsH HsR HlH HlR HpH HpR HpC Hs3 HQ. unfold locked, w_lock in Hs3.
  unfold BTreeIndex.ReleaseParentWriteLatches. apply wp_bind, wp_get. rewrite (at_set _ _ _ _ _ Hs3). cbn [BTreeIndex.release_all].
  apply wp_bind. eapply (wp_release_front _ _ _ _ _ PH); [exact Hs3|whold|wlook|wlook|wlook|intros _; right; wsafe|]. clear s3 Hs3. intros s3 Hs3.
  assert (at_world s3 m im [fr] (w_lock PC fc (w_lock PR fr (w_forget w)))) as Hs4 by (unfold w_lock; wweak Hs3).
  unfold w_lock in Hs4. apply wp_bind. eapply (wp_release_front _ _ _ _ _ PR); [exact Hs4|whold|wlook|wlook|wlook|intros _; right; wsafe|]. clear s3 Hs3 Hs4. intros s3 Hs3.
  assert (at_world s3 m im [] (w_lock PC fc (w_forget w))) as Hs4 by (unfold w_lock; wweak Hs3).
  clear Hs3. unfold w_lock in Hs4.
  by apply wp_ret, HQ.
Qed.

(** Below a root that is no leaf, the leaf has room for one more entry, so that the latches
    above it go at once. *)
Lemma wp_lock_child s1 m im w fh root kids es key pre k c post lo hi esL es' esR Q s : index_at valid rank s m im w root kids es ->
  let PH := page_of m (header_page_id_ im) in
  at_world s1 m im [fh] (locked PH fh w) -> kids = pre ++ (k, c) :: post ->
  focused valid rank (fun n => w_bytes w (page_of m n)) root pre k c post INVALID_PAGE_ID None None lo hi esL es' esR ->
  BtreeInternalPage.Lookup key cmp (w_bytes w (page_of m root)) = Ok c ->
  (forall f s', at_world s' m im [] (w_lock (page_of m c) f (w_forget w)) -> Q f s') ->
  wp (BTreeIndex.SearchLeafPage cmp key INSERT fh) Q s1.
Proof.
  intros Hix PH Hs1 Ekd Hf Elk HQ. pose proof Hix as [_ (_ & _ & Hhr) Ht _ _ _ Hhp _ _]. set (PR := page_of m root) in *.
  destruct (index_ready cmp valid rank _ _ _ _ _ _ _ (header_page_id_ im) Hix) as [HokH HuH HsH HlH]; [by left|]. fold PH in HokH, HuH, HsH, HlH, Hhr, Hhp.
  destruct (index_ready cmp valid rank _ _ _ _ _ _ _ root Hix) as [HokR HuR HsR HlR]; [right; left|].
  destruct (index_node cmp valid rank _ _ _ _ _ _ _ root Hix) as (Hroot & HpR & HneR); [left|]. fold PH PR in HneR, HpR, HokR, HuR, HsR, HlR.
  assert (root_at (w_bytes w PR) root kids) as Hr by (destruct kids; [by destruct pre|apply Ht]).
  destruct (index_child cmp valid rank _ _ _ _ _ _ _ _ _ _ _ Hix Ekd) as [Hc HneRC].
  destruct (index_ready cmp valid rank _ _ _ _ _ _ _ c Hix) as [HokC HuC HsC HlC]; [by right|].
  destruct (index_node cmp valid rank _ _ _ _ _ _ _ c Hix Hc) as (Hcpos & HpC & HneC).
  pose proof Hf as [_ _ Hleaf Hsz _ _ _]. cbn beta in Hleaf.
  set (PC := page_of m c) in *. fold PR in HneRC. fold PH in HneC.
  unfold locked, w_lock in *.
  unfold BTreeIndex.SearchLeafPage. apply wp_bind. eapply (wp_node _ _ _ _ _ PH); [exact Hs1|whold|wlook|done|].
  cbn [w_bytes w_relatch w_pin w_forget]. rewrite Hhr. apply wp_bind, wp_assert; [by apply Z.ltb_lt|].
  apply wp_bind. eapply wp_table_page; [exact Hs1|]. fold (page_of m root). fold PR.
  apply wp_bind. eapply wp_fetch; [exact Hs1|done|right; wsafe|wlook|done|]. intros fr s2 Hs2 _. clear s1 Hs1.
  apply wp_bind. eapply (wp_WLatch _ _ _ _ _ PR); [exact Hs2|whold|wlook|wlook|wlook|]. clear s2 Hs2. intros s2 Hs2.
  destruct LEVELS_two as (n1 & n2 & -> & En).
  apply wp_bind. cbn [BTreeIndex.descend]. apply wp_bind. eapply (wp_node _ _ _ _ _ PR); [exact Hs2|whold|wlook|done|].
  cbn [w_bytes w_relatch w_pin w_forget]. rewrite (root_not_leaf _ _ _ Hr). apply wp_bind. eapply wp_lift; [exact Elk|].
  apply wp_bind, wp_assert; [by apply Z.ltb_lt|]. apply wp_bind. eapply wp_table_page; [exact Hs2|]. fold (page_of m c). fold PC.
  apply wp_bind. eapply wp_fetch; [exact Hs2|done|right; wsafe|wlook|done|]. intros fc s3 Hs3 _. clear s2 Hs2.
  apply wp_bind, wp_bind. eapply (wp_WLatch _ _ _ _ _ PC); [exact Hs3|whold|wlook|wlook|wlook|]. clear s3 Hs3. intros s3 Hs3.
  apply wp_bind. eapply wp_AddIntoPageSet; [exact Hs3|]. clear s3 Hs3. intros s3 Hs3. cbn [app] in Hs3.
  apply wp_bind. eapply (wp_node _ _ _ _ _ PC); [exact Hs3|whold|wlook|done|].
  apply wp_bind. eapply wp_lift; [eapply leaf_safe; [exact Hleaf|lia]|].
  apply wp_bind. eapply (wp_release_above _ _ _ w PH PR PC fh fr fc); [done..|lia|done|done|exact Hs3|]. clear s3 Hs3. intros s3 Hs4.
  unfold w_lock in Hs4.
  apply wp_ret. rewrite En. eapply (wp_descend_leaf cmp valid rank _ _ _ _ _ _ _ _ PC); [exact Hs4|whold|wlook|done| |].
  { cbn [w_bytes w_relatch w_pin w_unpin]. by eapply (leaf_is_leaf cmp valid rank). }
  cbn [fst snd]. apply wp_bind. eapply (wp_node _ _ _ _ _ PC); [exact Hs4|whold|wlook|done|].
  apply wp_bind, wp_assert.
  { cbn [w_bytes w_relatch w_pin w_unpin w_forget negb orb]. rewrite (leaf_parent cmp valid rank _ _ _ _ _ _ _ Hleaf). by apply Z.ltb_lt. }
  by apply wp_ret, HQ.
Qed.
(** ** What an insertion leaves *)

Lemma index_made s s' m m' im w news bs root kids es root' kids' es' : index_at valid rank s m im w root kids es ->
  at_world s' m' im [] (w_make news bs w) -> table_oid_ m' = table_oid_ m -> in_s 32 (last_table_data_page_id_ m') ->
  last_table_data_page_id_ m <= last_table_data_page_id_ m' ->
  (forall q, q ∈ news <-> table_id_ q = table_oid_ m /\ last_table_data_page_id_ m < page_number_ q <= last_table_data_page_id_ m') ->
  header_at (bs (page_of m (header_page_id_ im))) root' -> tree_at valid rank (fun n => bs (page_of m n)) root' kids' es' ->
  NoDup (tree_pages root' kids') ->
  (forall n, n ∈ tree_pages root' kids' -> n ∈ tree_pages root kids \/ (page_of m n ∈ news /\ page_ok (page_of m n))) ->
  index_at valid rank s' m' im (w_make news bs w) root' kids' es'.
Proof.
  intros Hix Hw' Hoid Hlast Hgrow Hnews Hh Ht Hnd Hpages. pose proof Hix as [_ _ _ Hnd0 Hpg Hpn Hhp Hun _].
  assert (forall n, page_of m' n = page_of m n) as Epg by (intros n; unfold page_of; by rewrite Hoid).
  assert (forall n, n ∈ header_page_id_ im :: tree_pages root kids -> page_of m n ∉ news) as Hold.
  { intros n Hn Hin. apply Hnews in Hin as [_ Hlt]. destruct (Hpg n Hn) as (_ & Hle & _). cbn in Hlt. lia. }
  assert (forall n, page_of m n ∈ news -> 0 < n) as Hpos.
  { intros n [_ Hlt]%Hnews. destruct (Hpg root) as (_ & Hle & _); [right; left|]. destruct (Hpn root) as [? _]; [left|]. cbn in Hlt. lia. }
  assert (page_of m (header_page_id_ im) ∉ news) as HoldH by (apply Hold; left).
  split; try done.
  - by rewrite Epg.
  - destruct kids' as [|e kids']; cbn [tree_at] in *; [by rewrite Epg|]. rewrite Epg. split; [apply Ht|].
    eapply (span_frame cmp valid rank); [|apply Ht]. intros v _. cbn. by rewrite Epg.
  - apply NoDup_cons. split; [|done]. intros [Hin|[Hin _]]%Hpages; [|done]. by apply NoDup_cons in Hnd0 as [? _].
  - intros n Hn. rewrite Epg. cbn [w_safe w_latch w_make].
    assert (n ∈ header_page_id_ im :: tree_pages root kids \/ (page_of m n ∈ news /\ page_ok (page_of m n))) as [Hn'|[Hin Hok]].
    { apply elem_of_cons in Hn as [-> |Hn]; [left; left|]. destruct (Hpages n Hn); [left; by right|by right]. }
    + destruct (Hpg n Hn') as (? & ? & ? & ?). rewrite decide_False by (by apply Hold). split_and!; [done|lia|by left|done].
    + rewrite decide_True by done. pose proof (proj1 (Hnews _) Hin) as [_ Hlt]. cbn in Hlt. split_and!; [done|lia|by right|done].
  - intros n Hn. rewrite Epg. cbn [w_pins w_make]. destruct (Hpages n Hn) as [Hn'|[Hin _]].
    + rewrite decide_False by (apply Hold; by right). by apply Hpn.
    + rewrite decide_True by done. split; [by apply Hpos|done].
  - rewrite Epg. cbn [w_pins w_make]. by rewrite decide_False.
  - intros q. cbn [w_unused w_make]. rewrite Hun, Hnews, Hoid. split; [intros [[? ?] ?]; split; [done|]|intros [? ?]; split; [split; [done|lia]|]].
    + destruct (Z.lt_ge_cases (last_table_data_page_id_ m') (page_number_ q)); [done|]. exfalso. tauto.
    + intros [_ ?]. lia.
Qed.

(** ** At the leaf *)

(** [InsertIntoLeaf] once the leaf is found. *)
Definition finish_leaf {A} (leaf_page : Z) (k : M tree A) : M tree A :=
  BTreeIndex.with_pool (latch_op Page.WUnlatch leaf_page);; id ← BTreeIndex.page_id leaf_page;
  BTreeIndex.with_pool (BufferPool.UnpinPage id true);; k.
Definition split_leaf {A} (leaf_page : Z) (k : Z -> IndexKeyType -> M tree A) : M tree A :=
  sibling_leaf_node ← BTreeIndex.SplitLeaf leaf_page;
  leaf_node ← BTreeIndex.node leaf_page;
  BTreeIndex.on_node sibling_leaf_node (modify (BtreeLeafPage.SetNextPageId (BtreeLeafPage.GetNextPageId leaf_node)));;
  sibling ← BTreeIndex.node sibling_leaf_node;
  BTreeIndex.on_node leaf_page (modify (BtreeLeafPage.SetNextPageId (GetPageId sibling)));;
  sibling ← BTreeIndex.node sibling_leaf_node;
  risen_key ← lift (BtreeLeafPage.KeyAt 0 sibling);
  k sibling_leaf_node risen_key.

(** The pages an insertion holds besides the leaf: none, or the header. *)
Inductive holding (PH : PageId) (fh : Z) w : list Z -> world -> Prop :=
  | hold_none : holding PH fh w [] (w_forget w)
  | hold_header : w_latch w PH = Unlatched -> 0 <= w_pins w PH -> w_safe w PH -> holding PH fh w [fh] (locked PH fh w).

Lemma wp_release_parents s m im ps w W PH fh pid f bs Q : holding PH fh w ps W -> PH <> pid -> 0 <= w_pins w pid ->
  at_world s m im ps (w_write pid bs (w_lock pid f W)) ->
  (forall s', at_world s' m im [] (w_write pid bs (w_lock pid f (w_forget w))) -> Q tt s') ->
  wp BTreeIndex.ReleaseParentWriteLatches Q s.
Proof.
  intros Hold Hne Hpid Hs HQ. unfold BTreeIndex.ReleaseParentWriteLatches. apply wp_bind, wp_get. rewrite (at_set _ _ _ _ _ Hs).
  destruct Hold as [|Hl Hp Hsf]; cbn [BTreeIndex.release_all]; [by apply wp_ret, HQ|]. unfold locked, w_lock in *.
  apply wp_bind. eapply (wp_release_front _ _ _ _ _ PH); [exact Hs|whold|wlook|wlook|wlook|intros _; right; wsafe|].
  intros s1 Hs1. apply wp_ret, HQ. wweak Hs1.
Qed.

Definition finish_pair (leaf_page sibling_leaf_node : Z) : M tree bool :=
  finish_leaf leaf_page (sibling ← BTreeIndex.node sibling_leaf_node;
    id ← BTreeIndex.table_page (GetPageId sibling);
    BTreeIndex.with_pool (BufferPool.UnpinPage id true);; mret true).
Definition at_leaf (key : IndexKeyType) (value : RID) (header_page leaf_page : Z) : M tree bool :=
  leaf_node ← BTreeIndex.node leaf_page;
  let size := GetSize leaf_node in
  BTreeIndex.on_node leaf_page (BtreeLeafPage.Insert key value cmp);;
  leaf_node ← BTreeIndex.node leaf_page;
  let new_size := GetSize leaf_node in
  max ← lift (GetMaxSize leaf_node);
  if max <=? new_size then
    split_leaf leaf_page (fun sibling_leaf_node risen_key =>
      BTreeIndex.InsertIntoParent LEVELS leaf_page sibling_leaf_node risen_key header_page;;
      finish_pair leaf_page sibling_leaf_node)
  else
    BTreeIndex.ReleaseParentWriteLatches;; finish_leaf leaf_page (mret (negb (new_size =? size))).
Lemma InsertIntoLeaf_steps key value header_page : BTreeIndex.InsertIntoLeaf cmp key value header_page =
  (leaf_page ← BTreeIndex.SearchLeafPage cmp key INSERT header_page; at_leaf key value header_page leaf_page).
Proof. reflexivity. Qed.

(** A leaf held alone is let go. *)
Lemma wp_finish_leaf {A} s m im w pid f bs (k : M tree A) Q : page_ok pid ->
  w_pins w pid = 0 -> w_latch w pid = Unlatched ->
  at_world s m im [] (w_write pid bs (w_lock pid f (w_forget w))) ->
  (forall s', at_world s' m im [] (w_make [] (<[pid := bs]> (w_bytes w)) w) -> wp k Q s') ->
  wp (finish_leaf f k) Q s.
Proof.
  intros [Hok _] Hp Hl Hs HQ. unfold w_lock in *. unfold finish_leaf.
  apply wp_bind. eapply (wp_WUnlatch _ _ _ _ _ pid); [exact Hs|whold|wlook|wlook|wlook|]. clear s Hs. intros s Hs.
  apply wp_bind. eapply (wp_page_id _ _ _ _ _ pid); [exact Hs|whold|wlook|].
  apply wp_bind. eapply wp_unpin; [exact Hs|wlook|intros _; wlook|intros _; by left|]. clear s Hs. intros s Hs.
  apply HQ. wmake Hs. cbn. destruct (decide (q = pid)) as [-> |]; [by right|by left].
Qed.

(** The entries with one more, unless its key is there. *)
Definition inserted (key : IndexKeyType) (v : RID) es : entries :=
  if bool_decide (is_Some (lookup_key rank key es)) then es else insert_at_rank rank (key, v) es.

Lemma leaf_inserted p parent pid next lo hi es key v : leaf_at valid rank p parent pid next lo hi es ->
  entry_valid valid (key, v) -> in_range lo hi (rank key) -> equal_to cmp zero_key key = false -> (length es < 202)%nat ->
  exists p', BtreeLeafPage.Insert key v cmp p = (Ok tt, p') /\ leaf_at valid rank p' parent pid next lo hi (inserted key v es) /\
    length p' = page_size /\ GetSize p = Z.of_nat (length es) /\ GetSize p' = Z.of_nat (length (inserted key v es)) /\
    GetMaxSize p' = Ok 202 /\ (length es <= length (inserted key v es) <= 202)%nat /\
    ((length (inserted key v es) = length es) <-> is_Some (lookup_key rank key es)).
Proof.
  intros Hl He Hr Hz Hn. destruct (leaf_at_Insert cmp valid rank p parent pid next lo hi es key v) as (p' & E & Hp'); [done..|].
  assert (leaf_at valid rank p' parent pid next lo hi (inserted key v es) /\
    (length es <= length (inserted key v es) <= 202)%nat /\
    ((length (inserted key v es) = length es) <-> is_Some (lookup_key rank key es))) as (Hl' & Hlen & Hiff).
  { unfold inserted. case_bool_decide as Hs; [subst; split_and!; try done; lia|].
    destruct Hp' as (? & _ & Hlen). split_and!; [done|lia|lia|]. split; [lia|done]. }
  exists p'. pose proof (la_rep _ _ _ _ _ _ _ _ _ Hl') as Hrep. pose proof (la_rep _ _ _ _ _ _ _ _ _ Hl) as Hrep0.
  split_and!; try done; try lia.
  - apply (lr_length _ _ _ Hrep).
  - apply (lr_size _ _ _ Hrep0).
  - apply (lr_size _ _ _ Hrep).
  - unfold GetMaxSize. rewrite (lr_max _ _ _ Hrep). reflexivity.
Qed.

Lemma holding_world PH fh w ps W : holding PH fh w ps W ->
  w_bytes W = w_bytes w /\ w_unused W = w_unused w /\ w_safe W = w_safe w /\
  forall q, q <> PH -> w_pins W q = w_pins w q /\ w_latch W q = w_latch w q.
Proof.
  destruct 1; [done|]. split_and!; try done. intros q Hq. cbn. by rewrite !fn_lookup_insert_ne.
Qed.

(** The entry is in the leaf. *)
Lemma wp_at_leaf s m im ps w W PH n fh f parent next lo hi es key v Q : let PL := page_of m n in
  holding PH fh w ps W -> PH <> PL -> page_ok PL -> w_pins w PL = 0 ->
  at_world s m im ps (w_lock PL f W) ->
  leaf_at valid rank (w_bytes w PL) parent n next lo hi es -> entry_valid valid (key, v) -> in_range lo hi (rank key) ->
  equal_to cmp zero_key key = false -> (length es < 202)%nat ->
  (forall s' p', at_world s' m im ps (w_write PL p' (w_lock PL f W)) ->
     leaf_at valid rank p' parent n next lo hi (inserted key v es) -> (length es <= length (inserted key v es) <= 202)%nat ->
     wp (if 202 <=? Z.of_nat (length (inserted key v es)) then
           split_leaf f (fun sibling risen => BTreeIndex.InsertIntoParent LEVELS f sibling risen fh;; finish_pair f sibling)
         else BTreeIndex.ReleaseParentWriteLatches;; finish_leaf f (mret (bool_decide (lookup_key rank key es = None)))) Q s') ->
  wp (at_leaf key v fh f) Q s.
Proof.
  intros PL Hold Hne Hok Hp Hs Hleaf He Hr Hz Hn HQ.
  destruct (holding_world _ _ _ _ _ Hold) as (Hb & _ & _ & Hoth). destruct (Hoth PL) as [HpW HlW]; [congruence|].
  destruct (leaf_inserted _ _ _ _ _ _ _ _ _ Hleaf He Hr Hz Hn) as (p' & E & Hleaf' & Hlp & Hsz & Hsz' & Hmax & Hlen & Hiff).
  unfold at_leaf, w_lock in *.
  apply wp_bind. eapply (wp_node _ _ _ _ _ PL); [exact Hs|whold|wlook|done|]. cbn [w_bytes w_relatch w_pin]. rewrite Hb.
  apply wp_bind. eapply (wp_on_node _ _ _ _ _ PL); [exact Hs|whold|wlook|done|cbn [w_bytes w_relatch w_pin]; rewrite Hb; exact E|done|].
  clear s Hs. intros s Hs.
  apply wp_bind. eapply (wp_node _ _ _ _ _ PL); [exact Hs|whold|wlook|done|]. cbn [w_bytes w_write w_relatch w_pin]. rewrite fn_lookup_insert.
  apply wp_bind. eapply wp_lift; [exact Hmax|]. rewrite Hsz, Hsz'.
  assert (negb (Z.of_nat (length (inserted key v es)) =? Z.of_nat (length es)) = bool_decide (lookup_key rank key es = None)) as ->.
  { case_bool_decide as Hnone.
    - destruct (Z.eqb_spec (Z.of_nat (length (inserted key v es))) (Z.of_nat (length es))); [|done].
      assert (is_Some (lookup_key rank key es)) as [? Hx] by (apply Hiff; lia). congruence.
    - rewrite (proj2 Hiff) by (by apply not_eq_None_Some). by rewrite Z.eqb_refl. }
  by apply (HQ s p').
Qed.

(** ** Splitting a leaf *)
Definition grown m : TableMeta := TableMeta.SetLastTableDataPageId (last_table_data_page_id_ m + 1) m.
(** Two leaves held besides what [w] holds: the one that was split, latched, and its sibling. *)
Definition w_pair PL (f : Z) (p : list byte) PN (f' : Z) (p' : list byte) w : world :=
  mk_world (<[PN := 1]> (<[PL := 1]> (w_pins w))) (<[PN := Unlatched]> (<[PL := Exclusive]> (w_latch w)))
    (<[PN := p']> (<[PL := p]> (w_bytes w))) (<[PN := f']> (<[PL := f]> (w_frame w)))
    (fun q => q = PN \/ q = PL \/ (w_held w q /\ 0 < w_pins w q /\ q <> PN /\ q <> PL))
    (fun q => w_safe w q /\ q <> PN /\ q <> PL) (fun q => w_unused w q /\ q <> PN) (fun _ => False).

(** The next page number is fit for a page. *)
Record can_grow m : Prop := {
  cg_oid : table_oid_ m <> INVALID_TABLE_OID;
  cg_last : -1 <= last_table_data_page_id_ m;
  cg_room : in_s 32 (last_table_data_page_id_ m + 1);
  cg_page : page_ok (page_of m (last_table_data_page_id_ m + 1))
}.
Lemma allocate_page m : can_grow m ->
  Index.AllocatePage m = Ok (page_of m (last_table_data_page_id_ m + 1), grown m).
Proof using.
  intros [Ho Hl Hr _]. unfold Index.AllocatePage. rewrite Increment_spec by (done || width). done.
Qed.

Lemma wp_SplitLeaf s m im ps W n f p parent next lo hi es Q :
  let n' := last_table_data_page_id_ m + 1 in let PL := page_of m n in let PN := page_of m n' in
  can_grow m -> 0 < n' -> at_world s m im ps (w_write PL p (w_lock PL f W)) -> w_pins W PL = 0 -> page_ok PL ->
  w_unused W PN -> PL <> PN ->
  leaf_at valid rank p parent n next lo hi es -> length es = 202%nat ->
  (forall f' s' p' r' e, at_world s' (grown m) im ps (w_pair PL f p' PN f' r' W) -> es !! 101%nat = Some e ->
    leaf_at valid rank p' parent n next lo (Some (rank e.1)) (take 101 es) ->
    leaf_at valid rank r' parent n' INVALID_PAGE_ID (Some (rank e.1)) hi (drop 101 es) ->
    valid e.1 -> length e.1 = 8%nat -> lt_bounds lo (Some (rank e.1)) -> lt_bound (rank e.1) hi -> Q f' s') ->
  wp (BTreeIndex.SplitLeaf f) Q s.
Proof.
  intros n' PL PN Hg Hn' Hs Hp HokL Hun Hne Hleaf Hfull HQ. pose proof (cg_page m Hg) as HokN. fold n' PN in HokN.
  pose proof (la_rep _ _ _ _ _ _ _ _ _ Hleaf) as Hrep.
  pose proof (lr_parent _ _ _ Hrep) as Epar. cbn [lp_parent] in Epar.
  assert (in_s 32 parent) as Hpar by (rewrite <- Epar; by apply (swrap_range 32)).
  unfold w_lock in *. unfold BTreeIndex.SplitLeaf.
  apply wp_bind. eapply wp_new_page; [exact Hs|exact HokN|by apply allocate_page|exact Hun|]. clear s Hs. intros fN s Hs.
  cbn [fst snd]. apply wp_bind, wp_assert; [by apply Z.ltb_lt|].
  apply wp_bind. eapply (wp_node _ _ _ _ _ PL); [exact Hs|whold|wlook|done|].
  apply wp_bind. eapply (wp_node _ _ _ _ _ PN); [exact Hs|whold|wlook|done|].
  cbn [w_bytes w_create w_write w_relatch w_pin]. rewrite fn_lookup_insert, fn_lookup_insert_ne, fn_lookup_insert by done.
  assert (GetParentPageId p = parent) as -> by apply (lr_parent _ _ _ Hrep).
  destruct (Init_fresh cmp valid rank n' parent (SetPageType (GetPageType p) Page.zeros)) as (r0 & E0 & Hr0); [done|apply Hg|done| |].
  { intros off k Ho. unfold SetPageType, Page.zeros. by rewrite rd_wr_ne by lens. }
  apply wp_bind. eapply wp_lift; [exact E0|].
  destruct (leaf_at_split cmp valid rank p r0 parent n next n' lo hi es Hleaf Hfull (Hr0 lo hi))
    as (p' & r' & e & E & He & Hlp & Hlr & _ & Hv & Hk & Hlow & Hup).
  apply wp_bind. eapply wp_lift; [exact E|]. cbn [fst snd].
  apply wp_bind. eapply (wp_store _ _ _ _ _ PL); [exact Hs|whold|wlook|apply (lr_length _ _ _ (la_rep _ _ _ _ _ _ _ _ _ Hlp))|].
  clear s Hs. intros s Hs.
  apply wp_bind. eapply (wp_store _ _ _ _ _ PN); [exact Hs|whold|wlook|apply (lr_length _ _ _ (la_rep _ _ _ _ _ _ _ _ _ Hlr))|].
  clear s Hs. intros s Hs. apply wp_ret. eapply HQ; try done.
  unfold w_pair. eapply at_world_weaken; [exact Hs|..]; intros q; cbn [w_pins w_latch w_bytes w_held w_safe w_unused w_frame w_dirty]; [wpoint|wpoint|wpoint| | |done|done].
  - intros Hq. split; [|wpoint]. destruct Hq as [-> |[-> |(Hq & Hpq & Hne1 & Hne2)]]; [whold..|].
    cbn. right. split; [by right|]. by world_step.
  - intros (Hq & Hne1 & Hne2). cbn. split_and!; done || by intros ->.
Qed.

Lemma wp_pair_left {A} s m im ps w PL f p PN f' p' (c : M (list byte) A) a bs Q :
  at_world s m im ps (w_pair PL f p PN f' p' w) -> PL <> PN -> page_ok PL -> c p = (Ok a, bs) -> length bs = page_size ->
  (forall s', at_world s' m im ps (w_pair PL f bs PN f' p' w) -> Q a s') -> wp (BTreeIndex.on_node f c) Q s.
Proof.
  intros Hs Hne Hok E Hl HQ.
  eapply (wp_on_node _ _ _ _ _ PL); [exact Hs|right; by left|cbn; wlook|done|cbn; world_step; exact E|done|]. clear s Hs.
  intros s Hs. apply HQ. eapply at_world_weaken; [exact Hs|..]; intros q; try done; cbn; [wpoint|].
  intros (Hq & Hne1 & Hne2). by split_and!.
Qed.
Lemma wp_pair_right {A} s m im ps w PL f p PN f' p' (c : M (list byte) A) a bs Q :
  at_world s m im ps (w_pair PL f p PN f' p' w) -> PL <> PN -> page_ok PN -> c p' = (Ok a, bs) -> length bs = page_size ->
  (forall s', at_world s' m im ps (w_pair PL f p PN f' bs w) -> Q a s') -> wp (BTreeIndex.on_node f' c) Q s.
Proof.
  intros Hs Hne Hok E Hl HQ.
  eapply (wp_on_node _ _ _ _ _ PN); [exact Hs|by left|cbn; wlook|done|cbn; world_step; exact E|done|]. clear s Hs.
  intros s Hs. apply HQ. eapply at_world_weaken; [exact Hs|..]; intros q; try done; cbn; [wpoint|].
  intros (Hq & Hne1 & Hne2). by split_and!.
Qed.
Lemma wp_pair_node_left s m im ps w PL f p PN f' p' Q :
  at_world s m im ps (w_pair PL f p PN f' p' w) -> PL <> PN -> page_ok PL -> Q p s -> wp (BTreeIndex.node f) Q s.
Proof.
  intros Hs Hne Hok HQ. eapply (wp_node _ _ _ _ _ PL); [exact Hs|right; by left|cbn; wlook|done|]. cbn. by world_step.
Qed.
Lemma wp_pair_node_right s m im ps w PL f p PN f' p' Q :
  at_world s m im ps (w_pair PL f p PN f' p' w) -> page_ok PN -> Q p' s -> wp (BTreeIndex.node f') Q s.
Proof.
  intros Hs Hok HQ. eapply (wp_node _ _ _ _ _ PN); [exact Hs|by left|cbn; wlook|done|]. cbn. by world_step.
Qed.

Lemma wp_split_leaf {A} s m im ps W n f p parent next lo hi es (k : Z -> IndexKeyType -> M tree A) Q :
  let n' := last_table_data_page_id_ m + 1 in let PL := page_of m n in let PN := page_of m n' in
  can_grow m -> 0 < n' -> at_world s m im ps (w_write PL p (w_lock PL f W)) -> w_pins W PL = 0 -> page_ok PL ->
  w_unused W PN -> PL <> PN ->
  leaf_at valid rank p parent n next lo hi es -> length es = 202%nat ->
  (forall f' s' p' r' e, at_world s' (grown m) im ps (w_pair PL f p' PN f' r' W) -> es !! 101%nat = Some e ->
    leaf_at valid rank p' parent n n' lo (Some (rank e.1)) (take 101 es) ->
    leaf_at valid rank r' parent n' next (Some (rank e.1)) hi (drop 101 es) ->
    valid e.1 -> length e.1 = 8%nat -> lt_bounds lo (Some (rank e.1)) -> lt_bound (rank e.1) hi -> wp (k f' e.1) Q s') ->
  wp (split_leaf f k) Q s.
Proof.
  intros n' PL PN Hg Hn' Hs Hp HokL Hun Hne Hleaf Hfull HQ. pose proof (cg_page m Hg) as HokN. fold n' PN in HokN.
  pose proof (lr_next _ _ _ (la_rep _ _ _ _ _ _ _ _ _ Hleaf)) as Enx. cbn [lp_next] in Enx.
  assert (in_s 32 next) as Hnext by (rewrite <- Enx; by apply (swrap_range 32)).
  unfold split_leaf. apply wp_bind. eapply wp_SplitLeaf; [exact Hg|exact Hn'|exact Hs|done..|]. clear s Hs.
  fold n' PL PN. intros f' s p' r' e Hs He Hlp Hlr Hv Hk Hlow Hup.
  assert (forall b c, leaf_at valid rank p' parent n b lo c (take 101 es) -> BtreeLeafPage.GetNextPageId p' = b) as Hnx.
  { intros b c Hb. apply (lr_next _ _ _ (la_rep _ _ _ _ _ _ _ _ _ Hb)). }
  pose proof (leaf_at_next cmp valid rank r' parent n' _ next _ hi _ Hlr Hnext) as Hlr2.
  pose proof (leaf_at_next cmp valid rank p' parent n next n' lo _ _ Hlp (cg_room m Hg)) as Hlp2.
  apply wp_bind. eapply wp_pair_node_left; [exact Hs|done|done|]. rewrite (Hnx _ _ Hlp).
  apply wp_bind. eapply wp_pair_right; [exact Hs|done|done|reflexivity|apply (lr_length _ _ _ (la_rep _ _ _ _ _ _ _ _ _ Hlr2))|].
  clear s Hs. intros s Hs. apply wp_bind. eapply wp_pair_node_right; [exact Hs|done|].
  assert (GetPageId (BtreeLeafPage.SetNextPageId next r') = n') as ->.
  { apply (lr_id _ _ _ (la_rep _ _ _ _ _ _ _ _ _ Hlr2)). }
  apply wp_bind. eapply wp_pair_left; [exact Hs|done|done|reflexivity|apply (lr_length _ _ _ (la_rep _ _ _ _ _ _ _ _ _ Hlp2))|].
  clear s Hs. intros s Hs. apply wp_bind. eapply wp_pair_node_right; [exact Hs|done|].
  apply wp_bind. eapply wp_lift; [|eapply HQ; [exact Hs|done..]].
  apply (leaf_key_at cmp valid rank _ _ 0 e (la_rep _ _ _ _ _ _ _ _ _ Hlr2)). cbn. by rewrite lookup_drop, Nat.add_0_r.
Qed.

(** Both leaves are let go. *)
Lemma wp_finish_pair s m im w PL f p n' f' p' Q : let PN := page_of m n' in
  at_world s m im [] (w_pair PL f p PN f' p' w) -> PL <> PN -> page_ok PL -> page_ok PN -> GetPageId p' = n' ->
  w_pins w PL = 0 -> w_latch w PL = Unlatched ->
  (forall s', at_world s' m im [] (w_make [PN] (<[PN := p']> (<[PL := p]> (w_bytes w))) w) -> Q true s') ->
  wp (finish_pair f f') Q s.
Proof.
  intros PN Hs Hne [HokL _] HokN Hid Hp Hl HQ. unfold finish_pair, finish_leaf.
  apply wp_bind. eapply (wp_WUnlatch _ _ _ _ _ PL); [exact Hs|right; by left|cbn; wlook|cbn; wlook|cbn; wlook|]. clear s Hs. intros s Hs.
  apply wp_bind. eapply (wp_page_id _ _ _ _ _ PL); [exact Hs|right; by left|cbn; wlook|].
  apply wp_bind. eapply wp_unpin; [exact Hs|cbn; wlook|intros _; cbn; wlook|intros _; by left|]. clear s Hs. intros s Hs.
  assert (w_held (w_unpin PL true (w_relatch PL Unlatched (w_pair PL f p PN f' p' w))) PN) as HhN.
  { left. split_and!; [by left| |congruence]. cbn. world_step. lia. }
  apply wp_bind. eapply (wp_node _ _ _ _ _ PN); [exact Hs|exact HhN|cbn; wlook|done|]. cbn [w_bytes w_unpin w_relatch w_pair].
  rewrite fn_lookup_insert, Hid. apply wp_bind. eapply wp_table_page; [exact Hs|]. fold (page_of m n'). fold PN.
  apply wp_bind. eapply wp_unpin; [exact Hs|cbn; world_step; lia|intros _; cbn; wlook|intros _; by left|]. clear s Hs. intros s Hs.
  apply wp_ret, HQ. destruct HokN as [HstN _]. unfold w_pair in Hs. wmake Hs.
  - cbn. destruct (decide (q = PN)) as [-> |]; [by right|]. left. destruct (decide (q = PL)) as [-> |]; [by right|]. left. done.
  - cbn. right. done.
Qed.

(** ** The parent *)

(** A root with room for one more node. *)
Lemma wp_root_has_room s m im w root kids pre k c post f p key n' f' p' fh Q :
  let PR := page_of m root in let PL := page_of m c in let PN := page_of m n' in
  at_world s m im [] (w_pair PL f p PN f' p' (w_forget w)) -> kids = pre ++ (k, c) :: post -> NoDup kids.*2 ->
  root_at (w_bytes w PR) root kids -> (length kids < 338)%nat ->
  PL <> PN -> PR <> PL -> PR <> PN -> page_ok PL -> page_ok PN -> page_ok PR -> ~ w_unused w PR -> w_safe w PR -> w_pins w PR = 0 ->
  w_latch w PR = Unlatched -> 0 < root -> GetParentPageId p = root -> GetPageId p = c -> GetPageId p' = n' -> length key = 8%nat -> in_s 32 n' ->
  (forall s' p3, at_world s' m im [] (w_pair PL f p PN f' p' (w_make [] (<[PR := p3]> (w_bytes w)) w)) ->
     root_at p3 root (pre ++ (k, c) :: (key, n') :: post) -> Q tt s') ->
  wp (BTreeIndex.InsertIntoParent LEVELS f f' key fh) Q s.
Proof.
  intros PR PL PN Hs Ekd Hnd [Hrep Hlen H2] Hroom Hne HneL HneN HokL HokN HokR HuR HsR HpR HlR Hroot Hpar Hid Hid' Hk Hn' HQ.
  assert (kids !! length pre = Some (k, c)) as Hi by (rewrite Ekd; by rewrite list_lookup_middle).
  destruct (internal_InsertNodeAfter (w_bytes w PR) _ (length pre) (k, c) key n' Hrep Hi) as (p3 & E3 & Hl3 & Hrep3);
    [|done|done|cbn; width|cbn; unfold INTERNAL_PAGE_HEADER_SIZE, INTERNAL_NODE_SIZE; rewrite Hlen; change page_size with 4096%nat; lia|].
  { intros i e' Hlt He' Heq. apply (NoDup_lookup _ i (length pre) c) in Hnd; [lia| |]; rewrite list_lookup_fmap.
    - cbn in He'. rewrite He'. cbn. by rewrite Heq.
    - by rewrite Hi. }
  cbn [ip_entries ip_id ip_parent snd] in *.
  assert (take (S (length pre)) kids ++ (key, n') :: drop (S (length pre)) kids = pre ++ (k, c) :: (key, n') :: post) as Enew.
  { rewrite Ekd, (cons_middle (k, c)), app_assoc, take_app_length', drop_app_length' by (rewrite length_app; cbn; lia).
    by rewrite <- app_assoc. }
  rewrite Enew in Hrep3.
  destruct LEVELS_two as (n1 & _ & -> & _). cbn [BTreeIndex.InsertIntoParent].
  apply wp_bind. eapply wp_pair_node_left; [exact Hs|done|done|]. apply wp_bind. eapply wp_pair_node_right; [exact Hs|done|].
  unfold IsRootPage. rewrite Hpar. destruct (Z.eqb_spec root INVALID_PAGE_ID) as [Hbad|_]; [unfold INVALID_PAGE_ID in Hbad; lia|].
  apply wp_bind. eapply wp_table_page; [exact Hs|]. fold (page_of m root). fold PR.
  assert (w_pins (w_pair PL f p PN f' p' (w_forget w)) PR = 0) as HpR' by (cbn; by world_step).
  apply wp_bind. eapply wp_fetch; [exact Hs|done|right; cbn; by split_and!|rewrite HpR'; done|by intros [? _]|]. clear s Hs. intros fr s Hs _.
  assert (w_held (w_pin PR fr (w_pair PL f p PN f' p' (w_forget w))) PR) as HhR by (by left).
  apply wp_bind. eapply (wp_node _ _ _ _ _ PR); [exact Hs|done|cbn; wlook|done|]. cbn [w_bytes w_pin w_pair w_forget].
  rewrite !fn_lookup_insert_ne by done. apply wp_bind. eapply wp_lift.
  { unfold GetMaxSize. rewrite (ir_max _ _ Hrep). reflexivity. }
  rewrite (ir_size _ _ Hrep). cbn [ip_entries]. change INTERNAL_MAX_NODE_SIZE with 338.
  destruct (Z.ltb_spec (Z.of_nat (length kids)) 338); [|lia]. rewrite Hid, Hid'. apply wp_bind. eapply wp_lift; [exact E3|].
  apply wp_bind. eapply (wp_store _ _ _ _ _ PR); [exact Hs|done|cbn; wlook|congruence|]. clear s Hs. intros s Hs.
  apply wp_bind. unfold BTreeIndex.ReleaseParentWriteLatches. apply wp_bind, wp_get. rewrite (at_set _ _ _ _ _ Hs). cbn [BTreeIndex.release_all].
  apply wp_ret. apply wp_bind. eapply (wp_page_id _ _ _ _ _ PR); [exact Hs|done|cbn; wlook|].
  apply wp_bind. eapply wp_unpin; [exact Hs|cbn; world_step; lia| |intros _; by left|].
  { intros _. cbn. by world_step. }
  clear s Hs. intros s Hs.
  apply wp_ret. eapply (HQ _ p3); [|split; [exact Hrep3|congruence|rewrite length_app; cbn; rewrite Ekd, length_app in H2; cbn in H2; lia]].
  eapply at_world_weaken; [exact Hs|..]; intros q; cbn; [wpoint|wpoint|wpoint| | | |done].
  - intros [-> |[-> |([] & _)]]; (split; [left; split_and!; [right|wpoint|congruence]|wpoint]; [split; [|wpoint]]; auto).
  - intros ([Hq|[]%not_elem_of_nil] & Hne1 & Hne2). destruct (decide (q = PR)) as [-> |].
    + right. split_and!; [done..|]. apply HokR.
    + left. by split.
  - intros [[Hq _] Hne1]. by split.
Qed.

Lemma header_set_root p root n : header_at p root -> in_s 32 n -> header_at (BtreeHeaderPage.SetRootPageId n p) n.
Proof.
  intros (Hl & Ht & Hr) Hn. assert (page_size = 4096%nat) as Hps by done.
  unfold BtreeHeaderPage.SetRootPageId. split_and!; [lens| |].
  - rewrite <- Ht. unfold GetPageType. by ranges.
  - unfold BtreeHeaderPage.GetRootPageId. ranges. by apply le_s_bytes; [lia|].
Qed.

(** A root that is a leaf gets a root of its own. *)
Lemma wp_root_is_leaf s m im w PH fh PL f p key PN f' p' root Q :
  let n2 := last_table_data_page_id_ m + 1 in let P2 := page_of m n2 in
  at_world s m im [fh] (w_pair PL f p PN f' p' (locked PH fh w)) -> can_grow m -> w_unused w P2 -> 0 < n2 ->
  PH <> PL -> PH <> PN -> PH <> P2 -> PL <> PN -> PL <> P2 -> PN <> P2 ->
  page_ok PL -> page_ok PN -> page_ok PH -> length p = page_size -> length p' = page_size ->
  w_latch w PH = Unlatched -> 0 <= w_pins w PH -> w_safe w PH -> header_at (w_bytes w PH) root ->
  GetParentPageId p = INVALID_PAGE_ID -> in_s 32 (GetPageId p) -> in_s 32 (GetPageId p') -> length key = 8%nat ->
  (forall s' p3 ph k0, at_world s' (grown m) im [] (w_pair PL f (SetParentPageId n2 p) PN f' (SetParentPageId n2 p')
       (w_make [P2] (<[P2 := p3]> (<[PH := ph]> (w_bytes w))) w)) ->
     root_at p3 n2 [(k0, GetPageId p); (key, GetPageId p')] -> header_at ph n2 -> Q tt s') ->
  wp (BTreeIndex.InsertIntoParent LEVELS f f' key fh) Q s.
Proof.
  intros n2 P2 Hs Hg Hun Hn2 HneHL HneHN HneH2 HneLN HneL2 HneN2 HokL HokN HokH Hlp Hlp' HlH HpH HsH Hhd Hpar Hin Hin' Hk HQ.
  pose proof (cg_page m Hg) as Hok2. fold n2 P2 in Hok2.
  destruct (new_root_at Page.zeros n2 (GetPageId p) key (GetPageId p')) as (p1 & p3 & k0 & E1 & E3 & Hroot);
    [done|apply Hg|done..|].
  pose proof (header_set_root _ _ n2 Hhd (cg_room m Hg)) as Hhd'.
  destruct LEVELS_two as (n1 & _ & -> & _). cbn [BTreeIndex.InsertIntoParent].
  apply wp_bind. eapply wp_pair_node_left; [exact Hs|done|done|]. apply wp_bind. eapply wp_pair_node_right; [exact Hs|done|].
  unfold IsRootPage. rewrite Hpar, Z.eqb_refl.
  apply wp_bind. eapply wp_new_page_unguarded; [exact Hs|exact Hok2|by apply allocate_page|by split|]. clear s Hs. intros f2 s Hs.
  cbn [fst snd]. change (page_number_ P2) with n2.
  set (w1 := w_fresh P2 f2 _) in *.
  assert (w_held w1 P2 /\ w_frame w1 P2 = f2) as [H2 F2] by (split; [by left|cbn; wlook]).
  assert (w_held w1 PL /\ w_frame w1 PL = f) as [HL FL].
  { split; [|cbn; wlook]. right. split; [right; by left|cbn; world_step; lia]. }
  assert (w_held w1 PN /\ w_frame w1 PN = f') as [HN FN].
  { split; [|cbn; wlook]. right. split; [by left|cbn; world_step; lia]. }
  assert (w_held w1 PH /\ w_frame w1 PH = fh) as [HH FH].
  { split; [|cbn; wlook]. right. split; [right; right; split_and!; [by left|cbn; world_step; lia|done|done]|cbn; world_step; lia]. }
  assert (w_bytes w1 P2 = Page.zeros /\ w_bytes w1 PL = p /\ w_bytes w1 PN = p' /\ w_bytes w1 PH = w_bytes w PH) as (B2 & BL & BN & BH).
  { split_and!; cbn; wlook. }
  assert (w_pins w1 PH = w_pins w PH + 1 /\ w_latch w1 PH = Exclusive) as [P_H L_H] by (split; cbn; wlook).
  apply wp_bind. eapply (wp_node _ _ _ _ _ P2); [exact Hs|done|done|done|]. rewrite B2.
  apply wp_bind. eapply wp_lift; [exact E1|]. apply wp_bind. eapply wp_lift; [exact E3|].
  apply wp_bind. eapply (wp_store _ _ _ _ _ P2); [exact Hs|done|done|apply (ra_length _ _ _ Hroot)|]. clear s Hs. intros s Hs.
  apply wp_bind. eapply (wp_on_node _ _ _ _ _ PL); [exact Hs|exact HL|done|done|cbn [w_bytes w_write]; rewrite fn_lookup_insert_ne, BL by done; reflexivity|unfold SetParentPageId; change page_size with 4096%nat in *; lens|].
  clear s Hs. intros s Hs.
  apply wp_bind. eapply (wp_on_node _ _ _ _ _ PN); [exact Hs|exact HN|done|done|cbn [w_bytes w_write]; rewrite !fn_lookup_insert_ne, BN by done; reflexivity|unfold SetParentPageId; change page_size with 4096%nat in *; lens|].
  clear s Hs. intros s Hs.
  apply wp_bind. eapply (wp_on_node _ _ _ _ _ PH); [exact Hs|exact HH|done|done|cbn [w_bytes w_write]; rewrite !fn_lookup_insert_ne, BH by done; reflexivity|apply Hhd'|].
  clear s Hs. intros s Hs.
  apply wp_bind. unfold BTreeIndex.ReleaseHeaderPageAndMarkDirty. apply wp_bind, wp_get. rewrite (at_set _ _ _ _ _ Hs).
  apply wp_bind. eapply (wp_node _ _ _ _ _ PH); [exact Hs|done|done|done|]. cbn [w_bytes w_write]. rewrite fn_lookup_insert.
  apply wp_bind, wp_assert; [by rewrite (proj1 (proj2 Hhd'))|].
  eapply (wp_release_front _ _ _ _ _ PH); [exact Hs|done|done|cbn [w_pins w_write]; lia|done|intros _; by left|]. clear s Hs. intros s Hs.
  unfold BTreeIndex.ReleaseParentWriteLatches. apply wp_bind, wp_get. rewrite (at_set _ _ _ _ _ Hs). cbn [BTreeIndex.release_all].
  apply wp_ret. eapply (HQ _ p3 (BtreeHeaderPage.SetRootPageId n2 (w_bytes w PH)) k0); [|done|done].
  assert (forall q, w_held (w_pair PL f (SetParentPageId n2 p) PN f' (SetParentPageId n2 p')
       (w_make [P2] (<[P2 := p3]> (<[PH := BtreeHeaderPage.SetRootPageId n2 (w_bytes w PH)]> (w_bytes w))) w)) q ->
     (q = PN \/ q = PL) /\ w_held w1 q /\ 0 < w_pins w1 q /\ q <> PH) as Hheld.
  { intros q [-> |[-> |([] & _)]]; (split_and!; [tauto|done|cbn; world_step; lia|congruence]). }
  clear H2 F2 HL FL HN FN HH FH B2 BL BN BH P_H L_H. eapply at_world_weaken; [exact Hs|..]; intros q; subst w1; cbn; [wpoint|wpoint|wpoint| | | |done].
  - intros Hq. destruct (Hheld q Hq) as (Hor & ? & ? & ?). split; [by left|]. cbn. destruct Hor as [-> | ->]; wpoint.
  - intros (Hq & Hne1 & Hne2). destruct (decide (q = PH)) as [-> |HneH]; [right; split_and!; [done..|apply HokH]|left].
    split_and!; try (intros ->; wpoint). destruct Hq as [Hq|Hq]; [by left|right]. by apply list_elem_of_singleton in Hq.
  - intros [[Hq Hn] Hne1]. split; [by split|]. intros ->. apply Hn. left.
Qed.

(** ** The whole insertion *)
Lemma page_of_inj m a b : page_of m a = page_of m b <-> a = b.
Proof using. split; [by intros [= ?]|by intros ->]. Qed.

Lemma at_page {A} m a b x (f : PageId -> A) :
  <[page_of m a := x]> f (page_of m b) = if decide (a = b) then x else f (page_of m b).
Proof using.
  case_decide as E; [subst; apply fn_lookup_insert|]. apply fn_lookup_insert_ne. by rewrite page_of_inj.
Qed.

Lemma at_world_make_make s m im ps w a b bs bs' : at_world s m im ps (w_make a bs (w_make b bs' w)) ->
  at_world s m im ps (w_make (a ++ b) bs w).
Proof.
  intros Hs. eapply at_world_weaken; [exact Hs|..]; intros q; cbn; try done.
  - destruct (decide (q ∈ a)), (decide (q ∈ b)), (decide (q ∈ a ++ b)) as [Hq|Hq]; rewrite elem_of_app in Hq; tauto.
  - destruct (decide (q ∈ a)), (decide (q ∈ b)), (decide (q ∈ a ++ b)) as [Hq|Hq]; rewrite elem_of_app in Hq; tauto.
  - rewrite elem_of_app. tauto.
  - rewrite elem_of_app. tauto.
Qed.

Lemma insert_at_rank_cons (e x : IndexKeyType * RID) l : insert_at_rank rank e (x :: l) =
  if rank x.1 <? rank e.1 then x :: insert_at_rank rank e l else e :: x :: l.
Proof using. unfold insert_at_rank. cbn. by destruct (_ <? _). Qed.
Lemma insert_at_rank_app (e : IndexKeyType * RID) l1 l2 l3 : (forall x, x ∈ l1 -> rank x.1 < rank e.1) ->
  (forall x, x ∈ l3 -> rank e.1 < rank x.1) ->
  insert_at_rank rank e (l1 ++ l2 ++ l3) = l1 ++ insert_at_rank rank e l2 ++ l3.
Proof using.
  intros Hlt1 Hlt3. induction l1 as [|x l1 IH]; cbn [app].
  - induction l2 as [|y l2 IH2]; cbn [app]; [|rewrite !insert_at_rank_cons; destruct (_ <? _); [by rewrite IH2|done]].
    destruct l3 as [|z l3]; [done|]. rewrite insert_at_rank_cons.
    pose proof (Hlt3 z (list_elem_of_here _ _)). by destruct (Z.ltb_spec (rank z.1) (rank e.1)); [lia|].
  - rewrite insert_at_rank_cons, IH by (intros y Hy; apply Hlt1; by right).
    pose proof (Hlt1 x (list_elem_of_here _ _)). by destruct (Z.ltb_spec (rank x.1) (rank e.1)); [|lia].
Qed.

(** What goes into the leaf goes into the whole. *)
Lemma focused_inserted mem root pre k c post next lo hi lo' hi' esL es' esR key v :
  focused valid rank mem root pre k c post next lo hi lo' hi' esL es' esR -> in_range lo' hi' (rank key) ->
  sorted rank (esL ++ es' ++ esR) -> sorted rank es' ->
  inserted key v (esL ++ es' ++ esR) = esL ++ inserted key v es' ++ esR.
Proof.
  intros Hf [Hr1 Hr2] Hs Hs'. unfold inserted.
  rewrite (focused_lookup cmp valid rank _ _ _ _ _ _ _ _ _ _ _ _ _ _ _ Hf (conj Hr1 Hr2) Hs Hs').
  case_bool_decide; [done|]. apply insert_at_rank_app; cbn [fst]; intros x Hx; pose proof Hf as [HL Hlo _ _ _ Hst HR].
  - destruct (span_entries cmp valid rank _ _ _ _ _ _ _ HL) as [_ Ha]. destruct (proj1 (Forall_forall _ _) Ha x Hx) as [_ Hlt].
    destruct Hlo as [[-> _]|[-> _]]; [cbn in HL; destruct HL as [_ ->]; by apply elem_of_nil in Hx|]. cbn in Hlt, Hr1. lia.
  - destruct (span_entries cmp valid rank _ _ _ _ _ _ _ HR) as [_ Ha]. destruct (proj1 (Forall_forall _ _) Ha x Hx) as [Hge _].
    destruct post as [|[k' v'] post]; [cbn in HR; destruct HR as [_ ->]; by apply elem_of_nil in Hx|].
    destruct Hst as [-> _]. cbn in Hge, Hr2. lia.
Qed.

(** What an insertion is for. *)
Definition wrote m im w key (v : RID) es (b : bool) s' : Prop :=
  b = bool_decide (lookup_key rank key es = None) /\
  exists m' w' root' kids', index_at valid rank s' m' im w' root' kids' (inserted key v es) /\
    (m' = m \/ m' = grown m \/ m' = grown (grown m)) /\
    w_pins w' (page_of m (header_page_id_ im)) = w_pins w (page_of m (header_page_id_ im)).

Lemma inserted_full key v es : (length es < 202)%nat -> length (inserted key v es) = 202%nat -> lookup_key rank key es = None.
Proof using.
  unfold inserted. case_bool_decide as Hs; [lia|]. intros _ _. destruct (lookup_key rank key es); [|done]. exfalso. by apply Hs.
Qed.

(** The root is a leaf and stays it. *)
Lemma index_leaf_kept s s' m im w root es es' p : index_at valid rank s m im w root [] es ->
  at_world s' m im [] (w_make [] (<[page_of m root := p]> (w_bytes w)) w) ->
  leaf_at valid rank p INVALID_PAGE_ID root INVALID_PAGE_ID None None es' -> (length es' < 202)%nat ->
  index_at valid rank s' m im (w_make [] (<[page_of m root := p]> (w_bytes w)) w) root [] es'.
Proof.
  intros Hix Hs Hleaf Hn. destruct (index_node cmp valid rank _ _ _ _ _ _ _ root Hix) as (_ & _ & Hne); [left|].
  eapply index_made; [exact Hix|exact Hs|done|apply Hix|done| | | | |].
  - intros q. split; [by intros []%not_elem_of_nil|lia].
  - rewrite fn_lookup_insert_ne by done. apply (ix_header _ _ _ _ _ _ _ _ _ Hix).
  - cbn. by rewrite fn_lookup_insert.
  - repeat constructor. by intros []%not_elem_of_nil.
  - intros n Hn'. by left.
Qed.
End insert.
