(* ===== verification/BTreeInsertThms.v ===== *)
(** * Insertions keep the tree

    [wrote]: the entry is added to the list that [index_at] speaks of. *)
From stdpp Require Import functions.
From S2P Require Import Prelude Bytes Types Value Schema Tuple DiskManager BufferPool PageGuard TableMeta.
From S2P Require Import Index BtreePage BtreePageFacts BtreeNodes BtreeThms Transactions BTreeIndex.
From S2P Require Import BTreePool BTreeShape BTreeIndexThms BTreeInsert.
Import BtreePage.
Open Scope Z_scope.

Section insert.
Context {D : Type} `{PageStore D} `{!HashOrder Z bool} `{!LeafLayout} `{!Value.StringLayout} `{!Failing D}.
Context (cmp : Comparator) (valid : IndexKeyType -> Prop) (rank : IndexKeyType -> Z) `{!OrderedKeys cmp valid rank}.
Abbreviation tree := (btree D).
Abbreviation entries := (list (IndexKeyType * RID)).
Abbreviation nodes := (list (IndexKeyType * Z)).
Implicit Types (s : tree) (w : world) (m : TableMeta) (im : IndexMeta) (kids : nodes) (es : entries).
#[local] Set Default Proof Using "Type*".

(** The root is a leaf and became two below a new root. *)
Lemma index_leaf_split s s' m im w root es es' p r p3 ph k0 key :
  let n' := last_table_data_page_id_ m + 1 in let n2 := last_table_data_page_id_ (grown m) + 1 in
  let PN := page_of m n' in let P2 := page_of m n2 in let PR := page_of m root in
  let PH := page_of m (header_page_id_ im) in
  let bs := <[PN := r]> (<[PR := p]> (<[P2 := p3]> (<[PH := ph]> (w_bytes w)))) in
  index_at valid rank s m im w root [] es -> can_grow m -> can_grow (grown m) ->
  at_world s' (grown (grown m)) im [] (w_make [PN; P2] bs w) -> length es' = 202%nat -> valid key ->
  leaf_at valid rank p n2 root n' None (Some (rank key)) (take 101 es') ->
  leaf_at valid rank r n2 n' INVALID_PAGE_ID (Some (rank key)) None (drop 101 es') ->
  root_at p3 n2 [(k0, root); (key, n')] -> header_at ph n2 ->
  index_at valid rank s' (grown (grown m)) im (w_make [PN; P2] bs w) n2 [(k0, root); (key, n')] es'.
Proof.
  intros n' n2 PN P2 PR PH bs Hix Hg Hg2 Hs Hfull Hk Hlp Hlr Hr3 Hph.
  destruct (index_node cmp valid rank _ _ _ _ _ _ _ root Hix) as (Hroot & _ & Hne); [left|].
  destruct (ix_pages _ _ _ _ _ _ _ _ _ Hix root) as (_ & HleR & _); [right; left|].
  destruct (ix_pages _ _ _ _ _ _ _ _ _ Hix (header_page_id_ im)) as (_ & HleH & _); [left|].
  assert (page_ok PN) as HokN by apply (cg_page m Hg). assert (page_ok P2) as HokP by apply (cg_page _ Hg2).
  assert (n' = last_table_data_page_id_ m + 1 /\ n2 = n' + 1) as [En En2] by done. clearbody n2 n'.
  rewrite page_of_inj in Hne.
  eapply (index_made cmp valid rank); [exact Hix|exact Hs|done|apply Hg2|cbn; lia| | | | |].
  - intros [t q]. unfold PN, P2, page_of. rewrite !elem_of_cons, elem_of_nil. cbn. split.
    + intros [[= -> ->]|[[= -> ->]|[]]]; lia.
    + intros [-> Hq]. assert (q = n' \/ q = n2) as [-> | ->] by lia; auto.
  - unfold bs, PN, PR, P2, PH. rewrite !at_page, 3!decide_False by lia. by rewrite decide_True.
  - cbn [tree_at]. cbn beta. split.
    { unfold bs, PN, PR, P2, PH. rewrite !at_page, 2!decide_False by lia. by rewrite decide_True. }
    exists (Some (rank key)), (take 101 es'), (drop 101 es'). rewrite take_drop. cbn [first_page starts]. split_and!; try done.
    + unfold bs, PN, PR, P2, PH. rewrite !at_page, decide_False, decide_True by lia. done.
    + rewrite length_take. lia.
    + rewrite length_take. lia.
    + exists None, (drop 101 es'), []. rewrite app_nil_r. split_and!; try done.
      * unfold bs, PN, PR, P2, PH. by rewrite !at_page, decide_True.
      * rewrite length_drop. lia.
      * rewrite length_drop. lia.
  - unfold tree_pages. cbn. repeat constructor; rewrite ?elem_of_cons, ?elem_of_nil; lia.
  - intros n Hn. unfold tree_pages in Hn. cbn in Hn. rewrite !elem_of_cons, elem_of_nil in Hn.
    destruct Hn as [-> |[-> |[-> |[]]]]; [right|left; left|right]; (split; [|done]); unfold PN, P2; rewrite !elem_of_cons; auto.
Qed.

Lemma index_unused s m im w root kids es n : index_at valid rank s m im w root kids es ->
  last_table_data_page_id_ m < n -> w_unused w (page_of m n) /\ forall a, a ∈ header_page_id_ im :: tree_pages root kids ->
    page_of m a <> page_of m n.
Proof.
  intros Hix Hn. split; [by apply (ix_unused _ _ _ _ _ _ _ _ _ Hix)|]. intros a Ha [= ->].
  destruct (ix_pages _ _ _ _ _ _ _ _ _ Hix n Ha) as (_ & Hle & _). lia.
Qed.

Lemma wp_insert_root s0 s m im w fh f root es key v : let PH := page_of m (header_page_id_ im) in
  index_at valid rank s0 m im w root [] es -> can_grow m -> can_grow (grown m) ->
  entry_valid valid (key, v) -> equal_to cmp zero_key key = false ->
  at_world s m im [fh] (w_lock (page_of m root) f (locked PH fh w)) ->
  wp (at_leaf cmp key v fh f) (wrote valid rank m im w key v es) s.
Proof.
  intros PH Hix Hg Hg2 He Hz Hs. set (PR := page_of m root) in *.
  destruct (index_ready cmp valid rank _ _ _ _ _ _ _ (header_page_id_ im) Hix) as [HokH HuH HsH HlH]; [by left|]. fold PH in HokH, HuH, HsH, HlH.
  destruct (index_ready cmp valid rank _ _ _ _ _ _ _ root Hix) as [HokR HuR HsR HlR]; [right; left|].
  destruct (index_node cmp valid rank _ _ _ _ _ _ _ root Hix) as (Hroot & HpR & HneR); [left|]. fold PH PR in HneR, HpR, HokR, HuR, HsR, HlR.
  pose proof (ix_hpins _ _ _ _ _ _ _ _ _ Hix) as Hhp. fold PH in Hhp.
  pose proof (ix_header _ _ _ _ _ _ _ _ _ Hix) as Hhd. fold PH in Hhd.
  destruct (ix_tree _ _ _ _ _ _ _ _ _ Hix) as [Hleaf Hn].
  assert (holding PH fh w [fh] (locked PH fh w)) as Hold by by constructor.
  eapply (wp_at_leaf cmp valid rank); [exact Hold|done|done|done|exact Hs|exact Hleaf|done|done|done|done|]. clear s Hs.
  fold PR. intros s p Hs Hlp Hlen. destruct (Z.leb_spec 202 (Z.of_nat (length (inserted rank key v es)))) as [Hfull|Hroom].
  - assert (length (inserted rank key v es) = 202%nat) as Hfull' by lia. set (n' := last_table_data_page_id_ m + 1).
    destruct (index_unused _ _ _ _ _ _ _ n' Hix ltac:(lia)) as [HuN HneN]. set (PN := page_of m n') in *.
    set (n2 := last_table_data_page_id_ (grown m) + 1). assert (n2 = n' + 1) as En2 by done.
    destruct (index_unused _ _ _ _ _ _ _ n2 Hix ltac:(lia)) as [Hu2 Hne2]. set (P2 := page_of m n2) in *.
    destruct (ix_pages _ _ _ _ _ _ _ _ _ Hix root) as (_ & HleR & _); [right; left|].
    eapply (wp_split_leaf cmp valid rank _ _ _ _ _ root); [exact Hg|fold n'; lia|exact Hs|fold PR; unfold locked, w_lock; wlook|done|exact HuN|apply HneN; right; left|exact Hlp|done|].
    clear s Hs. fold n' PN PR. intros fN s pl pr e Hs Hei Hpl Hpr Hv Hk8 _ _.
    pose proof (la_rep _ _ _ _ _ _ _ _ _ Hpl) as Hrl. pose proof (la_rep _ _ _ _ _ _ _ _ _ Hpr) as Hrr.
    assert (GetPageId pl = root /\ GetParentPageId pl = INVALID_PAGE_ID /\ GetPageId pr = n') as (Eid & Epar & Eid').
    { split_and!; [apply (lr_id _ _ _ Hrl)|apply (lr_parent _ _ _ Hrl)|apply (lr_id _ _ _ Hrr)]. }
    apply wp_bind. eapply wp_root_is_leaf; [exact Hs|done|exact Hu2|fold n2; lia|done|apply HneN; left|apply Hne2; left|apply HneN; right; left|apply Hne2; right; left|unfold PN, page_of; intros [= ?]; lia|done|apply Hg|done|apply Hrl|apply Hrr|done|done|done|exact Hhd|exact Epar|by apply (swrap_range 32)|rewrite Eid'; apply Hg|done|].
    fold n2. clear s Hs. intros s p3 ph k0 Hs Hr3 Hph. rewrite Eid, Eid' in Hr3.
    pose proof (leaf_at_parent cmp valid rank _ _ n2 _ _ _ _ _ Hpl (cg_room _ Hg2)) as Hpl2.
    pose proof (leaf_at_parent cmp valid rank _ _ n2 _ _ _ _ _ Hpr (cg_room _ Hg2)) as Hpr2.
    assert (PR ∉ [page_of (grown m) n2]) as Hni.
    { intros Hin%list_elem_of_singleton. apply (Hne2 root); [right; left|done]. }
    eapply (wp_finish_pair _ _ _ _ PR _ _ n'); [exact Hs|apply HneN; right; left|done|apply Hg| | | |].
    { apply (lr_id _ _ _ (la_rep _ _ _ _ _ _ _ _ _ Hpr2)). }
    { cbn. by rewrite decide_False. }
    { cbn. by rewrite decide_False. }
    clear s Hs. intros s Hs%at_world_make_make. split.
    { symmetry. apply bool_decide_true. by apply (inserted_full rank key v). }
    eexists _, _, n2, [(k0, root); (e.1, n')]. split_and!; [|by right; right|].
    + eapply index_leaf_split; [exact Hix|done|done|exact Hs|done|done|exact Hpl2|exact Hpr2|exact Hr3|exact Hph].
    + cbn. rewrite decide_False; [done|]. fold PH. rewrite !elem_of_cons, elem_of_nil.
      intros [E|[E|[]]]; [by apply (HneN (header_page_id_ im)); [left|]|by apply (Hne2 (header_page_id_ im)); [left|]].
  - apply wp_bind. eapply wp_release_parents; [exact Hold|done|lia|exact Hs|]. clear s Hs. intros s Hs.
    eapply wp_finish_leaf; [done|done|done|exact Hs|]. clear s Hs. intros s Hs. apply wp_ret. split; [done|].
    exists m, (w_make [] (<[PR:=p]> (w_bytes w)) w), root, []. split_and!; [|by left|done].
    eapply (index_leaf_kept cmp valid rank); [exact Hix|exact Hs|exact Hlp|lia].
Qed.

(** *** Below a root *)
Lemma tree_at_nodes mem root kids es : kids <> [] -> tree_at valid rank mem root kids es <->
  root_at (mem root) root kids /\ span valid rank mem root kids INVALID_PAGE_ID None None es.
Proof using. by destruct kids. Qed.

Lemma kids_distinct root pre k c (post : nodes) : NoDup (tree_pages root (pre ++ (k, c) :: post)) ->
  root <> c /\ NoDup (pre ++ (k, c) :: post).*2 /\ forall a, a ∈ pre.*2 \/ a ∈ post.*2 -> a <> c.
Proof using.
  unfold tree_pages. rewrite fmap_app. cbn. intros [Hni Hnd]%NoDup_cons. split_and!; [|done|].
  - intros ->. apply Hni, elem_of_app. right. left.
  - apply NoDup_app in Hnd as (_ & Hdis & [Hnc _]%NoDup_cons). intros a [Ha|Ha] ->; [by apply (Hdis c Ha); left|done].
Qed.

Lemma index_child_kept s s' m im w root kids es pre k c post lo hi esL es' esR es'' p :
  index_at valid rank s m im w root kids es -> kids = pre ++ (k, c) :: post ->
  focused valid rank (fun n => w_bytes w (page_of m n)) root pre k c post INVALID_PAGE_ID None None lo hi esL es' esR ->
  at_world s' m im [] (w_make [] (<[page_of m c := p]> (w_bytes w)) w) ->
  leaf_at valid rank p root c (first_page post INVALID_PAGE_ID) lo hi es'' -> (101 <= length es'' < 202)%nat ->
  index_at valid rank s' m im (w_make [] (<[page_of m c := p]> (w_bytes w)) w) root kids (esL ++ es'' ++ esR).
Proof.
  intros Hix Ekd Hf Hs Hleaf Hn. destruct (index_child cmp valid rank _ _ _ _ _ _ _ _ _ _ _ Hix Ekd) as [Hc _].
  destruct (index_node cmp valid rank _ _ _ _ _ _ _ c Hix Hc) as (_ & _ & Hne). rewrite page_of_inj in Hne.
  pose proof (ix_nodup _ _ _ _ _ _ _ _ _ Hix) as [_ Hnd]%NoDup_cons. pose proof Hnd as Hnd'. rewrite Ekd in Hnd'.
  apply kids_distinct in Hnd' as (Hrc & _ & Hdis).
  assert (kids <> []) as Hne' by (rewrite Ekd; by destruct pre).
  pose proof (ix_tree _ _ _ _ _ _ _ _ _ Hix) as Ht. apply (tree_at_nodes _ _ _ _ Hne') in Ht as [Hr _].
  eapply (index_made cmp valid rank); [exact Hix|exact Hs|done|apply Hix|done| | | |done|].
  - intros q. split; [by intros []%not_elem_of_nil|lia].
  - rewrite at_page, decide_False by done. apply (ix_header _ _ _ _ _ _ _ _ _ Hix).
  - apply tree_at_nodes; [done|]. rewrite at_page, decide_False by done. split; [done|]. rewrite Ekd.
    eapply (focused_one cmp valid rank); [exact Hf| | |done].
    + intros a Ha. rewrite at_page, decide_False; [done|]. intros ->. by apply (Hdis a Ha).
    + by rewrite at_page, decide_True.
  - intros n Hn'. by left.
Qed.

Lemma index_child_split s s' m im w root kids es pre k c post lo hi esL es' esR es'' p r p3 key :
  let n' := last_table_data_page_id_ m + 1 in let PN := page_of m n' in
  let bs := <[PN := r]> (<[page_of m c := p]> (<[page_of m root := p3]> (w_bytes w))) in
  index_at valid rank s m im w root kids es -> can_grow m -> kids = pre ++ (k, c) :: post ->
  focused valid rank (fun n => w_bytes w (page_of m n)) root pre k c post INVALID_PAGE_ID None None lo hi esL es' esR ->
  at_world s' (grown m) im [] (w_make [PN] bs w) -> length es'' = 202%nat -> valid key ->
  leaf_at valid rank p root c n' lo (Some (rank key)) (take 101 es'') ->
  leaf_at valid rank r root n' (first_page post INVALID_PAGE_ID) (Some (rank key)) hi (drop 101 es'') ->
  lt_bounds lo (Some (rank key)) -> lt_bound (rank key) hi -> root_at p3 root (pre ++ (k, c) :: (key, n') :: post) ->
  index_at valid rank s' (grown m) im (w_make [PN] bs w) root (pre ++ (k, c) :: (key, n') :: post) (esL ++ es'' ++ esR).
Proof.
  intros n' PN bs Hix Hg Ekd Hf Hs Hfull Hk Hlp Hlr Hlow Hup Hr3.
  destruct (index_child cmp valid rank _ _ _ _ _ _ _ _ _ _ _ Hix Ekd) as [Hc _].
  destruct (index_node cmp valid rank _ _ _ _ _ _ _ c Hix Hc) as (_ & _ & Hne). rewrite page_of_inj in Hne.
  destruct (index_node cmp valid rank _ _ _ _ _ _ _ root Hix) as (_ & _ & HneR); [left|]. rewrite page_of_inj in HneR.
  pose proof (ix_nodup _ _ _ _ _ _ _ _ _ Hix) as [_ Hnd]%NoDup_cons. rewrite Ekd in Hnd.
  pose proof Hnd as Hnd'. apply kids_distinct in Hnd' as (Hrc & _ & Hdis).
  assert (forall a, a ∈ header_page_id_ im :: tree_pages root kids -> a <> n') as Hold.
  { intros a Ha ->. destruct (ix_pages _ _ _ _ _ _ _ _ _ Hix n' Ha) as (_ & Hle & _). unfold n' in Hle. lia. }
  assert (page_ok PN) as HokN by apply (cg_page m Hg).
  assert (n' <> header_page_id_ im /\ n' <> root /\ n' <> c) as (Hn1 & Hn2 & Hn3).
  { split_and!; apply not_eq_sym, Hold; [left|right; left|by right]. }
  assert (forall a, a ∈ pre.*2 \/ a ∈ post.*2 -> a ∈ tree_pages root kids) as Hin.
  { intros a Ha. unfold tree_pages. right. rewrite Ekd, fmap_app. cbn. rewrite elem_of_app, elem_of_cons. tauto. }
  assert (forall a, a ∈ pre.*2 \/ a ∈ post.*2 -> a <> root) as Hnr.
  { intros a Ha ->. unfold tree_pages in Hnd. rewrite fmap_app in Hnd. cbn in Hnd. apply NoDup_cons in Hnd as [Hni _].
    apply Hni. rewrite elem_of_app, elem_of_cons. tauto. }
  assert (tree_pages root (pre ++ (k, c) :: (key, n') :: post) ≡ₚ n' :: tree_pages root kids) as Hperm.
  { unfold tree_pages. rewrite Ekd, !fmap_app. cbn. solve_Permutation. }
  eapply (index_made cmp valid rank); [exact Hix|exact Hs|done|apply Hg|cbn; lia| | | | |].
  - intros [t q]. unfold PN, page_of. rewrite list_elem_of_singleton. cbn. split; [intros [= -> ->]; unfold n'; lia|].
    intros [-> Hq]. f_equal. unfold n'. lia.
  - unfold bs, PN. rewrite !at_page, !decide_False by done. apply (ix_header _ _ _ _ _ _ _ _ _ Hix).
  - apply tree_at_nodes; [by destruct pre|]. split.
    { unfold bs, PN. rewrite !at_page, 2!decide_False, decide_True by done. done. }
    rewrite <- (take_drop 101 es''), <- app_assoc. eapply (focused_two cmp valid rank); [exact Hf| | | | | |done|done|done].
    + intros a Ha. unfold bs, PN. rewrite !at_page, !decide_False; [done|by apply not_eq_sym, Hnr|by apply not_eq_sym, Hdis|].
      apply not_eq_sym, Hold. right. by apply Hin.
    + unfold bs, PN. by rewrite !at_page, decide_False, decide_True.
    + rewrite length_take. lia.
    + unfold bs, PN. by rewrite !at_page, decide_True.
    + rewrite length_drop. lia.
  - rewrite Hperm. apply NoDup_cons. split; [|by rewrite Ekd]. intros Hn. by apply (Hold n'); [right|].
  - intros n. rewrite Hperm, elem_of_cons. intros [-> |Hn]; [right; split; [left|done]|by left].
Qed.

Lemma wp_insert_child s0 s m im w fh f root kids es pre k c post lo hi esL es' esR key v :
  index_at valid rank s0 m im w root kids es -> can_grow m -> kids = pre ++ (k, c) :: post -> es = esL ++ es' ++ esR ->
  focused valid rank (fun n => w_bytes w (page_of m n)) root pre k c post INVALID_PAGE_ID None None lo hi esL es' esR ->
  in_range lo hi (rank key) -> (length es < 101 * 338)%nat -> entry_valid valid (key, v) -> equal_to cmp zero_key key = false ->
  at_world s m im [] (w_lock (page_of m c) f (w_forget w)) ->
  wp (at_leaf cmp key v fh f) (wrote valid rank m im w key v es) s.
Proof.
  intros Hix Hg Ekd Ees Hf Hrange Hfew He Hz Hs. set (PH := page_of m (header_page_id_ im)).
  destruct (index_child cmp valid rank _ _ _ _ _ _ _ _ _ _ _ Hix Ekd) as [Hc HneRC].
  destruct (index_ready cmp valid rank _ _ _ _ _ _ _ root Hix) as [HokR HuR HsR HlR]; [right; left|].
  destruct (index_node cmp valid rank _ _ _ _ _ _ _ root Hix) as (Hroot & HpR & HneR); [left|].
  destruct (index_ready cmp valid rank _ _ _ _ _ _ _ c Hix) as [HokC HuC HsC HlC]; [by right|].
  destruct (index_node cmp valid rank _ _ _ _ _ _ _ c Hix Hc) as (Hcpos & HpC & HneC).
  pose proof (ix_nodup _ _ _ _ _ _ _ _ _ Hix) as [_ Hnd]%NoDup_cons.
  assert (kids <> []) as Hne' by (rewrite Ekd; by destruct pre).
  pose proof (ix_tree _ _ _ _ _ _ _ _ _ Hix) as Ht. pose proof (tree_sorted cmp valid rank _ _ _ _ Ht) as Hsorted.
  apply (tree_at_nodes _ _ _ _ Hne') in Ht as [Hr Hspan].
  pose proof (span_size cmp valid rank _ _ _ _ _ _ _ Hspan) as Hsize.
  pose proof Hf as [_ _ Hleaf Hsz _ _ _]. cbn beta in Hleaf. set (PC := page_of m c) in *. set (PR := page_of m root) in *.
  assert (inserted rank key v es = esL ++ inserted rank key v es' ++ esR /\ lookup_key rank key es = lookup_key rank key es') as [Eins Elk].
  { rewrite Ees in Hsorted. rewrite Ees. pose proof (la_sorted _ _ _ _ _ _ _ _ _ Hleaf) as Hs'.
    split; [by eapply (focused_inserted cmp valid rank)|by eapply (focused_lookup cmp valid rank)]. }
  assert (holding PH fh w [] (w_forget w)) as Hold by constructor.
  eapply (wp_at_leaf cmp valid rank); [exact Hold|exact HneC|done|done|exact Hs|exact Hleaf|done|done|done|lia|]. clear s Hs.
  fold PC. intros s p Hs Hlp Hlen. rewrite <- Elk.
  destruct (Z.leb_spec 202 (Z.of_nat (length (inserted rank key v es')))) as [Hfull|Hroom].
  - assert (length (inserted rank key v es') = 202%nat) as Hfull' by lia. set (n' := last_table_data_page_id_ m + 1).
    destruct (index_unused _ _ _ _ _ _ _ n' Hix ltac:(lia)) as [HuN HneN]. set (PN := page_of m n') in *.
    destruct (ix_pages _ _ _ _ _ _ _ _ _ Hix root) as (_ & HleR & _); [right; left|].
    eapply (wp_split_leaf cmp valid rank _ _ _ _ _ c); [exact Hg|fold n'; lia|exact Hs|done|done|exact HuN|apply HneN; by right|exact Hlp|done|].
    clear s Hs. fold n' PN PC. intros fN s pl pr e Hs Hei Hpl Hpr Hv Hk8 Hlow Hup.
    pose proof (la_rep _ _ _ _ _ _ _ _ _ Hpl) as Hrl. pose proof (la_rep _ _ _ _ _ _ _ _ _ Hpr) as Hrr.
    assert (GetPageId pl = c /\ GetParentPageId pl = root /\ GetPageId pr = n') as (Eid & Epar & Eid').
    { split_and!; [apply (lr_id _ _ _ Hrl)|apply (lr_parent _ _ _ Hrl)|apply (lr_id _ _ _ Hrr)]. }
    apply wp_bind. eapply (wp_root_has_room _ _ _ _ root _ pre k c post); [exact Hs|exact Ekd|by apply NoDup_cons in Hnd as [_ ?]|exact Hr|lia|..];
      [apply HneN; by right|done|apply HneN; right; left|done|apply Hg|done..|apply Hg|].
    clear s Hs. intros s p3 Hs Hr3.
    eapply (wp_finish_pair _ _ _ _ PC _ _ n'); [exact Hs|apply HneN; by right|done|apply Hg|done|done|done|].
    clear s Hs. intros s Hs%at_world_make_make. split.
    { symmetry. rewrite Elk. apply bool_decide_true. apply (inserted_full rank key v es'); [lia|done]. }
    eexists _, _, root, (pre ++ (k, c) :: (e.1, n') :: post). split_and!; [|by right; left|].
    + rewrite Eins. eapply index_child_split; [exact Hix|done|exact Ekd|exact Hf|exact Hs|done|done|exact Hpl|exact Hpr|done|done|exact Hr3].
    + cbn. rewrite decide_False; [done|]. fold PH. rewrite elem_of_cons, elem_of_nil.
      intros [E|[]]. by apply (HneN (header_page_id_ im)); [left|].
  - apply wp_bind. eapply wp_release_parents; [exact Hold|exact HneC|lia|exact Hs|]. clear s Hs. intros s Hs.
    eapply wp_finish_leaf; [done|done|done|exact Hs|]. clear s Hs. intros s Hs. apply wp_ret. split; [done|].
    exists m, (w_make [] (<[PC:=p]> (w_bytes w)) w), root, kids. split_and!; [|by left|done].
    rewrite Eins. eapply index_child_kept; [exact Hix|exact Ekd|exact Hf|exact Hs|exact Hlp|lia].
Qed.

(** ** [InternalInsertRecord] on a tree that is not empty *)
Lemma wp_insert_locks s m im w root kids es key v Q : index_at valid rank s m im w root kids es ->
  let PH := page_of m (header_page_id_ im) in w_pins w PH < 2 ^ 16 - 1 ->
  (forall fh s1, at_world s1 m im [fh] (locked PH fh w) ->
     wp (leaf_page ← BTreeIndex.SearchLeafPage cmp key INSERT fh; at_leaf cmp key v fh leaf_page) Q s1) ->
  wp (BTreeIndex.InternalInsertRecord cmp key v) Q s.
Proof.
  intros Hix PH Hmax HQ.
  destruct (index_ready cmp valid rank _ _ _ _ _ _ _ (header_page_id_ im) Hix) as [HokH HuH HsH HlH]; [by left|]. fold PH in HokH, HuH, HsH, HlH.
  destruct (index_node cmp valid rank _ _ _ _ _ _ _ root Hix) as (Hroot & _ & _); [left|].
  pose proof (ix_hpins _ _ _ _ _ _ _ _ _ Hix) as Hhp. pose proof (ix_header _ _ _ _ _ _ _ _ _ Hix) as (_ & _ & Hhr). fold PH in Hhp, Hhr.
  unfold BTreeIndex.InternalInsertRecord. apply wp_bind. eapply (wp_header cmp valid rank); [exact Hix|done|]. fold PH. intros fh s1 Hs.
  apply wp_bind. eapply (wp_WLatch _ _ _ _ _ PH); [exact Hs|whold|wlook|wlook|wlook|]. clear s1 Hs. intros s1 Hs.
  apply wp_bind. eapply wp_AddIntoPageSet; [exact Hs|]. clear s1 Hs. intros s1 Hs. cbn [app] in Hs.
  apply wp_bind. eapply (wp_node _ _ _ _ _ PH); [exact Hs|whold|wlook|done|]. cbn [w_bytes w_relatch w_pin].
  unfold BtreeHeaderPage.TreeIsEmpty. rewrite Hhr. destruct (Z.eqb_spec root INVALID_PAGE_ID) as [Hbad|_]; [unfold INVALID_PAGE_ID in Hbad; lia|].
  rewrite (InsertIntoLeaf_steps cmp valid rank). apply HQ. unfold locked, w_lock. wweak Hs.
Qed.

Lemma wp_insert s m im w root kids es key v : index_at valid rank s m im w root kids es ->
  can_grow m -> can_grow (grown m) -> (length es < 101 * 338)%nat -> entry_valid valid (key, v) ->
  equal_to cmp zero_key key = false -> w_pins w (page_of m (header_page_id_ im)) < 2 ^ 16 - 1 ->
  wp (BTreeIndex.InternalInsertRecord cmp key v) (wrote valid rank m im w key v es) s.
Proof.
  intros Hix Hg Hg2 Hfew He Hz Hmax. eapply wp_insert_locks; [exact Hix|exact Hmax|]. intros fh s1 Hs.
  apply wp_bind. destruct (decide (kids = [])) as [->|Hne].
  - eapply (wp_lock_root cmp valid rank); [exact Hix|exact Hs|]. intros f s2 Hs2. by eapply wp_insert_root.
  - destruct (root_Lookup cmp valid rank _ _ _ _ _ Hne (ix_tree _ _ _ _ _ _ _ _ _ Hix) (proj1 He))
      as (pre & k & c & post & lo & hi & esL & es' & esR & Ekd & Ees & Elk & Hf & Hrange).
    eapply (wp_lock_child cmp valid rank); [exact Hix|exact Hs|exact Ekd|exact Hf|exact Elk|]. intros f s2 Hs2.
    by eapply wp_insert_child.
Qed.
End insert.
