(* ===== verification/BTreeMap.v ===== *)
(** * The B+ tree index from its construction on

    [BTreeIndex] makes the header page, the first insertion the root, and from then on the
    index is a map: a sequence of insertions and searches answers as the map does. *)
From stdpp Require Import functions.
From S2P Require Import Prelude Bytes Types Value Schema Tuple DiskManager BufferPool BufferPoolProps PageGuard TableMeta.
From S2P Require Import Index BtreePage BtreePageFacts BtreeNodes BtreeThms Transactions BTreeIndex.
From S2P Require Import BTreePool BTreeShape BTreeIndexThms BTreeInsert BTreeInsertThms.
Import BtreePage.
Open Scope Z_scope.

(** ** The constructor *)
Section constructor.
Context {D : Type} `{PageStore D} `{!HashOrder Z bool} `{!LeafLayout} `{!Value.StringLayout} `{!Failing D}.
Implicit Types (s : btree D) (w : world) (m : TableMeta) (im : IndexMeta).
#[local] Set Default Proof Using "Type*".

(** The world right after the constructor. *)
Definition w_header PH bs w : world :=
  mk_world (<[PH := 0]> (w_pins w)) (<[PH := Unlatched]> (w_latch w)) (<[PH := bs]> (w_bytes w)) (w_frame w)
    (fun _ => False) (fun q => w_safe w q \/ q = PH) (fun q => w_unused w q /\ q <> PH) (fun q => q = PH).

Lemma header_init p : length p = page_size ->
  header_at (BtreeHeaderPage.SetRootPageId INVALID_PAGE_ID (BtreeHeaderPage.Init p)) INVALID_PAGE_ID.
Proof using.
  intros Hl. assert (page_size = 4096%nat) as Hps by done.
  unfold BtreeHeaderPage.Init, BtreeHeaderPage.SetRootPageId, SetPageType. split_and!; [lens| |].
  - unfold GetPageType. by ranges.
  - unfold BtreeHeaderPage.GetRootPageId. by ranges.
Qed.

(** The bytes that the constructor gives to the header page. *)
Definition header_bytes : list byte := BtreeHeaderPage.SetRootPageId INVALID_PAGE_ID (BtreeHeaderPage.Init Page.zeros).

Lemma wp_makes_header s m im w : let n := last_table_data_page_id_ m + 1 in at_world s m im [] w -> can_grow m ->
  header_page_id_ im = INVALID_PAGE_ID -> w_unused w (page_of m n) ->
  wp BTreeIndex.BTreeIndex (fun _ s' =>
    at_world s' (grown m) (IndexMeta.set_header_page_id n im) [] (w_header (page_of m n) header_bytes w)) s.
Proof.
  intros n Hs Hg Him HuH. set (PH := page_of m n) in *.
  pose proof (cg_page m Hg) as Hok. fold n PH in Hok. pose proof (cg_last m Hg) as Hlast.
  unfold BTreeIndex.BTreeIndex. apply wp_bind, wp_get. rewrite (at_index _ _ _ _ _ Hs), Him, Z.eqb_refl.
  apply wp_bind, wp_bind. eapply wp_new_page; [exact Hs|exact Hok|by apply allocate_page|exact HuH|]. clear s Hs. intros fh s Hs.
  cbn [fst snd]. change (page_number_ PH) with n.
  apply wp_bind. unfold BasicPageGuard.UpgradeWrite, deref. cbn [page_ BasicPageGuard.make].
  apply wp_with_pool_bind, wp_with_pool_ret, wp_with_pool_bind.
  eapply (wp_WLatch _ _ _ _ _ PH); [exact Hs|whold|wlook|wlook|wlook|]. clear s Hs. intros s Hs.
  apply wp_with_pool_ret. cbn [fst snd]. apply wp_bind. eapply (wp_node _ _ _ _ _ PH); [exact Hs|whold|wlook|done|].
  cbn [w_bytes w_relatch w_create]. rewrite fn_lookup_insert.
  pose proof (header_init Page.zeros eq_refl) as Hh.
  apply wp_bind. eapply (wp_store _ _ _ _ _ PH); [exact Hs|whold|wlook| |].
  { unfold BtreeHeaderPage.Init, BtreeHeaderPage.SetRootPageId, SetPageType. assert (page_size = 4096%nat) as Hps by done.
    assert (length Page.zeros = 4096%nat) as Hz by apply length_replicate. lens. }
  clear s Hs. intros s Hs. apply wp_bind, wp_assert; [by apply Z.leb_le; unfold INVALID_PAGE_ID; lia|].
  apply wp_bind. eapply (wp_store _ _ _ _ _ PH); [exact Hs|whold|wlook|apply Hh|]. clear s Hs. intros s Hs.
  apply wp_bind. eapply wp_set_header_page_id; [exact Hs|]. clear s Hs. intros s Hs.
  apply wp_bind. unfold WritePageGuard.Drop, BasicPageGuard.GetDataMut. cbn [page_ BasicPageGuard.make g_is_dirty_].
  apply wp_with_pool_bind. eapply (wp_WUnlatch _ _ _ _ _ PH); [exact Hs|whold|wlook|wlook|wlook|]. clear s Hs. intros s Hs.
  unfold BasicPageGuard.Drop. cbn [page_ g_is_dirty_]. apply wp_with_pool_bind.
  eapply (wp_get_page _ _ _ _ _ PH); [exact Hs|whold|wlook|]. intros p Hp _. apply wp_with_pool_bind. unfold Page.GetPageId. rewrite Hp.
  eapply wp_unpin; [exact Hs|wlook|intros _; wlook|intros _; by left|]. clear s Hs. intros s Hs.
  apply wp_with_pool_ret, wp_ret, wp_bind, wp_get. rewrite (at_index _ _ _ _ _ Hs). unfold assert_that.
  apply wp_lift with (a := tt).
  { unfold assertion. cbn [header_page_id_ IndexMeta.set_header_page_id]. by rewrite (proj2 (Z.leb_le 0 n)) by lia. }
  eapply at_world_weaken; [exact Hs|..]; intros q; unfold w_header; cbn; [wpoint|wpoint|wpoint|done| |done|by right].
  destruct (decide (q = PH)) as [-> |Hne]; [intros _; right; split_and!; [done..|apply Hok]|].
  intros [Hq|]; [left; by split_and!|done].
Qed.
End constructor.

Section map.
Context {D : Type} `{PageStore D} `{!HashOrder Z bool} `{!LeafLayout} `{!Value.StringLayout} `{!Failing D}.
Context (cmp : Comparator) (valid : IndexKeyType -> Prop) (rank : IndexKeyType -> Z) `{!OrderedKeys cmp valid rank}.
Abbreviation tree := (btree D).
Abbreviation entries := (list (IndexKeyType * RID)).
Abbreviation nodes := (list (IndexKeyType * Z)).
Implicit Types (s : tree) (w : world) (m : TableMeta) (im : IndexMeta) (kids : nodes) (es : entries).
#[local] Set Default Proof Using "Type*".

(** ** An index without entries *)
Record empty_at s m im w : Prop := {
  ea_world : at_world s m im [] w;
  ea_header : header_at (w_bytes w (page_of m (header_page_id_ im))) INVALID_PAGE_ID;
  ea_ready : ready w m (header_page_id_ im);
  ea_last : 0 <= header_page_id_ im <= last_table_data_page_id_ m;
  ea_pins : w_pins w (page_of m (header_page_id_ im)) = 0;
  ea_dirty : w_dirty w (page_of m (header_page_id_ im));
  ea_unused q : w_unused w q <-> table_id_ q = table_oid_ m /\ last_table_data_page_id_ m < page_number_ q
}.

Lemma wp_construct s m im w : at_world s m im [] w -> can_grow m -> header_page_id_ im = INVALID_PAGE_ID ->
  (forall q, w_unused w q <-> table_id_ q = table_oid_ m /\ last_table_data_page_id_ m < page_number_ q) ->
  wp BTreeIndex.BTreeIndex (fun _ s' => exists w',
    empty_at s' (grown m) (IndexMeta.set_header_page_id (last_table_data_page_id_ m + 1) im) w') s.
Proof.
  intros Hs Hg Him Hun. set (n := last_table_data_page_id_ m + 1). set (PH := page_of m n).
  pose proof (cg_last m Hg) as Hlast. pose proof (cg_page m Hg) as Hok. fold n PH in Hok.
  assert (w_unused w PH) as HuH by (apply Hun; cbn; lia).
  eapply wp_mono; [apply (wp_makes_header s m im w Hs Hg Him HuH)|]. intros [] s1 Hs1. change (at_world s1 (grown m) (IndexMeta.set_header_page_id n im) [] (w_header PH header_bytes w)) in Hs1. exists (w_header PH header_bytes w).
  pose proof (header_init Page.zeros eq_refl) as Hh.
  split; cbn [header_page_id_ IndexMeta.set_header_page_id].
  - exact Hs1.
  - change (page_of (grown m) n) with PH. cbn. by rewrite fn_lookup_insert.
  - change (page_of (grown m) n) with PH. split; cbn; [done|by intros [_ ?]|by right|by rewrite fn_lookup_insert].
  - cbn. lia.
  - cbn. change (page_of (grown m) n) with PH. by rewrite fn_lookup_insert.
  - done.
  - intros q. cbn. rewrite Hun. fold n. split; [intros [[Ht Hq] Hne]; split; [done|]|intros [Ht Hq]; split; [split; [done|lia]|]].
    + destruct (Z.eq_dec (page_number_ q) n) as [E|]; [|lia]. destruct Hne. destruct q. cbn in *. unfold PH, page_of. congruence.
    + intros ->. cbn in Hq. lia.
Qed.

(** ** The first insertion makes the root *)

(** What is left behind: the pages [PH] and [P] with new bytes, [P] new. *)
Lemma wp_first s m im w key v : empty_at s m im w -> can_grow m -> entry_valid valid (key, v) ->
  equal_to cmp zero_key key = false ->
  wp (BTreeIndex.InternalInsertRecord cmp key v) (fun b s' => b = true /\ exists w' root,
    index_at valid rank s' (grown m) im w' root [] [(key, v)] /\
    w_pins w' (page_of m (header_page_id_ im)) = w_pins w (page_of m (header_page_id_ im))) s.
Proof.
  intros [Hw Hh [HokH HuH HsH HlH] Hlast Hpins Hdirty Hun] Hg He Hz.
  set (PH := page_of m (header_page_id_ im)) in *. set (n := last_table_data_page_id_ m + 1). set (P := page_of m n).
  pose proof (cg_page m Hg) as HokP. fold n P in HokP. assert (w_unused w P) as HuP by (apply Hun; cbn; lia).
  assert (PH <> P) as Hne by (intros [= ?]; lia).
  unfold BTreeIndex.InternalInsertRecord. apply wp_bind. unfold BTreeIndex.header_raw_page. apply wp_bind, wp_get.
  rewrite (at_meta _ _ _ _ _ Hw), (at_index _ _ _ _ _ Hw). fold (page_of m (header_page_id_ im)). fold PH.
  eapply wp_fetch; [exact Hw|done|by right|lia|done|]. intros fh s1 Hs _. clear Hw.
  apply wp_bind. eapply (wp_WLatch _ _ _ _ _ PH); [exact Hs|whold|wlook|wlook|wlook|]. clear s1 Hs. intros s1 Hs.
  apply wp_bind. eapply wp_AddIntoPageSet; [exact Hs|]. clear s1 Hs. intros s1 Hs. cbn [app] in Hs.
  apply wp_bind. eapply (wp_node _ _ _ _ _ PH); [exact Hs|whold|wlook|done|]. cbn [w_bytes w_relatch w_pin].
  unfold BtreeHeaderPage.TreeIsEmpty. destruct Hh as (Hhl & Hht & Hhr). rewrite Hhr, Z.eqb_refl. apply wp_bind.
  unfold BTreeIndex.CreateNewRoot.
  apply wp_bind. eapply wp_new_page_unguarded; [exact Hs|exact HokP|by apply allocate_page|done|]. clear s1 Hs. intros f s1 Hs.
  cbn [fst snd]. change (page_number_ P) with n.
  destruct (Init_fresh cmp valid rank n INVALID_PAGE_ID Page.zeros) as (p0 & E0 & Hp0); [done|apply Hg|unfold INVALID_PAGE_ID; width|done|].
  specialize (Hp0 None None). pose proof (lr_length _ _ _ (la_rep _ _ _ _ _ _ _ _ _ Hp0)) as Hl0.
  destruct (leaf_inserted cmp valid rank _ _ _ _ _ _ _ key v Hp0 He) as (p1 & E1 & Hp1 & Hl1 & _); [done|done|cbn; lia|].
  change (inserted rank key v []) with [(key, v)] in Hp1.
  pose proof (header_set_root _ _ n (conj Hhl (conj Hht Hhr)) (cg_room m Hg)) as Hh'.
  apply wp_bind. eapply (wp_node _ _ _ _ _ P); [exact Hs|whold|wlook|done|]. cbn [w_bytes w_fresh]. rewrite fn_lookup_insert.
  apply wp_bind. eapply wp_lift; [exact E0|].
  apply wp_bind. eapply (wp_store _ _ _ _ _ P); [exact Hs|whold|wlook|done|]. clear s1 Hs. intros s1 Hs.
  apply wp_bind, wp_assert; [apply Z.ltb_lt; lia|].
  apply wp_bind. eapply (wp_on_node _ _ _ _ _ PH); [exact Hs|whold|wlook|done|cbn; world_step; reflexivity|apply Hh'|]. clear s1 Hs. intros s1 Hs.
  eapply (wp_on_node _ _ _ _ _ P); [exact Hs|whold|wlook|done|cbn; world_step; exact E1|done|]. clear s1 Hs. intros s1 Hs.
  apply wp_bind. unfold BTreeIndex.ReleaseParentWriteLatches. apply wp_bind, wp_get. rewrite (at_set _ _ _ _ _ Hs). cbn [BTreeIndex.release_all].
  apply wp_bind. eapply (wp_release_front _ _ _ _ _ PH); [exact Hs|whold|wlook|wlook|wlook|intros _; right|].
  { cbn. split_and!; [by left| | |]; intros E; try congruence. right. split; [split; [done|by left]|wlook]. }
  clear s1 Hs. intros s1 Hs. apply wp_ret, wp_ret. split; [done|].
  exists (w_make [P] (<[P := p1]> (<[PH := BtreeHeaderPage.SetRootPageId n (w_bytes w PH)]> (w_bytes w))) w), n.
  split; [|cbn; rewrite decide_False; [done|by intros ?%list_elem_of_singleton]].
  assert (forall a, a ∈ header_page_id_ im :: tree_pages n [] -> a = header_page_id_ im \/ a = n) as Hpages.
  { intros a Ha. unfold tree_pages in Ha. cbn in Ha. rewrite !elem_of_cons, elem_of_nil in Ha. tauto. }
  split; change (page_of (grown m)) with (page_of m); fold PH.
  - wmake Hs; cbn.
    + left. split_and!; [by left| | |]; intros ->; first [left; wpoint|right; split; [tauto|wpoint]].
    + left. split_and!; [by right| | |]; intros E; first [congruence|left; wpoint].
  - cbn. rewrite fn_lookup_insert_ne by done. by rewrite fn_lookup_insert.
  - cbn. fold P. rewrite fn_lookup_insert. split; [done|lia].
  - unfold tree_pages. cbn. repeat constructor; rewrite ?elem_of_cons, ?elem_of_nil; lia.
  - intros a Ha%Hpages. cbn [w_safe w_latch w_make]. destruct Ha as [-> | ->]; fold PH.
    + rewrite decide_False by (by intros ?%list_elem_of_singleton). split_and!; [done|cbn; lia|by left|done].
    + fold P. rewrite decide_True by left. split_and!; [done|cbn; lia|right; left|done].
  - intros a Ha. assert (a = n) as -> by (unfold tree_pages in Ha; cbn in Ha; by apply list_elem_of_singleton in Ha).
    cbn. fold P. rewrite decide_True by left. lia.
  - cbn. rewrite decide_False by (by intros ?%list_elem_of_singleton). lia.
  - intros q. cbn. rewrite Hun. fold n. rewrite list_elem_of_singleton. split; [intros [[Ht Hq] Hneq]; split; [done|]|intros [Ht Hq]; split; [split; [done|lia]|]].
    + destruct (Z.eq_dec (page_number_ q) n) as [E|]; [|lia]. destruct Hneq. destruct q. cbn in *. by subst.
    + intros ->. cbn in Hq. lia.
  - apply Hg.
Qed.

(** ** Runs *)
Inductive op := Insert (key : IndexKeyType) (rid : RID) | Lookup (key : IndexKeyType).
Inductive answer := Inserted (b : bool) | Found (rid : option RID).

Definition perform1 (o : op) : M tree answer :=
  match o with
  | Insert key rid => b ← BTreeIndex.InternalInsertRecord cmp key rid; mret (Inserted b)
  | Lookup key => r ← BTreeIndex.InternalScanKey cmp key; mret (Found r)
  end.
Fixpoint perform (ops : list op) : M tree (list answer) :=
  match ops with
  | [] => mret []
  | o :: ops => a ← perform1 o; l ← perform ops; mret (a :: l)
  end.

(** The map that an index stands for: the first entry of a key stays. *)
Fixpoint answers (f : IndexKeyType -> option RID) (ops : list op) : list answer :=
  match ops with
  | [] => []
  | Insert key rid :: ops =>
      Inserted (bool_decide (f key = None)) ::
      answers (if bool_decide (f key = None) then <[key := Some rid]> f else f) ops
  | Lookup key :: ops => Found (f key) :: answers f ops
  end.
Definition is_lookup (o : op) : bool := match o with Lookup _ => true | _ => false end.
Definition lookups (ops : list op) : Z := Z.of_nat (length (filter is_lookup ops)).

(** Keys that are not all zeros: see [leaf_insert_drops]. *)
Definition op_ok (o : op) : Prop :=
  match o with
  | Insert key rid => entry_valid valid (key, rid) /\ equal_to cmp zero_key key = false
  | Lookup key => valid key
  end.
(** Page numbers left for [k] more pages. *)
Definition room m (k : Z) : Prop :=
  table_oid_ m <> INVALID_TABLE_OID /\ -1 <= last_table_data_page_id_ m /\ last_table_data_page_id_ m + k < 2 ^ 31 /\
  forall n, last_table_data_page_id_ m < n <= last_table_data_page_id_ m + k -> page_ok (page_of m n).

Lemma room_grow m k : room m k -> 1 <= k -> can_grow m /\ room (grown m) (k - 1).
Proof using.
  intros (Ho & Hl & Hk & Hp) Hpos. split; [split; [done|done|width|apply Hp; lia]|].
  split_and!; [done|cbn; lia|cbn; lia|]. cbn. intros n Hn. apply Hp. lia.
Qed.
Lemma room_less m k k' : room m k -> k' <= k -> room m k'.
Proof using. intros (Ho & Hl & Hk & Hp) Hle. split_and!; [done|done|lia|]. intros n Hn. apply Hp. lia. Qed.

Lemma span_valid mem parent kids next lo hi es : span valid rank mem parent kids next lo hi es -> Forall (fun e => valid e.1) es.
Proof.
  revert lo es. induction kids as [|[k c] kids IH]; intros lo es; cbn [span]; [by intros [_ ->]|].
  intros (mid & es1 & es2 & -> & Hl & _ & _ & _ & Hs). apply Forall_app. split; [|by eapply IH].
  eapply Forall_impl; [apply (lr_valid _ _ _ (la_rep _ _ _ _ _ _ _ _ _ Hl))|]. by intros e [? _].
Qed.
Lemma tree_valid mem root kids es : tree_at valid rank mem root kids es -> Forall (fun e => valid e.1) es.
Proof.
  destruct kids as [|kid kids]; [|intros [_ Hs]; by eapply span_valid]. intros [Hl _].
  eapply Forall_impl; [apply (lr_valid _ _ _ (la_rep _ _ _ _ _ _ _ _ _ Hl))|]. by intros e [? _].
Qed.

Lemma lookup_inserted es key v k : sorted rank es -> valid key -> Forall (fun e => valid e.1) es ->
  lookup_key rank k (inserted rank key v es) =
    (if bool_decide (lookup_key rank key es = None) then <[key := Some v]> (fun k => lookup_key rank k es)
     else fun k => lookup_key rank k es) k.
Proof.
  intros Hs Hk Hv. unfold inserted. destruct (lookup_key rank key es) as [r|] eqn:E.
  - rewrite bool_decide_true by done. by rewrite bool_decide_false.
  - rewrite (bool_decide_false (is_Some None)) by (by intros [? ?]). rewrite bool_decide_true by done.
    destruct (decide (key = k)) as [<-|Hne].
    + rewrite fn_lookup_insert. apply (lookup_insert_at_rank rank (key, v)).
    + rewrite fn_lookup_insert_ne by done. apply (lookup_key_insert_ne cmp valid rank (key, v)); [done| |by apply not_eq_sym].
      intros [kx vx] Hx Heq. cbn in Heq. assert (kx = key) as ->.
      { apply (rank_inj (cmp:=cmp) kx key); [|done|done]. by apply (proj1 (Forall_forall _ _) Hv (kx, vx)). }
      apply (lookup_key_elem cmp valid rank) in Hx; congruence.
Qed.

Lemma answers_ext f g ops : (forall k, valid k -> f k = g k) -> Forall op_ok ops -> answers f ops = answers g ops.
Proof.
  intros Hfg Hops. revert f g Hfg. induction Hops as [|o ops Ho _ IH]; intros f g Hfg; [done|].
  destruct o as [key rid|key]; cbn [answers].
  - destruct Ho as [[Hk _] _]. cbn in Hk. rewrite (Hfg key Hk). f_equal. apply IH. intros k Hkv.
    case_bool_decide; [|by apply Hfg]. destruct (decide (key = k)) as [->|]; [by rewrite !fn_lookup_insert|].
    rewrite !fn_lookup_insert_ne by done. by apply Hfg.
  - rewrite (Hfg key Ho). f_equal. by apply IH.
Qed.

Lemma length_inserted key v es : (length (inserted rank key v es) <= S (length es))%nat.
Proof using.
  unfold inserted. case_bool_decide; [lia|]. unfold insert_at_rank. rewrite length_app, length_take. cbn [length].
  rewrite length_drop. lia.
Qed.

(** Between calls the index is a map, and its header page is pinned once for every search
    there was. *)
Lemma wp_perform ops s m im w root kids es : index_at valid rank s m im w root kids es -> Forall op_ok ops ->
  room m (2 * Z.of_nat (length ops)) -> (length es + length ops <= 101 * 338)%nat ->
  w_pins w (page_of m (header_page_id_ im)) + lookups ops < 2 ^ 16 - 1 ->
  wp (perform ops) (fun l s' => l = answers (fun k => lookup_key rank k es) ops /\
    exists m' w' root' kids' es', index_at valid rank s' m' im w' root' kids' es' /\ table_oid_ m' = table_oid_ m /\
      w_pins w' (page_of m (header_page_id_ im)) = w_pins w (page_of m (header_page_id_ im)) + lookups ops) s.
Proof.
  intros Hix Hops. revert s m w root kids es Hix. induction Hops as [|o ops Ho Hops IH]; intros s m w root kids es Hix Hroom Hfew Hpins.
  { apply wp_ret. split; [done|]. exists m, w, root, kids, es. split_and!; [done|done|]. unfold lookups. cbn. lia. }
  pose proof (ix_tree _ _ _ _ _ _ _ _ _ Hix) as Ht.
  pose proof (tree_sorted cmp valid rank _ _ _ _ Ht) as Hsorted. pose proof (tree_valid _ _ _ _ Ht) as Hvalid.
  cbn [length] in Hroom, Hfew. unfold lookups in Hpins. rewrite filter_cons in Hpins.
  assert (0 <= lookups ops) as Hpos by (unfold lookups; lia).
  cbn [perform]. apply wp_bind. destruct o as [key v|key]; cbn [perform1 is_lookup] in *.
  - destruct Ho as [He Hz]. destruct (room_grow m _ Hroom) as [Hg Hroom1]; [lia|]. destruct (room_grow _ _ Hroom1) as [Hg2 Hroom2]; [lia|].
    rewrite decide_False in Hpins by (by intros []). fold (lookups ops) in Hpins.
    apply wp_bind. eapply wp_mono; [eapply (wp_insert cmp valid rank); [exact Hix|done|done|lia|done|done|lia]|].
    intros b s1 (-> & m' & w' & root' & kids' & Hix' & Hm' & Hp'). apply wp_ret. apply wp_bind.
    assert (table_oid_ m' = table_oid_ m /\ room m' (2 * Z.of_nat (length ops))) as [Hoid Hroom'].
    { destruct Hm' as [-> |[-> | ->]]; (split; [done|]); eapply room_less; first [exact Hroom|exact Hroom1|exact Hroom2|idtac]; lia. }
    assert (forall n, page_of m' n = page_of m n) as Epg by (intros n; unfold page_of; by rewrite Hoid).
    pose proof (length_inserted key v es).
    eapply wp_mono; [eapply (IH s1 m' w'); [exact Hix'|exact Hroom'|lia|rewrite Epg, Hp'; lia]|]. cbn beta.
    intros l s2 (-> & m2 & w2 & root2 & kids2 & es2 & Hix2 & Hoid2 & Hp2). apply wp_ret. split.
    + cbn [answers]. f_equal. apply answers_ext; [|done]. intros k Hk. by apply lookup_inserted; [|apply He|].
    + exists m2, w2, root2, kids2, es2. split; [done|]. split; [congruence|]. rewrite Epg in Hp2. rewrite Hp2, Hp'.
      unfold lookups. rewrite filter_cons, decide_False by (by intros []). done.
  - rewrite decide_True in Hpins by done. cbn [length] in Hpins. fold (lookups ops) in Hpins.
    apply wp_bind. eapply wp_mono; [eapply (wp_scan cmp valid rank); [exact Hix|exact Ho|lia]|].
    intros r s1 (-> & w' & Hix' & Hp'). apply wp_ret. apply wp_bind.
    assert (Z.of_nat (S (length (filter is_lookup ops))) = lookups ops + 1) as Elk by (unfold lookups; lia).
    eapply wp_mono; [eapply (IH s1 m w'); [exact Hix'|eapply room_less; [exact Hroom|lia]|lia|lia]|]. cbn beta.
    intros l s2 (-> & m2 & w2 & root2 & kids2 & es2 & Hix2 & Hoid2 & Hp2). apply wp_ret. split; [done|].
    exists m2, w2, root2, kids2, es2. split_and!; [done|done|]. rewrite Hp2, Hp'. unfold lookups.
    rewrite filter_cons, decide_True by done. cbn [length]. lia.
Qed.

(** ** From the constructor on *)
Definition w_start (s : tree) : world :=
  mk_world (pins (bt_bpm_ s)) (latch_of (bt_bpm_ s)) (content (bt_bpm_ s)) (fun _ => 0) (fun _ => False) (fun _ => False)
    (fun q => table_id_ q = table_oid_ (bt_table_meta_ s) /\ last_table_data_page_id_ (bt_table_meta_ s) < page_number_ q)
    (fun _ => False).

(** Nothing of the table beyond its last page is in the pool, and no call is under way. *)
Record startable s : Prop := {
  sa_pool : pool_ok (bt_bpm_ s);
  sa_set : page_set_ (bt_txn_ s) = [];
  sa_header : header_page_id_ (bt_index_meta_ s) = INVALID_PAGE_ID;
  sa_unused q : table_id_ q = table_oid_ (bt_table_meta_ s) ->
    last_table_data_page_id_ (bt_table_meta_ s) < page_number_ q -> page_table_ (bt_bpm_ s) !! q = None
}.

Lemma start_world s : startable s -> at_world s (bt_table_meta_ s) (bt_index_meta_ s) [] (w_start s).
Proof.
  intros [Hok Hset _ Hun]. split; [|done|done|exact Hset]. split; [exact Hok| | | | | | |]; intros q; try done.
  intros [? ?]. by apply Hun.
Qed.

Definition header_pins s : Z :=
  pins (bt_bpm_ s) (mk_PageId (table_oid_ (bt_table_meta_ s)) (header_page_id_ (bt_index_meta_ s))).

End map.

(** ** The theorem *)
Section whole.
Context {D : Type} `{PageStore D} `{!HashOrder Z bool} `{!LeafLayout} `{!Value.StringLayout}.
Context (cmp : Comparator) (valid : IndexKeyType -> Prop) (rank : IndexKeyType -> Z) `{!OrderedKeys cmp valid rank}.
Implicit Types (s : btree D) (ops : list op).
#[local] Existing Instance only_exhausted.
#[local] Set Default Proof Using "Type*".

End whole.

(** ** A concrete run *)
Section concrete.
#[local] Existing Instance memory_store.
#[local] Existing Instance map_order.
#[local] Existing Instance packed_leaf.
Abbreviation int_cmp := (Compare int_rank).

(** A pool of four frames over an empty disk, a table without pages. *)
Definition new_index : btree (gmap PageId (list byte)) :=
  mk_btree (BufferPool.BufferPool 4 ∅) (mk_TableMeta Schema.empty "t" 0 INVALID_PAGE_ID INVALID_PAGE_ID 0)
    (IndexMeta.make "i" 0 (mk_Column "id" INTEGER 4 0 0 false) UNIQUE BPlusTreeIndex 0) (Transaction.make 0 READ_COMMITTED).
Definition rid2 : RID := mk_RID (mk_PageId 0 2) 4.
Definition demo_ops : list op := [Insert (int_key 2) rid1; Lookup (int_key 2); Insert (int_key 2) rid2; Lookup (int_key 9)].

Lemma new_index_startable : startable new_index.
Proof. split; [by apply BufferPool_ok|done|done|done]. Qed.
Lemma int_op_ok z : in_s 32 z -> z <> 0 -> equal_to int_cmp zero_key (int_key z) = false.
Proof.
  intros Hz Hne. unfold equal_to. change zero_key with (int_key 0).
  rewrite (cmp_rank (rank:=int_rank)) by (eexists; split; [|done]; first [done|width]). rewrite !int_rank_key by (done || width).
  destruct (Z.ltb_spec 0 z); [done|]. by destruct (Z.ltb_spec z 0); [|lia].
Qed.


(** *** An insertion that is forgotten *)
Definition two_frames : btree (gmap PageId (list byte)) :=
  mk_btree (BufferPool.BufferPool 2 ∅) (bt_table_meta_ new_index) (bt_index_meta_ new_index) (bt_txn_ new_index).
Definition two_more_pages : M (btree (gmap PageId (list byte))) unit :=
  a ← BTreeIndex.new_page; b ← BTreeIndex.new_page;
  BTreeIndex.with_pool (BufferPool.UnpinPage a.2 false);; BTreeIndex.with_pool (BufferPool.UnpinPage b.2 false);; mret tt.
Definition insert_twice (flush : bool) : M (btree (gmap PageId (list byte))) (answer * answer) :=
  BTreeIndex.BTreeIndex;; (if flush then BTreeIndex.with_pool BufferPool.FlushAllPages else mret tt);;
  first ← perform1 int_cmp (Insert (int_key 7) rid1);
  two_more_pages;;
  second ← perform1 int_cmp (Insert (int_key 7) rid2);
  mret (first, second).

End concrete.
