(* ===== verification/BTreeFull.v ===== *)
(** * A full root

    When the root is an internal page without room, splitting it never ends: the page set is
    empty by then, and [ReleaseHeaderPageAndMarkDirty] takes its front.  Here any failure is
    allowed: [wp] says what holds if a step returns. *)
From stdpp Require Import functions.
From S2P Require Import Prelude Bytes Types Value Schema Tuple DiskManager BufferPool PageGuard TableMeta.
From S2P Require Import Index BtreePage BtreePageFacts BtreeNodes BtreeThms Transactions BTreeIndex.
From S2P Require Import BufferPoolProps BTreePool BTreeShape BTreeIndexThms BTreeInsert BTreeInsertThms BTreeMap.
Import BtreePage.
Open Scope Z_scope.

(** ** The parent of a page, through what is done to the page *)
Lemma mem_write_parent off bs p p' : (8 <= off)%nat -> mem_write off bs p = Ok p' ->
  GetParentPageId p' = GetParentPageId p /\ length p' = length p /\ (off <= length p)%nat.
Proof.
  intros Ho. unfold mem_write. case_decide as Hl; [|done]. intros [= <-]. unfold GetParentPageId.
  rewrite rd_wr_ne by lia. split_and!; [done|by rewrite length_wr|lia].
Qed.
Lemma mem_read_bytes off n p bs : mem_read off n p = Ok bs -> bs = rd off n p /\ (off + n <= length p)%nat.
Proof. unfold mem_read. case_decide; [|done]. by intros [= <-]. Qed.
Lemma res_bind_inv {A B} (r : res A) (k : A -> res B) b : r ≫= k = Ok b -> exists a, r = Ok a /\ k a = Ok b.
Proof. destruct r as [a|e]; [|done]. cbn. by exists a. Qed.

Lemma parent_app p q : (8 <= length p)%nat -> GetParentPageId (p ++ q) = GetParentPageId p.
Proof. intros Hl. unfold GetParentPageId, rd. by rewrite drop_app_le, take_app_le by (rewrite ?length_drop; lia). Qed.
Lemma parent_rd n p : (8 <= n)%nat -> GetParentPageId (rd 0 n p) = GetParentPageId p.
Proof.
  intros Hn. unfold GetParentPageId, rd. rewrite drop_0, skipn_firstn_comm, take_take. by rewrite Nat.min_l by lia.
Qed.
Lemma parent_wr bs p : (8 <= length bs)%nat -> GetParentPageId (wr 0 bs p) = GetParentPageId bs.
Proof. intros Hl. unfold wr. rewrite take_0, app_nil_l. by apply parent_app. Qed.
Lemma parent_SetSize n p : (24 <= length p)%nat -> GetParentPageId (SetSize n p) = GetParentPageId p.
Proof. intros Hl. unfold SetSize, GetParentPageId. by rewrite rd_wr_ne by lia. Qed.

Lemma InsertNodeAfter_parent old key new p p' : BtreeInternalPage.InsertNodeAfter old key new p = Ok p' ->
  GetParentPageId p' = GetParentPageId p /\ length p' = length p.
Proof.
  unfold BtreeInternalPage.InsertNodeAfter, move_up, BtreeInternalPage.SetKeyAt, BtreeInternalPage.SetValueAt.
  intros (i & _ & (u & _ & (p1 & (nodes & _ & E1)%res_bind_inv & (p2 & E2 & (p3 & E3 & [= <-])%res_bind_inv)%res_bind_inv)%res_bind_inv)%res_bind_inv)%res_bind_inv.
  apply mem_write_parent in E1 as (H1 & L1 & B1); [|unfold node_pos, INTERNAL_PAGE_HEADER_SIZE, INTERNAL_NODE_SIZE; lia].
  apply mem_write_parent in E2 as (H2 & L2 & B2); [|unfold BtreeInternalPage.pos, node_pos, INTERNAL_PAGE_HEADER_SIZE, INTERNAL_NODE_SIZE; lia].
  apply mem_write_parent in E3 as (H3 & L3 & B3); [|unfold BtreeInternalPage.pos, node_pos, INTERNAL_PAGE_HEADER_SIZE, INTERNAL_NODE_SIZE; lia].
  unfold BtreeInternalPage.pos, node_pos, INTERNAL_PAGE_HEADER_SIZE, INTERNAL_NODE_SIZE in B3.
  unfold IncreaseSize, SetSize. rewrite <- L1, <- L2, <- L3, <- H1, <- H2, <- H3. rewrite length_wr by (rewrite length_le_bytes; lia).
  split; [|done]. unfold GetParentPageId. by rewrite rd_wr_ne by lia.
Qed.

Section partial.
Context {D : Type} `{PageStore D} `{!HashOrder Z bool} `{!LeafLayout} `{!Value.StringLayout}.
#[local] Existing Instance any_failure.
Abbreviation tree := (btree D).
Implicit Types (s : tree).
#[local] Set Default Proof Using "Type*".

Definition pages_of s : list Z := page_set_ (bt_txn_ s).
(** The page set is left alone. *)
Abbreviation keeps_set := (preserves pages_of).

Lemma keeps_pool {A} (c : M (BufferPool D) A) : keeps_set (BTreeIndex.with_pool c).
Proof. intros s. unfold BTreeIndex.with_pool. by destruct (c (bt_bpm_ s)) as [[a|e] p]. Qed.
Lemma keeps_new_page : keeps_set BTreeIndex.new_page.
Proof. intros s. unfold BTreeIndex.new_page. by destruct (BufferPool.NewPage _ _) as [[[[f id] m]|e] p]. Qed.

Lemma wp_keeps {A} (c : M tree A) Q s : keeps_set c -> (forall a s', pages_of s' = pages_of s -> Q a s') -> wp c Q s.
Proof. intros Hc HQ. unfold wp. specialize (Hc s). destruct (c s) as [[a|e] s']; [by apply HQ|done]. Qed.

#[local] Hint Resolve keeps_pool keeps_new_page : preserves.
Ltac keeps := repeat first [ progress cbn beta | by eauto with preserves nocore | apply preserves_bind; [|intros ?] | case_match ].

Lemma keeps_node f : keeps_set (BTreeIndex.node f).
Proof. unfold BTreeIndex.node. keeps. Qed.
Lemma keeps_store f bs : keeps_set (BTreeIndex.store f bs).
Proof. unfold BTreeIndex.store. keeps. Qed.
#[local] Hint Resolve keeps_node keeps_store : preserves.
Lemma keeps_on_node {A} f (c : M (list byte) A) : keeps_set (BTreeIndex.on_node f c).
Proof. unfold BTreeIndex.on_node. keeps. Qed.
Lemma keeps_table_page n : keeps_set (BTreeIndex.table_page n).
Proof. unfold BTreeIndex.table_page. keeps. Qed.
#[local] Hint Resolve keeps_on_node keeps_table_page : preserves.
Lemma keeps_unguarded : keeps_set BTreeIndex.new_page_unguarded.
Proof. unfold BTreeIndex.new_page_unguarded. keeps. Qed.
Lemma keeps_adopt n i f : keeps_set (BTreeIndex.adopt n i f).
Proof. revert i. induction n as [|n IH]; intros i; cbn [BTreeIndex.adopt]; keeps. Qed.
#[local] Hint Resolve keeps_unguarded keeps_adopt : preserves.
Lemma keeps_CopyNFrom items size f : keeps_set (BTreeIndex.CopyNFrom items size f).
Proof. unfold BTreeIndex.CopyNFrom. keeps. Qed.
#[local] Hint Resolve keeps_CopyNFrom : preserves.

Lemma wp_next {A B} (c : M tree A) (k : A -> M tree B) Q s l : keeps_set c -> pages_of s = l ->
  (forall a s', pages_of s' = l -> wp (k a) Q s') -> wp (c ≫= k) Q s.
Proof. intros Hc Hs HQ. apply wp_bind. eapply wp_keeps; [exact Hc|]. intros a s' E. apply HQ. congruence. Qed.
Ltac next Hs := eapply wp_next; [keeps|exact Hs|]; clear Hs; (let a := fresh "a" in let s' := fresh "s" in intros a s' Hs).

(** What stays of the buffer is what was in it, but for its size. *)
Lemma wp_SplitInternal buffer s : wp (BTreeIndex.SplitInternal buffer)
  (fun r s' => pages_of s' = pages_of s /\ r.1 = SetSize (GetMinSize buffer) buffer) s.
Proof.
  unfold BTreeIndex.SplitInternal, BTreeIndex.MoveHalfTo.
  do 6 (apply wp_bind; eapply wp_keeps; [keeps|]; intros ? ? ?).
  apply wp_bind, wp_bind. do 2 first [eapply wp_keeps; [keeps|]; intros ? ? ?; apply wp_bind | eapply wp_keeps; [keeps|]; intros ? ? ?].
  apply wp_ret, wp_ret. split; [congruence|done].
Qed.

(** *** What a frame holds *)
Definition reads s f (bs : list byte) : Prop := exists p, BufferPool.frame (bt_bpm_ s) f = Some p /\ data_ p = bs.

Lemma wp_lift_any {A} (r : res A) (Q : A -> tree -> Prop) s : (forall a, r = Ok a -> Q a s) -> wp (lift r) Q s.
Proof. intros HQ. destruct r as [a|e]; [by apply HQ|done]. Qed.
Lemma wp_node_reads s f bs Q : reads s f bs -> Q bs s -> wp (BTreeIndex.node f) Q s.
Proof.
  intros (p & Hp & Hd) HQ. unfold BTreeIndex.node. apply wp_bind. unfold wp at 1, BTreeIndex.with_pool.
  rewrite (get_page_ok _ _ _ Hp). destruct s. unfold Page.GetData. rewrite Hd. exact HQ.
Qed.
Lemma wp_store_reads s f bs Q : (forall s', pages_of s' = pages_of s -> reads s' f bs -> Q tt s') ->
  wp (BTreeIndex.store f bs) Q s.
Proof.
  intros HQ. unfold wp, BTreeIndex.store, BTreeIndex.with_pool, write_frame.
  destruct (BufferPool.frame (bt_bpm_ s) f) as [p|] eqn:Hp.
  - rewrite (update_page_ok _ f p _ Hp). apply HQ; [done|]. exists (Page.with_data bs p). split; [|done].
    cbn [bt_bpm_]. rewrite (frame_update _ f _ f) by (by exists p). by rewrite decide_True.
  - unfold BufferPool.update_page, BufferPool.get_page, mbind, M_bind. by rewrite Hp.
Qed.

(** *** The root, once more *)
Lemma wp_root_fails fuel s f f' key fh bs : pages_of s = [] -> reads s f bs -> IsRootPage bs = true ->
  wp (BTreeIndex.InsertIntoParent fuel f f' key fh) (fun _ _ => False) s.
Proof.
  intros Hps Hr Hroot. destruct fuel as [|fuel]; [done|]. cbn [BTreeIndex.InsertIntoParent].
  apply wp_bind. eapply wp_node_reads; [exact Hr|]. clear Hr. next Hps. rewrite Hroot. do 8 next Hps.
  apply wp_bind. unfold BTreeIndex.ReleaseHeaderPageAndMarkDirty. apply wp_bind, wp_get. unfold pages_of in Hps. by rewrite Hps.
Qed.

(** *** Below a full root *)
Lemma wp_full_root s m im w root kids f p key f' p' fh PL PN :
  let PR := page_of m root in
  at_world s m im [] (w_pair PL f p PN f' p' (w_forget w)) -> PL <> PN -> PR <> PL -> PR <> PN ->
  page_ok PL -> page_ok PN -> page_ok PR -> ~ w_unused w PR -> w_safe w PR -> w_pins w PR = 0 ->
  root_at (w_bytes w PR) root kids -> length kids = 338%nat -> 0 < root -> GetParentPageId p = root ->
  wp (BTreeIndex.InsertIntoParent LEVELS f f' key fh) (fun _ _ => False) s.
Proof.
  intros PR Hs Hne HneL HneN HokL HokN HokR HuR HsR HpR [Hrep Hlen H2] Hfull Hroot Hpar.
  destruct LEVELS_two as (n1 & _ & -> & _). cbn [BTreeIndex.InsertIntoParent].
  apply wp_bind. eapply wp_pair_node_left; [exact Hs|done|done|]. apply wp_bind. eapply wp_pair_node_right; [exact Hs|done|].
  unfold IsRootPage. rewrite Hpar. destruct (Z.eqb_spec root INVALID_PAGE_ID) as [Hbad|_]; [unfold INVALID_PAGE_ID in Hbad; lia|].
  apply wp_bind. eapply wp_table_page; [exact Hs|]. fold (page_of m root). fold PR.
  assert (w_pins (w_pair PL f p PN f' p' (w_forget w)) PR = 0) as HpR' by (cbn; by world_step).
  apply wp_bind. eapply wp_fetch; [exact Hs|done|right; cbn; by split_and!|rewrite HpR'; done|by intros [? _]|]. clear s Hs. intros fr s Hs _.
  apply wp_bind. eapply (wp_node _ _ _ _ _ PR); [exact Hs|by left|cbn; wlook|done|]. cbn [w_bytes w_pin w_pair w_forget].
  rewrite !fn_lookup_insert_ne by done. apply wp_bind. eapply wp_lift.
  { unfold GetMaxSize. rewrite (ir_max _ _ Hrep). reflexivity. }
  rewrite (ir_size _ _ Hrep), Nat2Z.id. cbn [ip_entries]. rewrite Hfull. change INTERNAL_MAX_NODE_SIZE with 338.
  destruct (Z.ltb_spec (Z.of_nat 338) 338) as [|_]; [lia|]. pose proof (at_set _ _ _ _ _ Hs) as Hps. clear Hs.
  apply wp_bind, wp_lift_any. intros copied Hcopied. apply wp_bind, wp_lift_any. intros copy Hcopy.
  apply wp_bind. eapply wp_mono; [apply wp_SplitInternal|]. intros r s1 [E1 Er].
  assert (pages_of s1 = []) as Hps1 by (unfold pages_of in *; congruence). clear Hps E1.
  next Hps1. next Hps1. apply wp_bind, wp_lift_any. intros kept Hkept. next Hps1.
  apply wp_bind, wp_lift_any. intros stored Hstored. apply wp_bind, wp_store_reads. intros s9 E9 Hreads.
  apply wp_bind. eapply wp_mono; [eapply wp_root_fails; [|exact Hreads|]|done]; [congruence|].
  apply InsertNodeAfter_parent in Hcopy as [Pcopy Lcopy].
  apply mem_read_bytes in Hcopied as [-> Lc]. apply mem_read_bytes in Hkept as [-> Lk]. rewrite Er in Lk.
  unfold mem_write in Hstored. case_decide; [|done]. injection Hstored as <-.
  change (INTERNAL_PAGE_HEADER_SIZE + INTERNAL_NODE_SIZE * 338)%nat with (4 * 1022)%nat in *.
  rewrite length_app, length_rd in Lcopy by done. unfold INTERNAL_PAGE_HEADER_SIZE in *.
  unfold IsRootPage. rewrite parent_wr by (rewrite length_rd by (rewrite Er; exact Lk); lia). rewrite parent_rd, Er by lia.
  rewrite parent_SetSize, Pcopy, parent_app, parent_rd, (ir_parent _ _ Hrep) by (rewrite ?length_rd by done; lia). done.
Qed.
End partial.

Section full.
Context {D : Type} `{PageStore D} `{!HashOrder Z bool} `{!LeafLayout} `{!Value.StringLayout}.
Context (cmp : Comparator) (valid : IndexKeyType -> Prop) (rank : IndexKeyType -> Z) `{!OrderedKeys cmp valid rank}.
Implicit Types (s : btree D) (w : world) (m : TableMeta) (im : IndexMeta).
#[local] Existing Instance any_failure.
#[local] Set Default Proof Using "Type*".

(** The leaf splits, and the root is full. *)
Lemma wp_full_child s0 s m im w fh f root kids es pre k c post lo hi esL es' esR key v :
  index_at valid rank s0 m im w root kids es -> can_grow m -> kids = pre ++ (k, c) :: post -> length kids = 338%nat ->
  focused valid rank (fun n => w_bytes w (page_of m n)) root pre k c post INVALID_PAGE_ID None None lo hi esL es' esR ->
  in_range lo hi (rank key) -> length es' = 201%nat -> lookup_key rank key es' = None ->
  entry_valid valid (key, v) -> equal_to cmp zero_key key = false ->
  at_world s m im [] (w_lock (page_of m c) f (w_forget w)) ->
  wp (at_leaf cmp key v fh f) (fun _ _ => False) s.
Proof.
  intros Hix Hg Ekd Hfull Hf Hrange Hsz Hnone He Hz Hs. set (PH := page_of m (header_page_id_ im)).
  destruct (index_child cmp valid rank _ _ _ _ _ _ _ _ _ _ _ Hix Ekd) as [Hc HneRC].
  destruct (index_ready cmp valid rank _ _ _ _ _ _ _ root Hix) as [HokR HuR HsR HlR]; [right; left|].
  destruct (index_node cmp valid rank _ _ _ _ _ _ _ root Hix) as (Hroot & HpR & HneR); [left|].
  destruct (index_ready cmp valid rank _ _ _ _ _ _ _ c Hix) as [HokC HuC HsC HlC]; [by right|].
  destruct (index_node cmp valid rank _ _ _ _ _ _ _ c Hix Hc) as (Hcpos & HpC & HneC).
  assert (kids <> []) as Hne' by (rewrite Ekd; by destruct pre).
  pose proof (ix_tree _ _ _ _ _ _ _ _ _ Hix) as Ht. apply (tree_at_nodes _ _ _ _ _ _ Hne') in Ht as [Hr _].
  pose proof Hf as [_ _ Hleaf _ _ _ _]. cbn beta in Hleaf. set (PC := page_of m c) in *. set (PR := page_of m root) in *.
  assert (holding PH fh w [] (w_forget w)) as Hold by constructor.
  eapply (wp_at_leaf cmp valid rank); [exact Hold|exact HneC|done|done|exact Hs|exact Hleaf|done|done|done|lia|]. clear s Hs.
  fold PC. intros s p Hs Hlp Hlen.
  assert (length (inserted rank key v es') = 202%nat) as Hfull'.
  { unfold inserted. rewrite bool_decide_false by (rewrite Hnone; by intros [? ?]).
    unfold insert_at_rank. rewrite length_app, length_take. cbn [length]. rewrite length_drop.
    pose proof (position_le rank (rank (key, v).1) es'). lia. }
  rewrite Hfull'. change (202 <=? Z.of_nat 202) with true. cbn iota. set (n' := last_table_data_page_id_ m + 1).
  destruct (index_unused cmp valid rank _ _ _ _ _ _ _ n' Hix ltac:(lia)) as [HuN HneN]. set (PN := page_of m n') in *.
  destruct (ix_pages _ _ _ _ _ _ _ _ _ Hix root) as (_ & HleR & _); [right; left|].
  eapply (wp_split_leaf cmp valid rank _ _ _ _ _ c); [exact Hg|fold n'; lia|exact Hs|done|done|exact HuN|apply HneN; by right|exact Hlp|done|].
  clear s Hs. fold n' PN PC. intros fN s pl pr e Hs _ Hpl _ _ _ _ _.
  apply wp_bind. apply (wp_mono _ (fun _ _ => False)); [|by intros ? ? []].
  eapply (wp_full_root _ _ _ w root kids _ _ _ _ _ _ PC PN); [exact Hs|..]; try done.
  - apply HneN. by right.
  - apply HneN. right; left.
  - apply Hg.
  - by apply (lr_parent _ _ _ (la_rep _ _ _ _ _ _ _ _ _ Hpl)).
Qed.

End full.

(** ** A full root: 338 leaves with 201 entries each *)
Section concrete.
#[local] Existing Instance memory_store.
#[local] Existing Instance map_order.
#[local] Existing Instance packed_leaf.
Abbreviation int_cmp := (Compare int_rank).

(** Page 0 is the header, page 1 the root, and page [n + 2] the leaf with the keys from [201 * n] on. *)
Definition the_leaf (n : Z) : list byte :=
  match (p ← BtreeLeafPage.Init (n + 2) 1 Page.zeros;
         BtreeLeafPage.CopyNFrom (concat (leaf_bytes <$> int_entries (seqZ (201 * n) 201))) 201 p) with
  | Ok p => BtreeLeafPage.SetNextPageId (if n =? 337 then INVALID_PAGE_ID else n + 3) p
  | Err _ => []
  end.
Definition the_node (n : Z) : IndexKeyType * Z := (int_key (201 * n), n + 2).
Definition the_nodes : list (IndexKeyType * Z) := the_node <$> seqZ 0 338.
Definition the_root : list byte :=
  match BtreeInternalPage.Init 1 INVALID_PAGE_ID Page.zeros with
  | Ok p => wr INTERNAL_PAGE_HEADER_SIZE (concat (internal_bytes <$> the_nodes)) (SetSize 338 p)
  | Err _ => []
  end.
Definition the_page (n : Z) : list byte :=
  if n =? 0 then BtreeHeaderPage.SetRootPageId 1 (BtreeHeaderPage.SetRootPageId INVALID_PAGE_ID (BtreeHeaderPage.Init Page.zeros))
  else if n =? 1 then the_root else the_leaf (n - 2).
Definition full_disk : gmap PageId (list byte) := list_to_map ((fun n => (mk_PageId 0 n, the_page n)) <$> seqZ 0 340).
Definition full_index : btree (gmap PageId (list byte)) :=
  mk_btree (BufferPool.BufferPool 8 full_disk) (mk_TableMeta Schema.empty "t" 0 339 INVALID_PAGE_ID 0)
    (IndexMeta.set_header_page_id 0 (IndexMeta.make "i" 0 (mk_Column "id" INTEGER 4 0 0 false) UNIQUE BPlusTreeIndex 0))
    (Transaction.make 0 READ_COMMITTED).

Definition lower (n : Z) : option Z := if n =? 0 then None else Some (201 * n).
Definition upper (n : Z) : option Z := if n =? 337 then None else Some (201 * (n + 1)).

Lemma the_leaf_at n : 0 <= n < 338 ->
  leaf_at is_int_key int_rank (the_leaf n) 1 (n + 2) (if n =? 337 then INVALID_PAGE_ID else n + 3) (lower n) (upper n)
    (int_entries (seqZ (201 * n) 201)).
Proof.
  intros Hn. unfold the_leaf.
  destruct (Init_fresh int_cmp is_int_key int_rank (n + 2) 1 Page.zeros) as (p & E & Hp); [done|width|width|done|].
  specialize (Hp None None). rewrite E. cbn [mbind res_bind].
  assert (Forall (in_s 32) (seqZ (201 * n) 201)) as Hz by (apply seqZ_in_s; width).
  assert (length (int_entries (seqZ (201 * n) 201)) = 201%nat) as Hlen by (unfold int_entries; rewrite length_fmap, length_seqZ; lia).
  destruct (leaf_CopyNFrom int_cmp is_int_key int_rank p _ (int_entries (seqZ (201 * n) 201)) (la_rep _ _ _ _ _ _ _ _ _ Hp)) as (r & Er & Hr & Hsame).
  { apply Forall_fmap, (Forall_impl _ _ _ Hz). apply int_entry_valid. }
  { cbn [lp_entries length]. rewrite Hlen. done. }
  rewrite Hlen in Er. change (Z.of_nat 201) with 201 in Er. rewrite Er.
  apply (leaf_at_next int_cmp is_int_key int_rank _ _ _ INVALID_PAGE_ID); [|unfold INVALID_PAGE_ID; case_match; width].
  assert (forall z, z ∈ seqZ (201 * n) 201 -> int_rank (int_key z) = z) as Hrank.
  { intros z Hin. apply int_rank_key. by apply (proj1 (Forall_forall _ _) Hz). }
  split.
  - exact Hr.
  - apply int_entries_sorted; [exact Hz|apply seqZ_sorted].
  - apply Forall_fmap, Forall_forall. intros z Hin. cbn [fst compose]. rewrite (Hrank z Hin). apply elem_of_seqZ in Hin.
    unfold lower, upper. destruct (Z.eqb_spec n 0), (Z.eqb_spec n 337); split; cbn; lia.
  - intros i Hi. rewrite Hlen in Hi. assert (i = 201%nat) as -> by lia. left. unfold slot_key.
    rewrite Hsame by (rewrite Hlen; cbn [lp_entries length]; unfold LEAF_NODE_SIZE; lia).
    destruct (la_slack _ _ _ _ _ _ _ _ _ Hp 201) as [Hs|[_ Hs]]; [cbn [length]; lia|exact Hs|by destruct Hs].
Qed.

Lemma the_page_leaf n : 0 <= n < 338 -> the_page (n + 2) = the_leaf n.
Proof.
  intros Hn. unfold the_page. destruct (Z.eqb_spec (n + 2) 0); [lia|]. destruct (Z.eqb_spec (n + 2) 1); [lia|].
  by replace (n + 2 - 2) with n by lia.
Qed.

Lemma the_span (k : nat) : (k <= 338)%nat -> let n := 338 - Z.of_nat k in
  span is_int_key int_rank the_page 1 (the_node <$> seqZ n (Z.of_nat k)) INVALID_PAGE_ID
    (if n =? 338 then None else lower n) None (int_entries (seqZ (201 * n) (201 * Z.of_nat k))).
Proof.
  induction k as [|k IH]; intros Hk n; [done|].
  specialize (IH ltac:(lia)). cbn zeta in IH. rewrite Nat2Z.inj_succ, seqZ_cons by lia. cbn [fmap list_fmap span the_node].
  replace (Z.succ n) with (338 - Z.of_nat k) by lia. replace (Z.pred (Z.succ (Z.of_nat k))) with (Z.of_nat k) by lia.
  replace (201 * Z.succ (Z.of_nat k)) with (201 + 201 * Z.of_nat k) by lia. rewrite seqZ_app by lia.
  replace (201 * n + 201) with (201 * (338 - Z.of_nat k)) by lia.
  destruct (Z.eqb_spec n 338) as [|_]; [lia|].
  exists (upper n), (int_entries (seqZ (201 * n) 201)), (int_entries (seqZ (201 * (338 - Z.of_nat k)) (201 * Z.of_nat k))).
  assert (length (int_entries (seqZ (201 * n) 201)) = 201%nat) as Hlen by (unfold int_entries; rewrite length_fmap, length_seqZ; lia).
  split_and!; [unfold int_entries; by rewrite fmap_app| |lia|lia| | |].
  - rewrite the_page_leaf by lia. pose proof (the_leaf_at n ltac:(lia)) as Hleaf.
    destruct (Z.eqb_spec n 337) as [E|E].
    + assert (k = 0%nat) as -> by lia. exact Hleaf.
    + rewrite seqZ_cons by lia. cbn [fmap list_fmap the_node first_page].
      by replace (338 - Z.of_nat k + 2) with (n + 3) by lia.
  - unfold lower, upper. destruct (Z.eqb_spec n 0), (Z.eqb_spec n 337); cbn; lia || done.
  - destruct (Z.eqb_spec n 337) as [E|E]; [by assert (k = 0%nat) as -> by lia|].
    rewrite seqZ_cons by lia. cbn [fmap list_fmap the_node starts]. unfold upper. destruct (Z.eqb_spec n 337); [lia|].
    rewrite int_rank_key by width. split; [f_equal; lia|]. eexists; split; [|done]; width.
  - destruct (Z.eqb_spec n 337) as [E|E].
    + assert (k = 0%nat) as -> by lia. cbn in IH |- *. unfold upper. rewrite E. done.
    + destruct (Z.eqb_spec (338 - Z.of_nat k) 338) as [|_]; [lia|].
      replace (upper n) with (lower (338 - Z.of_nat k)); [exact IH|]. unfold lower, upper.
      destruct (Z.eqb_spec (338 - Z.of_nat k) 0), (Z.eqb_spec n 337); first [lia|f_equal; lia].
Qed.

Lemma the_nodes_length : length the_nodes = 338%nat.
Proof. unfold the_nodes. by rewrite length_fmap, length_seqZ. Qed.

Lemma the_root_at : root_at the_root 1 the_nodes.
Proof.
  assert (page_size = 4096%nat) as Hps by done. assert (length Page.zeros = 4096%nat) as Hz by apply length_replicate.
  unfold the_root, BtreeInternalPage.Init, SetMaxSize, assertion. change (0 <? INTERNAL_MAX_NODE_SIZE) with true. cbn [mbind res_bind].
  set (p := SetParentPageId _ _). assert (length (SetSize 338 p) = 4096%nat) as Hp.
  { unfold p, SetParentPageId, SetSize, SetPageId, SetPageType. lens. }
  pose proof the_nodes_length as Hn.
  assert (Forall (fun m => length m = INTERNAL_NODE_SIZE) (internal_bytes <$> the_nodes)) as Hms.
  { apply Forall_fmap, Forall_fmap, Forall_forall. intros n _. unfold compose, internal_bytes, the_node, int_key.
    cbn [fst snd]. by rewrite !length_app, !length_le_bytes, length_replicate. }
  destruct (append_rep INTERNAL_PAGE_HEADER_SIZE INTERNAL_NODE_SIZE ltac:(unfold INTERNAL_NODE_SIZE; lia) (SetSize 338 p) []
    _ _ ltac:(split; [unfold INTERNAL_PAGE_HEADER_SIZE; cbn [length]; lia|done]) eq_refl Hms) as [Hap Hlen].
  { rewrite length_fmap, Hn, Hp. unfold INTERNAL_PAGE_HEADER_SIZE, INTERNAL_NODE_SIZE. cbn [length]. lia. }
  rewrite length_fmap, Hn in Hlen. cbn [length] in Hap. rewrite Nat.mul_0_r, Nat.add_0_r in Hap. cbn [app] in Hap.
  set (items := concat _) in *. unfold INTERNAL_PAGE_HEADER_SIZE, INTERNAL_NODE_SIZE in Hlen, Hap |- *.
  assert (forall off k, (off + k <= 32)%nat -> rd off k (wr 32 items (SetSize 338 p)) = rd off k (SetSize 338 p)) as Hhead.
  { intros off k Ho. by rewrite rd_wr_ne by lia. }
  assert (length (wr 32 items (SetSize 338 p)) = 4096%nat) as Hl by (rewrite length_wr; lia).
  split; [split|by rewrite Hl|rewrite Hn; lia]; cbn [ip_id ip_parent ip_entries].
  - rewrite Hl. lia.
  - unfold GetPageType. rewrite Hhead by lia. unfold p, SetParentPageId, SetSize, SetPageId, SetPageType. by ranges.
  - unfold GetPageId. rewrite Hhead by lia. unfold p, SetParentPageId, SetSize, SetPageId, SetPageType. by ranges.
  - unfold GetParentPageId. rewrite Hhead by lia. unfold p, SetParentPageId, SetSize, SetPageId, SetPageType. by ranges.
  - unfold GetSize. rewrite Hhead, Hn by lia. unfold SetSize. by ranges.
  - by rewrite Hn.
  - unfold max_size_. rewrite Hhead by lia. unfold p, SetParentPageId, SetSize, SetPageId, SetPageType. by ranges.
  - exact Hap.
  - apply Forall_fmap, Forall_forall. intros n Hin%elem_of_seqZ. cbn [compose the_node fst snd].
    split; [unfold int_key; by rewrite length_app, length_le_bytes, length_replicate|width].
Qed.

Lemma the_header_at : header_at (the_page 0) 1.
Proof. apply (header_set_root _ INVALID_PAGE_ID); [|width]. by apply header_init. Qed.

Lemma the_page_length n : 0 <= n < 340 -> length (the_page n) = page_size.
Proof.
  intros Hn. destruct (Z.eq_dec n 0) as [->|H0]; [apply the_header_at|].
  destruct (Z.eq_dec n 1) as [->|H1]; [apply (ra_length _ _ _ the_root_at)|].
  replace n with (n - 2 + 2) by lia. rewrite the_page_leaf by lia.
  apply (lr_length _ _ _ (la_rep _ _ _ _ _ _ _ _ _ (the_leaf_at (n - 2) ltac:(lia)))).
Qed.

Lemma full_content n : 0 <= n < 340 -> ps_content full_disk (mk_PageId 0 n) = the_page n.
Proof.
  intros Hn. cbn. unfold memory_content, full_disk.
  set (l := _ <$> seqZ 0 340). assert ((list_to_map l : gmap PageId (list byte)) !! mk_PageId 0 n = Some (the_page n)) as ->.
  - apply elem_of_list_to_map.
    + unfold l. rewrite <- list_fmap_compose. apply NoDup_fmap; [intros ? ? E; by injection E|apply NoDup_seqZ].
    + apply list_elem_of_fmap. exists n. split; [done|]. apply elem_of_seqZ. lia.
  - by rewrite decide_True by by apply the_page_length.
Qed.

Definition full_world : world :=
  mk_world (fun _ => 0) (fun _ => Unlatched) (ps_content full_disk) (fun _ => 0) (fun _ => False) (fun _ => True)
    (fun q => table_id_ q = 0 /\ 339 < page_number_ q) (fun _ => False).
Definition all_entries : list (IndexKeyType * RID) := int_entries (seqZ 0 (201 * 338)).

Lemma full_index_at : index_at is_int_key int_rank full_index (bt_table_meta_ full_index) (bt_index_meta_ full_index)
  full_world 1 the_nodes all_entries.
Proof.
  assert (forall n, n ∈ 0 :: tree_pages 1 the_nodes -> 0 <= n < 340) as Hpages.
  { intros n. unfold tree_pages, the_nodes. rewrite <- list_fmap_compose, !elem_of_cons, list_elem_of_fmap.
    intros [->|[->|(i & -> & Hi%elem_of_seqZ)]]; cbn; lia. }
  assert (forall n, n ∈ tree_pages 1 the_nodes -> 0 < n) as Hpos.
  { intros n. unfold tree_pages, the_nodes. rewrite <- list_fmap_compose, elem_of_cons, list_elem_of_fmap.
    intros [->|(i & -> & Hi%elem_of_seqZ)]; cbn; lia. }
  split.
  - split; [|done..]. split; try done; [by apply BufferPool_ok|]. intros q _. split_and!; [done|left; done|left; done].
  - change (header_at (ps_content full_disk (mk_PageId 0 0)) 1). rewrite full_content by lia. apply the_header_at.
  - change (tree_at is_int_key int_rank (fun n => ps_content full_disk (mk_PageId 0 n)) 1 the_nodes all_entries).
    pose proof (the_span 338 ltac:(lia)) as Hs. cbn zeta in Hs.
    assert (forall l, l = the_nodes -> length l = 338%nat /\
       span is_int_key int_rank the_page 1 l INVALID_PAGE_ID None None all_entries) as Hl.
    { intros l ->. split; [exact the_nodes_length|exact Hs]. }
    destruct (Hl the_nodes eq_refl) as [Hlen Hspan]. pose proof the_root_at as Hr. revert Hlen Hspan Hr Hpages. clear.
    generalize the_nodes. intros [|kid kids]; [done|]. intros _ Hspan Hr Hpages. split.
    + rewrite full_content by lia. exact Hr.
    + eapply (span_frame int_cmp is_int_key int_rank the_page); [|exact Hspan]. intros v Hv. apply full_content, Hpages. right. right. exact Hv.
  - cbn [header_page_id_]. constructor; [intros Hin; specialize (Hpos _ Hin); cbn in Hpos; lia|].
    unfold tree_pages, the_nodes. rewrite <- list_fmap_compose. constructor.
    + rewrite list_elem_of_fmap. intros (i & E & Hi%elem_of_seqZ). cbn in E. lia.
    + apply NoDup_fmap; [intros i j E; cbn in E; lia|apply NoDup_seqZ].
  - intros n Hn%Hpages. split_and!; [split; [done|exact (proj1 Hn)]|change (n <= 339); lia|done|done].
  - intros n Hn%Hpos. by split.
  - done.
  - done.
  - cbn. width.
Qed.

End concrete.
