(* ===== verification/Catalog.v ===== *)
(** * The catalog: [meta/catalog.hpp], [meta/catalog.cpp]

    The catalog owns the tables' and indexes' meta data ([std::unique_ptr], here an
    [option]) and keeps them in the catalog file and one meta file per table.  The order
    in which a hash map is visited is a parameter ([HashOrder]). *)
From S2P Require Import Prelude Bytes Streams Serializer Codec CodecFacts Types Value Schema Tuple.
From S2P Require Import Files DiskManager BufferPool PageGuard TableMeta Index BtreePage Transactions BTreeIndex.
Open Scope Z_scope.

Record Catalog := mk_Catalog {
  tables_ : gmap Z (option TableMeta);
  indexes_ : gmap Z (option IndexMeta);
  index_names_ : gmap string (gmap string Z);     (* table name -> index name -> index id *)
  table_names_ : gmap string Z
}.

(** The members of a database that [CreateIndex] works on: the catalog, the file system
    with the catalog's files, and the buffer pool over the page store [D]. *)
Record db (D : Type) := mk_db { catalog_ : Catalog; db_fs_ : FileSystem; db_bpm_ : BufferPool D }.
Arguments mk_db {D}. Arguments catalog_ {D}. Arguments db_fs_ {D}. Arguments db_bpm_ {D}.

Module Catalog.
Definition magic_bytes_ : string := "GAVINDB_CATALOG_MANAGER".
Definition empty : Catalog := mk_Catalog ∅ ∅ ∅ ∅.

Section orders.
Context `{!HashOrder Z (option TableMeta)} `{!HashOrder Z (option IndexMeta)}
  `{!HashOrder string Z} `{!HashOrder string (gmap string Z)}.

(** *** Serialization *)
Section serialization.
Context {St : Type} `{ReadStream St}.

Definition tables_c : codec St (gmap Z (option TableMeta)) := map_c int32_c TableMeta.table_meta_ptr_c.
Definition table_names_c : codec St (gmap string Z) := map_c string_c int32_c.
Definition indexes_c : codec St (gmap Z (option IndexMeta)) := map_c int32_c IndexMeta.index_meta_ptr_c.
Definition index_names_c : codec St (gmap string (gmap string Z)) := map_c string_c (map_c string_c int32_c).

(** A map equals the empty one exactly when it is empty. *)
Definition Serialize (c : Catalog) : W :=
  WritePropertyWithDefault (St:=St) false 100 tables_c (tables_ c) (bool_decide (tables_ c = ∅)) +++
  WritePropertyWithDefault (St:=St) false 101 table_names_c (table_names_ c) (bool_decide (table_names_ c = ∅)) +++
  WritePropertyWithDefault (St:=St) false 102 indexes_c (indexes_ c) (bool_decide (indexes_ c = ∅)) +++
  WritePropertyWithDefault (St:=St) false 103 index_names_c (index_names_ c) (bool_decide (index_names_ c = ∅)) +++
  WriteProperty (St:=St) 104 string_c magic_bytes_.

Definition Deserialize : M (deser St) Catalog :=
  tables ← ReadPropertyWithDefault 100 tables_c ∅;
  table_names ← ReadPropertyWithDefault 101 table_names_c ∅;
  indexes ← ReadPropertyWithDefault 102 indexes_c ∅;
  index_names ← ReadPropertyWithDefault 103 index_names_c ∅;
  deserialized_magic_bytes ← ReadProperty 104 string_c;
  if bool_decide (deserialized_magic_bytes = magic_bytes_)
  then mret (mk_Catalog tables indexes index_names table_names)
  else throw StdRuntimeError.
End serialization.

(** *** Looking tables up *)
(** [*ptr] *)
Definition deref {A} (ptr : option A) : res A := match ptr with Some a => Ok a | None => Err UndefinedBehaviour end.

(** Which entry of [tables_] the name leads to, and the object it holds. *)
Definition table_key (table_name : string) (c : Catalog) : res Z :=
  match table_names_ c !! table_name with Some oid => Ok oid | None => Err Exception end.
Definition table_at (oid : Z) (c : Catalog) : res TableMeta :=
  match tables_ c !! oid with Some ptr => deref ptr | None => Err OutOfRange end.
Definition GetTableByName (table_name : string) (c : Catalog) : res TableMeta :=
  oid ← table_key table_name c; table_at oid c.
Definition GetTableName (table_oid : Z) (c : Catalog) : res string :=
  match tables_ c !! table_oid with
  | None => Err Exception
  | Some ptr => m ← deref ptr; Ok (name_ m)
  end.
Definition GetTable (table_oid : Z) (c : Catalog) : res TableMeta :=
  name ← GetTableName table_oid c; GetTableByName name c.

(** A [TableMeta &] that was handed out, written through. *)
Definition set_table (oid : Z) (m : TableMeta) (c : Catalog) : Catalog :=
  mk_Catalog (<[oid := Some m]> (tables_ c)) (indexes_ c) (index_names_ c) (table_names_ c).

(** *** Files *)
(** [auto s = FileStream(path)] and a serializer that writes to it: what lies behind the
    bytes written stays in the file. *)
Definition write_file (p : path) (w : W) : M FileSystem unit :=
  fs ← get_state;
  stream ← lift (FileStream.FileStream (files fs !! p) false);
  let r := run_writer w stream in
  modify (fun fs => mk_FileSystem (<[p := FileStream.content r.2]> (files fs)) (dirs fs));;
  lift r.1.

Fixpoint persist_tables (l : list (Z * option TableMeta)) : M FileSystem unit :=
  match l with
  | [] => mret tt
  | (table_oid, table_meta) :: l =>
    m ← lift (deref table_meta);
    write_file (FilePathManager.GetTableMetaPath (name_ m)) (TableMeta.Serialize (St:=FileStream.t) m);;
    persist_tables l
  end.
Definition PersistToDisk (c : Catalog) : M FileSystem unit :=
  let catalogpath := FilePathManager.GetSystemCatalogPath in
  CreateFileIfNotExists catalogpath;;
  write_file catalogpath (Serialize (St:=FileStream.t) c);;
  persist_tables (iteration (tables_ c)).

Fixpoint table_files_exist (l : list (string * Z)) (fs : FileSystem) : res unit :=
  match l with
  | [] => Ok tt
  | (table_name, _) :: l =>
    let data_exists := exists_ (FilePathManager.GetTableDataPath table_name) fs in
    let meta_exists := exists_ (FilePathManager.GetTableMetaPath table_name) fs in
    if negb data_exists || negb meta_exists then Err Exception else table_files_exist l fs
  end.
Definition EnsureTableFilesExist (c : Catalog) : M FileSystem unit :=
  fs ← get_state; lift (table_files_exist (iteration (table_names_ c)) fs).

(** [Catalog::Catalog]: load the catalog file, or make one. *)
Definition make : M FileSystem Catalog :=
  let catalogpath := FilePathManager.GetSystemCatalogPath in
  fs ← get_state;
  c ← (if exists_ catalogpath fs then
         catalogfs ← lift (FileStream.FileStream (files fs !! catalogpath) false);
         lift (Deserialize (new_deserializer catalogfs)).1
       else PersistToDisk empty;; mret empty);
  EnsureTableFilesExist c;;
  mret c.

(** *** Creating tables and indexes *)
Section create.
Context {D : Type}.

Definition with_fs {A} (m : M FileSystem A) : M (db D) A := fun s =>
  match m (db_fs_ s) with (r, fs) => (r, mk_db (catalog_ s) fs (db_bpm_ s)) end.
Definition set_catalog (c : _) : M (db D) unit := modify (fun s => mk_db c (db_fs_ s) (db_bpm_ s)).

(** [emplace] and [insert]: an entry that is there stays. *)
Definition emplace `{Countable K} {V} (k : K) (v : V) (m : gmap K V) : gmap K V :=
  match m !! k with Some _ => m | None => <[k := v]> m end.

Definition CreateTable (table_name : string) (schema : Schema) : M (db D) (option Z) :=
  s ← get_state;
  let c := catalog_ s in
  if bool_decide (is_Some (table_names_ c !! table_name)) then mret None
  else
    let table_oid := swrap 32 (Z.of_nat (size (tables_ c))) in
    let table_meta := TableMeta.make schema table_name table_oid in
    let c := mk_Catalog (emplace table_oid (Some table_meta) (tables_ c)) (indexes_ c)
               (emplace table_name ∅ (index_names_ c)) (emplace table_name table_oid (table_names_ c)) in
    set_catalog c;;
    with_fs (CreateFileIfNotExists (FilePathManager.GetTableMetaPath table_name));;
    with_fs (CreateFileIfNotExists (FilePathManager.GetTableDataPath table_name));;
    with_fs (PersistToDisk c);;
    mret (Some table_oid).

Context `{PageStore D} `{!HashOrder Z bool} `{!LeafLayout}.

(** The index object is built on the new meta data and the table's, and destroyed at the
    end of its block.  [index_id] is what the memory of the new meta data held. *)
Definition build_index (index_meta : IndexMeta) (table_key : Z) : M (db D) IndexMeta := fun s =>
  match table_at table_key (catalog_ s) with
  | Err e => (Err e, s)
  | Ok table_meta =>
    match GetComparator (column_type_ (key_col_ index_meta)) with
    | Err e => (Err e, s)
    | Ok _ =>
      match BTreeIndex.BTreeIndex (mk_btree (db_bpm_ s) table_meta index_meta (Transaction.make 0 READ_COMMITTED)) with
      | (r, t) =>
        let s' := mk_db (set_table table_key (bt_table_meta_ t) (catalog_ s)) (db_fs_ s) (bt_bpm_ t) in
        (match r with Ok _ => Ok (bt_index_meta_ t) | Err e => Err e end, s')
      end
    end
  end.

Definition CreateIndex (index_id : Z) (index_name table_name : string) (key_col : Column) (is_primary_key : bool)
    (index_type : IndexType) : M (db D) (option Z) :=
  s ← get_state;
  let c := catalog_ s in
  match table_names_ c !! table_name with
  | None => mret None
  | Some table_id =>
    match index_names_ c !! table_name with
    | None => throw UndefinedBehaviour
    | Some table_indexes =>
      if bool_decide (is_Some (table_indexes !! index_name)) then mret None
      else
        let constraint_type := if is_primary_key then PRIMARY else NONE in
        let index_meta := IndexMeta.make index_name table_id key_col constraint_type index_type index_id in
        lift (match tables_ c !! table_id with Some _ => Ok tt | None => Err OutOfRange end);;
        match index_type with
        | BPlusTreeIndex =>
          index_meta ← build_index index_meta table_id;
          s ← get_state;
          let c := catalog_ s in
          let index_oid := swrap 32 (Z.of_nat (size (indexes_ c))) in
          set_catalog (mk_Catalog (tables_ c) (emplace index_oid (Some index_meta) (indexes_ c))
            (<[table_name := emplace index_name index_oid table_indexes]> (index_names_ c)) (table_names_ c));;
          mret (Some index_oid)
        | _ => throw NotImplementedException
        end
    end
  end.
End create.
End orders.
End Catalog.
