(* ===== verification/CatalogFacts.v ===== *)
(** * The catalog on disk: round trip, durability, creation of tables *)
From S2P Require Import Prelude Bytes Streams Serializer Codec CodecFacts Types Value Schema Tuple.
From S2P Require Import Files DiskManager BufferPool PageGuard TableMeta Index BtreePage Transactions BTreeIndex Catalog.
Import BinaryDeserializer BinarySerializer.
Open Scope Z_scope.

(** ** Optional fields, and codecs that return an image of what was written *)
Section images.
Context {St : Type} `{ReadStream St}.
Abbreviation codec A := (codec St A).

(** What is written begins with a field id not below [n]. *)
Definition starts_from (n : Z) (w : W) : Prop :=
  exists id rest, w = Ok (le_bytes 2 id ++ rest) /\ in_u 16 id /\ n <= id.

Lemma starts_property {A} (c : codec A) id x bs : field_ok id -> WriteValue c x = Ok bs ->
  starts_from id (WriteProperty id c x).
Proof.
  intros Hid Hw. exists id, bs. unfold WriteProperty, OnPropertyEnd. rewrite write_begin, Hw, seqW_nop_r by done.
  split_and!; [done|apply Hid|lia].
Qed.

(** An optional field in front of others. *)
Lemma serial_optional {A B} (c : codec A) (f : A -> A) id x dflt is_default w (k : A -> M (deser St) B) y :
  serial_val (WriteValue c x) (Read c) (f x) -> field_ok id -> (is_default = true -> f x = dflt) ->
  starts_from (id + 1) w -> serial w (k (f x)) y ->
  serial (WritePropertyWithDefault false id c x is_default +++ w) (ReadPropertyWithDefault id c dflt ≫= k) y /\
  starts_from id (WritePropertyWithDefault false id c x is_default +++ w).
Proof.
  intros Hc Hid Hd (id' & rest' & -> & Hid' & Hge) Hk. destruct is_default.
  - unfold WritePropertyWithDefault. cbn [negb andb OnOptionalPropertyBegin OnOptionalPropertyEnd]. rewrite !seqW_nop_l. split.
    2:{ exists id', rest'. split_and!; [done|done|lia]. }
    destruct Hk as (bs & Hbs & Hr). apply Ok_inj in Hbs. subst bs. eexists. split; [done|]. intros s lvl rest Hs.
    rewrite <- app_assoc in Hs. destruct (optional_absent_ok c id id' dflt s lvl _ Hid' ltac:(lia) Hs) as (s1 & E & Hs1).
    rewrite (bind_ok _ _ _ _ _ E). rewrite <- Hd by done. apply Hr. by rewrite <- app_assoc.
  - destruct Hc as (bs & Hw & Hr).
    assert (CodecOk (mk_codec (fun y => WriteValue c x) (Read c)) (fun y => y = f x)) as Hok by (intros z ->; by exists bs).
    pose proof (optional_present_ok _ _ false id (f x) dflt false Hok Hid eq_refl eq_refl) as Hopt. split.
    + eapply serial_bind; [exact Hopt|exact Hk].
    + exists id, (bs ++ le_bytes 2 id' ++ rest'). split_and!; [|apply Hid|lia].
      unfold WritePropertyWithDefault. cbn [negb andb OnOptionalPropertyBegin OnOptionalPropertyEnd].
      rewrite write_begin, Hw, seqW_nop_r by done. cbn. by rewrite <- app_assoc.
Qed.

Lemma ptr_image {A} (Ser : A -> W) (Des : M (deser St) A) (f : A -> A) valid p :
  (forall x, valid x -> serial (Ser x) Des (f x)) -> (forall x, p = Some x -> valid x) ->
  serial_val (WriteValue (ptr_c Ser Des) p) (Read (ptr_c Ser Des)) (f <$> p).
Proof.
  intros Hs Hp. destruct p as [x|].
  - apply (ptr_c_ok (fun _ => Ser x) Des (fun y => y = f x) ltac:(intros y ->; by apply Hs, Hp) (Some (f x))).
    by intros y [= ->].
  - by apply (ptr_c_ok Ser Des (fun _ => False) ltac:(done) None).
Qed.

Lemma items_image {A} (c : codec A) (f : A -> A) valid l :
  (forall x, valid x -> serial_val (WriteValue c x) (Read c) (f x)) -> Forall valid l ->
  serial_val (write_items c l) (read_items c (length l)) (f <$> l).
Proof.
  intros Hc. induction 1 as [|x l Hx Hl IH]; [apply serial_val_ret|].
  eapply serial_val_bind; [by apply Hc|]. by eapply serial_val_map.
Qed.

Lemma entry_image {A B} (ca : codec A) (cb : codec B) va vb (f : B -> B) p : CodecOk ca va ->
  (forall x, vb x -> serial_val (WriteValue cb x) (Read cb) (f x)) -> va p.1 -> vb p.2 ->
  serial_val (WriteValue (entry_c ca cb) p) (Read (entry_c ca cb)) (p.1, f p.2).
Proof.
  intros Ha Hb Hva Hvb.
  assert (CodecOk (mk_codec (fun y => WriteValue cb p.2) (Read cb)) (fun y => y = f p.2)) as Hok by (intros z ->; by apply Hb).
  exact (entry_c_ok ca (mk_codec (fun y => WriteValue cb p.2) (Read cb)) va (fun y => y = f p.2) Ha Hok (p.1, f p.2) (conj Hva eq_refl)).
Qed.

Lemma insert_entries_image `{Countable K} {V} `{!HashOrder K V} (f : V -> V) (m : gmap K V) :
  insert_entries ∅ ((fun p => (p.1, f p.2)) <$> iteration m) = f <$> m.
Proof.
  assert (NoDup (iteration m).*1) as Hnd.
  { rewrite (fmap_Permutation fst _ _ (iteration_perm m)). apply NoDup_fst_map_to_list. }
  apply map_eq. intros k. rewrite insert_entries_lookup, lookup_empty.
  2:{ rewrite <- list_fmap_compose. exact Hnd. }
  rewrite lookup_fmap. rewrite (right_id_L None (∪)).
  rewrite <- (list_to_map_to_list m) at 2. rewrite <- (list_to_map_proper _ _ Hnd (iteration_perm m)).
  generalize (iteration m). intros l. induction l as [|[k' v] l IH]; [done|]. cbn.
  destruct (decide (k' = k)) as [->|Hne]; [by rewrite !lookup_insert_eq|by rewrite !lookup_insert_ne].
Qed.

Lemma map_image `{Countable K} {V} `{!HashOrder K V} (ck : codec K) (cv : codec V) vk vv (f : V -> V) m :
  CodecOk ck vk -> (forall x, vv x -> serial_val (WriteValue cv x) (Read cv) (f x)) ->
  count_ok (size m) -> map_Forall (fun k v => vk k /\ vv v) m ->
  serial_val (WriteValue (map_c ck cv) m) (Read (map_c ck cv)) (f <$> m).
Proof.
  intros Hk Hv Hn Hm. cbn [WriteValue Read map_c].
  assert (length (iteration m) = size m) as Hl.
  { rewrite (Permutation_length (iteration_perm m)). apply length_map_to_list. }
  destruct (counted_ok (size m) (write_items (entry_c ck cv) (iteration m))
    (read_items (entry_c ck cv)) ((fun p => (p.1, f p.2)) <$> iteration m) Hn) as (bs & E & Hr).
  { rewrite <- Hl. apply (items_image _ (fun p => (p.1, f p.2)) (fun p => vk p.1 /\ vv p.2)).
    - intros p [Hp1 Hp2]. by apply (entry_image ck cv vk vv).
    - rewrite iteration_perm. apply Forall_forall. intros [k v] Hin. apply Hm. by apply elem_of_map_to_list. }
  exists bs. split; [done|]. intros s lvl rest Hs.
  destruct (Hr s lvl rest Hs) as (s' & E' & Hs'). exists s'. split; [|done].
  revert E'. unfold mbind, M_bind.
  destruct (BinaryDeserializer.OnListBegin s) as [[n|] s1]; [|done].
  destruct (read_items _ _ s1) as [[l|] s2]; [|done]. cbn. intros [= -> ->].
  by rewrite insert_entries_image.
Qed.
End images.

(** ** The catalog round trip *)
Definition ids_valid (m : gmap string Z) : Prop :=
  count_ok (size m) /\ map_Forall (fun n oid => string_valid n /\ in_s 32 oid) m.

Record catalog_valid (c : Catalog) : Prop := {
  cv_tables : count_ok (size (tables_ c)) /\
    map_Forall (fun oid p => in_s 32 oid /\ forall m, p = Some m -> TableMeta.valid m) (tables_ c);
  cv_names : ids_valid (table_names_ c);
  cv_indexes : count_ok (size (indexes_ c)) /\
    map_Forall (fun oid p => in_s 32 oid /\ forall m, p = Some m -> IndexMeta.valid m) (indexes_ c);
  cv_index_names : count_ok (size (index_names_ c)) /\
    map_Forall (fun n m => string_valid n /\ ids_valid m) (index_names_ c)
}.

(** What comes back: all but the fields of columns that are not written. *)
Definition catalog_persisted (c : Catalog) : Catalog :=
  mk_Catalog (fmap (M:=option) TableMeta.persisted <$> tables_ c) (fmap (M:=option) IndexMeta.persisted <$> indexes_ c)
    (index_names_ c) (table_names_ c).

Section catalog_round_trip.
Context {St : Type} `{ReadStream St}.
Context `{!HashOrder Z (option TableMeta)} `{!HashOrder Z (option IndexMeta)}
  `{!HashOrder string Z} `{!HashOrder string (gmap string Z)}.

Lemma tables_image m :
  count_ok (size m) -> map_Forall (fun oid p => in_s 32 oid /\ forall t, p = Some t -> TableMeta.valid t) m ->
  serial_val (WriteValue (Catalog.tables_c (St:=St)) m) (Read Catalog.tables_c) (fmap (M:=option) TableMeta.persisted <$> m).
Proof.
  intros Hn Hm. apply (map_image int32_c TableMeta.table_meta_ptr_c (in_s 32)
    (fun p => forall t, p = Some t -> TableMeta.valid t) (fmap (M:=option) TableMeta.persisted)); [apply _| |done|done].
  intros p Hp. apply (ptr_image _ _ TableMeta.persisted TableMeta.valid); [|done]. apply TableMeta_serial.
Qed.

Lemma indexes_image m :
  count_ok (size m) -> map_Forall (fun oid p => in_s 32 oid /\ forall t, p = Some t -> IndexMeta.valid t) m ->
  serial_val (WriteValue (Catalog.indexes_c (St:=St)) m) (Read Catalog.indexes_c) (fmap (M:=option) IndexMeta.persisted <$> m).
Proof.
  intros Hn Hm. apply (map_image int32_c IndexMeta.index_meta_ptr_c (in_s 32)
    (fun p => forall t, p = Some t -> IndexMeta.valid t) (fmap (M:=option) IndexMeta.persisted)); [apply _| |done|done].
  intros p Hp. apply (ptr_image _ _ IndexMeta.persisted IndexMeta.valid); [|done]. apply IndexMeta_serial.
Qed.

Lemma index_names_image m :
  count_ok (size m) -> map_Forall (fun n ids => string_valid n /\ ids_valid ids) m ->
  serial_val (WriteValue (Catalog.index_names_c (St:=St)) m) (Read Catalog.index_names_c) m.
Proof. intros Hn Hm. by apply (map_c_ok string_c (map_c string_c int32_c) string_valid ids_valid _ _). Qed.

(** An optional map in front of others; a persisted empty map is empty. *)
Lemma serial_optional_map `{Countable K} {V B} (c : codec St (gmap K V)) (f : V -> V) id m `{!Decision (m = ∅)} w
    (k : gmap K V -> M (deser St) B) y :
  serial_val (WriteValue c m) (Read c) (f <$> m) -> field_ok id ->
  starts_from (id + 1) w /\ serial w (k (f <$> m)) y ->
  starts_from id (WritePropertyWithDefault false id c m (bool_decide (m = ∅)) +++ w) /\
  serial (WritePropertyWithDefault false id c m (bool_decide (m = ∅)) +++ w) (ReadPropertyWithDefault id c ∅ ≫= k) y.
Proof.
  intros Hc Hid [Hs Hk]. destruct (serial_optional c (fmap f) id m ∅ (bool_decide (m = ∅)) w k y) as [H1 H2]; [done..| |done|done|done].
  intros ->%bool_decide_eq_true. apply fmap_empty.
Qed.

Lemma Catalog_serial c : catalog_valid c ->
  serial (Catalog.Serialize (St:=St) c) Catalog.Deserialize (catalog_persisted c).
Proof.
  intros [[Ht1 Ht2] Hn [Hi1 Hi2] [Hx1 Hx2]]. unfold Catalog.Serialize, Catalog.Deserialize.
  eapply proj2, (serial_optional_map _ (fmap (M:=option) TableMeta.persisted)); [by apply tables_image|done|].
  apply (serial_optional_map _ (fun x => x)); [|done|].
  { rewrite map_fmap_id. by apply (map_c_ok string_c int32_c string_valid (in_s 32) _ _). }
  apply (serial_optional_map _ (fmap (M:=option) IndexMeta.persisted)); [by apply indexes_image|done|].
  apply (serial_optional_map _ (fun x => x)); [rewrite map_fmap_id; by apply index_names_image|done|].
  split; [by eapply starts_property|]. rewrite <- (seqW_nop_r (WriteProperty _ _ _)).
  eapply serial_bind; [by eapply property_ok; [apply _| |]|]. cbv beta. rewrite bool_decide_true by done.
  exists []. split; [done|]. intros s lvl rest Hs. exists s. split; [|done].
  unfold catalog_persisted. by rewrite !map_fmap_id.
Qed.
End catalog_round_trip.
