(* ===== verification/CatalogThms.v ===== *)
(** * The catalog and its files: durability, and the creation of tables *)
From S2P Require Import Prelude Bytes Streams Serializer Codec CodecFacts Types Value Schema Tuple.
From S2P Require Import Files DiskManager BufferPool BufferPoolProps PageGuard TableMeta Index BtreePage.
From S2P Require Import BtreeThms Transactions BTreeIndex Catalog CatalogFacts.
Import BinaryDeserializer BinarySerializer.
Open Scope Z_scope.

(** ** The layout of a database directory *)
Definition is_dir_path (p : path) : Prop :=
  p = "gavindb"%string \/ p = "gavindb/tables"%string \/ exists n, table_name_ok n /\ p = GetTableDirPath n.
Definition is_file_path (p : path) : Prop :=
  p = FilePathManager.GetSystemCatalogPath \/
  exists n, table_name_ok n /\ (p = FilePathManager.GetTableMetaPath n \/ p = FilePathManager.GetTableDataPath n).

(** Where the program keeps directories there is no file, and the other way round. *)
Record layout_ok (fs : FileSystem) : Prop := {
  dirs_free : forall p, is_dir_path p -> files fs !! p = None;
  files_free : forall p, is_file_path p -> p ∉ dirs fs
}.

(** A table's name cannot reach out of its directory. *)
Lemma table_dir_file n n' file : table_name_ok n -> GetTableDirPath n = (GetTableDirPath n' +:+ "/" +:+ file)%string -> False.
Proof.
  intros [_ Hn] E. apply (f_equal String.list_ascii_of_string) in E. unfold GetTableDirPath in E.
  rewrite !list_ascii_app in E. rewrite <- !app_assoc in E. do 2 apply app_inv_head in E.
  apply Hn. rewrite E. set_solver.
Qed.

Lemma dir_not_file p : is_dir_path p -> ~ is_file_path p.
Proof.
  intros Hd [->|(n' & Hn' & Hf)].
  - destruct Hd as [[=]|[[=]|(n & Hn & E)]]. by unfold GetTableDirPath in E; cbn in E.
  - assert (exists file, p = (GetTableDirPath n' +:+ "/" +:+ file)%string) as (file & ->).
    { rewrite GetTableMetaPath_dir, GetTableDataPath_dir in Hf by done. destruct Hf; eauto. }
    destruct Hd as [E|[E|(n & Hn & E)]]; [..|by eapply (table_dir_file n n' file)]; by unfold GetTableDirPath in E; cbn in E.
Qed.

Lemma parent_of_file p : is_file_path p -> parent_path p <> ""%string /\
  forall q, q ∈ path_prefixes (S (String.length (parent_path p))) (parent_path p) -> is_dir_path q.
Proof.
  intros [->|(n & Hn & Hp)].
  - split; [done|]. intros q Hq. change (q ∈ ["gavindb"%string]) in Hq. apply list_elem_of_singleton in Hq as ->. by left.
  - assert (parent_path p = GetTableDirPath n) as ->.
    { rewrite GetTableMetaPath_dir, GetTableDataPath_dir in Hp by done. destruct Hp as [-> | ->]; apply parent_path_app;
        unfold no_slash; cbn; set_solver. }
    split; [done|]. intros q.
    assert (parent_path (GetTableDirPath n) = "gavindb/tables"%string) as Hpar by (by apply parent_path_app, Hn).
    generalize (String.length (GetTableDirPath n)). intros k Hq. cbn [path_prefixes] in Hq.
    rewrite bool_decide_false in Hq by done. apply elem_of_cons in Hq as [->|Hq]; [right; right; eauto|].
    rewrite Hpar in Hq. destruct k as [|k]; [by apply elem_of_nil in Hq|]. cbn [path_prefixes] in Hq.
    rewrite bool_decide_false in Hq by done. apply elem_of_cons in Hq as [->|Hq]; [by right; left|].
    destruct k as [|k]; [by apply elem_of_nil in Hq|]. cbn [path_prefixes] in Hq.
    change (parent_path "gavindb/tables") with "gavindb"%string in Hq.
    rewrite bool_decide_false in Hq by done. apply elem_of_cons in Hq as [->|Hq]; [by left|].
    destruct k as [|k]; [by apply elem_of_nil in Hq|]. cbn [path_prefixes] in Hq.
    change (parent_path "gavindb") with ""%string in Hq. by rewrite bool_decide_true in Hq by done; apply elem_of_nil in Hq.
Qed.

Lemma create_file p fs : layout_ok fs -> is_file_path p ->
  exists fs', CreateFileIfNotExists p fs = (Ok tt, fs') /\ layout_ok fs' /\
    files fs' = match files fs !! p with Some _ => files fs | None => <[p := []]> (files fs) end.
Proof.
  intros [Hd Hf] Hp. destruct (parent_of_file p Hp) as [Hne Hpre].
  destruct (CreateFileIfNotExists_spec p fs) as (ds & E & Hds); [done|by apply Hf| | |].
  { intros Hin%Hpre. by apply (dir_not_file p). }
  { intros q Hq. by apply Hd, Hpre. }
  eexists. split; [exact E|]. split; [|done]. split; cbn [files dirs].
  - intros q Hq. assert (q <> p) by (intros ->; by apply (dir_not_file p)).
    destruct (files fs !! p); [by apply Hd|]. rewrite lookup_insert_ne by done. by apply Hd.
  - intros q Hq Hin. apply elem_of_union in Hin as [Hin|Hin]; [|by apply (Hf q)]. by apply (dir_not_file q); [apply Hpre, Hds|].
Qed.

(** ** Writing the catalog *)
Lemma write_file_spec p w bs old fs : w = Ok bs -> files fs !! p = Some old ->
  Catalog.write_file p w fs =
    (Ok tt, mk_FileSystem (<[p := bs ++ drop (length bs) old]> (files fs)) (dirs fs)).
Proof.
  intros -> E. unfold Catalog.write_file, get_state, lift, modify, mbind, M_bind. rewrite E. done.
Qed.

(** The files of [fs'] are those of [fs]; only [changed] ones may have other contents. *)
Definition keeps (changed : path -> Prop) (fs fs' : FileSystem) : Prop :=
  dirs fs' = dirs fs /\ (forall p, is_Some (files fs' !! p) <-> is_Some (files fs !! p)) /\
  forall p, ~ changed p -> files fs' !! p = files fs !! p.
Definition is_meta_path (p : path) : Prop := exists n, table_name_ok n /\ p = FilePathManager.GetTableMetaPath n.

Lemma keeps_refl P fs : keeps P fs fs.
Proof. done. Qed.
Lemma keeps_trans (P Q : path -> Prop) f1 f2 f3 : (forall p, P p -> Q p) -> keeps P f1 f2 -> keeps Q f2 f3 -> keeps Q f1 f3.
Proof.
  intros HPQ (Hd & Hs & Hf) (Hd' & Hs' & Hf'). split_and!; [congruence|intros p; by rewrite Hs'|].
  intros p Hp. rewrite Hf' by done. apply Hf. intros ?%HPQ. done.
Qed.
Lemma keeps_write P p c fs : P p -> is_Some (files fs !! p) -> keeps P fs (mk_FileSystem (<[p := c]> (files fs)) (dirs fs)).
Proof.
  intros Hp Hs. split_and!; [done| |]; intros q; cbn [files].
  - destruct (decide (q = p)) as [->|Hne]; [by rewrite lookup_insert_eq|by rewrite lookup_insert_ne].
  - intros Hq. rewrite lookup_insert_ne; [done|]. by intros ->.
Qed.
Lemma keeps_layout P fs fs' : keeps P fs fs' -> layout_ok fs -> layout_ok fs'.
Proof.
  intros (Hd & Hs & _) [Hdir Hfile]. split; [|by rewrite Hd]. intros p Hp%Hdir.
  rewrite eq_None_not_Some, Hs, Hp. by intros [].
Qed.

Definition table_stored (fs : FileSystem) (ptr : option TableMeta) : Prop :=
  exists m, ptr = Some m /\ TableMeta.valid m /\ table_name_ok (name_ m) /\
    is_Some (files fs !! FilePathManager.GetTableMetaPath (name_ m)).

Lemma persist_tables_spec l fs : Forall (fun e => table_stored fs e.2) l ->
  exists fs', Catalog.persist_tables l fs = (Ok tt, fs') /\ keeps is_meta_path fs fs'.
Proof.
  revert fs. induction l as [|[oid ptr] l IH]; intros fs Hl; [by exists fs|].
  apply Forall_cons in Hl as [(m & Em & Hm & Hn & [old Hold]) Hl]. cbn [snd] in Em. subst ptr.
  destruct (TableMeta_serial (St:=FileStream.t) m Hm) as (bs & Hbs & _).
  cbn [Catalog.persist_tables Catalog.deref]. rewrite (bind_ok (lift (Ok m)) _ fs m fs) by done.
  rewrite (bind_ok _ _ _ _ _ (write_file_spec _ _ _ _ _ Hbs Hold)).
  set (fs1 := mk_FileSystem _ _). assert (keeps is_meta_path fs fs1) as Hk by (apply keeps_write; [by exists (name_ m)|by eexists]).
  destruct (IH fs1) as (fs' & E & Hk').
  { eapply Forall_impl; [exact Hl|]. intros [? ?] (m' & ? & ? & ? & ?). exists m'. split_and!; try done. by apply Hk. }
  exists fs'. split; [exact E|]. by eapply keeps_trans.
Qed.

Definition catalog_path : path := FilePathManager.GetSystemCatalogPath.
Definition is_catalog_file (p : path) : Prop := p = catalog_path \/ is_meta_path p.

Lemma data_not_catalog_file n : table_name_ok n -> ~ is_catalog_file (FilePathManager.GetTableDataPath n).
Proof.
  intros Hn [E|(n' & Hn' & E)]; [by eapply GetTableDataPath_not_catalog|].
  rewrite GetTableDataPath_dir, GetTableMetaPath_dir in E by done.
  apply (f_equal String.list_ascii_of_string) in E. rewrite !(list_ascii_app (GetTableDirPath _)) in E.
  by apply app_inj_2 in E as [_ E].
Qed.
Lemma meta_not_catalog p : is_meta_path p -> p <> catalog_path.
Proof. intros (n & Hn & ->). rewrite GetTableMetaPath_dir by done. done. Qed.

Section persistence.
Context `{!HashOrder Z (option TableMeta)} `{!HashOrder Z (option IndexMeta)}
  `{!HashOrder string Z} `{!HashOrder string (gmap string Z)}.

(** [keeps], after the catalog file was made where there was none. *)
Lemma PersistToDisk_spec c fs : layout_ok fs -> catalog_valid c ->
  map_Forall (fun _ ptr => table_stored fs ptr) (tables_ c) ->
  exists fs' bs tail, Catalog.PersistToDisk c fs = (Ok tt, fs') /\ layout_ok fs' /\
    Catalog.Serialize (St:=FileStream.t) c = Ok bs /\ files fs' !! catalog_path = Some (bs ++ tail) /\
    (forall p, is_Some (files fs !! p) -> is_Some (files fs' !! p)) /\
    forall p, ~ is_catalog_file p -> files fs' !! p = files fs !! p.
Proof.
  intros Hl Hc Ht. destruct (Catalog_serial (St:=FileStream.t) c Hc) as (bs & Hbs & _).
  destruct (create_file catalog_path fs Hl) as (fs1 & E1 & Hl1 & Hf1); [by left|].
  assert (forall p, is_Some (files fs !! p) -> is_Some (files fs1 !! p)) as Hs1.
  { intros p Hp. rewrite Hf1. destruct (files fs !! catalog_path) eqn:E; [done|].
    rewrite lookup_insert_ne; [done|]. intros <-. rewrite E in Hp. by destruct Hp. }
  assert (is_Some (files fs1 !! catalog_path)) as [old Hold].
  { rewrite Hf1. destruct (files fs !! catalog_path) eqn:E; [by rewrite E|by rewrite lookup_insert_eq]. }
  pose proof (write_file_spec catalog_path _ bs old fs1 Hbs Hold) as E2. set (fs2 := mk_FileSystem _ _) in E2.
  assert (keeps is_catalog_file fs1 fs2) as Hk2 by (apply keeps_write; [by left|by eexists]).
  destruct (persist_tables_spec (iteration (tables_ c)) fs2) as (fs3 & E3 & Hk3).
  { rewrite iteration_perm. apply Forall_forall. intros [oid ptr] Hin%elem_of_map_to_list.
    destruct (Ht _ _ Hin) as (m & ? & ? & ? & ?). exists m. split_and!; try done. by apply Hk2, Hs1. }
  exists fs3, bs, (drop (length bs) old). split_and!.
  - unfold Catalog.PersistToDisk. rewrite (bind_ok _ _ _ _ _ E1), (bind_ok _ _ _ _ _ E2). exact E3.
  - by eapply keeps_layout, keeps_layout, Hl1.
  - done.
  - rewrite (proj2 (proj2 Hk3)) by (by intros ?%meta_not_catalog). apply lookup_insert_eq.
  - intros p Hp. by apply Hk3, Hk2, Hs1.
  - intros p Hp. rewrite (proj2 (proj2 Hk3)) by (intros ?; by apply Hp; right). rewrite (proj2 (proj2 Hk2)) by done.
    rewrite Hf1. destruct (files fs !! catalog_path); [done|]. rewrite lookup_insert_ne; [done|].
    intros <-. apply Hp. by left.
Qed.

(** Every table has its two files. *)
Definition on_disk (c : Catalog) (fs : FileSystem) : Prop :=
  forall n, is_Some (table_names_ c !! n) ->
    is_Some (files fs !! FilePathManager.GetTableMetaPath n) /\ is_Some (files fs !! FilePathManager.GetTableDataPath n).

Lemma EnsureTableFilesExist_ok c fs : on_disk c fs -> Catalog.EnsureTableFilesExist c fs = (Ok tt, fs).
Proof.
  intros Hd. unfold Catalog.EnsureTableFilesExist, get_state, lift, mbind, M_bind.
  assert (Forall (fun e => is_Some (table_names_ c !! e.1)) (iteration (table_names_ c))) as Hall.
  { rewrite iteration_perm. apply Forall_forall. intros [n oid] Hin%elem_of_map_to_list. by exists oid. }
  assert (Catalog.table_files_exist (iteration (table_names_ c)) fs = Ok tt) as ->; [|done].
  induction Hall as [|[n oid] l Hn _ IH]; [done|]. destruct (Hd n Hn) as [Hm Hdat]. cbn [Catalog.table_files_exist].
  unfold exists_. rewrite (bool_decide_true _ Hm), (bool_decide_true _ Hdat). exact IH.
Qed.

(** Opening a database whose catalog file begins with a written catalog. *)
Lemma load_catalog c fs bs tail : catalog_valid c -> Catalog.Serialize (St:=FileStream.t) c = Ok bs ->
  files fs !! catalog_path = Some (bs ++ tail) -> on_disk c fs ->
  Catalog.make fs = (Ok (catalog_persisted c), fs).
Proof.
  intros Hc Hbs Hf Hd. destruct (Catalog_serial (St:=FileStream.t) c Hc) as (bs' & Hbs' & Hr).
  rewrite Hbs in Hbs'. apply Ok_inj in Hbs'. subst bs'.
  set (stream := FileStream.mk (bs ++ tail) 0 false true).
  destruct (Hr (new_deserializer stream) 0 tail) as (s' & E & _).
  { apply ready_at_field. split_and!; try done. split; [done|cbn; lia]. }
  unfold Catalog.make, get_state. fold catalog_path.
  rewrite (bind_ok (fun s => (Ok s, s)) _ fs fs fs) by done.
  assert (exists_ catalog_path fs = true) as -> by (unfold exists_; rewrite Hf; by rewrite bool_decide_true).
  assert ((lift (FileStream.FileStream (files fs !! catalog_path) false) ≫= fun catalogfs =>
    lift (Catalog.Deserialize (new_deserializer catalogfs)).1) fs = (Ok (catalog_persisted c), fs)) as E1.
  { rewrite Hf. cbn [FileStream.FileStream]. fold stream. rewrite (bind_ok _ _ fs stream fs) by done.
    unfold lift. by rewrite E. }
  rewrite (bind_ok _ _ _ _ _ E1).
  by rewrite (bind_ok _ _ _ _ _ (EnsureTableFilesExist_ok (catalog_persisted c) fs Hd)).
Qed.
End persistence.

(** ** Catalogs the program can build *)
Record catalog_wf (c : Catalog) : Prop := {
  wf_tables : forall oid ptr, tables_ c !! oid = Some ptr -> 0 <= oid < Z.of_nat (size (tables_ c)) /\
    exists m, ptr = Some m /\ TableMeta.valid m /\ table_name_ok (name_ m) /\ table_names_ c !! name_ m = Some oid /\
    table_oid_ m = oid;
  wf_names : forall n oid, table_names_ c !! n = Some oid -> string_valid n /\
    exists m, tables_ c !! oid = Some (Some m) /\ name_ m = n;
  wf_index_names : forall n, is_Some (index_names_ c !! n) <-> is_Some (table_names_ c !! n);
  wf_names_size : size (table_names_ c) = size (tables_ c);
  wf_index_names_size : size (index_names_ c) = size (tables_ c);
  wf_size : Z.of_nat (size (tables_ c)) < 2 ^ 31;
  wf_valid : catalog_valid c
}.

Lemma empty_wf : catalog_wf Catalog.empty.
Proof.
  split; cbn [tables_ table_names_ index_names_ Catalog.empty]; rewrite ?map_size_empty; try done; try (intros ? ? ?%lookup_empty_Some; done).
  - intros n. by rewrite !lookup_empty.
Qed.

Lemma wf_stored c fs : catalog_wf c -> on_disk c fs ->
  map_Forall (fun _ ptr => table_stored fs ptr) (tables_ c).
Proof.
  intros Hc Hd oid ptr E. destruct (wf_tables c Hc _ _ E) as [_ (m & -> & Hv & Hn & Em & _)].
  exists m. split_and!; try done. apply (Hd (name_ m)). by exists oid.
Qed.

(** The catalog with one table more. *)
Definition added (n : string) (schema : Schema) (c : Catalog) : Catalog :=
  let oid := Z.of_nat (size (tables_ c)) in
  mk_Catalog (<[oid := Some (TableMeta.make schema n oid)]> (tables_ c)) (indexes_ c)
    (<[n := ∅]> (index_names_ c)) (<[n := oid]> (table_names_ c)).

Lemma fresh_oid c : catalog_wf c -> tables_ c !! Z.of_nat (size (tables_ c)) = None.
Proof. intros Hc. apply eq_None_not_Some. intros [ptr Hptr]. apply (wf_tables c Hc) in Hptr. lia. Qed.

Lemma added_valid n schema c : catalog_wf c -> table_names_ c !! n = None -> string_valid n -> Schema.valid schema ->
  Z.of_nat (size (tables_ c)) < 2 ^ 31 - 1 -> catalog_valid (added n schema c).
Proof.
  intros Hc Hn Hs Hsch Hroom. pose proof (fresh_oid c Hc) as Hf.
  destruct Hc as [_ _ Hix Hsz1 Hsz2 _ [[Ht1 Ht2] [Hn1 Hn2] Hi [Hx1 Hx2]]].
  assert (index_names_ c !! n = None) as Hxn by (rewrite eq_None_not_Some, Hix, Hn; by intros []).
  split; cbn [tables_ table_names_ indexes_ index_names_ added]; [..|done|].
  - split; [unfold count_ok; rewrite map_size_insert_None by done; width|].
    apply map_Forall_insert_2; [|done]. split; [width|]. intros m [= <-].
    split_and!; try done; cbn [table_oid_ last_table_data_page_id_ last_table_heap_data_page_id_ tuple_count_ TableMeta.make];
      unfold INVALID_PAGE_ID; width.
  - split; [unfold count_ok; rewrite map_size_insert_None by done; width|].
    apply map_Forall_insert_2; [|done]. split; [done|width].
  - split; [unfold count_ok; rewrite map_size_insert_None by done; width|].
    apply map_Forall_insert_2; [|done]. split; [done|]. split; [by rewrite map_size_empty|apply map_Forall_empty].
Qed.

Lemma added_wf n schema c : catalog_wf c -> table_names_ c !! n = None -> table_name_ok n -> string_valid n ->
  Schema.valid schema -> Z.of_nat (size (tables_ c)) < 2 ^ 31 - 1 -> catalog_wf (added n schema c).
Proof.
  intros Hc Hn Hok Hs Hsch Hroom. pose proof (added_valid n schema c Hc Hn Hs Hsch Hroom) as Hv.
  pose proof (fresh_oid c Hc) as Hf.
  assert (index_names_ c !! n = None) as Hxn by (rewrite eq_None_not_Some, (wf_index_names c Hc), Hn; by intros []).
  split; [..|exact Hv]; cbn [tables_ table_names_ indexes_ index_names_ added];
    rewrite ?map_size_insert_None by done; [..|by rewrite (wf_names_size c Hc)|by rewrite (wf_index_names_size c Hc)|width].
  - intros oid ptr [[<- <-]|[Hne E]]%lookup_insert_Some.
    + split; [lia|]. eexists. split; [done|]. split; [|split; [done|split; [apply lookup_insert_eq|done]]].
      destruct Hv as [[_ Hv] _ _ _]. eapply (Hv (Z.of_nat (size (tables_ c)))); [apply lookup_insert_eq|done].
    + destruct (wf_tables c Hc _ _ E) as [Hr (m & -> & Hm & Hnm & Em & Ho)]. split; [lia|]. exists m. split_and!; try done.
      rewrite lookup_insert_ne; [done|]. congruence.
  - intros n' oid [[<- <-]|[Hne E]]%lookup_insert_Some.
    + split; [done|]. eexists. split; [apply lookup_insert_eq|done].
    + destruct (wf_names c Hc _ _ E) as [Hs' (m & Em & <-)]. split; [done|]. exists m. split; [|done].
      rewrite lookup_insert_ne; [done|]. intros <-. congruence.
  - intros n'. rewrite !lookup_insert_is_Some, (wf_index_names c Hc). done.
Qed.

Lemma added_lookup n schema c n' : catalog_wf c ->
  Catalog.GetTableByName n' (added n schema c) =
    if decide (n' = n) then Ok (TableMeta.make schema n (Z.of_nat (size (tables_ c)))) else Catalog.GetTableByName n' c.
Proof.
  intros Hc. unfold Catalog.GetTableByName, Catalog.table_key, Catalog.table_at. cbn [added tables_ table_names_].
  destruct (decide (n' = n)) as [->|Hne].
  - rewrite lookup_insert_eq. cbn [mbind res_bind]. by rewrite lookup_insert_eq.
  - rewrite lookup_insert_ne by done. destruct (table_names_ c !! n') as [oid|] eqn:E; [|done]. cbn [mbind res_bind].
    destruct (wf_names c Hc _ _ E) as [_ (m & Em & _)]. rewrite lookup_insert_ne; [done|].
    intros <-. by rewrite fresh_oid in Em.
Qed.

(** Meta data written through a reference: the table keeps its name and number. *)
Lemma set_table_wf oid m m' c : catalog_wf c -> tables_ c !! oid = Some (Some m) ->
  name_ m' = name_ m -> table_oid_ m' = table_oid_ m -> TableMeta.valid m' -> catalog_wf (Catalog.set_table oid m' c).
Proof.
  intros Hc Hm Hn Ho Hv. assert (size (<[oid := Some m']> (tables_ c)) = size (tables_ c)) as Hsz by by apply map_size_insert_Some.
  destruct (wf_tables c Hc _ _ Hm) as [Hr (m0 & [= <-] & _ & Hok & Hnm & Hoid)].
  split; cbn [Catalog.set_table tables_ table_names_ index_names_]; rewrite ?Hsz; try apply Hc.
  - intros oid' ptr [[<- <-]|[Hne E]]%lookup_insert_Some; [|by apply (wf_tables c Hc)]. split; [done|].
    exists m'. rewrite Hn, Ho. by split_and!.
  - intros n oid' E. destruct (wf_names c Hc _ _ E) as [Hs (m1 & E1 & <-)]. split; [done|].
    destruct (decide (oid' = oid)) as [->|Hne]; [|exists m1; by rewrite lookup_insert_ne].
    exists m'. rewrite lookup_insert_eq. split; [done|]. rewrite Hn. rewrite Hm in E1. by injection E1 as ->.
  - destruct (wf_valid c Hc) as [[Ht1 Ht2] H2 H3 H4]. split; [|done..]. cbn [Catalog.set_table tables_]. rewrite Hsz. split; [done|].
    apply map_Forall_insert_2; [|done]. split; [by apply (Ht2 _ _ Hm)|]. by intros m1 [= <-].
Qed.

Section creation.
Context `{!HashOrder Z (option TableMeta)} `{!HashOrder Z (option IndexMeta)}
  `{!HashOrder string Z} `{!HashOrder string (gmap string Z)} {D : Type}.

Lemma emplace_new `{Countable K} {V} (k : K) (v : V) m : m !! k = None -> Catalog.emplace k v m = <[k := v]> m.
Proof. unfold Catalog.emplace. by intros ->. Qed.

(** [CreateTable] of a new name, up to the point where the files are made. *)
Lemma CreateTable_new n schema (s : db D) : let c := catalog_ s in
  catalog_wf c -> table_names_ c !! n = None ->
  Catalog.CreateTable n schema s =
    (Catalog.set_catalog (added n schema c);;
     Catalog.with_fs (CreateFileIfNotExists (FilePathManager.GetTableMetaPath n));;
     Catalog.with_fs (CreateFileIfNotExists (FilePathManager.GetTableDataPath n));;
     Catalog.with_fs (Catalog.PersistToDisk (added n schema c));;
     mret (Some (Z.of_nat (size (tables_ c))))) s.
Proof.
  cbv zeta. intros Hc Hn. unfold Catalog.CreateTable. rewrite (bind_ok get_state _ s s s) by done.
  rewrite Hn, bool_decide_false by (by intros []).
  rewrite swrap_id by (pose proof (wf_size _ Hc); width).
  rewrite !emplace_new; [done|..|by apply fresh_oid]; [done|].
  rewrite eq_None_not_Some, (wf_index_names _ Hc), Hn. by intros [].
Qed.

Lemma with_fs_ok {A} (m : M FileSystem A) (s : db D) a fs : m (db_fs_ s) = (Ok a, fs) ->
  Catalog.with_fs m s = (Ok a, mk_db (catalog_ s) fs (db_bpm_ s)).
Proof. intros E. unfold Catalog.with_fs. by rewrite E. Qed.

(** The two files of a table. *)
Lemma create_table_files n fs : layout_ok fs -> table_name_ok n ->
  exists fs1 fs2, CreateFileIfNotExists (FilePathManager.GetTableMetaPath n) fs = (Ok tt, fs1) /\
    CreateFileIfNotExists (FilePathManager.GetTableDataPath n) fs1 = (Ok tt, fs2) /\ layout_ok fs2 /\
    is_Some (files fs2 !! FilePathManager.GetTableMetaPath n) /\ is_Some (files fs2 !! FilePathManager.GetTableDataPath n) /\
    forall p c, files fs !! p = Some c -> files fs2 !! p = Some c.
Proof.
  intros Hl Hn. destruct (create_file (FilePathManager.GetTableMetaPath n) fs) as (fs1 & E1 & Hl1 & Hf1); [done|right; eauto|].
  destruct (create_file (FilePathManager.GetTableDataPath n) fs1) as (fs2 & E2 & Hl2 & Hf2); [done|right; eauto|].
  assert (forall (fs : FileSystem) q p c, files fs !! p = Some c ->
    match files fs !! q with Some _ => files fs | None => <[q := []]> (files fs) end !! p = Some c) as Hkeep.
  { intros fs0 q p c E. destruct (files fs0 !! q) eqn:Eq; [done|]. rewrite lookup_insert_ne; [done|]. intros ->. congruence. }
  assert (forall (fs : FileSystem) q,
    is_Some (match files fs !! q with Some _ => files fs | None => <[q := []]> (files fs) end !! q)) as Hmade.
  { intros fs0 q. destruct (files fs0 !! q) eqn:Eq; [by rewrite Eq|by rewrite lookup_insert_eq]. }
  exists fs1, fs2. split_and!; try done.
  - destruct (Hmade fs (FilePathManager.GetTableMetaPath n)) as [c Ec]. rewrite <- Hf1 in Ec. rewrite Hf2. exists c. by apply Hkeep.
  - rewrite Hf2. apply Hmade.
  - intros p c E. rewrite Hf2. apply Hkeep. rewrite Hf1. by apply Hkeep.
Qed.

(** [CreateTable] of a name that is taken, and of a new one. *)
Lemma CreateTable_taken n schema (s : db D) oid : table_names_ (catalog_ s) !! n = Some oid ->
  Catalog.CreateTable n schema s = (Ok None, s).
Proof.
  intros Hn. unfold Catalog.CreateTable. rewrite (bind_ok get_state _ s s s) by done. by rewrite Hn, bool_decide_true.
Qed.

Lemma CreateTable_adds n schema (s : db D) : let c := added n schema (catalog_ s) in
  catalog_wf (catalog_ s) -> layout_ok (db_fs_ s) -> on_disk (catalog_ s) (db_fs_ s) -> table_names_ (catalog_ s) !! n = None ->
  table_name_ok n -> string_valid n -> Schema.valid schema -> Z.of_nat (size (tables_ (catalog_ s))) < 2 ^ 31 - 1 ->
  exists fs, Catalog.CreateTable n schema s = (Ok (Some (Z.of_nat (size (tables_ (catalog_ s))))), mk_db c fs (db_bpm_ s)) /\
    catalog_wf c /\ layout_ok fs /\ on_disk c fs /\
    (forall n' data, table_name_ok n' -> files (db_fs_ s) !! FilePathManager.GetTableDataPath n' = Some data ->
      files fs !! FilePathManager.GetTableDataPath n' = Some data) /\
    Catalog.make fs = (Ok (catalog_persisted c), fs).
Proof.
  intros c Hc Hl Hd Hn Hok Hs Hsch Hroom.
  assert (catalog_wf c) as Hc' by by apply added_wf.
  destruct (create_table_files n _ Hl Hok) as (fs1 & fs2 & E1 & E2 & Hl2 & Hm & Hdat & Hkeep).
  assert (on_disk c fs2) as Hd2.
  { intros n' Hn'. cbn [table_names_ added c] in Hn'. apply lookup_insert_is_Some' in Hn' as [<-|Hn']; [done|]. destruct (Hd _ Hn') as [[? ?] [? ?]]. split; eexists; by apply Hkeep. }
  destruct (PersistToDisk_spec c fs2 Hl2 (wf_valid c Hc') (wf_stored c fs2 Hc' Hd2)) as (fs3 & bs & tail & E3 & Hl3 & Hbs & Hcat & Hs3 & Hf3).
  assert (on_disk c fs3) as Hd3 by (intros n' [? ?]%Hd2; split; by apply Hs3).
  exists fs3. split_and!; try done.
  - rewrite CreateTable_new by done. fold c. rewrite (bind_ok _ _ _ tt (mk_db c (db_fs_ s) (db_bpm_ s))) by done.
    rewrite (bind_ok _ _ _ _ _ (with_fs_ok _ (mk_db c (db_fs_ s) (db_bpm_ s)) _ _ E1)).
    rewrite (bind_ok _ _ _ _ _ (with_fs_ok _ (mk_db c fs1 (db_bpm_ s)) _ _ E2)).
    by rewrite (bind_ok _ _ _ _ _ (with_fs_ok _ (mk_db c fs2 (db_bpm_ s)) _ _ E3)).
  - intros n' data Hn' E. rewrite Hf3 by by apply data_not_catalog_file. by apply Hkeep.
  - by eapply load_catalog; [apply Hc'|..].
Qed.

(** C16: CreateTable answers with no id and changes nothing when the name is taken.
    Otherwise it returns the next id, the new table is found under its name, the other
    tables stay, no data file that exists changes, and the constructor of Catalog, run
    on the files it leaves, returns the same catalog but for the column fields that are
    not stored. *)
Theorem CreateTable_durable n schema (s : db D) :
  catalog_wf (catalog_ s) -> layout_ok (db_fs_ s) -> on_disk (catalog_ s) (db_fs_ s) ->
  table_name_ok n -> string_valid n -> Schema.valid schema -> Z.of_nat (size (tables_ (catalog_ s))) < 2 ^ 31 - 1 ->
  exists r s', Catalog.CreateTable n schema s = (Ok r, s') /\
    match table_names_ (catalog_ s) !! n with
    | Some _ => r = None /\ s' = s
    | None =>
      r = Some (Z.of_nat (size (tables_ (catalog_ s)))) /\
      catalog_wf (catalog_ s') /\ layout_ok (db_fs_ s') /\ on_disk (catalog_ s') (db_fs_ s') /\ db_bpm_ s' = db_bpm_ s /\
      (forall n', Catalog.GetTableByName n' (catalog_ s') =
        if decide (n' = n) then Ok (TableMeta.make schema n (Z.of_nat (size (tables_ (catalog_ s)))))
        else Catalog.GetTableByName n' (catalog_ s)) /\
      (forall n' data, table_name_ok n' -> files (db_fs_ s) !! FilePathManager.GetTableDataPath n' = Some data ->
        files (db_fs_ s') !! FilePathManager.GetTableDataPath n' = Some data) /\
      Catalog.make (db_fs_ s') = (Ok (catalog_persisted (catalog_ s')), db_fs_ s')
    end.
Proof.
  intros Hc Hl Hd Hok Hs Hsch Hroom. destruct (table_names_ (catalog_ s) !! n) eqn:Hn.
  { exists None, s. split; [by eapply CreateTable_taken|done]. }
  destruct (CreateTable_adds n schema s Hc Hl Hd Hn Hok Hs Hsch Hroom) as (fs & E & Hc' & Hl' & Hd' & Hkeep & Hload).
  eexists _, _. split; [exact E|]. split_and!; try done. intros n'. by apply added_lookup.
Qed.

(** On a directory without a catalog file the constructor of Catalog makes one, and
    opening the directory again gives the same empty catalog. *)
Theorem Catalog_first_start fs : layout_ok fs -> files fs !! catalog_path = None ->
  exists fs', Catalog.make fs = (Ok Catalog.empty, fs') /\ layout_ok fs' /\
    Catalog.make fs' = (Ok Catalog.empty, fs').
Proof.
  intros Hl Hf. pose proof empty_wf as He. assert (forall fs, on_disk Catalog.empty fs) as Hd by (intros fs0 n [? ?]; done).
  destruct (PersistToDisk_spec Catalog.empty fs Hl (wf_valid _ He) (wf_stored _ _ He (Hd fs))) as (fs' & bs & tail & E & Hl' & Hbs & Hcat & _).
  pose proof (load_catalog Catalog.empty fs' bs tail (wf_valid _ He) Hbs Hcat (Hd fs')) as Hload.
  exists fs'. split_and!; [|done|rewrite Hload; f_equal].
  unfold Catalog.make. rewrite (bind_ok get_state _ fs fs fs) by done. fold catalog_path.
  assert (exists_ catalog_path fs = false) as ->.
  { unfold exists_. rewrite Hf, (bool_decide_false (is_Some None)) by by intros []. apply bool_decide_false.
    apply (files_free fs Hl). by left. }
  assert ((Catalog.PersistToDisk Catalog.empty;; mret Catalog.empty) fs = (Ok Catalog.empty, fs')) as E1.
  { by rewrite (bind_ok _ _ _ _ _ E). }
  rewrite (bind_ok _ _ _ _ _ E1). by rewrite (bind_ok _ _ _ _ _ (EnsureTableFilesExist_ok _ fs' (Hd fs'))).
Qed.
End creation.

(** ** Indexes are not written *)
Section index_creation.
Context `{!HashOrder Z (option TableMeta)} `{!HashOrder Z (option IndexMeta)}
  `{!HashOrder string Z} `{!HashOrder string (gmap string Z)} {D : Type} `{PageStore D} `{!HashOrder Z bool} `{!LeafLayout}.

Lemma build_index_fs index_meta key (s : db D) r s' : Catalog.build_index index_meta key s = (r, s') ->
  db_fs_ s' = db_fs_ s /\ index_names_ (catalog_ s') = index_names_ (catalog_ s) /\
  indexes_ (catalog_ s') = indexes_ (catalog_ s) /\ table_names_ (catalog_ s') = table_names_ (catalog_ s).
Proof.
  unfold Catalog.build_index. destruct (Catalog.table_at key (catalog_ s)); [|by intros [= _ <-]].
  destruct (GetComparator _); [|by intros [= _ <-]].
  destruct (BTreeIndex.BTreeIndex _) as [r0 t]. by intros [= _ <-].
Qed.

(** C36: CreateIndex writes no file, whatever it answers; when it creates an index, the
    catalog in memory knows the index under its name, and the constructor of Catalog,
    run on the files, returns what it returned before the call. *)
Theorem CreateIndex_not_persisted index_id index_name table_name key_col is_primary_key ty (s : db D) oid s' :
  Catalog.CreateIndex index_id index_name table_name key_col is_primary_key ty s = (Ok (Some oid), s') ->
  db_fs_ s' = db_fs_ s /\ Catalog.make (db_fs_ s') = Catalog.make (db_fs_ s) /\
  (index_names_ (catalog_ s) !! table_name ≫= lookup index_name) = None /\
  (index_names_ (catalog_ s') !! table_name ≫= lookup index_name) = Some oid /\ is_Some (indexes_ (catalog_ s') !! oid) /\
  oid = swrap 32 (Z.of_nat (size (indexes_ (catalog_ s)))).
Proof.
  unfold Catalog.CreateIndex. rewrite (bind_ok get_state _ s s s) by done.
  destruct (table_names_ (catalog_ s) !! table_name) as [tid|]; [|done].
  destruct (index_names_ (catalog_ s) !! table_name) as [ids|] eqn:Ei; [|done].
  case_bool_decide as Hnew; [done|]. destruct (tables_ (catalog_ s) !! tid); [|done].
  rewrite (bind_ok (lift (Ok tt)) _ s tt s) by done. destruct ty; try done.
  intros (m & s1 & E & Hs)%bind_inv. apply build_index_fs in E as (Hfs & Hix & Hi & _).
  revert Hs. unfold get_state, Catalog.set_catalog, modify, mbind, M_bind. cbn. rewrite Hfs, Hi.
  intros [= <- <-]. cbn [catalog_ db_fs_ index_names_ indexes_]. rewrite Hix, lookup_insert_eq. cbn.
  apply eq_None_not_Some in Hnew. unfold Catalog.emplace. rewrite Hnew, lookup_insert_eq.
  split_and!; try done. destruct (indexes_ (catalog_ s) !! _) eqn:Eo; [by rewrite Eo|by rewrite lookup_insert_eq].
Qed.
End index_creation.

(** ** A database directory *)
Definition any_order {K V} `{Countable K} : HashOrder K V.
Proof. refine {| iteration m := map_to_list m |}. done. Defined.
#[local] Existing Instance any_order.
#[local] Existing Instance memory_store.
#[local] Existing Instance packed_leaf.

Definition no_files : FileSystem := mk_FileSystem ∅ ∅.
Lemma no_files_layout : layout_ok no_files.
Proof. by split. Qed.

Definition key_column : Column := mk_Column "id" INTEGER 4 0 0 false.
Definition key_schema : Schema := mk_Schema [key_column] [] 4.
Lemma key_schema_valid : Schema.valid key_schema.
Proof.
  unfold Schema.valid, count_ok. cbn [columns_ uninlined_columns_ tuple_inline_part_storage_size_ key_schema length].
  split; [lia|]. split; [|split; [lia|split; [constructor|width]]].
  apply Forall_cons_2; [|constructor]. unfold Column.valid, string_valid. cbn. split; [lia|]. split; [done|]. split; width.
Qed.

Definition empty_db : db (gmap PageId (list Byte.byte)) := mk_db Catalog.empty no_files (BufferPool.BufferPool 4 ∅).

Lemma t_name_ok : table_name_ok "t".
Proof. split; [done|]. unfold no_slash; cbn. set_solver. Qed.

Lemma Catalog_first_start_witness : exists fs', Catalog.make no_files = (Ok Catalog.empty, fs') /\
  layout_ok fs' /\ Catalog.make fs' = (Ok Catalog.empty, fs').
Proof. exact (Catalog_first_start no_files no_files_layout eq_refl). Defined.

Lemma CreateTable_durable_witness : exists r s', Catalog.CreateTable "t" key_schema empty_db = (Ok r, s') /\
  r = Some 0 /\ Catalog.GetTableByName "t" (catalog_ s') = Ok (TableMeta.make key_schema "t" 0) /\
  Catalog.make (db_fs_ s') = (Ok (catalog_persisted (catalog_ s')), db_fs_ s').
Proof.
  destruct (CreateTable_durable "t" key_schema empty_db empty_wf no_files_layout
    ltac:(intros n [? Hn]; done) t_name_ok ltac:(vm_compute; done) key_schema_valid ltac:(vm_compute; done))
    as (r & s' & E & Hs').
  exists r, s'. split; [exact E|]. destruct Hs' as (-> & _ & _ & _ & _ & Hget & _ & Hload).
  split; [done|]. split; [rewrite Hget; done|exact Hload].
Defined.

Definition db_with_table : db (gmap PageId (list Byte.byte)) := (Catalog.CreateTable "t" key_schema empty_db).2.

Lemma CreateIndex_not_persisted_witness : exists s',
  Catalog.CreateIndex 0 "pk" "t" key_column true BPlusTreeIndex db_with_table = (Ok (Some 0), s') /\
  db_fs_ s' = db_fs_ db_with_table /\ is_Some (indexes_ (catalog_ s') !! 0).
Proof.
  destruct (Catalog.CreateIndex 0 "pk" "t" key_column true BPlusTreeIndex db_with_table) as [[[oid|]|e] s'] eqn:E.
  - destruct (CreateIndex_not_persisted 0 "pk" "t" key_column true BPlusTreeIndex db_with_table oid s' E) as (Hfs & _ & _ & _ & Hi & ->).
    exists s'. split; [vm_compute; reflexivity|]. split; [exact Hfs|exact Hi].
  - vm_compute in E. discriminate E.
  - vm_compute in E. discriminate E.
Defined.
