(* ===== verification/Binder.v ===== *)
(** * The binder: [query/binder/]

    The parser's classes (third-party) appear as records of the fields and accessors the
    binder reads; a pointer the binder follows is an [option].  Bound expressions, table
    references and statements are the binder's own class hierarchies.  Log messages are
    left out where building them cannot fail. *)
From S2P Require Import Prelude Bytes Streams Serializer Codec CodecFacts Types Value Schema Tuple.
From S2P Require Import Files DiskManager BufferPool PageGuard TableMeta Index BtreePage.
From S2P Require Import Transactions BTreeIndex Catalog.
From stdpp Require Import pretty.
Open Scope Z_scope.

(** ** What the parser returns *)
Module hsql.
Inductive ExprType : Type :=
| kExprLiteralInt | kExprLiteralString | kExprOperator | kExprStar | kExprColumnRef | kExprSelect
| kExprLiteralFloat | kExprLiteralNull | kExprLiteralDate | kExprLiteralInterval | kExprParameter
| kExprFunctionRef | kExprHint | kExprArray | kExprArrayIndex | kExprExtract | kExprCast.
(** The operators the binder knows, and the others. *)
Inductive OperatorType : Type := kOpPlus | kOpMinus | kOpAsterisk | kOpOther.

(** [type], [ival] (an [int64_t]), [getName()], [opType], [expr] and [expr2]. *)
Inductive Expr : Type :=
| mk_Expr (type : ExprType) (ival : Z) (name : option string) (opType : OperatorType) (expr expr2 : option Expr).

(** [name], [type.data_type], [type.length] (an [int64_t]), and whether the constraints
    contain [PrimaryKey]. *)
Record ColumnDefinition := mk_ColumnDefinition {
  col_name : string; data_type : Type_.DataType; type_length : Z; is_primary_key : bool
}.
(** [tableName], whether [type] is [kCreateTable], and [*columns]. *)
Record CreateStatement := mk_CreateStatement {
  create_tableName : string; is_create_table : bool; create_columns : list ColumnDefinition
}.
(** [fromTable], by what its [getName()] returns, and [selectList]. *)
Record SelectStatement := mk_SelectStatement { fromTable : option (option string); selectList : option (list Expr) }.
Record InsertStatement := mk_InsertStatement {
  insert_tableName : string; values : option (list Expr); select : option SelectStatement
}.
(** By [type()]. *)
Inductive SQLStatement : Type :=
| kStmtCreate (stmt : CreateStatement)
| kStmtInsert (stmt : InsertStatement)
| kStmtSelect (stmt : SelectStatement)
| kStmtOther.
End hsql.

(** ** Bound expressions, table references and statements *)
Inductive ExpressionType : Type :=
| ET_INVALID | ET_CONSTANT | ET_COLUMN_REF | ET_TYPE_CAST | ET_FUNCTION | ET_AGG_CALL | ET_STAR | ET_UNARY_OP
| ET_BINARY_OP | ET_ALIAS | ET_FUNC_CALL | ET_WINDOW.
#[export] Instance ExpressionType_eq_dec : EqDecision ExpressionType.
Proof. solve_decision. Defined.

Inductive BoundExpression : Type :=
| BoundConstant (val_ : Value)
| BoundColumnRef (col_name_ : list string)
| BoundStar
| BoundBinaryOp (op_ : ArithmeticType) (larg_ rarg_ : BoundExpression).
Definition expression_type (e : BoundExpression) : ExpressionType :=
  match e with
  | BoundConstant _ => ET_CONSTANT | BoundColumnRef _ => ET_COLUMN_REF
  | BoundStar => ET_STAR | BoundBinaryOp _ _ _ => ET_BINARY_OP
  end.

Inductive TableReferenceType : Type :=
| TR_INVALID | TR_BASE_TABLE | TR_JOIN | TR_CROSS_PRODUCT | TR_EXPRESSION_LIST | TR_SUBQUERY | TR_CTE | TR_EMPTY.

Record BoundBaseTableRef := mk_BoundBaseTableRef { table_ : string; oid_ : Z; base_schema_ : Schema }.
(** The class itself is not abstract: a [BoundTableRef] with any type can be made. *)
Inductive BoundTableRef : Type :=
| BaseTableRef (table : BoundBaseTableRef)
| BoundExpressionListRef (values_ : list (list BoundExpression))
| PlainTableRef (type_ : TableReferenceType).
Definition table_ref_type (t : BoundTableRef) : TableReferenceType :=
  match t with
  | BaseTableRef _ => TR_BASE_TABLE | BoundExpressionListRef _ => TR_EXPRESSION_LIST | PlainTableRef type_ => type_
  end.

Record SelectStatement := mk_SelectStatement { select_table_ : BoundTableRef; select_list_ : list BoundExpression }.
Record InsertStatement := mk_InsertStatement { insert_table_ : BoundBaseTableRef; insert_select_ : SelectStatement }.
Record CreateStatement := mk_CreateStatement {
  table_name_ : string; create_columns_ : list Column; primary_key_ : list string
}.
Inductive BoundStatement : Type :=
| SELECT_STATEMENT (stmt : SelectStatement)
| INSERT_STATEMENT (stmt : InsertStatement)
| CREATE_STATEMENT (stmt : CreateStatement).

(** ** The binder *)
Module Binder.
(** [std::string(p)] of a [const char *]. *)
Definition c_string (p : option string) : res string :=
  match p with Some s => Ok s | None => Err UndefinedBehaviour end.

(** The operators that are bound. *)
Definition bind_operator (op : hsql.OperatorType) : res ArithmeticType :=
  match op with
  | hsql.kOpPlus => Ok Plus
  | hsql.kOpMinus => Ok Minus
  | hsql.kOpAsterisk => Ok Multiply
  | hsql.kOpOther => Err NotImplementedException
  end.

Fixpoint BindExpression (expr : hsql.Expr) : res BoundExpression :=
  match expr with
  | hsql.mk_Expr type ival name opType expr1 expr2 =>
    match type with
    | hsql.kExprLiteralInt =>
      int_value ← Value.make INTEGER (Arg_int32 (swrap 32 ival)); Ok (BoundConstant int_value)
    | hsql.kExprLiteralString =>
      string ← c_string name;
      varchar_value ← Value.make VARCHAR (Arg_string string); Ok (BoundConstant varchar_value)
    | hsql.kExprOperator =>
      op_type ← bind_operator opType;
      larg ← match expr1 with Some e => BindExpression e | None => Err UndefinedBehaviour end;
      rarg ← match expr2 with Some e => BindExpression e | None => Err UndefinedBehaviour end;
      Ok (BoundBinaryOp op_type larg rarg)
    | hsql.kExprStar => Ok BoundStar
    | _ => Err NotImplementedException
    end
  end.

(** [SELECT *]: one reference per column of the table in scope. *)
Definition star_columns (base_table_ref : BoundBaseTableRef) : list BoundExpression :=
  (fun column => BoundColumnRef [table_ base_table_ref; Column.GetName column]) <$>
    Schema.GetColumns (base_schema_ base_table_ref).

(** The loop over the list of [n] expressions.  [scope_] is what the member points to:
    it is null, or points to a table that is gone, unless a FROM clause is being bound. *)
Fixpoint bind_list (n : nat) (scope_ : option BoundBaseTableRef) (l : list hsql.Expr)
    (expr_list : list BoundExpression) : res (list BoundExpression) :=
  match l with
  | [] => Ok expr_list
  | expr :: l =>
    bound_expr ← BindExpression expr;
    if bool_decide (expression_type bound_expr = ET_STAR) then
      if negb (Nat.eqb n 1) then Err Exception
      else match scope_ with Some t => Ok (star_columns t) | None => Err UndefinedBehaviour end
    else bind_list n scope_ l (expr_list ++ [bound_expr])
  end.
Definition BindExpressionList (scope_ : option BoundBaseTableRef) (l : list hsql.Expr) : res (list BoundExpression) :=
  bind_list (length l) scope_ l [].

Definition BindValuesList (l : list hsql.Expr) : res (list (list BoundExpression)) :=
  row ← BindExpressionList None l; Ok [row].

(** References to the columns of a row of values. *)
Definition temp_columns (expr_length : nat) : list BoundExpression :=
  (fun i => BoundColumnRef ["Temp Col " +:+ pretty i]%string) <$> seq 0 expr_length.
Definition values_select (values : list (list BoundExpression)) : res SelectStatement :=
  match values with
  | [] => Err UndefinedBehaviour
  | row :: _ => Ok (mk_SelectStatement (BoundExpressionListRef values) (temp_columns (length row)))
  end.

Definition BindBaseTableRef (table_name : string) (catalog_ : Catalog) : res BoundBaseTableRef :=
  table_info ← Catalog.GetTableByName table_name catalog_;
  Ok (mk_BoundBaseTableRef table_name (table_oid_ table_info) (schema_ table_info)).

Definition BindSelect (stmt : hsql.SelectStatement) (catalog_ : Catalog) : res SelectStatement :=
  match hsql.fromTable stmt, hsql.selectList stmt with
  | None, Some selectList =>
    table_value_list ← BindValuesList selectList;
    values_select table_value_list
  | Some from, Some selectList =>
    name ← c_string from;
    from_table ← BindBaseTableRef name catalog_;
    select_list ← BindExpressionList (Some from_table) selectList;
    Ok (mk_SelectStatement (BaseTableRef from_table) select_list)
  | _, None => Err NotImplementedException
  end.

Definition BindInsert (stmt : hsql.InsertStatement) (catalog_ : Catalog) : res InsertStatement :=
  table ← BindBaseTableRef (hsql.insert_tableName stmt) catalog_;
  if String.prefix "__" (table_ table) then Err Exception
  else
    match hsql.values stmt, hsql.select stmt with
    | Some values, _ =>
      value_list ← BindValuesList values;
      select ← values_select value_list;
      Ok (mk_InsertStatement table select)
    | None, Some select => select ← BindSelect select catalog_; Ok (mk_InsertStatement table select)
    | None, None => Err NotImplementedException
    end.

Definition BindColumnDefinition (col_def : hsql.ColumnDefinition) : res Column :=
  type_id ← Type_.HsqlColumnTypeToTypeId (hsql.data_type col_def);
  match hsql.data_type col_def with
  | Type_.DT_VARCHAR => Column.varlen (hsql.col_name col_def) type_id (uwrap 32 (hsql.type_length col_def))
  | _ => Column.fixed (hsql.col_name col_def) type_id
  end.

Fixpoint bind_columns (col_defs : list hsql.ColumnDefinition) (columns : list Column) (primary_key : list string) :
    res (list Column * list string) :=
  match col_defs with
  | [] => Ok (columns, primary_key)
  | col_def :: col_defs =>
    col ← BindColumnDefinition col_def;
    let primary_key := if hsql.is_primary_key col_def then primary_key ++ [Column.GetName col] else primary_key in
    if (1 <? length primary_key)%nat then Err NotImplementedException
    else bind_columns col_defs (columns ++ [col]) primary_key
  end.
Definition BindCreate (stmt : hsql.CreateStatement) : res CreateStatement :=
  if hsql.is_create_table stmt then
    r ← bind_columns (hsql.create_columns stmt) [] [];
    Ok (mk_CreateStatement (hsql.create_tableName stmt) r.1 r.2)
  else Err NotImplementedException.

Definition Bind (stmt : hsql.SQLStatement) (catalog_ : Catalog) : res BoundStatement :=
  match stmt with
  | hsql.kStmtCreate stmt => s ← BindCreate stmt; Ok (CREATE_STATEMENT s)
  | hsql.kStmtInsert stmt => s ← BindInsert stmt catalog_; Ok (INSERT_STATEMENT s)
  | hsql.kStmtSelect stmt => s ← BindSelect stmt catalog_; Ok (SELECT_STATEMENT s)
  | hsql.kStmtOther => Err NotImplementedException
  end.
End Binder.
