(* ===== verification/Planner.v ===== *)
(** * Plans and the planner: [query/plans/], [query/planner.cpp] *)
From S2P Require Import Prelude Bytes Streams Serializer Codec CodecFacts Types Value Schema Tuple Expressions.
From S2P Require Import Files DiskManager BufferPool PageGuard TableMeta Index BtreePage.
From S2P Require Import Transactions BTreeIndex Catalog Binder.
From stdpp Require Import pretty.
Open Scope Z_scope.

Inductive PlanType : Type :=
| PT_SeqScan | PT_IndexScan | PT_Insert | PT_Update | PT_Delete | PT_Aggregation | PT_Limit | PT_NestedLoopJoin
| PT_NestedIndexJoin | PT_HashJoin | PT_Filter | PT_Values | PT_Projection | PT_Sort | PT_TopN | PT_TopNPerGroup
| PT_MockScan | PT_InitCheck | PT_Window.

Inductive AbstractPlanNode : Type :=
| SeqScanPlanNode (output_schema_ : Schema) (table_oid_ : Z) (table_name_ : string)
    (filter_predicate_ : option AbstractExpression)
| ValuesPlanNode (output_schema_ : Schema) (values_ : list (list AbstractExpression))
| InsertPlanNode (output_schema_ : Schema) (child : AbstractPlanNode) (table_oid_ : Z)
| ProjectionPlanNode (output_schema_ : Schema) (expressions_ : list AbstractExpression) (child : AbstractPlanNode).

Module AbstractPlanNode.
Definition OutputSchema (p : AbstractPlanNode) : Schema :=
  match p with
  | SeqScanPlanNode s _ _ _ | ValuesPlanNode s _ | InsertPlanNode s _ _ | ProjectionPlanNode s _ _ => s
  end.
Definition GetType (p : AbstractPlanNode) : PlanType :=
  match p with
  | SeqScanPlanNode _ _ _ _ => PT_SeqScan | ValuesPlanNode _ _ => PT_Values
  | InsertPlanNode _ _ _ => PT_Insert | ProjectionPlanNode _ _ _ => PT_Projection
  end.

(** Strings that are put together piece by piece; [pop_back] twice takes a separator off. *)
Fixpoint expressions_ToString (l : list AbstractExpression) : res string :=
  match l with
  | [] => Ok ""%string
  | [value] => AbstractExpression.ToString value
  | value :: l =>
    s ← AbstractExpression.ToString value; rest ← expressions_ToString l; Ok (s +:+ ", " +:+ rest)%string
  end.
Fixpoint rows_ToString (l : list (list AbstractExpression)) : res string :=
  match l with
  | [] => Ok ""%string
  | [row] => s ← expressions_ToString row; Ok ("[" +:+ s +:+ "]")%string
  | row :: l => s ← expressions_ToString row; rest ← rows_ToString l; Ok ("[" +:+ s +:+ "], " +:+ rest)%string
  end.
Fixpoint ToString (p : AbstractPlanNode) : res string :=
  match p with
  | SeqScanPlanNode _ _ table_name_ (Some filter) =>
    f ← AbstractExpression.ToString filter;
    Ok ("SeqScan { table=" +:+ table_name_ +:+ ", filter=" +:+ f +:+ " }")%string
  | SeqScanPlanNode _ _ table_name_ None => Ok ("SeqScan { table=" +:+ table_name_ +:+ " }")%string
  | ValuesPlanNode _ values_ =>
    values ← rows_ToString values_; Ok ("ValuesPlanNode { values={ " +:+ values +:+ " } }")%string
  | InsertPlanNode _ child oid =>
    children ← ToString child;
    Ok ("InsertPlanNode { table_oid=" +:+ pretty oid +:+ ", children=" +:+ children +:+ " }")%string
  | ProjectionPlanNode _ _ _ => Ok "<unknown>"%string
  end.

(** The schema of a projection: a column per expression of fixed size. *)
Fixpoint projection_columns (expressions : list AbstractExpression) : res (list Column) :=
  match expressions with
  | [] => Ok []
  | expr :: expressions =>
    let type_id := AbstractExpression.GetReturnType expr in
    fixed ← Type_.IsFixedSize type_id;
    col ← (if fixed : bool then c ← Column.fixed "<unnamed>" type_id; Ok [c] else Ok []);
    rest ← projection_columns expressions;
    Ok (col ++ rest)
  end.
Definition InferProjectionSchema (expressions : list AbstractExpression) : res Schema :=
  schema ← projection_columns expressions; Schema.make schema.
End AbstractPlanNode.

Module Planner.
Definition PlanConstant (val_ : Value) : AbstractExpression := ConstantValueExpression val_.

Definition PlanExpression (expr : BoundExpression) : res AbstractExpression :=
  match expr with
  | BoundConstant val_ => Ok (PlanConstant val_)
  | _ => Err NotImplementedException
  end.

Fixpoint plan_row (row : list BoundExpression) : res (list AbstractExpression) :=
  match row with
  | [] => Ok []
  | col :: row => expr ← PlanExpression col; row_exprs ← plan_row row; Ok (expr :: row_exprs)
  end.
Fixpoint plan_rows (values_ : list (list BoundExpression)) : res (list (list AbstractExpression)) :=
  match values_ with
  | [] => Ok []
  | row :: values_ => row_exprs ← plan_row row; all_exprs ← plan_rows values_; Ok (row_exprs :: all_exprs)
  end.

(** The columns of a row of values, numbered from [idx]. *)
Definition temp_column (idx : nat) (type : TypeId) : res Column :=
  let col_name := ("Temp Col" +:+ pretty idx)%string in
  if bool_decide (type <> VARCHAR) then Column.fixed col_name type
  else Column.varlen col_name type VARCHAR_DEFAULT_LENGTH.
Fixpoint temp_columns (idx : nat) (row : list AbstractExpression) : res (list Column) :=
  match row with
  | [] => Ok []
  | col :: row =>
    c ← temp_column idx (AbstractExpression.GetReturnType col);
    cols ← temp_columns (S idx) row;
    Ok (c :: cols)
  end.

Definition PlanExpressionListRef (values_ : list (list BoundExpression)) : res AbstractPlanNode :=
  all_exprs ← plan_rows values_;
  match all_exprs with
  | [] => Err UndefinedBehaviour
  | first_row :: _ =>
    cols ← temp_columns 0 first_row;
    schema ← Schema.make cols;
    Ok (ValuesPlanNode schema all_exprs)
  end.

(** [BoundTableRef::ToString], called for a log message: only the two types below have a
    text of their own in the base class. *)
Definition table_ref_ToString (table_ref : BoundTableRef) : res unit :=
  match table_ref with
  | PlainTableRef TR_INVALID | PlainTableRef TR_EMPTY => Ok tt
  | PlainTableRef _ => Err UndefinedBehaviour
  | _ => Ok tt
  end.
Definition PlanTableRef (table_ref : BoundTableRef) (catalog_ : Catalog) : res AbstractPlanNode :=
  _ ← table_ref_ToString table_ref;
  match table_ref with
  | BoundExpressionListRef values_ => PlanExpressionListRef values_
  | BaseTableRef base_table_ref =>
    table ← Catalog.GetTableByName (table_ base_table_ref) catalog_;
    schema ← Schema.make (Schema.GetColumns (schema_ table));
    Ok (SeqScanPlanNode schema (table_oid_ table) (name_ table) None)
  | PlainTableRef TR_EXPRESSION_LIST | PlainTableRef TR_BASE_TABLE => Err BadCast
  | PlainTableRef _ => Err NotImplementedException
  end.

Definition PlanSelect (statement : SelectStatement) (catalog_ : Catalog) : res AbstractPlanNode :=
  match table_ref_type (select_table_ statement) with
  | TR_EMPTY => schema ← Schema.make []; Ok (ValuesPlanNode schema [])
  | _ => PlanTableRef (select_table_ statement) catalog_
  end.

Definition PlanInsert (statement : InsertStatement) (catalog_ : Catalog) : res AbstractPlanNode :=
  select ← PlanSelect (insert_select_ statement) catalog_;
  let table_schema := base_schema_ (insert_table_ statement) in
  let child_schema := AbstractPlanNode.OutputSchema select in
  if negb (Schema.TypeMatch table_schema child_schema) then Err Exception
  else
    inserted_rows ← Column.fixed "inserted_rows" INTEGER;
    insert_schema ← Schema.make [inserted_rows];
    Ok (InsertPlanNode insert_schema select (oid_ (insert_table_ statement))).

(** The case of SELECT statements has no [break]: it goes on with the next case, whose
    [dynamic_cast] of a reference fails. *)
Definition PlanQuery (statement : BoundStatement) (catalog_ : Catalog) : res AbstractPlanNode :=
  plan ← match statement with
         | SELECT_STATEMENT s => _ ← PlanSelect s catalog_; Err BadCast
         | INSERT_STATEMENT s => PlanInsert s catalog_
         | CREATE_STATEMENT _ => Err NotImplementedException
         end;
  _ ← AbstractPlanNode.ToString plan;
  Ok plan.
End Planner.
