(* ===== verification/Database.v ===== *)
(** * Executors, the execution engine and the database: [query/executors/],
    [query/executor_factory.cpp], [query/execution_engine.hpp], [common/db_instance.cpp]

    The state is the [db] of Catalog.v: the catalog, its files and the buffer pool.  An
    executor is a value that its [Next] returns changed.  The parser is a parameter. *)
From S2P Require Import Prelude Bytes Streams Serializer Codec CodecFacts Types Value Schema Tuple Expressions.
From S2P Require Import Files TablePage DiskManager BufferPool BufferPoolProps PageGuard TableMeta.
From S2P Require Import TableHeap TableHeapProps TableHeapThms TableScan Index BtreePage.
From S2P Require Import Transactions BTreeIndex Catalog Binder Planner.
Open Scope Z_scope.

Inductive AbstractExecutor : Type :=
| SeqScanExec (output_schema : Schema) (table_key : Z) (table_iter_ : TableIterator)
| ValuesExec (output_schema : Schema) (values : list (list AbstractExpression)) (cursor_ : Z)
| InsertExec (child_executor_ : AbstractExecutor) (output_schema : Schema) (table_oid : Z) (executed_ : bool).

Module AbstractExecutor.
Definition GetOutputSchema (e : AbstractExecutor) : Schema :=
  match e with SeqScanExec s _ _ | ValuesExec s _ _ | InsertExec _ s _ _ => s end.
End AbstractExecutor.

Module ValuesExecutor.
Fixpoint const_values (row_expr : list AbstractExpression) : res (list Value) :=
  match row_expr with
  | [] => Ok []
  | col :: row_expr =>
    v ← AbstractExpression.GetConstValue col; values ← const_values row_expr; Ok (v :: values)
  end.

(** [Next]: whether there was a row, what [tuple] then holds, and the cursor. *)
Definition Next (output_schema : Schema) (values_ : list (list AbstractExpression)) (cursor_ : Z) (tuple : Tuple) :
    res (bool * Tuple * Z) :=
  if Z.of_nat (length values_) <=? cursor_ then Ok (false, tuple, cursor_)
  else
    match values_ !! Z.to_nat cursor_ with
    | None => Err UndefinedBehaviour
    | Some row_expr =>
      values ← const_values row_expr;
      tuple ← Tuple.make values output_schema;
      Ok (true, tuple, cursor_ + 1)
    end.
End ValuesExecutor.

Section executors.
Context {D : Type} `{PageStore D} `{!HashOrder Z bool} `{!TupleInfoLayout}.

(** [GetCatalog().GetTable(oid)]: the entry of [tables_] the reference leads to. *)
Definition GetTable_ref (table_oid : Z) : M (db D) Z :=
  s ← get_state;
  lift (name ← Catalog.GetTableName table_oid (catalog_ s);
        key ← Catalog.table_key name (catalog_ s);
        _ ← Catalog.table_at key (catalog_ s); Ok key).

(** A [TableHeap] on the buffer pool and the meta data of a table. *)
Definition on_heap {A} (key : Z) (m : M (table_heap D) A) : M (db D) A := fun s =>
  match Catalog.table_at key (catalog_ s) with
  | Err e => (Err e, s)
  | Ok meta =>
    match m (mk_table_heap (db_bpm_ s) meta) with
    | (r, h) => (r, mk_db (Catalog.set_table key (table_meta_ h) (catalog_ s)) (db_fs_ s) (bpm_ h))
    end
  end.
Definition on_table (key : Z) (f : TableMeta -> TableMeta) : M (db D) unit :=
  on_heap key (TableHeap.with_meta f).

(** One row of a child goes into the table: its record id, and the new row count. *)
Definition insert_row (key : Z) (child_schema : Schema) (t : Tuple) (changed_row_count : Z) : M (db D) (RID * Z) :=
  let meta := mk_TupleMeta false in
  lift (Tuple.ToString t child_schema);;
  return_rid ← on_heap key (TableHeap.InsertTuple meta t);
  match return_rid with
  | Some rid =>
    count ← lift (if decide (in_s 32 (changed_row_count + 1)) then Ok (changed_row_count + 1) else Err UndefinedBehaviour);
    on_table key TableMeta.IncreaseTupleCount;;
    mret (rid, count)
  | None => throw StdRuntimeError
  end.

(** [Next(tuple, rid)] of the executors.  The fuel bounds the depth of the executors plus
    the rows an insert draws from its child. *)
Fixpoint Next (fuel : nat) (e : AbstractExecutor) (tuple : Tuple) (rid : RID) :
    M (db D) (bool * Tuple * RID * AbstractExecutor) :=
  match fuel with
  | O => throw UndefinedBehaviour
  | S fuel =>
    match e with
    | SeqScanExec output_schema key table_iter_ =>
      r ← on_heap key (SeqScanExecutor.Next output_schema tuple rid table_iter_);
      mret (r.1, SeqScanExec output_schema key r.2)
    | ValuesExec output_schema values cursor_ =>
      r ← lift (ValuesExecutor.Next output_schema values cursor_ tuple);
      mret (r.1.1, r.1.2, rid, ValuesExec output_schema values r.2)
    | InsertExec child output_schema table_oid executed_ =>
      if executed_ : bool then mret (false, tuple, rid, e)
      else
        key ← GetTable_ref table_oid;
        on_heap key TableHeap.TableHeap;;
        r ← insert_rows fuel key child Tuple.dummy RID_default rid 0;
        values ← lift (v ← Value.make INTEGER (Arg_int32 r.2); Ok [v]);
        tuple ← lift (Tuple.make values output_schema);
        mret (true, tuple, r.1.2, InsertExec r.1.1 output_schema table_oid true)
    end
  end
(** The loop of [InsertExecutor::Next]: the child, the last record id, the row count. *)
with insert_rows (fuel : nat) (key : Z) (child : AbstractExecutor) (t : Tuple) (r rid : RID) (changed_row_count : Z) :
    M (db D) (AbstractExecutor * RID * Z) :=
  match fuel with
  | O => throw UndefinedBehaviour
  | S fuel =>
    n ← Next fuel child t r;
    let '(more, t, r, child) := n in
    if more : bool then
      i ← insert_row key (AbstractExecutor.GetOutputSchema child) t changed_row_count;
      insert_rows fuel key child t r i.1 i.2
    else mret (child, rid, changed_row_count)
  end.

(** [ExecutorFactory::CreateExecutor] *)
Fixpoint CreateExecutor (plan : AbstractPlanNode) : M (db D) AbstractExecutor :=
  match plan with
  | InsertPlanNode output_schema child table_oid =>
    child_executor ← CreateExecutor child;
    mret (InsertExec child_executor output_schema table_oid false)
  | ValuesPlanNode output_schema values => mret (ValuesExec output_schema values 0)
  | SeqScanPlanNode output_schema table_oid _ _ =>
    key ← GetTable_ref table_oid;
    table_iter ← on_heap key SeqScanExecutor.make;
    mret (SeqScanExec output_schema key table_iter)
  | ProjectionPlanNode _ _ _ => throw NotImplementedException
  end.

(** [ExecutionEngine] *)
Fixpoint PollExecutor (fuel : nat) (rows : nat) (executor : AbstractExecutor) (tuple : Tuple) (rid : RID)
    (result_set : list Tuple) : M (db D) (list Tuple) :=
  match rows with
  | O => throw UndefinedBehaviour
  | S rows =>
    n ← Next fuel executor tuple rid;
    let '(more, tuple, rid, executor) := n in
    if more : bool then PollExecutor fuel rows executor tuple rid (result_set ++ [tuple]) else mret result_set
  end.
Definition Execute (fuel : nat) (plan : AbstractPlanNode) : M (db D) (list Tuple) :=
  executor ← CreateExecutor plan;
  PollExecutor fuel fuel executor Tuple.dummy RID_default [].
End executors.

Module DB.
Section db_instance.
Context {D : Type} `{PageStore D} `{!HashOrder Z bool} `{!TupleInfoLayout} `{!LeafLayout}.
Context `{!HashOrder Z (option TableMeta)} `{!HashOrder Z (option IndexMeta)}
  `{!HashOrder string Z} `{!HashOrder string (gmap string Z)}.
(** [hsql::SQLParser::parse]: nothing when the result is not valid. *)
Context (parse : string -> option (list hsql.SQLStatement)).
(** What the memory of a new [IndexMeta] held where [index_id_] goes. *)
Context (index_id : Z).

(** The constructor, on the files and the page store of a directory. *)
Definition DB (fs : FileSystem) (disk_manager_ : D) : res (db D) * FileSystem :=
  match Catalog.make fs with
  | (Ok catalog_, fs) => (Ok (mk_db catalog_ fs (BufferPool.BufferPool DEFAULT_POOL_SIZE disk_manager_)), fs)
  | (Err e, fs) => (Err e, fs)
  end.

Definition with_bpm {A} (m : M (BufferPool D) A) : M (db D) A := fun s =>
  match m (db_bpm_ s) with (r, p) => (r, mk_db (catalog_ s) (db_fs_ s) p) end.
Definition PersistCatalog : M (db D) unit :=
  s ← get_state; Catalog.with_fs (Catalog.PersistToDisk (catalog_ s)).

(** The column of the schema with the name of the primary key. *)
Definition find_key (schema : Schema) (primary_key : string) : res Column :=
  match List.find (fun col => bool_decide (Column.GetName col = primary_key)) (Schema.GetColumns schema) with
  | Some col => Ok col
  | None => Err AssertionFailed
  end.
Definition HandleCreateStatement (stmt : CreateStatement) : M (db D) unit :=
  schema ← lift (Schema.make (create_columns_ stmt));
  table_oid_opt ← Catalog.CreateTable (table_name_ stmt) schema;
  match table_oid_opt with
  | None =>
    s ← get_state;
    lift (Catalog.GetTableByName (table_name_ stmt) (catalog_ s));;
    throw RuntimeException
  | Some _ =>
    match primary_key_ stmt with
    | [] => mret tt
    | [primary_key] =>
      key_col ← lift (find_key schema primary_key);
      index_oid ← Catalog.CreateIndex index_id (table_name_ stmt +:+ "_pk") (table_name_ stmt) key_col true BPlusTreeIndex;
      match index_oid with Some _ => mret tt | None => throw RuntimeException end
    | _ => throw AssertionFailed
    end
  end.

(** One statement of a query; [fuel] goes to the executors. *)
Definition ExecuteStatement (fuel : nat) (parsed_stmt : hsql.SQLStatement) : M (db D) unit :=
  s ← get_state;
  bound_stmt ← lift (Binder.Bind parsed_stmt (catalog_ s));
  match bound_stmt with
  | CREATE_STATEMENT create_stmt => HandleCreateStatement create_stmt
  | _ =>
    plan ← lift (Planner.PlanQuery bound_stmt (catalog_ s));
    Execute fuel plan;;
    with_bpm BufferPool.FlushAllPages;;
    PersistCatalog
  end.
Fixpoint execute_statements (fuel : nat) (stmts : list hsql.SQLStatement) : M (db D) unit :=
  match stmts with
  | [] => mret tt
  | stmt :: stmts => ExecuteStatement fuel stmt;; execute_statements fuel stmts
  end.
Definition ExecuteQuery (fuel : nat) (query : string) : M (db D) unit :=
  match parse query with
  | None => throw Exception
  | Some stmts => execute_statements fuel stmts
  end.

Definition SetUpInternalSystemCatalogTable : M FileSystem unit :=
  fs ← get_state;
  if exists_ FilePathManager.GetSystemCatalogPath fs then mret tt
  else CreateFileIfNotExists FilePathManager.GetSystemCatalogPath.
End db_instance.
End DB.
