(* ===== verification/PlannerThms.v ===== *)
(** * From SQL to plans: INSERT ... VALUES, and SELECT *)
From S2P Require Import Prelude Bytes Streams Serializer Codec CodecFacts Types Value Schema Tuple Expressions.
From S2P Require Import Files DiskManager BufferPool PageGuard TableMeta Index BtreePage.
From S2P Require Import Transactions BTreeIndex Catalog Binder Planner.
Open Scope Z_scope.

(** ** Literals *)
Definition literal_type (t : TypeId) : Prop := t = INTEGER \/ t = VARCHAR.
(** [e] is the SQL literal of the value [v]. *)
Definition is_literal (e : hsql.Expr) (v : Value) : Prop := Binder.BindExpression e = Ok (BoundConstant v).

Lemma literal_value e v : is_literal e v ->
  (exists z, v = mk_Value INTEGER (VInt32 z) false /\ in_s 32 z) \/ (exists s, v = mk_Value VARCHAR (VString s) false).
Proof.
  unfold is_literal. destruct e as [type ival name op e1 e2]. cbn [Binder.BindExpression]. destruct type; try done.
  - cbn. intros [= <-]. left. eexists. split; [done|]. by apply swrap_range.
  - destruct name as [s|]; [|done]. cbn. intros [= <-]. right. by eexists.
  - destruct op; cbn; try done; repeat case_match; try done; unfold mbind, res_bind; repeat case_match; done.
Qed.

Lemma bind_literals n scope l vs acc : Forall2 is_literal l vs ->
  Binder.bind_list n scope l acc = Ok (acc ++ (BoundConstant <$> vs)).
Proof.
  intros Hl. revert acc. induction Hl as [|e v l vs He Hl IH]; intros acc; cbn [Binder.bind_list fmap list_fmap].
  - by rewrite app_nil_r.
  - rewrite He. cbn [mbind res_bind expression_type]. rewrite bool_decide_false by done. rewrite IH. by rewrite <- app_assoc.
Qed.

Lemma plan_literals vs : Planner.plan_row (BoundConstant <$> vs) = Ok (ConstantValueExpression <$> vs).
Proof. induction vs as [|v vs IH]; [done|]. cbn [fmap list_fmap Planner.plan_row Planner.PlanExpression mbind res_bind]. by rewrite IH. Qed.

(** The column the planner makes for a literal. *)
Definition temp_ok (c : Column) (v : Value) : Prop :=
  column_wf c /\ column_type_ c = type_id_ v /\ literal_type (type_id_ v) /\
  (type_id_ v = VARCHAR -> length_ c = VARCHAR_DEFAULT_LENGTH).

Lemma temp_columns_ok l vs k : Forall2 is_literal l vs ->
  exists cols, Planner.temp_columns k (ConstantValueExpression <$> vs) = Ok cols /\ Forall2 temp_ok cols vs.
Proof.
  intros Hl. revert k. induction Hl as [|e v l vs He Hl IH]; intros k; [by exists []|].
  destruct (IH (S k)) as (cols & E & Hc). cbn [fmap list_fmap Planner.temp_columns].
  destruct (literal_value e v He) as [(z & -> & _)|(s & ->)]; eexists; (split;
    [unfold Planner.temp_column; cbn [AbstractExpression.GetReturnType Value.GetTypeId type_id_];
     first [rewrite bool_decide_true by done|rewrite bool_decide_false by (intros Hn; by apply Hn)];
     cbn; rewrite E; reflexivity|]);
    constructor; try done; unfold temp_ok, column_wf; cbn; unfold VARCHAR_DEFAULT_LENGTH;
      split_and!; first [done|lia|by left|by right].
Qed.

Lemma literal_inline_size c : column_wf c -> literal_type (column_type_ c) -> Schema.inline_size c = 4.
Proof.
  unfold column_wf, Schema.inline_size, Column.IsInlined, Column.GetStorageSize. by intros Hc [E|E]; rewrite E in *.
Qed.

Lemma temp_inline_total cols vs : Forall2 temp_ok cols vs -> inline_total cols = 4 * Z.of_nat (length vs).
Proof.
  induction 1 as [|c v cols vs (Hc & Ht & Hl & _) _ IH]; [done|]. rewrite inline_total_cons. cbn [length].
  rewrite literal_inline_size by (done || by rewrite Ht). lia.
Qed.

(** ** INSERT ... VALUES *)
(** The plan of a row of values. *)
Lemma PlanValues l vs : Forall2 is_literal l vs -> Z.of_nat (length vs) < 2 ^ 29 ->
  exists cs, Planner.PlanExpressionListRef [BoundConstant <$> vs] = Ok (ValuesPlanNode cs [ConstantValueExpression <$> vs]) /\
    schema_wf cs /\ Forall2 temp_ok (columns_ cs) vs /\ tuple_inline_part_storage_size_ cs = 4 * Z.of_nat (length vs).
Proof.
  intros Hl Hn. destruct (temp_columns_ok l vs 0 Hl) as (cols & E & Hc).
  pose proof (Forall2_length _ _ _ Hc) as Hlen. pose proof (temp_inline_total _ _ Hc) as Htot.
  assert (Forall column_wf cols) as Hwf by (eapply Forall2_Forall_l; [exact Hc|]; apply Forall_forall; by intros v _ c (? & _)).
  destruct (build_ok cols 0 0 Hwf) as (cols' & unin & Eb & Hlen' & Hlay & Hwf' & Hlk & Hu); [lia|lia|width|width|].
  exists (mk_Schema cols' unin (inline_total cols)). split_and!; [| |apply Forall2_same_length_lookup_2|exact Htot].
  - unfold Planner.PlanExpressionListRef. cbn [Planner.plan_rows]. rewrite plan_literals. cbn [mbind res_bind].
    rewrite E. cbn [mbind res_bind]. unfold Schema.make. rewrite Eb. cbn [mbind res_bind].
    rewrite bool_decide_true by done. done.
  - split; [done|exact Hlay|done].
  - cbn. congruence.
  - intros i c' v Hc' Hv. cbn in Hc'. destruct (Hlk i c' Hc') as (c & Hci & _ & Ht & Hlc & _).
    destruct (Forall2_lookup_lr _ _ _ _ _ _ Hc Hci Hv) as (Hcw & Hct & Hli & H128).
    split_and!; [by eapply Forall_lookup_1|congruence|done|]. intros Hvc. rewrite Hlc. by apply H128.
Qed.

Lemma type_match_spec a b : Schema.type_match a b = true <-> Forall2 (fun c1 c2 => column_type_ c1 = column_type_ c2) a b.
Proof.
  revert b. induction a as [|c1 a IH]; intros [|c2 b]; cbn [Schema.type_match].
  - split; [by constructor|done].
  - split; [done|]. intros Hf. inversion Hf.
  - split; [done|]. intros Hf. inversion Hf.
  - rewrite andb_true_iff, bool_decide_eq_true, IH, Forall2_cons. done.
Qed.

Lemma temp_types cols vs ts : Forall2 temp_ok cols vs ->
  Schema.type_match ts cols = true <-> Forall2 (fun c v => column_type_ c = type_id_ v) ts vs.
Proof.
  rewrite type_match_spec. intros Hc. revert ts. induction Hc as [|c v cols vs (_ & Ht & _) _ IH]; intros ts.
  - split; intros Hf; inversion Hf; constructor.
  - destruct ts as [|t ts]; [split; intros Hf; inversion Hf|]. rewrite !Forall2_cons, IH, Ht. done.
Qed.

Definition inserted_rows : Column := mk_Column "inserted_rows" INTEGER 4 0 0 false.
Definition inserted_schema : Schema := mk_Schema [inserted_rows] [] 4.

(** The statement [INSERT INTO n VALUES (l)]. *)
Definition insert_values (n : string) (l : list hsql.Expr) : hsql.SQLStatement :=
  hsql.kStmtInsert (hsql.mk_InsertStatement n (Some l) None).

Lemma Bind_insert n l vs c m : Catalog.GetTableByName n c = Ok m -> String.prefix "__" n = false ->
  Forall2 is_literal l vs ->
  Binder.Bind (insert_values n l) c = Ok (INSERT_STATEMENT (mk_InsertStatement
    (mk_BoundBaseTableRef n (table_oid_ m) (schema_ m))
    (mk_SelectStatement (BoundExpressionListRef [BoundConstant <$> vs]) (Binder.temp_columns (length vs))))).
Proof.
  intros Ht Hp Hl. cbn [Binder.Bind insert_values]. unfold Binder.BindInsert, Binder.BindBaseTableRef.
  cbn [hsql.insert_tableName hsql.values]. rewrite Ht. cbn [mbind res_bind table_]. rewrite Hp.
  unfold Binder.BindValuesList, Binder.BindExpressionList. rewrite (bind_literals _ _ _ _ _ Hl).
  cbn [mbind res_bind app Binder.values_select]. by rewrite length_fmap.
Qed.

(** Values of literals can be printed. *)
Lemma literals_print l vs : Forall2 is_literal l vs ->
  exists str, AbstractPlanNode.expressions_ToString (ConstantValueExpression <$> vs) = Ok str.
Proof.
  induction 1 as [|e v l vs He Hl [str IH]]; [by eexists|]. cbn [fmap list_fmap].
  assert (exists s, AbstractExpression.ToString (ConstantValueExpression v) = Ok s) as [s Es].
  { destruct (literal_value e v He) as [(z & -> & _)|(s & ->)]; cbn; by eexists. }
  destruct vs as [|v' vs]; cbn [fmap list_fmap AbstractPlanNode.expressions_ToString] in *; rewrite Es; [by eexists|].
  cbn [mbind res_bind]. rewrite IH. by eexists.
Qed.

(** Planning the statement: the plan when the types match, an exception when not. *)
Lemma PlanQuery_insert n oid ts l vs c : Forall2 is_literal l vs -> Z.of_nat (length vs) < 2 ^ 29 ->
  exists cs, schema_wf cs /\ Forall2 temp_ok (columns_ cs) vs /\
    tuple_inline_part_storage_size_ cs = 4 * Z.of_nat (length vs) /\
    Planner.PlanQuery (INSERT_STATEMENT (mk_InsertStatement (mk_BoundBaseTableRef n oid ts)
      (mk_SelectStatement (BoundExpressionListRef [BoundConstant <$> vs]) (Binder.temp_columns (length vs))))) c =
    if decide (Forall2 (fun c v => column_type_ c = type_id_ v) (columns_ ts) vs)
    then Ok (InsertPlanNode inserted_schema (ValuesPlanNode cs [ConstantValueExpression <$> vs]) oid)
    else Err Exception.
Proof.
  intros Hl Hn. destruct (PlanValues l vs Hl Hn) as (cs & E & Hwf & Hc & Ht). exists cs. split_and!; [done..|].
  unfold Planner.PlanQuery, Planner.PlanInsert, Planner.PlanSelect, Planner.PlanTableRef.
  cbn [insert_select_ select_table_ table_ref_type Planner.table_ref_ToString mbind res_bind insert_table_ base_schema_ oid_].
  rewrite E. cbn [mbind res_bind AbstractPlanNode.OutputSchema]. unfold Schema.TypeMatch.
  case_decide as Hm.
  - rewrite (proj2 (temp_types _ _ _ Hc)) by done. cbn [negb].
    change (Column.fixed "inserted_rows" INTEGER) with (Ok inserted_rows). cbn [mbind res_bind].
    change (Schema.make [inserted_rows]) with (Ok inserted_schema). cbn [mbind res_bind AbstractPlanNode.ToString AbstractPlanNode.rows_ToString].
    destruct (literals_print l vs Hl) as [str Es]. rewrite Es. done.
  - destruct (Schema.type_match (columns_ ts) (columns_ cs)) eqn:Em; [|done].
    by apply (temp_types _ _ _ Hc) in Em.
Qed.

(** ** The row of a VALUES list, in the layout of the table *)
Definition same_cell (c c' : Column) : Prop :=
  column_type_ c = column_type_ c' /\ storage_offset_ c = storage_offset_ c'.

Lemma inline_size_type c c' : column_wf c -> column_wf c' -> column_type_ c = column_type_ c' ->
  Schema.inline_size c = Schema.inline_size c'.
Proof.
  unfold column_wf, Schema.inline_size, Column.IsInlined, Column.GetStorageSize. intros Hc Hc' E. rewrite <- E in *.
  case_bool_decide as Hv; cbn; [done|]. destruct (column_type_ c); try lia; by destruct Hv.
Qed.

(** Schemas with the same types lay their columns out alike. *)
Lemma same_layout cols cols' o e e' : Forall column_wf cols -> Forall column_wf cols' ->
  Forall2 (fun c c' => column_type_ c = column_type_ c') cols cols' -> laid_out cols o e -> laid_out cols' o e' ->
  e = e' /\ Forall2 same_cell cols cols'.
Proof.
  intros Hwf Hwf' Ht. revert o Hwf Hwf'. induction Ht as [|c c' cols cols' Hc _ IH]; intros o Hwf Hwf' Hl Hl'.
  - cbn in *. split; [congruence|constructor].
  - apply Forall_cons in Hwf as [Hw Hwf], Hwf' as [Hw' Hwf']. destruct Hl as [Ho Hl], Hl' as [Ho' Hl'].
    rewrite <- (inline_size_type c c') in Hl' by done. destruct (IH _ Hwf Hwf' Hl Hl') as [He Hcs].
    split; [done|]. constructor; [|done]. split; [done|congruence].
Qed.

Lemma GetValue_col_same t c c' : same_cell c c' -> Tuple.GetValue_col t c = Tuple.GetValue_col t c'.
Proof.
  intros [Ht Ho]. unfold Tuple.GetValue_col, Tuple.GetDataPtr, Column.IsInlined, Column.GetStorageOffset, Column.GetType.
  by rewrite Ht, Ho.
Qed.
Lemma GetValue_same t s s' i : Forall2 same_cell (columns_ s) (columns_ s') -> Tuple.GetValue t s i = Tuple.GetValue t s' i.
Proof.
  intros Hs. unfold Tuple.GetValue, Schema.GetColumn. pose proof (Forall2_length _ _ _ Hs) as Hl.
  destruct (columns_ s !! i) as [c|] eqn:E.
  - destruct (Forall2_lookup_l _ _ _ _ _ Hs E) as (c' & -> & Hc). by apply GetValue_col_same.
  - destruct (columns_ s' !! i) as [c'|] eqn:E'; [|done]. apply lookup_lt_Some in E'. apply lookup_ge_None in E. lia.
Qed.

(** Literals short enough for the planner's columns. *)
Definition short_literal (v : Value) : Prop :=
  Value.well_typed v /\ literal_type (type_id_ v) /\ forall n, Value.GetStorageSize v = Ok n -> n <= VARCHAR_DEFAULT_LENGTH.

Lemma short_fits c v : temp_ok c v -> short_literal v -> fits c v.
Proof.
  intros (_ & Ht & _ & H128) (Hw & _ & Hn). split_and!; [done|done|]. intros Hv n En. rewrite H128 by congruence. by apply Hn.
Qed.
Lemma short_stored v : short_literal v -> stored v = Ok v.
Proof.
  intros ([Hw Hnl] & Ht & Hn). destruct v as [t v nl]; cbn in *; subst nl. unfold stored; cbn.
  destruct Ht; subst t; destruct v as [| | |s]; try done. unfold Value.GetStorageSize, Value.GetVarlenStorageSize in Hn.
  cbn in Hn. cbn in Hw. unfold string_valid in Hw. specialize (Hn _ eq_refl). rewrite uwrap_id in Hn by width.
  unfold VARCHAR_DEFAULT_LENGTH in Hn. destruct (Z.ltb_spec (Z.of_nat (String.length s)) PAGE_SIZE) as [|Hge]; [done|].
  unfold PAGE_SIZE in Hge. lia.
Qed.
Lemma short_print v : short_literal v -> exists s, Value.ToString v = Ok s.
Proof.
  intros ([Hw _] & Ht & _). destruct v as [t v nl]; cbn in *. destruct Ht; subst t; destruct v; try done; by eexists.
Qed.

Lemma row_prints t cols vs : Forall short_literal vs -> length cols = length vs ->
  (forall i c v, cols !! i = Some c -> vs !! i = Some v -> Tuple.GetValue_col t c = Ok v) ->
  exists l, Tuple.to_strings t cols = Ok l.
Proof.
  intros Hv. revert cols. induction Hv as [|v vs Hs Hv IH]; intros [|c cols] Hl Hget; try done; [by eexists|].
  destruct (short_print v Hs) as [s Es]. destruct (IH cols) as [l El]; [by injection Hl|intros i; apply (Hget (S i))|].
  cbn [Tuple.to_strings]. rewrite (Hget 0%nat c v eq_refl eq_refl). cbn [mbind res_bind]. rewrite Es.
  cbn [mbind res_bind]. rewrite El. by eexists.
Qed.

(** The bytes a row of literals takes in a table with as many columns. *)
Definition row_size (vs : list Value) : Z := 4 * Z.of_nat (length vs) + varlen_total vs.

(** What the executor hands out is a row of the table: it reads back through the table's
    schema, whatever lengths its VARCHAR columns were declared with. *)
Lemma values_row cs ts vs : schema_wf cs -> schema_wf ts -> Forall2 temp_ok (columns_ cs) vs ->
  Forall2 (fun c v => column_type_ c = type_id_ v) (columns_ ts) vs ->
  tuple_inline_part_storage_size_ cs = 4 * Z.of_nat (length vs) ->
  Forall short_literal vs -> (0 < length vs)%nat -> row_size vs < PAGE_SIZE ->
  exists D, Tuple.make vs cs = Ok (mk_Tuple RID_default D) /\ Z.of_nat (length D) = row_size vs /\
    (exists str, Tuple.ToString (mk_Tuple RID_default D) cs = Ok str) /\
    forall rid i v, vs !! i = Some v -> Tuple.GetValue (mk_Tuple rid D) ts i = Ok v.
Proof.
  intros Hcs Hts Hc Ht Hin Hs Hpos Hsz. unfold row_size, PAGE_SIZE in *. pose proof (varlen_total_nonneg vs).
  assert (Forall2 fits (columns_ cs) vs) as Hfit.
  { apply Forall2_same_length_lookup_2; [by eapply Forall2_length|]. intros i c v Hci Hvi.
    apply short_fits; [by eapply Forall2_lookup_lr|by eapply Forall_lookup_1]. }
  destruct (make_row cs vs Hcs Hfit) as (D & E & Hl & Hget); [unfold PAGE_SIZE; lia|lia|].
  exists D. split_and!; [done|lia| |].
  - destruct (row_prints (mk_Tuple RID_default D) (columns_ cs) vs Hs) as [l El]; [by eapply Forall2_length| |].
    + intros i c v Hci Hvi. specialize (Hget RID_default i v Hvi). unfold Tuple.GetValue, Schema.GetColumn in Hget.
      rewrite Hci in Hget. cbn [mbind res_bind] in Hget. rewrite Hget. apply short_stored. by eapply Forall_lookup_1.
    + unfold Tuple.ToString. rewrite El. by eexists.
  - intros rid i v Hv. rewrite <- (GetValue_same _ cs ts); [rewrite (Hget rid i v Hv); apply short_stored; by eapply Forall_lookup_1|].
    eapply same_layout; [apply Hcs|apply Hts| |apply Hcs|apply Hts].
    apply Forall2_same_length_lookup_2.
    + rewrite (Forall2_length _ _ _ Hc). symmetry. by eapply Forall2_length.
    + intros j c c' Hj Hj'. destruct (Forall2_lookup_l _ _ _ _ _ Hc Hj) as (v' & Hv' & _ & Hct & _).
      rewrite Hct. symmetry. by eapply (Forall2_lookup_lr _ _ _ _ _ _ Ht).
Qed.

(** C18: an INSERT ... VALUES statement with integer and string literals is planned
    exactly when the literals have the types of the table's columns, one for one, and
    is refused with an exception otherwise; a table with a BOOLEAN or TIMESTAMP column
    accepts no such statement. *)
Theorem insert_values_planned n l vs c m : Catalog.GetTableByName n c = Ok m -> String.prefix "__" n = false ->
  Forall2 is_literal l vs -> Z.of_nat (length vs) < 2 ^ 29 ->
  exists cs, (b ← Binder.Bind (insert_values n l) c; Planner.PlanQuery b c) =
    (if decide (Forall2 (fun col v => column_type_ col = type_id_ v) (columns_ (schema_ m)) vs)
     then Ok (InsertPlanNode inserted_schema (ValuesPlanNode cs [ConstantValueExpression <$> vs]) (table_oid_ m))
     else Err Exception) /\
    ((exists col, col ∈ columns_ (schema_ m) /\ ~ literal_type (column_type_ col)) ->
     (b ← Binder.Bind (insert_values n l) c; Planner.PlanQuery b c) = Err Exception).
Proof.
  intros Hm Hp Hl Hn. destruct (PlanQuery_insert n (table_oid_ m) (schema_ m) l vs c Hl Hn) as (cs & _ & _ & _ & E).
  exists cs. rewrite (Bind_insert n l vs c m Hm Hp Hl). cbn [mbind res_bind]. rewrite E. split; [done|].
  intros (col & Hcol & Hno). rewrite decide_False; [done|]. intros Ht. apply Hno.
  apply list_elem_of_lookup in Hcol as [i Hi]. destruct (Forall2_lookup_l _ _ _ _ _ Ht Hi) as (v & Hv & ->).
  destruct (Forall2_lookup_r _ _ _ _ _ Hl Hv) as (e & _ & He).
  destruct (literal_value e v He) as [(z & -> & _)|(s & ->)]; [by left|by right].
Qed.

(** [INSERT INTO t VALUES (7)] into a table of one INTEGER column, and of one TIMESTAMP. *)
Definition int_literal : hsql.Expr := hsql.mk_Expr hsql.kExprLiteralInt 7 None hsql.kOpOther None None.
Definition one_column (t : TypeId) (len : Z) : Catalog :=
  mk_Catalog {[0 := Some (TableMeta.make (mk_Schema [mk_Column "c" t len 0 0 false] [] len) "t" 0)]} ∅ ∅ {["t"%string := 0]}.
Lemma int_literal_is : Forall2 is_literal [int_literal] [mk_Value INTEGER (VInt32 7) false].
Proof. repeat constructor. Qed.

Lemma insert_values_planned_witness :
  (exists cs, (b ← Binder.Bind (insert_values "t" [int_literal]) (one_column INTEGER 4); Planner.PlanQuery b (one_column INTEGER 4)) =
    Ok (InsertPlanNode inserted_schema (ValuesPlanNode cs [[ConstantValueExpression (mk_Value INTEGER (VInt32 7) false)]]) 0)) /\
  (b ← Binder.Bind (insert_values "t" [int_literal]) (one_column TIMESTAMP 8); Planner.PlanQuery b (one_column TIMESTAMP 8)) =
    Err Exception.
Proof.
  split.
  - destruct (insert_values_planned "t" [int_literal] [mk_Value INTEGER (VInt32 7) false] (one_column INTEGER 4) _
      eq_refl eq_refl int_literal_is ltac:(cbn; lia)) as (cs & E & _).
    exists cs. rewrite E. rewrite decide_True by (repeat constructor). reflexivity.
  - destruct (insert_values_planned "t" [int_literal] [mk_Value INTEGER (VInt32 7) false] (one_column TIMESTAMP 8) _
      eq_refl eq_refl int_literal_is ltac:(cbn; lia)) as (cs & _ & E).
    apply E. eexists. split; [left|]. intros [Ht|Ht]; discriminate Ht.
Defined.
