(* ===== verification/DatabaseThms.v ===== *)
(** * The database: INSERT from SQL text to disk, and SELECT *)
From S2P Require Import Prelude Bytes Streams Serializer Codec CodecFacts Types Value Schema Tuple Expressions.
From S2P Require Import Files TablePage DiskManager BufferPool BufferPoolProps PageGuard TableMeta.
From S2P Require Import TableHeap TableHeapProps TableHeapThms TableScan Index BtreePage.
From S2P Require Import BtreeThms Transactions BTreeIndex Catalog CatalogFacts CatalogThms.
From S2P Require Import Binder Planner PlannerThms Database.
Open Scope Z_scope.

(** ** Tables in the buffer pool *)
Section tables.
Context {D : Type} `{PageStore D} `{!HashOrder Z bool} `{!TupleInfoLayout}.
#[local] Set Default Proof Using "Type*".
Abbreviation heap := (table_heap D).
Implicit Types (h : heap) (ch : chain).

(** A table without pages, as [CreateTable] leaves it. *)
Record fresh_table h : Prop := {
  fr_pool : pool_ok (bpm_ h);
  fr_idle : idle (bpm_ h);
  fr_oid : table_oid_ (table_meta_ h) <> INVALID_TABLE_OID;
  fr_range : -1 <= last_table_data_page_id_ (table_meta_ h);
  fr_none : last_table_heap_data_page_id_ (table_meta_ h) = INVALID_PAGE_ID;
  fr_free n : last_table_data_page_id_ (table_meta_ h) < n -> page_table_ (bpm_ h) !! page_of_heap h n = None
}.
Definition table_state h ch : Prop := heap_ok h ch \/ (ch = [] /\ fresh_table h).

(** The rows of a chain of pages. *)
Definition heap_rows ch : list (TupleMeta * list byte) := concat ((fun p => tp_rows p.2) <$> ch).
Lemma heap_rows_insert fresh pre n a mt t : heap_rows (chain_insert fresh (pre ++ [(n, a)]) mt t).2 =
  heap_rows (pre ++ [(n, a)]) ++ [(mt, Tuple.data_ t)].
Proof using.
  rewrite chain_insert_app. unfold heap_rows.
  destruct (room a t); cbn [snd]; rewrite !fmap_app, !concat_app; cbn; rewrite ?app_nil_r, <- ?app_assoc; done.
Qed.

(** The chain and the next page number once the constructor has run. *)
Definition constructed h ch : chain := match ch with [] => [(fresh_page h, empty_page)] | _ => ch end.
Definition next_page h ch : Z := match ch with [] => fresh_page h + 1 | _ => fresh_page h end.
(** Two more pages can be numbered and stored. *)
Definition has_room h : Prop := forall n, fresh_page h <= n <= fresh_page h + 1 ->
  n < 2 ^ 31 /\ ps_storable (page_of_heap h n).

Definition same_table (m m' : TableMeta) : Prop :=
  schema_ m' = schema_ m /\ name_ m' = name_ m /\ table_oid_ m' = table_oid_ m /\ tuple_count_ m' = tuple_count_ m.

Lemma construct_table h ch : table_state h ch -> has_room h ->
  match TableHeap.TableHeap h with
  | (Ok _, h') => heap_ok h' (constructed h ch) /\ same_table (table_meta_ h) (table_meta_ h') /\
      fresh_page h' = next_page h ch /\ can_grow h' /\ apart (table_oid_ (table_meta_ h)) (bpm_ h) (bpm_ h')
  | (Err e, h') => e = StdRuntimeError /\ h' = h
  end.
Proof.
  intros [Hok|[-> Hfr]] Hroom.
  - rewrite (heap_ok_no_construct h ch Hok). destruct (hp_last _ _ Hok) as (pre & a & Hch).
    assert (constructed h ch = ch /\ next_page h ch = fresh_page h) as [-> ->] by (rewrite Hch; by destruct pre).
    split_and!; try done; apply Hroom; lia.
  - destruct Hfr as [Hp Hi Ho Hr Hn Hf].
    pose proof (construct_spec h Hp Hi Ho (Hroom (fresh_page h) ltac:(lia)) Hr Hn Hf) as Hc.
    destruct (TableHeap.TableHeap h) as [[r|e] h']; [|done]. destruct Hc as (Hok & _ & _ & Hap & Hm).
    assert (fresh_page h' = fresh_page h + 1) as Hfp by (unfold fresh_page at 1; by rewrite Hm).
    split_and!; try done; [by rewrite Hm..|unfold can_grow, page_of_heap; rewrite Hfp, Hm; apply Hroom; lia].
Qed.

Lemma heap_ok_count h m ch : heap_ok h ch -> table_oid_ m = table_oid_ (table_meta_ h) ->
  last_table_data_page_id_ m = last_table_data_page_id_ (table_meta_ h) ->
  last_table_heap_data_page_id_ m = last_table_heap_data_page_id_ (table_meta_ h) ->
  heap_ok (mk_table_heap (bpm_ h) m) ch.
Proof.
  intros [Ho Hp Hi Hla Hli Hn Hpg Hf Hr] E1 E2 E3. split; cbn [table_meta_ bpm_]; rewrite ?E1, ?E2, ?E3; try done.
  - intros n a Hna. unfold page_of_heap. cbn [table_meta_]. rewrite E1. by apply Hpg.
  - intros n Hgt. unfold page_of_heap. cbn [table_meta_]. rewrite E1. by apply Hf.
Qed.

(** Meta data of a heap can be stored. *)
Lemma heap_meta_valid h ch : heap_ok h ch -> Schema.valid (schema_ (table_meta_ h)) ->
  string_valid (name_ (table_meta_ h)) -> in_s 32 (table_oid_ (table_meta_ h)) -> in_u 64 (tuple_count_ (table_meta_ h)) ->
  TableMeta.valid (table_meta_ h).
Proof.
  intros Hok Hs Hn Ho Hc. pose proof (hp_range _ _ Hok). destruct (hp_last _ _ Hok) as (pre & a & ->).
  destruct (chain_page_last _ _ _ (hp_nodup _ _ Hok)) as [Hl _]. destruct (hp_pages _ _ Hok _ _ Hl) as (? & _).
  unfold TableMeta.valid. split_and!; try done; width.
Qed.

(** Every page of the heap is in the store. *)
Definition stored_heap h ch : Prop :=
  forall n a, chain_page ch n = Some a -> on_store (bpm_ h) (page_of_heap h n).

(** Flushing the pool keeps a heap and stores its pages. *)
Lemma flush_heap h ch : heap_ok h ch -> exists p, BufferPool.FlushAllPages (bpm_ h) = (Ok tt, p) /\
  heap_ok (mk_table_heap p (table_meta_ h)) ch /\ stored_heap (mk_table_heap p (table_meta_ h)) ch /\
  ps_ok (disk_manager_ p).
Proof.
  intros [Ho Hp Hi Hla Hli Hn Hpg Hf Hr]. destruct (flush_all (bpm_ h) Hp) as (p & E & Hp' & Hk & Hkept & Ht & Hst).
  exists p. split; [done|]. split; [|split; [|apply (po_disk _ _ Hp')]].
  - split; cbn [table_meta_ bpm_]; try done.
    + intros q. destruct (Hk q) as (-> & -> & _). apply Hi.
    + intros n a Hna. destruct (Hpg n a Hna) as (? & Hs & Hkp & Hrep). split_and!; [lia..|done|by apply Hkept|].
      by rewrite (proj2 (proj2 (Hk _))).
    + intros n Hgt. rewrite Ht. by apply Hf.
  - intros n a Hna. destruct (Hpg n a Hna) as (_ & Hs & Hkp & _). cbn [bpm_].
    change (page_of_heap (mk_table_heap p (table_meta_ h)) n) with (page_of_heap h n).
    destruct (page_table_ (bpm_ h) !! page_of_heap h n) as [f|] eqn:Et; [by apply (Hst _ f)|].
    unfold on_store, content. rewrite Ht, Et. split; [done|].
    destruct (Hkept _ Hs Hkp) as [|(f & pg & Ef & _)]; [done|]. by rewrite Ht, Et in Ef.
Qed.

(** A heap whose pages are stored is found again by a new pool on the store. *)
Lemma reopen_heap h ch n m : heap_ok h ch -> stored_heap h ch -> 0 <= n -> ps_ok (disk_manager_ (bpm_ h)) ->
  table_oid_ m = table_oid_ (table_meta_ h) ->
  last_table_data_page_id_ m = last_table_data_page_id_ (table_meta_ h) ->
  last_table_heap_data_page_id_ m = last_table_heap_data_page_id_ (table_meta_ h) ->
  heap_ok (mk_table_heap (BufferPool.BufferPool n (disk_manager_ (bpm_ h))) m) ch.
Proof.
  intros Hok Hst Hn Hd E1 E2 E3. destruct (BufferPool_ok n (disk_manager_ (bpm_ h)) Hd Hn) as [Hp Hc].
  apply (heap_ok_count (mk_table_heap _ (table_meta_ h))); [|done..].
  destruct Hok as [Ho _ _ Hla Hli Hnd Hpg Hf Hr]. split; cbn [table_meta_ bpm_]; try done.
  intros k a Hka. destruct (Hpg k a Hka) as (? & Hs & _ & Hrep). destruct (Hst k a Hka) as [Hcont Hrd].
  split_and!; [lia..|done|by left|].
  change (rep (content (BufferPool.BufferPool n (disk_manager_ (bpm_ h))) (page_of_heap h k)) a). by rewrite Hc, Hcont.
Qed.
(** What operations on other tables leave of a table's pages, and the flush. *)
Lemma table_state_apart p p' m ch oid : table_state (mk_table_heap p m) ch -> table_oid_ m <> oid -> apart oid p p' ->
  pool_ok p' -> idle p' -> table_state (mk_table_heap p' m) ch.
Proof.
  intros [Hok|[-> [F1 F2 F3 F4 F5 F6]]] Hne Hap Hp' Hi'.
  - left. by eapply heap_ok_apart.
  - right. split; [done|]. split; try done. intros n Hn. by apply (ap_absent _ _ _ Hap), F6.
Qed.
Lemma table_state_flush p p' m ch : table_state (mk_table_heap p m) ch -> BufferPool.FlushAllPages p = (Ok tt, p') ->
  table_state (mk_table_heap p' m) ch /\ stored_heap (mk_table_heap p' m) ch.
Proof.
  intros [Hok|[-> [F1 F2 F3 F4 F5 F6]]] E.
  - destruct (flush_heap _ _ Hok) as (p1 & E1 & Hok1 & Hst & _). cbn [bpm_] in E1. rewrite E in E1. injection E1 as <-.
    split; [by left|done].
  - cbn [bpm_ table_meta_] in *. destruct (flush_all p F1) as (p1 & E1 & Hp' & Hk & _ & Ht & _). rewrite E in E1. injection E1 as <-.
    split; [|by intros n a]. right. split; [done|]. split; cbn [bpm_ table_meta_]; try done.
    + intros q. destruct (Hk q) as (-> & -> & _). apply F2.
    + intros n Hn. rewrite Ht. by apply F6.
Qed.
End tables.

(** ** Executing INSERT ... VALUES *)
Section insert.
Context {D : Type} `{PageStore D} `{!HashOrder Z bool} `{!TupleInfoLayout}.
#[local] Set Default Proof Using "Type*".
Implicit Types (s : db D) (m : TableMeta) (ch : chain).

Definition heap_of s m : table_heap D := mk_table_heap (db_bpm_ s) m.
Definition with_heap s oid (h : table_heap D) : db D :=
  mk_db (Catalog.set_table oid (table_meta_ h) (catalog_ s)) (db_fs_ s) (bpm_ h).
Definition table_entry s oid m : Prop := tables_ (catalog_ s) !! oid = Some (Some m).

Lemma on_heap_run {A} s oid m (f : M (table_heap D) A) r h : table_entry s oid m ->
  f (heap_of s m) = (r, h) -> on_heap oid f s = (r, with_heap s oid h).
Proof. intros Hm E. unfold on_heap, Catalog.table_at. rewrite Hm. cbn [Catalog.deref]. unfold heap_of in E. by rewrite E. Qed.

Lemma with_heap_entry s oid h : table_entry (with_heap s oid h) oid (table_meta_ h).
Proof. unfold table_entry. cbn. apply lookup_insert_eq. Qed.
Lemma with_heap_of s oid h : heap_of (with_heap s oid h) (table_meta_ h) = h.
Proof. by destruct h. Qed.
Lemma with_heap_twice s oid h h' : with_heap (with_heap s oid h) oid h' = with_heap s oid h'.
Proof. unfold with_heap, Catalog.set_table. cbn. by rewrite insert_insert_eq. Qed.
Lemma with_heap_same s oid m : table_entry s oid m -> with_heap s oid (heap_of s m) = s.
Proof.
  intros Hm. unfold with_heap, Catalog.set_table, heap_of. cbn. destruct s as [[t i x n] fs p]. cbn in *.
  by rewrite insert_id.
Qed.

Lemma GetTable_ref_ok s oid m : table_entry s oid m -> table_names_ (catalog_ s) !! name_ m = Some oid ->
  GetTable_ref oid s = (Ok oid, s).
Proof.
  intros Hm Hn. unfold GetTable_ref. rewrite (bind_ok get_state _ s s s) by done.
  unfold Catalog.GetTableName, Catalog.table_key, Catalog.table_at, lift. rewrite Hm. cbn [Catalog.deref mbind res_bind].
  rewrite Hn. cbn [mbind res_bind]. by rewrite Hm.
Qed.

(** Twice counted: once by the heap and once by the executor. *)
Definition counted_twice m m' : Prop :=
  schema_ m' = schema_ m /\ name_ m' = name_ m /\ table_oid_ m' = table_oid_ m /\ tuple_count_ m' = uwrap 64 (tuple_count_ m + 2).

Definition live : TupleMeta := mk_TupleMeta false.

Lemma insert_row_spec s oid m ch cs t count str : table_entry s oid m -> heap_ok (heap_of s m) ch -> can_grow (heap_of s m) ->
  TableHeapProps.fits t -> Tuple.ToString t cs = Ok str -> in_s 32 (count + 1) ->
  match insert_row oid cs t count s with
  | (Ok r, s') => exists h, s' = with_heap s oid h /\ r.2 = count + 1 /\
      heap_ok h (chain_insert (fresh_page (heap_of s m)) ch live t).2 /\ counted_twice m (table_meta_ h) /\
      fresh_page h <= fresh_page (heap_of s m) + 1 /\ apart (table_oid_ m) (db_bpm_ s) (bpm_ h)
  | (Err e, s') => e = StdRuntimeError /\ exists h, s' = with_heap s oid h /\ heap_ok h ch /\ table_meta_ h = m /\
      apart (table_oid_ m) (db_bpm_ s) (bpm_ h)
  end.
Proof.
  intros Hm Hok Hgr Hf Hstr Hc. unfold insert_row. rewrite Hstr, (bind_ok (lift (Ok str)) _ s str s) by done.
  pose proof (InsertTuple_heap (heap_of s m) ch live t Hok Hf Hgr) as Hi. fold live.
  destruct (TableHeap.InsertTuple live t (heap_of s m)) as [[r|e] h] eqn:E.
  - destruct Hi as (-> & Hok' & (Hs & Hn & Ho & Hcnt) & Hfr & Hap).
    assert (fresh_page h <= fresh_page (heap_of s m) + 1) as Hle.
    { destruct (hp_last _ _ Hok) as (pre & a & ->).
      pose proof (chain_insert_length (fresh_page (heap_of s m)) pre (last_table_heap_data_page_id_ (table_meta_ (heap_of s m))) a live t). lia. }
    rewrite (bind_ok _ _ _ _ _ (on_heap_run s oid m _ _ h Hm E)).
    rewrite decide_True by done. rewrite (bind_ok (lift (Ok (count + 1))) _ _ (count + 1) (with_heap s oid h)) by done.
    pose proof (on_heap_run (with_heap s oid h) oid (table_meta_ h) (TableHeap.with_meta TableMeta.IncreaseTupleCount)
      (Ok tt) (mk_table_heap (bpm_ h) (TableMeta.IncreaseTupleCount (table_meta_ h))) (with_heap_entry s oid h)) as E2.
    rewrite with_heap_of in E2. unfold on_table. rewrite (bind_ok _ _ _ _ _ (E2 eq_refl)), with_heap_twice.
    eexists. split; [done|]. split; [done|]. split; [by apply heap_ok_count|].
    split; [|split; [exact Hle|exact Hap]].
    split_and!; cbn; [by rewrite Hs|by rewrite Hn|by rewrite Ho|]. rewrite Hcnt. cbn.
    by rewrite uwrap_add_l, <- Z.add_assoc.
  - destruct Hi as (-> & Hok' & Hmeta & Hap). rewrite (bind_err _ _ _ _ _ (on_heap_run s oid m _ _ h Hm E)).
    split; [done|]. by exists h.
Qed.

(** The executors of the statement. *)
Definition values_exec (cs : Schema) (vs : list Value) (cursor : Z) : AbstractExecutor :=
  ValuesExec cs [ConstantValueExpression <$> vs] cursor.

Lemma const_values_ok vs : ValuesExecutor.const_values (ConstantValueExpression <$> vs) = Ok vs.
Proof. induction vs as [|v vs IH]; [done|]. cbn [fmap list_fmap ValuesExecutor.const_values AbstractExpression.GetConstValue mbind res_bind]. by rewrite IH. Qed.

Lemma values_first k cs vs t r row s : Tuple.make vs cs = Ok row ->
  Next (S k) (values_exec cs vs 0) t r s = (Ok (true, row, r, values_exec cs vs 1), s).
Proof.
  intros E. unfold values_exec. cbn [Next].
  assert (ValuesExecutor.Next cs [ConstantValueExpression <$> vs] 0 t = Ok (true, row, 1)) as ->; [|done].
  unfold ValuesExecutor.Next. change (Z.of_nat (length [ConstantValueExpression <$> vs]) <=? 0) with false.
  change ([ConstantValueExpression <$> vs] !! Z.to_nat 0) with (Some (ConstantValueExpression <$> vs)). cbv iota beta.
  rewrite const_values_ok. cbn [mbind res_bind]. by rewrite E.
Qed.
Lemma values_end k cs vs t r s : Next (S k) (values_exec cs vs 1) t r s = (Ok (false, t, r, values_exec cs vs 1), s).
Proof. done. Qed.

(** The loop, one round unfolded. *)
Lemma insert_rows_unfold k oid child t r rid count s :
  insert_rows (S k) oid child t r rid count s =
    (n ← Next k child t r;
     let '(more, t, r, child) := n in
     if more : bool then
       i ← insert_row oid (AbstractExecutor.GetOutputSchema child) t count;
       insert_rows k oid child t r i.1 i.2
     else mret (child, rid, count)) s.
Proof. reflexivity. Qed.

(** The loop over a single row. *)
Lemma insert_rows_spec k s oid m ch cs vs row str : table_entry s oid m -> heap_ok (heap_of s m) ch -> can_grow (heap_of s m) ->
  Tuple.make vs cs = Ok row -> TableHeapProps.fits row -> Tuple.ToString row cs = Ok str ->
  match insert_rows (S (S (S k))) oid (values_exec cs vs 0) Tuple.dummy RID_default RID_default 0 s with
  | (Ok r, s') => exists h, s' = with_heap s oid h /\ r.2 = 1 /\
      heap_ok h (chain_insert (fresh_page (heap_of s m)) ch live row).2 /\ counted_twice m (table_meta_ h) /\
      fresh_page h <= fresh_page (heap_of s m) + 1 /\ apart (table_oid_ m) (db_bpm_ s) (bpm_ h)
  | (Err e, s') => e = StdRuntimeError /\ exists h, s' = with_heap s oid h /\ heap_ok h ch /\ table_meta_ h = m /\
      apart (table_oid_ m) (db_bpm_ s) (bpm_ h)
  end.
Proof.
  intros Hm Hok Hgr Hmk Hf Hstr. rewrite insert_rows_unfold.
  rewrite (bind_ok _ _ _ _ _ (values_first (S k) cs vs _ _ row s Hmk)). cbn [AbstractExecutor.GetOutputSchema values_exec].
  pose proof (insert_row_spec s oid m ch cs row 0 str Hm Hok Hgr Hf Hstr ltac:(width)) as Hi.
  destruct (insert_row oid cs row 0 s) as [[r|e] s1] eqn:E.
  - destruct Hi as (h & -> & Hr & Hrest). rewrite (bind_ok _ _ _ _ _ E), insert_rows_unfold.
    rewrite (bind_ok _ _ _ _ _ (values_end k cs vs _ _ _)). exists h. by rewrite Hr.
  - rewrite (bind_err _ _ _ _ _ E). exact Hi.
Qed.

(** The executor of the INSERT, one call unfolded. *)
Lemma insert_next_unfold k child os oid t rid s :
  Next (S k) (InsertExec child os oid false) t rid s =
    (key ← GetTable_ref oid;
     on_heap key TableHeap.TableHeap;;
     r ← insert_rows k key child Tuple.dummy RID_default rid 0;
     values ← lift (v ← Value.make INTEGER (Arg_int32 r.2); Ok [v]);
     tuple ← lift (Tuple.make values os);
     mret (true, tuple, r.1.2, InsertExec r.1.1 os oid true)) s.
Proof. reflexivity. Qed.

(** What an INSERT may leave behind when it fails: the table as it was, or with the first
    page it did not have; the other tables' pages as they were. *)
Definition untouched s oid m ch s' : Prop := exists h, s' = with_heap s oid h /\
  apart (table_oid_ m) (db_bpm_ s) (bpm_ h) /\
  (h = heap_of s m \/ (heap_ok h (constructed (heap_of s m) ch) /\ same_table m (table_meta_ h))).
(** And what it leaves when it succeeds. *)
Definition row_added s oid m ch row s' : Prop := exists h, s' = with_heap s oid h /\
  heap_ok h (chain_insert (next_page (heap_of s m) ch) (constructed (heap_of s m) ch) live row).2 /\
  counted_twice m (table_meta_ h) /\ fresh_page h <= fresh_page (heap_of s m) + 2 /\
  apart (table_oid_ m) (db_bpm_ s) (bpm_ h).

Lemma insert_exec_spec k s oid m ch cs vs row str : table_entry s oid m ->
  table_names_ (catalog_ s) !! name_ m = Some oid -> table_state (heap_of s m) ch -> has_room (heap_of s m) ->
  Tuple.make vs cs = Ok row -> TableHeapProps.fits row -> Tuple.ToString row cs = Ok str ->
  match Next (S (S (S (S k)))) (InsertExec (values_exec cs vs 0) inserted_schema oid false) Tuple.dummy RID_default s with
  | (Ok n, s') => (exists tuple rid child, n = (true, tuple, rid, InsertExec child inserted_schema oid true)) /\
      row_added s oid m ch row s'
  | (Err e, s') => e = StdRuntimeError /\ untouched s oid m ch s'
  end.
Proof.
  intros Hm Hnm Hts Hroom Hmk Hf Hstr. rewrite insert_next_unfold.
  rewrite (bind_ok _ _ _ _ _ (GetTable_ref_ok s oid m Hm Hnm)).
  pose proof (construct_table (heap_of s m) ch Hts Hroom) as Hc.
  destruct (TableHeap.TableHeap (heap_of s m)) as [[[]|e] h1] eqn:E1.
  2:{ destruct Hc as [-> ->]. rewrite (bind_err _ _ _ _ _ (on_heap_run s oid m _ _ _ Hm E1)). split; [done|].
      exists (heap_of s m). by split_and!; [|done|left]. }
  destruct Hc as (Hok & Hsame & Hfp & Hgr & Hap1). rewrite (bind_ok _ _ _ _ _ (on_heap_run s oid m _ _ _ Hm E1)).
  set (s1 := with_heap s oid h1). pose proof (with_heap_of s oid h1) as Eh. fold s1 in Eh.
  pose proof (insert_rows_spec k s1 oid (table_meta_ h1) (constructed (heap_of s m) ch) cs vs row str
    (with_heap_entry s oid h1)) as Hi. rewrite Eh in Hi. specialize (Hi Hok Hgr Hmk Hf Hstr).
  destruct (insert_rows _ oid _ _ _ _ _ s1) as [[r|e] s2] eqn:E2.
  - destruct Hi as (h & -> & Hr & Hok' & Hct & Hle & Hap). rewrite (bind_ok _ _ _ _ _ E2), Hr. unfold s1. rewrite with_heap_twice.
    rewrite (bind_ok _ _ _ [mk_Value INTEGER (VInt32 1) false] (with_heap s oid h)) by done.
    destruct (Tuple.make [mk_Value INTEGER (VInt32 1) false] inserted_schema) as [tuple|e] eqn:Et;
      [|by vm_compute in Et].
    rewrite (bind_ok _ _ _ tuple (with_heap s oid h)) by done. split; [by eexists _, _, _|].
    exists h. split; [done|]. rewrite Hfp in Hle. rewrite <- Hfp. split; [done|].
    assert (next_page (heap_of s m) ch <= fresh_page (heap_of s m) + 1) as Hnp by (unfold next_page; destruct ch; lia).
    rewrite (proj1 (proj2 (proj2 Hsame))) in Hap. split; [|split; [lia|by etrans; [exact Hap1|exact Hap]]].
    destruct Hct as (E3 & E4 & E5 & E6), Hsame as (F3 & F4 & F5 & F6).
    change (table_meta_ (heap_of s m)) with m in *. split_and!; congruence.
  - destruct Hi as (-> & h & -> & Hok' & Hmeta & Hap). rewrite (bind_err _ _ _ _ _ E2). split; [done|].
    exists h. unfold s1. rewrite with_heap_twice. split; [done|]. split; [|right; by rewrite Hmeta].
    rewrite (proj1 (proj2 (proj2 Hsame))) in Hap. by etrans; [exact Hap1|exact Hap].
Qed.

Lemma poll_unfold fuel rows e t rid l s : PollExecutor fuel (S rows) e t rid l s =
  (n ← Next fuel e t rid;
   let '(more, tuple, rid, executor) := n in
   if more : bool then PollExecutor fuel rows executor tuple rid (l ++ [tuple]) else mret l) s.
Proof. reflexivity. Qed.

Lemma execute_spec k s oid m ch cs vs row str : table_entry s oid m ->
  table_names_ (catalog_ s) !! name_ m = Some oid -> table_state (heap_of s m) ch -> has_room (heap_of s m) ->
  Tuple.make vs cs = Ok row -> TableHeapProps.fits row -> Tuple.ToString row cs = Ok str ->
  match Execute (S (S (S (S k)))) (InsertPlanNode inserted_schema (ValuesPlanNode cs [ConstantValueExpression <$> vs]) oid) s with
  | (Ok l, s') => length l = 1%nat /\ row_added s oid m ch row s'
  | (Err e, s') => e = StdRuntimeError /\ untouched s oid m ch s'
  end.
Proof.
  intros Hm Hnm Hts Hroom Hmk Hf Hstr. unfold Execute.
  rewrite (bind_ok _ _ s (InsertExec (values_exec cs vs 0) inserted_schema oid false) s) by done.
  rewrite poll_unfold. pose proof (insert_exec_spec k s oid m ch cs vs row str Hm Hnm Hts Hroom Hmk Hf Hstr) as Hi.
  destruct (Next _ (InsertExec _ _ _ false) _ _ s) as [[n|e] s'] eqn:E.
  - destruct Hi as [(tuple & rid & child & ->) Hadd]. rewrite (bind_ok _ _ _ _ _ E), poll_unfold.
    by rewrite (bind_ok _ _ s' (false, tuple, rid, InsertExec child inserted_schema oid true) s').
  - by rewrite (bind_err _ _ _ _ _ E).
Qed.
End insert.

(** ** Statements *)
Lemma persisted_cells sch : Forall2 same_cell (columns_ sch) (columns_ (Schema.persisted sch)).
Proof. cbn. rewrite <- list_fmap_id at 1. apply Forall2_fmap, Forall_Forall2_diag, Forall_forall. by intros c _. Qed.

Section statements.
Context {D : Type} `{PageStore D} `{!HashOrder Z bool} `{!TupleInfoLayout} `{!LeafLayout}.
Context `{!HashOrder Z (option TableMeta)} `{!HashOrder Z (option IndexMeta)}
  `{!HashOrder string Z} `{!HashOrder string (gmap string Z)}.
Context (parse : string -> option (list hsql.SQLStatement)) (index_id : Z).
#[local] Set Default Proof Using "Type*".
Implicit Types (s : db D) (m : TableMeta) (ch : chain).

(** A database whose catalog is in order on disk, and a table of it with its pages. *)
Record open_table s n oid m ch : Prop := {
  ot_wf : catalog_wf (catalog_ s);
  ot_layout : layout_ok (db_fs_ s);
  ot_disk : on_disk (catalog_ s) (db_fs_ s);
  ot_name : table_names_ (catalog_ s) !! n = Some oid;
  ot_entry : table_entry s oid m;
  ot_schema : schema_wf (schema_ m);
  ot_pages : table_state (heap_of s m) ch
}.

Lemma open_table_names s n oid m ch : open_table s n oid m ch -> name_ m = n /\ table_oid_ m = oid /\ TableMeta.valid m /\
  Catalog.GetTableByName n (catalog_ s) = Ok m.
Proof.
  intros [Hwf _ _ Hn Hm _ _]. destruct (wf_names _ Hwf _ _ Hn) as [_ (m0 & E & Hnm)]. unfold table_entry in Hm.
  rewrite Hm in E. injection E as <-. destruct (wf_tables _ Hwf _ _ Hm) as [_ (m0 & [= <-] & Hv & _ & _ & Ho)].
  split_and!; try done. unfold Catalog.GetTableByName, Catalog.table_key, Catalog.table_at. rewrite Hn. cbn [mbind res_bind].
  by rewrite Hm.
Qed.

(** Flushing and persisting at the end of a statement. *)
Lemma finish_steps s : pool_ok (db_bpm_ s) -> catalog_wf (catalog_ s) -> layout_ok (db_fs_ s) -> on_disk (catalog_ s) (db_fs_ s) ->
  exists p fs', (DB.with_bpm BufferPool.FlushAllPages;; DB.PersistCatalog) s = (Ok tt, mk_db (catalog_ s) fs' p) /\
    BufferPool.FlushAllPages (db_bpm_ s) = (Ok tt, p) /\ layout_ok fs' /\ on_disk (catalog_ s) fs' /\
    Catalog.make fs' = (Ok (catalog_persisted (catalog_ s)), fs').
Proof.
  intros Hp Hwf Hl Hd. destruct (flush_all (db_bpm_ s) Hp) as (p & E & _).
  destruct (PersistToDisk_spec (catalog_ s) (db_fs_ s) Hl (wf_valid _ Hwf) (wf_stored _ _ Hwf Hd))
    as (fs' & bs & tail & E2 & Hl' & Hbs & Hcat & Hs' & _).
  assert (on_disk (catalog_ s) fs') as Hd' by (intros n' [? ?]%Hd; split; by apply Hs').
  exists p, fs'. split_and!; [|done..|exact (load_catalog (catalog_ s) fs' bs tail (wf_valid _ Hwf) Hbs Hcat Hd')].
  rewrite (bind_ok (DB.with_bpm _) _ s tt (mk_db (catalog_ s) (db_fs_ s) p)) by (unfold DB.with_bpm; by rewrite E).
  unfold DB.PersistCatalog. rewrite (bind_ok get_state _ _ _ _ eq_refl). cbn [catalog_].
  by rewrite (with_fs_ok _ (mk_db (catalog_ s) (db_fs_ s) p) _ _ E2).
Qed.

Lemma finish_spec s n oid m ch : open_table s n oid m ch -> heap_ok (heap_of s m) ch ->
  exists s', (DB.with_bpm BufferPool.FlushAllPages;; DB.PersistCatalog) s = (Ok tt, s') /\
    catalog_ s' = catalog_ s /\ open_table s' n oid m ch /\ heap_ok (heap_of s' m) ch /\
    exists s0, (DB.DB (db_fs_ s') (disk_manager_ (db_bpm_ s'))).1 = Ok s0 /\
      table_entry s0 oid (TableMeta.persisted m) /\ heap_ok (heap_of s0 (TableMeta.persisted m)) ch.
Proof.
  intros [Hwf Hl Hd Hn Hm Hs Hp] Hok. destruct (flush_heap (heap_of s m) ch Hok) as (p & E & Hok' & Hst & Hdisk).
  destruct (finish_steps s (hp_pool _ _ Hok) Hwf Hl Hd) as (p' & fs' & E2 & Ep & Hl' & Hd' & Hload).
  change (bpm_ (heap_of s m)) with (db_bpm_ s) in E. rewrite E in Ep. injection Ep as <-.
  exists (mk_db (catalog_ s) fs' p). split_and!; try done.
  - split; try done. by left.
  - unfold DB.DB. cbn [db_fs_ db_bpm_]. rewrite Hload. eexists. split; [done|]. split.
    + unfold table_entry. cbn [catalog_ catalog_persisted tables_]. unfold table_entry in Hm. by rewrite lookup_fmap, Hm.
    + apply (reopen_heap (heap_of (mk_db (catalog_ s) fs' p) m)); try done.
Qed.

(** A row was added to a table that was open: it still is. *)
Lemma row_added_open s n oid m ch row s' : open_table s n oid m ch -> row_added s oid m ch row s' ->
  exists m', let ch' := (chain_insert (next_page (heap_of s m) ch) (constructed (heap_of s m) ch) live row).2 in
    counted_twice m m' /\ heap_ok (heap_of s' m') ch' /\ open_table s' n oid m' ch' /\
    (forall oid', oid' <> oid -> tables_ (catalog_ s') !! oid' = tables_ (catalog_ s) !! oid').
Proof.
  intros Hop (h & -> & Hok & Hct & _). destruct (open_table_names _ _ _ _ _ Hop) as (Hnm & Ho & Hv & _).
  pose proof Hct as (E1 & E2 & E3 & E4). destruct Hop as [Hwf Hl Hd Hn Hm Hs _]. exists (table_meta_ h).
  assert (heap_of (with_heap s oid h) (table_meta_ h) = h) as -> by apply with_heap_of.
  split_and!; [done|done| |].
  - split; cbn [catalog_ db_fs_ with_heap]; try done.
    + eapply set_table_wf; [exact Hwf|exact Hm|done|done|].
      destruct Hv as (V1 & V2 & V3 & _). eapply heap_meta_valid; [exact Hok|..]; rewrite ?E1, ?E2, ?E3, ?E4; try done.
      by apply uwrap_range.
    + by apply with_heap_entry.
    + by rewrite E1.
    + left. by rewrite with_heap_of.
  - intros oid' Hne. cbn. by rewrite lookup_insert_ne.
Qed.

(** An INSERT query, once it is planned. *)
Lemma query_steps fuel query stmt b plan s : parse query = Some [stmt] -> Binder.Bind stmt (catalog_ s) = Ok (INSERT_STATEMENT b) ->
  Planner.PlanQuery (INSERT_STATEMENT b) (catalog_ s) = Ok plan ->
  DB.ExecuteQuery parse index_id fuel query s =
    ((Execute fuel plan;; (DB.with_bpm BufferPool.FlushAllPages;; DB.PersistCatalog));; mret tt) s.
Proof.
  intros Hp Hb Hpl. unfold DB.ExecuteQuery. rewrite Hp. cbn [DB.execute_statements]. unfold mbind at 1 4, M_bind at 1 4.
  assert (DB.ExecuteStatement index_id fuel stmt s = (Execute fuel plan;; (DB.with_bpm BufferPool.FlushAllPages;; DB.PersistCatalog)) s) as ->; [|done].
  unfold DB.ExecuteStatement. rewrite (bind_ok get_state _ s s s) by done. rewrite Hb.
  rewrite (bind_ok (lift (Ok (INSERT_STATEMENT b))) _ s (INSERT_STATEMENT b) s) by done. rewrite Hpl.
  by rewrite (bind_ok (lift (Ok plan)) _ s plan s).
Qed.

(** An INSERT that cannot be bound or planned changes nothing. *)
Lemma query_refused fuel query st s e : parse query = Some [hsql.kStmtInsert st] ->
  (b ← Binder.Bind (hsql.kStmtInsert st) (catalog_ s); Planner.PlanQuery b (catalog_ s)) = Err e ->
  DB.ExecuteQuery parse index_id fuel query s = (Err e, s).
Proof.
  intros Hp He. unfold DB.ExecuteQuery. rewrite Hp. cbn [DB.execute_statements].
  assert (DB.ExecuteStatement index_id fuel (hsql.kStmtInsert st) s = (Err e, s)) as E; [|by rewrite (bind_err _ _ _ _ _ E)].
  unfold DB.ExecuteStatement. rewrite (bind_ok get_state _ s s s) by done. cbn [Binder.Bind] in He |- *.
  destruct (Binder.BindInsert _ (catalog_ s)) as [b|e'] eqn:Eb; cbn [mbind res_bind] in He |- *.
  - rewrite (bind_ok (lift (Ok _)) _ s (INSERT_STATEMENT b) s) by done. rewrite He. by apply bind_err.
  - injection He as ->. by apply bind_err.
Qed.

Definition row_fits (vs : list Value) : Prop :=
  row_size vs <= PAGE_SIZE - TABLE_PAGE_HEADER_SIZE - TUPLE_INFO_SIZE.

(** The effect of an INSERT query: a row added to the table, then the flush. *)
Lemma insert_values_effect k query l vs s n oid m ch : parse query = Some [insert_values n l] ->
  open_table s n oid m ch -> has_room (heap_of s m) -> String.prefix "__" n = false ->
  Forall2 is_literal l vs -> Forall short_literal vs ->
  Forall2 (fun col v => column_type_ col = type_id_ v) (columns_ (schema_ m)) vs ->
  (0 < length vs)%nat -> row_fits vs ->
  match DB.ExecuteQuery parse index_id (S (S (S (S k)))) query s with
  | (Ok _, s') => exists D s1, (forall rid i v, vs !! i = Some v -> Tuple.GetValue (mk_Tuple rid D) (schema_ m) i = Ok v) /\
      row_added s oid m ch (mk_Tuple RID_default D) s1 /\
      (DB.with_bpm BufferPool.FlushAllPages;; DB.PersistCatalog) s1 = (Ok tt, s') /\
      TableHeapProps.fits (mk_Tuple RID_default D)
  | (Err e, s') => e = StdRuntimeError /\ untouched s oid m ch s'
  end.
Proof.
  intros Hparse Hop Hroom Hpre Hl Hsh Ht Hpos Hfit. destruct (open_table_names _ _ _ _ _ Hop) as (Hnm & Ho & _ & Hget).
  unfold row_fits, row_size in Hfit. unfold PAGE_SIZE, TABLE_PAGE_HEADER_SIZE, TUPLE_INFO_SIZE in Hfit. pose proof (varlen_total_nonneg vs).
  destruct (PlanQuery_insert n oid (schema_ m) l vs (catalog_ s) Hl ltac:(width)) as (cs & Hcs & Hcok & Hin & Epl).
  rewrite decide_True in Epl by done.
  destruct (values_row cs (schema_ m) vs Hcs (ot_schema _ _ _ _ _ Hop) Hcok Ht Hin Hsh Hpos) as (D0 & Emk & Hlen & [str Hstr] & Hread).
  { unfold row_size, PAGE_SIZE. lia. }
  assert (TableHeapProps.fits (mk_Tuple RID_default D0)) as Hf.
  { unfold TableHeapProps.fits, PAGE_SIZE, TABLE_PAGE_HEADER_SIZE, TUPLE_INFO_SIZE. cbn. unfold row_size in Hlen. lia. }
  pose proof (Bind_insert n l vs (catalog_ s) m Hget Hpre Hl) as Eb. rewrite Ho in Eb.
  pose proof (execute_spec k s oid m ch cs vs (mk_Tuple RID_default D0) str (ot_entry _ _ _ _ _ Hop)) as Hex.
  rewrite Hnm in Hex. specialize (Hex (ot_name _ _ _ _ _ Hop) (ot_pages _ _ _ _ _ Hop) Hroom Emk Hf Hstr).
  rewrite (query_steps _ query _ _ _ s Hparse Eb Epl).
  destruct (Execute _ _ s) as [[rows|e] s1] eqn:E1.
  2:{ by rewrite (bind_err (_;; _) _ s e s1) by by rewrite (bind_err _ _ _ _ _ E1). }
  destruct Hex as [_ Hadd]. destruct (row_added_open s n oid m ch _ s1 Hop Hadd) as (m' & _ & Hok & Hop1 & _).
  destruct (finish_spec s1 n oid m' _ Hop1 Hok) as (s2 & E2 & _).
  rewrite (bind_ok (_;; _) _ s tt s2) by by rewrite (bind_ok _ _ _ _ _ E1).
  exists D0, s1. by split_and!.
Qed.

(** C3: the query [INSERT INTO n VALUES (...)] with literals of the table's types, the
    strings at most 128 bytes long, appends one row to the table's pages, or fails for
    want of a frame and leaves files and rows as they were.  The row reads back as the
    values through the table's schema, whatever the declared VARCHAR lengths; the other
    tables' meta data stay; the tuple count grows by two; and a database opened on the
    files and the store afterwards has the table with its new row. *)
Theorem insert_values_executed k query l vs s n oid m ch : parse query = Some [insert_values n l] ->
  open_table s n oid m ch -> has_room (heap_of s m) -> String.prefix "__" n = false ->
  Forall2 is_literal l vs -> Forall short_literal vs ->
  Forall2 (fun col v => column_type_ col = type_id_ v) (columns_ (schema_ m)) vs ->
  (0 < length vs)%nat -> row_fits vs ->
  match DB.ExecuteQuery parse index_id (S (S (S (S k)))) query s with
  | (Ok _, s') => exists m' D, let ch' := (chain_insert (next_page (heap_of s m) ch) (constructed (heap_of s m) ch) live
        (mk_Tuple RID_default D)).2 in
      (forall rid i v, vs !! i = Some v -> Tuple.GetValue (mk_Tuple rid D) (schema_ m') i = Ok v /\
         Tuple.GetValue (mk_Tuple rid D) (schema_ (TableMeta.persisted m')) i = Ok v) /\
      counted_twice m m' /\ open_table s' n oid m' ch' /\ heap_ok (heap_of s' m') ch' /\
      (forall oid', oid' <> oid -> tables_ (catalog_ s') !! oid' = tables_ (catalog_ s) !! oid') /\
      exists s0, (DB.DB (db_fs_ s') (disk_manager_ (db_bpm_ s'))).1 = Ok s0 /\
        table_entry s0 oid (TableMeta.persisted m') /\ heap_ok (heap_of s0 (TableMeta.persisted m')) ch'
  | (Err e, s') => e = StdRuntimeError /\ untouched s oid m ch s'
  end.
Proof.
  intros Hparse Hop Hroom Hpre Hl Hsh Ht Hpos Hfit.
  pose proof (insert_values_effect k query l vs s n oid m ch Hparse Hop Hroom Hpre Hl Hsh Ht Hpos Hfit) as Heff.
  destruct (DB.ExecuteQuery _ _ _ query s) as [[u|e] s2]; [|done]. destruct Heff as (D0 & s1 & Hread & Hadd & E & _).
  destruct (row_added_open s n oid m ch _ s1 Hop Hadd) as (m' & Hct & Hok & Hop1 & Hoth).
  destruct (finish_spec s1 n oid m' _ Hop1 Hok) as (s2' & E2 & Hcat & Hop2 & Hok2 & Hre).
  rewrite E in E2. injection E2 as <-. exists m', D0. split_and!; try done; [|by rewrite Hcat].
  intros rid i v Hv. cbn [schema_ TableMeta.persisted].
  rewrite <- (GetValue_same _ _ _ _ (persisted_cells (schema_ m'))).
  destruct Hct as (-> & _). split; by apply Hread.
Qed.

(** No page of table [oid] is in the pool yet. *)
Definition unused s (oid : Z) : Prop := forall n, page_table_ (db_bpm_ s) !! mk_PageId oid n = None.

(** The table a CREATE statement makes is open and has no pages. *)
Lemma create_opens n cols sch s : Schema.make cols = Ok sch ->
  catalog_wf (catalog_ s) -> layout_ok (db_fs_ s) -> on_disk (catalog_ s) (db_fs_ s) -> table_names_ (catalog_ s) !! n = None ->
  table_name_ok n -> string_valid n -> Schema.valid sch -> schema_wf sch -> Z.of_nat (size (tables_ (catalog_ s))) < 2 ^ 31 - 1 ->
  pool_ok (db_bpm_ s) -> idle (db_bpm_ s) -> unused s (Z.of_nat (size (tables_ (catalog_ s)))) ->
  exists s', DB.HandleCreateStatement index_id (mk_CreateStatement n cols []) s = (Ok tt, s') /\
    catalog_ s' = added n sch (catalog_ s) /\ db_bpm_ s' = db_bpm_ s /\
    open_table s' n (Z.of_nat (size (tables_ (catalog_ s)))) (TableMeta.make sch n (Z.of_nat (size (tables_ (catalog_ s))))) [].
Proof.
  intros Hsch Hc Hl Hd Hn Hok Hs Hv Hwf Hroom Hp Hi Hun.
  destruct (CreateTable_adds n sch s Hc Hl Hd Hn Hok Hs Hv Hroom) as (fs & E & Hc' & Hl' & Hd' & _).
  set (oid := Z.of_nat (size (tables_ (catalog_ s)))) in *. eexists. split; [|split; [|split]].
  - unfold DB.HandleCreateStatement. cbn [create_columns_ table_name_ primary_key_].
    rewrite Hsch, (bind_ok (lift (Ok sch)) _ s sch s) by done. rewrite (bind_ok _ _ _ _ _ E). reflexivity.
  - done.
  - done.
  - split; cbn [catalog_ db_fs_]; try done.
    + apply lookup_insert_eq.
    + unfold table_entry. cbn. apply lookup_insert_eq.
    + right. split; [done|]. split; cbn [bpm_ table_meta_ heap_of db_bpm_]; try done.
      * cbn. unfold INVALID_TABLE_OID. lia.
      * intros k _. apply Hun.
Qed.

Lemma create_steps fuel query st c s : parse query = Some [hsql.kStmtCreate st] -> Binder.BindCreate st = Ok c ->
  DB.ExecuteQuery parse index_id fuel query s = (DB.HandleCreateStatement index_id c;; mret tt) s.
Proof.
  intros Hparse Hbind. unfold DB.ExecuteQuery. rewrite Hparse. cbn [DB.execute_statements]. unfold mbind at 1 2, M_bind at 1 2.
  assert (DB.ExecuteStatement index_id fuel (hsql.kStmtCreate st) s = DB.HandleCreateStatement index_id c s) as ->; [|done].
  unfold DB.ExecuteStatement. rewrite (bind_ok get_state _ s s s) by done. cbn [Binder.Bind]. by rewrite Hbind.
Qed.

Lemma create_taken n cols pk sch oid s : Schema.make cols = Ok sch -> catalog_wf (catalog_ s) ->
  table_names_ (catalog_ s) !! n = Some oid ->
  DB.HandleCreateStatement index_id (mk_CreateStatement n cols pk) s = (Err RuntimeException, s).
Proof.
  intros Hsch Hc Hn. unfold DB.HandleCreateStatement. cbn [create_columns_ table_name_ primary_key_].
  rewrite Hsch, (bind_ok (lift (Ok sch)) _ s sch s) by done.
  rewrite (bind_ok _ _ _ _ _ (CreateTable_taken n sch s oid Hn)), (bind_ok get_state _ s s s) by done.
  destruct (wf_names _ Hc _ _ Hn) as [_ (m & Em & _)].
  assert (Catalog.GetTableByName n (catalog_ s) = Ok m) as ->; [|done].
  unfold Catalog.GetTableByName, Catalog.table_key, Catalog.table_at. rewrite Hn. cbn [mbind res_bind]. by rewrite Em.
Qed.

(** C17: the query [CREATE TABLE n (...)] without a primary key makes the table, with the
    next number, no pages and its two files, and leaves the buffer pool alone; when the
    name is taken it throws and changes nothing. *)
Theorem create_table_executed fuel query st n cols sch s : parse query = Some [hsql.kStmtCreate st] ->
  Binder.BindCreate st = Ok (mk_CreateStatement n cols []) -> Schema.make cols = Ok sch ->
  catalog_wf (catalog_ s) -> layout_ok (db_fs_ s) -> on_disk (catalog_ s) (db_fs_ s) ->
  table_name_ok n -> string_valid n -> Schema.valid sch -> schema_wf sch -> Z.of_nat (size (tables_ (catalog_ s))) < 2 ^ 31 - 1 ->
  pool_ok (db_bpm_ s) -> idle (db_bpm_ s) -> unused s (Z.of_nat (size (tables_ (catalog_ s)))) ->
  match table_names_ (catalog_ s) !! n with
  | Some _ => DB.ExecuteQuery parse index_id fuel query s = (Err RuntimeException, s)
  | None => let oid := Z.of_nat (size (tables_ (catalog_ s))) in
    exists s', DB.ExecuteQuery parse index_id fuel query s = (Ok tt, s') /\ db_bpm_ s' = db_bpm_ s /\
      open_table s' n oid (TableMeta.make sch n oid) [] /\
      forall n', n' <> n -> Catalog.GetTableByName n' (catalog_ s') = Catalog.GetTableByName n' (catalog_ s)
  end.
Proof.
  intros Hparse Hbind Hsch Hc Hl Hd Hok Hs Hv Hwf Hroom Hp Hi Hun.
  rewrite (create_steps fuel query st _ s Hparse Hbind).
  destruct (table_names_ (catalog_ s) !! n) as [oid|] eqn:Hn.
  - apply bind_err. by eapply create_taken.
  - destruct (create_opens n cols sch s Hsch Hc Hl Hd Hn Hok Hs Hv Hwf Hroom Hp Hi Hun) as (s' & E & Hcat & Hb & Hop).
    exists s'. rewrite (bind_ok _ _ _ _ _ E). split_and!; try done. intros n' Hne. rewrite Hcat, added_lookup by done.
    by rewrite decide_False.
Qed.

(** C33: a SELECT statement never answers: whatever the query and the database, an
    exception comes out and nothing changes; when the statement could be planned the
    exception is the failed cast of the next case of the switch. *)
Theorem select_always_throws fuel query st s : parse query = Some [hsql.kStmtSelect st] ->
  exists e, DB.ExecuteQuery parse index_id fuel query s = (Err e, s) /\
    forall b plan, Binder.BindSelect st (catalog_ s) = Ok b -> Planner.PlanSelect b (catalog_ s) = Ok plan -> e = BadCast.
Proof.
  intros Hp. unfold DB.ExecuteQuery. rewrite Hp. cbn [DB.execute_statements].
  assert (forall e, DB.ExecuteStatement index_id fuel (hsql.kStmtSelect st) s = (Err e, s) ->
    (DB.ExecuteStatement index_id fuel (hsql.kStmtSelect st);; mret tt) s = (Err e, s)) as Hseq by (intros e; apply bind_err).
  assert (DB.ExecuteStatement index_id fuel (hsql.kStmtSelect st) s =
    (bound_stmt ← lift (Binder.Bind (hsql.kStmtSelect st) (catalog_ s)); match bound_stmt with
     | CREATE_STATEMENT create_stmt => DB.HandleCreateStatement index_id create_stmt
     | _ => plan ← lift (Planner.PlanQuery bound_stmt (catalog_ s)); Execute fuel plan;;
        DB.with_bpm BufferPool.FlushAllPages;; DB.PersistCatalog end) s) as E by done.
  cbn [Binder.Bind] in E. destruct (Binder.BindSelect st (catalog_ s)) as [b|e] eqn:Eb.
  2:{ exists e. split; [by apply Hseq|done]. }
  assert (Planner.PlanQuery (SELECT_STATEMENT b) (catalog_ s) =
    Err (match Planner.PlanSelect b (catalog_ s) with Ok _ => BadCast | Err e => e end)) as Epl.
  { unfold Planner.PlanQuery. by destruct (Planner.PlanSelect b (catalog_ s)). }
  eexists. split.
  - apply Hseq. rewrite E. change (x ← Ok b; Ok (SELECT_STATEMENT x)) with (Ok (SELECT_STATEMENT b)).
    rewrite (bind_ok (lift _) _ s (SELECT_STATEMENT b) s) by done. rewrite Epl. reflexivity.
  - intros b' plan [= <-] Hpl. by rewrite Hpl.
Qed.
End statements.

(** ** A session *)
#[local] Existing Instance any_order.
#[local] Existing Instance memory_store.
#[local] Existing Instance packed_leaf.
#[local] Existing Instance libstdcxx_layout.

(** The parse trees of [CREATE TABLE t (id INT, name VARCHAR(3))],
    [INSERT INTO t VALUES (7, 'gavin')] and [SELECT * FROM t]. *)
Definition demo_create : hsql.CreateStatement := hsql.mk_CreateStatement "t" true
  [hsql.mk_ColumnDefinition "id" Type_.DT_INT 0 false; hsql.mk_ColumnDefinition "name" Type_.DT_VARCHAR 3 false].
Definition demo_literals : list hsql.Expr :=
  [hsql.mk_Expr hsql.kExprLiteralInt 7 None hsql.kOpOther None None;
   hsql.mk_Expr hsql.kExprLiteralString 0 (Some "gavin"%string) hsql.kOpOther None None].
Definition demo_select : hsql.SelectStatement := hsql.mk_SelectStatement (Some (Some "t"%string))
  (Some [hsql.mk_Expr hsql.kExprStar 0 None hsql.kOpOther None None]).
Definition demo_parse (query : string) : option (list hsql.SQLStatement) :=
  if bool_decide (query = "create") then Some [hsql.kStmtCreate demo_create]
  else if bool_decide (query = "insert") then Some [insert_values "t" demo_literals]
  else if bool_decide (query = "select") then Some [hsql.kStmtSelect demo_select]
  else None.

Definition demo_cols : list Column := [mk_Column "id" INTEGER 4 0 0 false; mk_Column "name" VARCHAR 3 0 0 false].
Definition demo_table : Schema := mk_Schema [mk_Column "id" INTEGER 4 0 0 false; mk_Column "name" VARCHAR 3 4 1 false] [1] 8.
Definition demo_row : list Value := [mk_Value INTEGER (VInt32 7) false; mk_Value VARCHAR (VString "gavin") false].

Lemma demo_table_valid : Schema.valid demo_table.
Proof.
  unfold Schema.valid, count_ok. cbn [columns_ uninlined_columns_ tuple_inline_part_storage_size_ demo_table length].
  split; [lia|]. split; [|split; [lia|split; [apply Forall_singleton; width|width]]].
  repeat (apply Forall_cons_2; [unfold Column.valid, string_valid; cbn; split; [lia|]; split; [done|]; split; width|]). constructor.
Qed.
Lemma demo_table_wf : schema_wf demo_table.
Proof. split; [repeat constructor; cbn; lia|by cbn|done]. Qed.
Lemma demo_pool : pool_ok (db_bpm_ empty_db) /\ idle (db_bpm_ empty_db).
Proof. split; [by apply (BufferPool_ok (D:=gmap PageId (list Byte.byte)) 4 ∅)|done]. Qed.

Lemma demo_opens : exists s', DB.HandleCreateStatement 0 (mk_CreateStatement "t" demo_cols []) empty_db = (Ok tt, s') /\
  open_table s' "t" 0 (TableMeta.make demo_table "t" 0) [].
Proof.
  destruct (create_opens 0 "t" demo_cols demo_table empty_db eq_refl empty_wf no_files_layout ltac:(intros n [? Hn]; done)
    eq_refl t_name_ok ltac:(vm_compute; done) demo_table_valid demo_table_wf ltac:(vm_compute; done)
    (proj1 demo_pool) (proj2 demo_pool) ltac:(by intros n)) as (s' & E & _ & _ & Hop).
  exists s'. split; [exact E|exact Hop].
Qed.

Lemma create_table_executed_witness : exists s', DB.ExecuteQuery demo_parse 0 0 "create" empty_db = (Ok tt, s') /\
  open_table s' "t" 0 (TableMeta.make demo_table "t" 0) [].
Proof.
  pose proof (create_table_executed demo_parse 0 0 "create" demo_create "t" demo_cols demo_table empty_db eq_refl eq_refl eq_refl
    empty_wf no_files_layout ltac:(intros n [? Hn]; done) t_name_ok ltac:(vm_compute; done) demo_table_valid demo_table_wf
    ltac:(vm_compute; done) (proj1 demo_pool) (proj2 demo_pool) ltac:(by intros n)) as Hc.
  destruct Hc as (s' & E & _ & Hop & _). exists s'. split; [exact E|exact Hop].
Defined.

Lemma demo_row_short : Forall short_literal demo_row.
Proof.
  apply Forall_cons_2; [|apply Forall_singleton]; unfold short_literal, Value.well_typed;
    (split; [split; [cbn; unfold string_valid; cbn; width|done]|]).
  - split; [by left|]. intros n [= <-]. done.
  - split; [by right|]. intros n Hn. vm_compute in Hn. injection Hn as <-. done.
Qed.

(** A string of five bytes in a VARCHAR(3) column. *)
Lemma insert_values_executed_witness : exists s s' m' D,
  DB.ExecuteQuery demo_parse 0 4 "insert" s = (Ok tt, s') /\ table_entry s' 0 m' /\ tuple_count_ m' = 2 /\
  Tuple.GetValue (mk_Tuple RID_default D) (schema_ m') 1 = Ok (mk_Value VARCHAR (VString "gavin") false).
Proof.
  destruct demo_opens as (s & Es & Hop). exists s.
  pose proof (insert_values_executed demo_parse 0 0 "insert" demo_literals demo_row s "t" 0 (TableMeta.make demo_table "t" 0) []
    eq_refl Hop) as Hi.
  assert (s = (DB.HandleCreateStatement 0 (mk_CreateStatement "t" demo_cols []) empty_db).2) as -> by by rewrite Es.
  destruct (DB.ExecuteQuery demo_parse 0 4 "insert" _) as [[[]|e] s'] eqn:E; [|exfalso; vm_compute in E; discriminate E].
  destruct Hi as (m' & D & Hget & (_ & _ & _ & Hcnt) & Hop' & _).
  - intros k [Hk1 Hk2]. split; [|done]. change (k <= 0 + 1) in Hk2. width.
  - done.
  - repeat constructor.
  - exact demo_row_short.
  - repeat constructor.
  - cbn; lia.
  - unfold row_fits. vm_compute. congruence.
  - exists s', m', D. split; [done|]. split; [apply Hop'|]. split; [exact Hcnt|]. by apply Hget.
Defined.

Lemma select_always_throws_witness : exists e, DB.ExecuteQuery demo_parse 0 4 "select" empty_db = (Err e, empty_db).
Proof. destruct (select_always_throws demo_parse 0 4 "select" demo_select empty_db eq_refl) as (e & E & _). exists e. exact E. Defined.
