(* ===== verification/IndexCreation.v ===== *)
(** * Making an index in a shared buffer pool

    What the constructor of [BTreeIndex] leaves alone: it takes one new page of its table,
    and the pages of other tables are where and what they were, in the pool and in the
    store. *)
From stdpp Require Import functions.
From S2P Require Import Prelude Bytes Types Value Schema Tuple DiskManager BufferPool BufferPoolProps PageGuard TableMeta.
From S2P Require Import TableHeap TableHeapProps Index BtreePage Transactions BTreeIndex.
From S2P Require Import BTreePool BTreeShape BTreeIndexThms BTreeInsert BTreeMap.
From S2P Require Import Codec CodecFacts Files Catalog CatalogFacts CatalogThms Binder Database.
Open Scope Z_scope.

(** ** The store is written only when a frame is taken or a page flushed *)
Section store.
Context {D : Type} `{PageStore D} `{!HashOrder Z bool}.
Abbreviation keeps_disk := (preserves (disk_manager_ (D:=D))).

Lemma get_page_disk f : keeps_disk (BufferPool.get_page f).
Proof. intros s. unfold BufferPool.get_page. by destruct (BufferPool.frame s f). Qed.
Lemma put_page_disk f p : keeps_disk (BufferPool.put_page f p).
Proof. done. Qed.
#[local] Hint Resolve get_page_disk put_page_disk : preserves.

Lemma update_page_disk f h : keeps_disk (BufferPool.update_page f h).
Proof. unfold BufferPool.update_page. auto with preserves. Qed.
Lemma latch_op_disk op f : keeps_disk (latch_op op f).
Proof. unfold latch_op. auto with preserves. Qed.
Lemma write_frame_disk f bs : keeps_disk (write_frame f bs).
Proof. apply update_page_disk. Qed.
#[local] Hint Resolve update_page_disk latch_op_disk : preserves.

Lemma UnpinPage_disk pid (is_dirty : bool) : keeps_disk (BufferPool.UnpinPage pid is_dirty).
Proof.
  unfold BufferPool.UnpinPage. apply preserves_bind; [apply preserves_lift|]. intros _. apply preserves_bind; [apply preserves_get|]. intros s.
  destruct (page_table_ s !! pid); [|done].
  apply preserves_bind; [destruct is_dirty; auto with preserves|]. intros _. apply preserves_bind; [auto with preserves|]. intros p.
  destruct (pin_count_ p =? 0); [apply preserves_ret|].
  repeat first [apply preserves_ret | apply preserves_lift | apply update_page_disk | apply preserves_bind | intros ? | case_match | done].
Qed.
#[local] Hint Resolve UnpinPage_disk : preserves.

Lemma UpgradeWrite_disk g : keeps_disk (BasicPageGuard.UpgradeWrite g).
Proof. unfold BasicPageGuard.UpgradeWrite, deref. destruct (page_ g); [|done]. auto with preserves. Qed.
Lemma Write_Drop_disk g : keeps_disk (WritePageGuard.Drop g).
Proof.
  unfold WritePageGuard.Drop, BasicPageGuard.Drop. destruct (page_ g); auto 6 with preserves.
Qed.
End store.
#[export] Hint Resolve get_page_disk write_frame_disk UpgradeWrite_disk Write_Drop_disk : preserves.

(** ** The constructor *)
Section constructor.
Context {D : Type} `{PageStore D} `{!HashOrder Z bool} `{!LeafLayout}.
Implicit Types (s : btree D) (m : TableMeta) (im : IndexMeta) (q : PageId).
#[local] Set Default Proof Using "Type*".

Definition tree_disk s : D := disk_manager_ (bt_bpm_ s).
Abbreviation keeps_disk := (preserves tree_disk).

Lemma with_pool_disk {A} (c : M (BufferPool D) A) : preserves disk_manager_ c -> keeps_disk (BTreeIndex.with_pool c).
Proof. intros Hc s. unfold tree_disk, BTreeIndex.with_pool. specialize (Hc (bt_bpm_ s)). by destruct (c (bt_bpm_ s)). Qed.
#[local] Hint Resolve with_pool_disk : preserves.

Lemma node_disk f : keeps_disk (BTreeIndex.node f).
Proof. unfold BTreeIndex.node. auto with preserves. Qed.
Lemma store_disk f bs : keeps_disk (BTreeIndex.store f bs).
Proof. unfold BTreeIndex.store. auto with preserves. Qed.
#[local] Hint Resolve node_disk store_disk : preserves.
Lemma set_header_disk n : keeps_disk (BTreeIndex.set_header_page_id n).
Proof. done. Qed.
#[local] Hint Resolve set_header_disk : preserves.

(** After the new page is made, the constructor does not touch the store. *)
Lemma construct_disk s r s' : header_page_id_ (bt_index_meta_ s) = INVALID_PAGE_ID ->
  BTreeIndex.BTreeIndex s = (Ok r, s') -> exists x s1, BTreeIndex.new_page s = (Ok x, s1) /\ tree_disk s' = tree_disk s1.
Proof.
  intros Hh. unfold BTreeIndex.BTreeIndex. rewrite (bind_ok get_state _ s s s) by done. rewrite Hh, Z.eqb_refl.
  intros (u & s2 & E & Eend)%bind_inv. apply bind_inv in E as (x & s1 & E1 & E). exists x, s1. split; [exact E1|].
  assert (tree_disk s' = tree_disk s2) as ->.
  { match type of Eend with ?c s2 = _ => assert (keeps_disk c) as Hk by auto with preserves; specialize (Hk s2) end.
    by rewrite Eend in Hk. }
  match type of E with ?c s1 = _ => assert (keeps_disk c) as Hk; [|specialize (Hk s1); by rewrite E in Hk] end.
  apply preserves_bind; [auto with preserves|]. intros g. apply preserves_bind; [auto with preserves|]. intros p. auto 20 with preserves.
Qed.

Lemma new_page_stored s m' pid r s' q : pool_ok (bt_bpm_ s) -> page_ok pid -> Index.AllocatePage (bt_table_meta_ s) = Ok (pid, m') ->
  page_table_ (bt_bpm_ s) !! pid = None -> BTreeIndex.new_page s = (Ok r, s') ->
  q <> pid -> ps_storable q -> on_store (bt_bpm_ s) q -> on_store (bt_bpm_ s') q /\ content (bt_bpm_ s') q = content (bt_bpm_ s) q.
Proof.
  intros Hok Hpid Hall Ht E Hq Hst Hon. unfold BTreeIndex.new_page in E.
  destruct (can_allocate_dec (bt_bpm_ s)) as [Hcan|Hno].
  - destruct (@NewPage_created _ _ _ _ index_allocator _ (bt_table_meta_ s) m' pid Hok Hpid Hall Ht Hcan) as (f & p & E1 & Hcr).
    rewrite E1 in E. injection E as <- <-. cbn [bt_bpm_]. 
    split; [by apply (cr_stored _ _ _ _ Hcr)|by apply (cr_other _ _ _ _ Hcr)].
  - unfold BufferPool.NewPage in E. by rewrite (bind_ok _ _ _ _ _ (AllocateFrame_none _ Hok Hno)) in E.
Qed.

(** What a program knows that holds no page. *)
Definition w_idle (p : BufferPool D) : world :=
  mk_world (fun _ => 0) (fun _ => Unlatched) (content p) (fun _ => 0) (fun _ => False)
    (fun q => ps_storable q /\ kept p q) (fun q => page_table_ p !! q = None) (fun _ => False).
Lemma idle_stands p : pool_ok p -> idle p -> stands p (w_idle p).
Proof.
  intros Hok Hi. split; cbn; try done.
  - intros q. apply Hi.
  - intros q. apply Hi.
  - intros q [Hst Hk]. split_and!; [done..|]. apply told_unpinned; [done|]. apply Hi.
Qed.

(** The pool after the constructor of an index on a table with the meta data [m]. *)
Record index_pages m (p p' : BufferPool D) : Prop := {
  ip_pool : pool_ok p';
  ip_idle : idle p';
  ip_apart : apart (table_oid_ m) p p';
  ip_absent n : last_table_data_page_id_ m + 1 < n -> page_table_ p !! page_of m n = None -> page_table_ p' !! page_of m n = None;
  ip_stored q : table_id_ q <> table_oid_ m -> ps_storable q -> on_store p q -> on_store p' q
}.

Lemma construct_index s : let m := bt_table_meta_ s in let pid := page_of m (last_table_data_page_id_ m + 1) in
  pool_ok (bt_bpm_ s) -> idle (bt_bpm_ s) -> page_set_ (bt_txn_ s) = [] ->
  header_page_id_ (bt_index_meta_ s) = INVALID_PAGE_ID -> BTreeInsert.can_grow m -> page_table_ (bt_bpm_ s) !! pid = None ->
  match BTreeIndex.BTreeIndex s with
  | (Ok _, s') => index_pages m (bt_bpm_ s) (bt_bpm_ s') /\ bt_table_meta_ s' = grown m /\
      bt_index_meta_ s' = IndexMeta.set_header_page_id (last_table_data_page_id_ m + 1) (bt_index_meta_ s)
  | (Err e, _) => e = StdRuntimeError
  end.
Proof.
  intros m pid Hok Hi Hset Hh Hg Ht.
  assert (at_world s m (bt_index_meta_ s) [] (w_idle (bt_bpm_ s))) as Hw by (split; try done; by apply idle_stands).
  pose proof (wp_makes_header (Failing0 := only_exhausted) s m _ _ Hw Hg Hh Ht) as Hwp. unfold wp in Hwp.
  destruct (BTreeIndex.BTreeIndex s) as [[r|e] s'] eqn:E; [|apply Hwp]. destruct Hwp as [Hst Hm Him _].
  destruct (construct_disk s r s' Hh E) as (x & s1 & E1 & Ed).
  assert (forall q, ps_storable q -> q <> pid -> content (bt_bpm_ s') q = content (bt_bpm_ s) q) as Hc.
  { intros q Hq Hne. rewrite (st_bytes _ _ Hst q Hq). cbn. fold pid. by rewrite fn_lookup_insert_ne. }
  assert (forall q, table_id_ q <> table_oid_ m -> q <> pid) as Hother by (by intros q Hq ->).
  assert (forall q, q <> pid -> page_table_ (bt_bpm_ s) !! q = None -> page_table_ (bt_bpm_ s') !! q = None) as Habs.
  { intros q Hne Hq. apply (st_unused _ _ Hst). by split. }
  split; [|by split]. split; [apply Hst| | | |].
  - intros q. rewrite (st_pins _ _ Hst), (st_latch _ _ Hst). cbn. fold pid. destruct (decide (q = pid)) as [->|Hne].
    + by rewrite !fn_lookup_insert.
    + by rewrite !fn_lookup_insert_ne.
  - split.
    + intros q Hq Hne. apply Hc; [done|by apply Hother].
    + intros q Hq Hk. apply (st_safe _ _ Hst). left. by split.
    + intros q Hne. apply Habs. by apply Hother.
  - intros n Hn. apply Habs. unfold pid, page_of. intros [= ?]. lia.
  - intros q Hne Hq Hon. unfold tree_disk in Ed. pose proof (Hother q Hne) as Hqp.
    destruct (new_page_stored s (grown m) pid x s1 q Hok (cg_page _ Hg) (allocate_page m Hg) Ht E1 Hqp Hq Hon) as [[Hs1 Hr1] Hc1].
    unfold on_store. rewrite Ed. split; [|exact Hr1]. by rewrite Hc, <- Hc1.
Qed.
End constructor.

(** ** The catalog with an index *)
Definition index_added (n iname : string) (im : IndexMeta) (c : Catalog) : Catalog :=
  let ix := swrap 32 (Z.of_nat (size (indexes_ c))) in
  mk_Catalog (tables_ c) (Catalog.emplace ix (Some im) (indexes_ c)) (<[n := {[iname := ix]}]> (index_names_ c)) (table_names_ c).

Lemma emplace_forall `{Countable K} {V} (P : K -> V -> Prop) k v (m : gmap K V) : P k v -> map_Forall P m -> map_Forall P (Catalog.emplace k v m).
Proof. intros Hk Hm. unfold Catalog.emplace. destruct (m !! k); [done|]. by apply map_Forall_insert_2. Qed.
Lemma emplace_size `{Countable K} {V} k (v : V) (m : gmap K V) : (size (Catalog.emplace k v m) <= S (size m))%nat.
Proof. unfold Catalog.emplace. destruct (m !! k) eqn:E; [lia|]. by rewrite map_size_insert_None. Qed.

Lemma index_added_wf n oid iname im c : catalog_wf c -> table_names_ c !! n = Some oid -> IndexMeta.valid im -> string_valid iname ->
  Z.of_nat (size (indexes_ c)) < 2 ^ 31 -> catalog_wf (index_added n iname im c).
Proof.
  intros [Ht Hn Hin Hs Hsi Hsz [V1 V2 [V3 V4] [V5 V6]]] Hnm Him Hiv Hb.
  assert (is_Some (index_names_ c !! n)) as Hi by (apply Hin; by exists oid).
  assert (size (<[n := {[iname := swrap 32 (Z.of_nat (size (indexes_ c)))]}]> (index_names_ c)) = size (index_names_ c)) as Esz
    by by apply map_size_insert_Some.
  split; cbn [index_added tables_ table_names_ indexes_ index_names_]; rewrite ?Esz; try done.
  - intros n'. destruct (decide (n' = n)) as [->|Hne]; [by rewrite lookup_insert_eq|by rewrite lookup_insert_ne].
  - split; cbn [index_added tables_ table_names_ indexes_ index_names_]; rewrite ?Esz; try done.
    + split.
      * pose proof (emplace_size (swrap 32 (Z.of_nat (size (indexes_ c)))) (Some im) (indexes_ c)). unfold count_ok. width.
      * apply emplace_forall; [|done]. split; [apply swrap_range; lia|]. by intros m [= <-].
    + split; [done|]. apply map_Forall_insert_2; [|done]. split; [by apply (Hn n oid)|]. split.
      * by rewrite map_size_singleton.
      * apply map_Forall_singleton. split; [done|apply swrap_range; lia].
Qed.

(** ** [CreateIndex], and CREATE TABLE with a primary key *)
Section database.
Context {D : Type} `{PageStore D} `{!HashOrder Z bool} `{!LeafLayout}.
Context `{!HashOrder Z (option TableMeta)} `{!HashOrder Z (option IndexMeta)}
  `{!HashOrder string Z} `{!HashOrder string (gmap string Z)}.
Context (index_id : Z).
Implicit Types (s : db D) (m : TableMeta) (p : BufferPool D).
#[local] Set Default Proof Using "Type*".

(** The meta data of a primary key's index, once its header page is made. *)
Definition key_index (iname : string) (oid : Z) (col : Column) m : IndexMeta :=
  IndexMeta.set_header_page_id (last_table_data_page_id_ m + 1) (IndexMeta.make iname oid col PRIMARY BPlusTreeIndex index_id).
Definition key_catalog (n iname : string) (oid : Z) (col : Column) m (c : Catalog) : Catalog :=
  index_added n iname (key_index iname oid col m) (Catalog.set_table oid (grown m) c).

Lemma build_index_spec im oid s m : let pid := page_of m (last_table_data_page_id_ m + 1) in
  tables_ (catalog_ s) !! oid = Some (Some m) -> (exists cmp, GetComparator (column_type_ (key_col_ im)) = Ok cmp) ->
  header_page_id_ im = INVALID_PAGE_ID ->
  pool_ok (db_bpm_ s) -> idle (db_bpm_ s) -> BTreeInsert.can_grow m -> page_table_ (db_bpm_ s) !! pid = None ->
  match Catalog.build_index im oid s with
  | (Ok im', s') => im' = IndexMeta.set_header_page_id (last_table_data_page_id_ m + 1) im /\
      exists p, s' = mk_db (Catalog.set_table oid (grown m) (catalog_ s)) (db_fs_ s) p /\ index_pages m (db_bpm_ s) p
  | (Err e, _) => e = StdRuntimeError
  end.
Proof.
  intros pid Hm Hcmp Hh Hok Hi Hg Ht. unfold Catalog.build_index, Catalog.table_at. rewrite Hm. cbn [Catalog.deref].
  destruct Hcmp as [cmp ->].
  pose proof (construct_index (mk_btree (db_bpm_ s) m im (Transaction.make 0 READ_COMMITTED)) Hok Hi eq_refl Hh Hg Ht) as Hc.
  destruct (BTreeIndex.BTreeIndex _) as [[r|e] t]; [|done]. destruct Hc as (Hp & -> & ->). split; [done|]. by eexists.
Qed.

Lemma CreateIndex_spec iname n col s oid m : let pid := page_of m (last_table_data_page_id_ m + 1) in
  table_names_ (catalog_ s) !! n = Some oid -> index_names_ (catalog_ s) !! n = Some ∅ ->
  tables_ (catalog_ s) !! oid = Some (Some m) -> (exists cmp, GetComparator (column_type_ col) = Ok cmp) ->
  pool_ok (db_bpm_ s) -> idle (db_bpm_ s) -> BTreeInsert.can_grow m -> page_table_ (db_bpm_ s) !! pid = None ->
  match Catalog.CreateIndex index_id iname n col true BPlusTreeIndex s with
  | (Ok r, s') => is_Some r /\
      exists p, s' = mk_db (key_catalog n iname oid col m (catalog_ s)) (db_fs_ s) p /\ index_pages m (db_bpm_ s) p
  | (Err e, _) => e = StdRuntimeError
  end.
Proof.
  intros pid Hn Hin Hm Hcmp Hok Hi Hg Ht. unfold Catalog.CreateIndex. rewrite (bind_ok get_state _ s s s) by done.
  rewrite Hn, Hin, bool_decide_false by (rewrite lookup_empty; by intros []). rewrite Hm.
  rewrite (bind_ok (lift (Ok tt)) _ s tt s) by done.
  pose proof (build_index_spec (IndexMeta.make iname oid col PRIMARY BPlusTreeIndex index_id) oid s m Hm Hcmp eq_refl Hok Hi Hg Ht) as Hb.
  destruct (Catalog.build_index _ oid s) as [[im|e] s1] eqn:E; [|by rewrite (bind_err _ _ _ _ _ E)].
  rewrite (bind_ok _ _ _ _ _ E). destruct Hb as (-> & p & -> & Hp). cbn. split; [by eexists|]. by exists p.
Qed.

Lemma CreateIndex_bad iname n col s oid m e : table_names_ (catalog_ s) !! n = Some oid -> index_names_ (catalog_ s) !! n = Some ∅ ->
  tables_ (catalog_ s) !! oid = Some (Some m) -> GetComparator (column_type_ col) = Err e ->
  Catalog.CreateIndex index_id iname n col true BPlusTreeIndex s = (Err e, s).
Proof.
  intros Hn Hin Hm Hcmp. unfold Catalog.CreateIndex. rewrite (bind_ok get_state _ s s s) by done.
  rewrite Hn, Hin, bool_decide_false by (rewrite lookup_empty; by intros []). rewrite Hm.
  rewrite (bind_ok (lift (Ok tt)) _ s tt s) by done. apply bind_err.
  unfold Catalog.build_index, Catalog.table_at. rewrite Hm. cbn [Catalog.deref IndexMeta.make key_col_]. by rewrite Hcmp.
Qed.

Lemma key_catalog_wf n iname oid col m c : catalog_wf c -> table_names_ c !! n = Some oid -> tables_ c !! oid = Some (Some m) ->
  in_s 32 index_id -> string_valid iname -> Column.valid col -> in_s 32 (last_table_data_page_id_ m + 1) ->
  Z.of_nat (size (indexes_ c)) < 2 ^ 31 -> catalog_wf (key_catalog n iname oid col m c).
Proof.
  intros Hc Hn Hm Hid Hi Hcol Hlast Hsz.
  destruct (wf_tables _ Hc _ _ Hm) as (Hr & m' & [= <-] & (V1 & V2 & V3 & V4 & V5 & V6) & _ & _ & Ho).
  pose proof (wf_size _ Hc) as Hs. eapply index_added_wf; [|exact Hn| |exact Hi|exact Hsz].
  - eapply set_table_wf; [exact Hc|exact Hm|done|done|]. by split_and!.
  - split_and!; try done; cbn; first [done|width].
Qed.

(** What CREATE TABLE answers about its key, once the table is made. *)
Definition key_answer (sch : Schema) (pk : list string) : res unit :=
  match pk with
  | [] => Ok tt
  | [k] => col ← DB.find_key sch k; _ ← GetComparator (column_type_ col); Ok tt
  | _ => Err AssertionFailed
  end.

Lemma find_key_in sch k col : DB.find_key sch k = Ok col -> col ∈ columns_ sch /\ column_name_ col = k.
Proof.
  unfold DB.find_key. destruct (List.find _ _) as [c|] eqn:E; [|done]. intros [= <-].
  apply find_some in E as [Hin Hd]. apply bool_decide_eq_true in Hd. split; [by apply list_elem_of_In|done].
Qed.

(** The catalog after CREATE TABLE: with the table, and with the index of its key. *)
Inductive created_with (n : string) (sch : Schema) (pk : list string) s : db D -> Prop :=
| created_plain fs : created_with n sch pk s (mk_db (added n sch (catalog_ s)) fs (db_bpm_ s))
| created_keyed k col fs p : pk = [k] -> col ∈ columns_ sch ->
    let oid := Z.of_nat (size (tables_ (catalog_ s))) in let m := TableMeta.make sch n oid in
    index_pages m (db_bpm_ s) p ->
    created_with n sch pk s (mk_db (key_catalog n (n +:+ "_pk") oid col m (added n sch (catalog_ s))) fs p).

Lemma create_with_key n cols pk sch s : let oid := Z.of_nat (size (tables_ (catalog_ s))) in let c := added n sch (catalog_ s) in
  Schema.make cols = Ok sch -> catalog_wf (catalog_ s) -> layout_ok (db_fs_ s) -> on_disk (catalog_ s) (db_fs_ s) ->
  table_names_ (catalog_ s) !! n = None -> table_name_ok n -> string_valid n -> Schema.valid sch -> oid < 2 ^ 31 - 1 ->
  pool_ok (db_bpm_ s) -> idle (db_bpm_ s) -> (forall k, page_table_ (db_bpm_ s) !! mk_PageId oid k = None) ->
  page_ok (mk_PageId oid 0) ->
  match DB.HandleCreateStatement index_id (mk_CreateStatement n cols pk) s with
  | (r, s') => r = Err StdRuntimeError \/
      (r = key_answer sch pk /\ created_with n sch pk s s' /\ layout_ok (db_fs_ s') /\ on_disk c (db_fs_ s') /\
       Catalog.make (db_fs_ s') = (Ok (catalog_persisted c), db_fs_ s'))
  end.
Proof.
  intros oid c Emk Hwf Hl Hd Hn Hok Hsv Hv Hsz Hp Hi Hun Hpg.
  destruct (CreateTable_adds n sch s Hwf Hl Hd Hn Hok Hsv Hv Hsz) as (fs & E & Hwf' & Hl' & Hd' & _ & Hload). fold c oid in E.
  unfold DB.HandleCreateStatement. cbn [create_columns_ table_name_ primary_key_].
  rewrite Emk, (bind_ok (lift (Ok sch)) _ s sch s) by done. rewrite (bind_ok _ _ _ _ _ E).
  set (s1 := mk_db c fs (db_bpm_ s)).
  assert (created_with n sch pk s s1) as Hplain by apply created_plain.
  destruct pk as [|k [|k' pk]]; cbn [key_answer]; [by right; split_and!..| |by right; split_and!].
  destruct (DB.find_key sch k) as [col|e] eqn:Ek; cbn [mbind res_bind]; [|by right; split_and!].
  rewrite (bind_ok (lift (Ok col)) _ s1 col s1) by done.
  destruct (find_key_in _ _ _ Ek) as [Hcol _].
  assert (table_names_ (catalog_ s1) !! n = Some oid) as Hn1 by apply lookup_insert_eq.
  assert (index_names_ (catalog_ s1) !! n = Some ∅) as Hi1 by apply lookup_insert_eq.
  assert (tables_ (catalog_ s1) !! oid = Some (Some (TableMeta.make sch n oid))) as Hm1 by apply lookup_insert_eq.
  destruct (GetComparator (column_type_ col)) as [cmp|e] eqn:Ecmp.
  2:{ rewrite (bind_err _ _ _ _ _ (CreateIndex_bad (n +:+ "_pk") n col s1 oid _ e Hn1 Hi1 Hm1 Ecmp)). by right; split_and!. }
  assert (BTreeInsert.can_grow (TableMeta.make sch n oid)) as Hg.
  { split; cbn [table_oid_ last_table_data_page_id_ TableMeta.make]; unfold INVALID_TABLE_OID, INVALID_PAGE_ID; [lia|lia|width|done]. }
  pose proof (CreateIndex_spec (n +:+ "_pk") n col s1 oid _ Hn1 Hi1 Hm1 (ex_intro _ _ Ecmp) Hp Hi Hg (Hun _)) as Hix.
  destruct (Catalog.CreateIndex _ _ _ _ _ _ s1) as [[r|e] s2] eqn:Ec; [|rewrite Hix in Ec; rewrite (bind_err _ _ _ _ _ Ec); by left].
  rewrite (bind_ok _ _ _ _ _ Ec). destruct Hix as ([x ->] & p & -> & Hpages). cbn [mret M_ret].
  right. split_and!; try done. by eapply (created_keyed n sch [k] s k col fs p).
Qed.
End database.
