(* ===== verification/Session.v ===== *)
(** * Sessions: statements and restarts, one after the other

    A database as its tables with their rows; the program's CREATE TABLE (with or without
    a primary key), INSERT ... VALUES and start-up act on it as their texts say, over any number of tables that share the
    buffer pool. *)
From S2P Require Import Prelude Bytes Streams Serializer Codec CodecFacts Types Value Schema Tuple Expressions.
From S2P Require Import Files TablePage DiskManager BufferPool BufferPoolProps PageGuard TableMeta.
From S2P Require Import TableHeap TableHeapProps TableHeapThms TableScan Index BtreePage.
From S2P Require Import BtreeThms Transactions BTreeIndex Catalog CatalogFacts CatalogThms.
From S2P Require Import Binder Planner PlannerThms Database DatabaseThms IndexCreation.
Open Scope Z_scope.

(** ** The specification *)
Record table := mk_table { tb_schema : Schema; tb_rows : list (list Value) }.
Abbreviation tables := (gmap string table).

Inductive command :=
| CreateTable (n : string) (cols : list Column) (pk : list string)
| InsertInto (n : string) (vs : list Value)
| Reopen.

Definition types_match (sch : Schema) (vs : list Value) : Prop :=
  Forall2 (fun col v => column_type_ col = type_id_ v) (columns_ sch) vs.
#[export] Instance types_match_dec sch vs : Decision (types_match sch vs).
Proof. unfold types_match. apply _. Defined.

Definition add_values (vs : list Value) (t : table) : table := mk_table (tb_schema t) (tb_rows t ++ [vs]).
(** Two fields of the columns are not kept on disk. *)
Definition reopened (t : table) : table := mk_table (Schema.persisted (tb_schema t)) (tb_rows t).

(** The answer of a command, and the tables afterwards.  A key of a type that has no order
    is refused when the table is already made. *)
Definition spec_command (c : command) (T : tables) : res unit * tables :=
  match c with
  | CreateTable n cols pk =>
    match Schema.make cols, T !! n with
    | Err e, _ => (Err e, T)
    | Ok _, Some _ => (Err RuntimeException, T)
    | Ok sch, None => (key_answer sch pk, <[n := mk_table sch []]> T)
    end
  | InsertInto n vs =>
    match T !! n with
    | None => (Err Exception, T)
    | Some t =>
      if decide (String.prefix "__" n = false /\ types_match (tb_schema t) vs)
      then (Ok tt, <[n := add_values vs t]> T) else (Err Exception, T)
    end
  | Reopen => (Ok tt, reopened <$> T)
  end.
Fixpoint spec_session (cs : list command) (T : tables) : list (res unit) * tables :=
  match cs with
  | [] => ([], T)
  | c :: cs => let r := spec_command c T in let rs := spec_session cs r.2 in (r.1 :: rs.1, rs.2)
  end.

(** No key, or one that is a column. *)
Definition key_known (sch : Schema) (pk : list string) : Prop :=
  pk = [] \/ exists k col, pk = [k] /\ DB.find_key sch k = Ok col.
(** Names that a file system takes, schemas that the serializer takes, rows that fit a page. *)
Definition command_ok (c : command) : Prop :=
  match c with
  | CreateTable n cols pk => table_name_ok n /\ string_valid (n +:+ "_pk") /\
      exists sch, Schema.make cols = Ok sch /\ Schema.valid sch /\ schema_wf sch /\ key_known sch pk
  | InsertInto n vs => Forall short_literal vs /\ (0 < length vs)%nat /\ row_fits vs
  | Reopen => True
  end.

Lemma spec_not_exhausted c T : command_ok c -> (spec_command c T).1 <> Err StdRuntimeError.
Proof.
  destruct c as [n cols pk|n vs|]; cbn [spec_command]; [|intros _; repeat case_match; done|done].
  intros (_ & _ & sch & -> & _ & _ & Hk). case_match; [done|]. cbn [fst].
  destruct Hk as [->|(k & col & -> & Ek)]; [done|]. cbn [key_answer]. rewrite Ek. cbn [mbind res_bind].
  by destruct (column_type_ col).
Qed.
Lemma name_valid (n : string) : string_valid (n +:+ "_pk") -> string_valid n.
Proof.
  unfold string_valid. assert (forall x, (String.length n <= String.length (n +:+ x))%nat) as Hl; [|specialize (Hl "_pk"%string); lia].
  intros x. induction n as [|a n IH]; [cbn; lia|].
  change (S (String.length n) <= S (String.length (n +:+ x)))%nat. lia.
Qed.

(** ** The rows of a table *)
Definition row_reads (sch : Schema) (vs : list Value) (r : TupleMeta * list byte) : Prop :=
  r.1 = live /\ forall rid i v, vs !! i = Some v -> Tuple.GetValue (mk_Tuple rid r.2) sch i = Ok v.
(** The chain holds the rows of the table, one by one. *)
Definition holds (t : table) (ch : chain) : Prop := Forall2 (row_reads (tb_schema t)) (tb_rows t) (heap_rows ch).

Lemma holds_reopened t ch : holds t ch -> holds (reopened t) ch.
Proof.
  intros Hh. eapply Forall2_impl; [exact Hh|]. intros vs r [Hl Hr]. split; [exact Hl|]. intros rid i v Hv.
  rewrite <- (GetValue_same _ _ _ _ (persisted_cells (tb_schema t))). by apply Hr.
Qed.

(** ** The catalog that comes back *)
Lemma persisted_schema_valid sch : Schema.valid sch -> Schema.valid (Schema.persisted sch).
Proof.
  intros (H1 & H2 & H3). unfold Schema.valid, Schema.persisted. cbn [columns_ uninlined_columns_ tuple_inline_part_storage_size_].
  rewrite length_fmap. split_and!; [done| |apply H3..]. apply Forall_fmap. eapply Forall_impl; [exact H2|]. done.
Qed.
Lemma persisted_meta_valid m : TableMeta.valid m -> TableMeta.valid (TableMeta.persisted m).
Proof. intros (H1 & H2). split; [by apply persisted_schema_valid|done]. Qed.
Lemma persisted_schema_wf sch : schema_wf sch -> schema_wf (Schema.persisted sch).
Proof.
  intros [H1 H2 H3]. unfold Schema.persisted. split; cbn [columns_ uninlined_columns_ tuple_inline_part_storage_size_].
  - apply Forall_fmap. eapply Forall_impl; [exact H1|]. done.
  - clear -H2. revert H2. generalize 0, (columns_ sch). intros o cols. revert o.
    induction cols as [|c cols IH]; intros o; [done|]. intros [Ho Hl]. split; [exact Ho|]. by apply IH.
  - rewrite H3. clear. generalize 0, (columns_ sch). intros i cols. revert i. induction cols as [|c cols IH]; intros i; [done|]. cbn.
    change (Column.IsInlined (Column.persisted c)) with (Column.IsInlined c). by rewrite IH.
Qed.

Lemma persisted_wf c : catalog_wf c -> catalog_wf (catalog_persisted c).
Proof.
  intros [Ht Hn Hin Hs Hsi Hsz [[V1 V2] V3 [V4 V5] V6]].
  split; cbn [catalog_persisted tables_ table_names_ index_names_ indexes_]; rewrite ?map_size_fmap; try done.
  - intros oid ptr Hp. apply lookup_fmap_Some in Hp. destruct Hp as (ptr' & <- & Hp).
    destruct (Ht _ _ Hp) as (Hr & m & -> & Hv & Hok & Hnm & Ho). split; [done|].
    exists (TableMeta.persisted m). split_and!; [done|by apply persisted_meta_valid|done..].
  - intros n oid E. destruct (Hn _ _ E) as (Hv & m & Em & Enm). split; [done|]. exists (TableMeta.persisted m).
    by rewrite lookup_fmap, Em.
  - split; cbn [catalog_persisted tables_ table_names_ index_names_ indexes_]; rewrite ?map_size_fmap; try done; (split; [done|]).
    + apply map_Forall_fmap. eapply map_Forall_impl; [exact V2|]. intros oid [m|] [Hr Hm]; (split; [done|]); [|done].
      intros m' [= <-]. by apply persisted_meta_valid, Hm.
    + apply map_Forall_fmap. eapply map_Forall_impl; [exact V5|]. intros oid [m|] [Hr Hm]; (split; [done|]); [|done].
      intros m' [= <-]. exact (Hm m eq_refl).
Qed.

(** ** Databases that stand for tables *)
Section session.
Context {D : Type} `{PageStore D} `{!HashOrder Z bool} `{!TupleInfoLayout} `{!LeafLayout}.
Context `{!HashOrder Z (option TableMeta)} `{!HashOrder Z (option IndexMeta)}
  `{!HashOrder string Z} `{!HashOrder string (gmap string Z)}.
Context (parse : string -> option (list hsql.SQLStatement)) (index_id : Z) (index_id_ok : in_s 32 index_id).
(** The store has room for [pages] pages of each of [bound] tables. *)
Context (bound pages : Z) (bound_ok : bound < 2 ^ 31) (pages_ok : pages <= 2 ^ 31).
Context (storable : forall t n, 0 <= t < bound -> 0 <= n < pages -> ps_storable (mk_PageId t n)).
#[local] Set Default Proof Using "Type*".
Implicit Types (s : db D) (m : TableMeta) (ch : chain) (p : BufferPool D) (T : tables) (t : table) (k : Z).

(** A table's pages in a pool, in the pool and in the store. *)
Record pages_at p m ch : Prop := {
  pa_state : table_state (mk_table_heap p m) ch;
  pa_stored : stored_heap (mk_table_heap p m) ch
}.
Record table_at s n t oid m ch : Prop := {
  ta_name : table_names_ (catalog_ s) !! n = Some oid;
  ta_entry : table_entry s oid m;
  ta_schema : schema_ m = tb_schema t;
  ta_wf : schema_wf (tb_schema t);
  ta_pages : pages_at (db_bpm_ s) m ch;
  ta_rows : holds t ch
}.
(** What a restart finds: the catalog as it was last written.  A table without rows may have
    numbered pages since. *)
Definition saved_meta m0 m : Prop :=
  schema_ m0 = schema_ m /\ table_oid_ m0 = table_oid_ m /\
  last_table_heap_data_page_id_ m0 = last_table_heap_data_page_id_ m /\
  (last_table_data_page_id_ m0 = last_table_data_page_id_ m \/
   last_table_heap_data_page_id_ m = INVALID_PAGE_ID /\ -1 <= last_table_data_page_id_ m0 <= last_table_data_page_id_ m).
Record behind (c0 c : Catalog) : Prop := {
  bh_wf : catalog_wf c0;
  bh_names : table_names_ c0 = table_names_ c;
  bh_size : size (tables_ c0) = size (tables_ c);
  bh_indexes : (size (indexes_ c0) <= size (tables_ c0))%nat;
  bh_tables oid m : tables_ c !! oid = Some (Some m) -> exists m0, tables_ c0 !! oid = Some (Some m0) /\ saved_meta m0 m
}.
(** Room for [k] more statements. *)
Definition page_room k m : Prop := last_table_data_page_id_ m + 1 + 2 * k <= pages.

Record session_ok k s T : Prop := {
  so_wf : catalog_wf (catalog_ s);
  so_layout : layout_ok (db_fs_ s);
  so_disk : on_disk (catalog_ s) (db_fs_ s);
  so_indexes : (size (indexes_ (catalog_ s)) <= size (tables_ (catalog_ s)))%nat;
  so_saved : exists c0, Catalog.make (db_fs_ s) = (Ok (catalog_persisted c0), db_fs_ s) /\ behind c0 (catalog_ s);
  so_pool : pool_ok (db_bpm_ s);
  so_idle : idle (db_bpm_ s);
  so_tables n t : T !! n = Some t -> exists oid m ch, table_at s n t oid m ch /\ page_room k m;
  so_names n : T !! n = None -> table_names_ (catalog_ s) !! n = None;
  so_size : Z.of_nat (size (tables_ (catalog_ s))) + k <= bound;
  so_pages : 2 * k <= pages;
  so_unused oid : Z.of_nat (size (tables_ (catalog_ s))) <= oid -> unused s oid
}.

Lemma behind_refl c : catalog_wf c -> (size (indexes_ c) <= size (tables_ c))%nat -> behind c c.
Proof using. intros Hc Hi. split; try done. intros oid m Hm. exists m. split; [done|]. split_and!; try done. by left. Qed.

Lemma session_less k k' s T : session_ok k s T -> k' <= k -> session_ok k' s T.
Proof.
  intros [A1 A2 A3 A4 A5 A6 A7 A8 A9 A10 A11 A12] Hk. split; try done; [|lia|lia].
  intros n t Ht. destruct (A8 n t Ht) as (oid & m & ch & Hta & Hr). exists oid, m, ch. split; [done|]. unfold page_room in *. lia.
Qed.

(** *** Pages through operations on other tables, flushes and restarts *)
Lemma pages_flush p p' m ch : table_state (mk_table_heap p m) ch -> BufferPool.FlushAllPages p = (Ok tt, p') -> pages_at p' m ch.
Proof. intros Hs E. by destruct (table_state_flush _ _ _ _ Hs E). Qed.

Lemma pages_reopen p m0 m ch n : pages_at p m ch -> saved_meta m0 m -> pool_ok p -> 0 <= n ->
  pages_at (BufferPool.BufferPool n (disk_manager_ p)) (TableMeta.persisted m0) ch.
Proof.
  intros [Hs Hst] (M1 & M2 & M3 & M4) Hp Hn. pose proof (po_disk _ _ Hp) as Hd. destruct (BufferPool_ok n (disk_manager_ p) Hd Hn) as [Hp' Hc].
  destruct Hs as [Hok|[-> [F1 F2 F3 F4 F5 F6]]].
  - assert (last_table_data_page_id_ m0 = last_table_data_page_id_ m) as E.
    { destruct M4 as [|[Hno _]]; [done|]. destruct (hp_last _ _ Hok) as (pre & a & ->).
      destruct (chain_page_last _ _ _ (hp_nodup _ _ Hok)) as [Hl _]. destruct (hp_pages _ _ Hok _ _ Hl) as (Hr & _).
      cbn [table_meta_] in Hr. rewrite Hno in Hr. unfold INVALID_PAGE_ID in Hr. lia. }
    split; [left; by apply (reopen_heap (mk_table_heap p m))|]. intros k a Hka. destruct (Hst k a Hka) as [Hcont Hr].
    unfold page_of_heap in *. cbn [bpm_ table_meta_ table_oid_ TableMeta.persisted] in *. rewrite M2.
    split; [|exact Hr]. symmetry. apply Hc.
  - split; [|by intros k a]. right. split; [done|]. cbn [bpm_ table_meta_] in *. split; cbn [bpm_ table_meta_]; try done; cbn; [|lia|]; congruence.
Qed.

Lemma flush_pool p p' : pool_ok p -> idle p -> BufferPool.FlushAllPages p = (Ok tt, p') ->
  pool_ok p' /\ idle p' /\ page_table_ p' = page_table_ p.
Proof.
  intros Hp Hi E. destruct (flush_all p Hp) as (p1 & E1 & Hp' & Hk & _ & Ht & _). rewrite E in E1. injection E1 as <-.
  split_and!; [done| |done]. intros q. destruct (Hk q) as (-> & -> & _). apply Hi.
Qed.

Lemma unused_apart p p' oid oid' : apart oid p p' -> oid' <> oid ->
  (forall n, page_table_ p !! mk_PageId oid' n = None) -> forall n, page_table_ p' !! mk_PageId oid' n = None.
Proof. intros Hap Hne Hun n. by apply (ap_absent _ _ _ Hap), Hun. Qed.

(** *** Tables of a database *)
Lemma table_at_open k s T n t oid m ch : session_ok k s T -> table_at s n t oid m ch ->
  open_table s n oid m ch /\ 0 <= oid < Z.of_nat (size (tables_ (catalog_ s))).
Proof.
  intros Hs [Hn He Hsch Hwf [Hst _] _]. split.
  - split; try done; [apply Hs..|by rewrite Hsch].
  - apply (wf_tables _ (so_wf _ _ _ Hs) _ _ He).
Qed.

Lemma other_oid s n n' oid oid' : catalog_wf (catalog_ s) -> table_names_ (catalog_ s) !! n = Some oid ->
  table_names_ (catalog_ s) !! n' = Some oid' -> n' <> n -> oid' <> oid.
Proof.
  intros Hwf Hn Hn' Hne ->. destruct (wf_names _ Hwf _ _ Hn) as (_ & m & Hm & Em), (wf_names _ Hwf _ _ Hn') as (_ & m' & Hm' & Em').
  rewrite Hm in Hm'. injection Hm' as <-. congruence.
Qed.

Lemma state_range p m ch : table_state (mk_table_heap p m) ch -> -1 <= last_table_data_page_id_ m.
Proof. intros [Hok|[_ Hf]]; [apply (hp_range _ _ Hok)|apply (fr_range _ Hf)]. Qed.

Lemma table_room k s T n t oid m ch : session_ok (k + 1) s T -> 0 <= k -> table_at s n t oid m ch -> page_room (k + 1) m ->
  has_room (heap_of s m).
Proof.
  intros Hs Hk Hta Hr j Hj. destruct (table_at_open _ _ _ _ _ _ _ _ Hs Hta) as [Hop Ho].
  pose proof (state_range _ _ _ (pa_state _ _ _ (ta_pages _ _ _ _ _ _ Hta))) as Hrange.
  pose proof (so_size _ _ _ Hs). unfold page_room, fresh_page, heap_of in *. cbn [table_meta_] in Hj. split; [lia|].
  destruct (open_table_names _ _ _ _ _ Hop) as (_ & E & _). unfold page_of_heap. cbn [table_meta_]. rewrite E.
  apply storable; lia.
Qed.

Lemma holds_added h t ch vs data : table_state h ch -> holds t ch -> row_reads (tb_schema t) vs (live, data) ->
  holds (add_values vs t) (chain_insert (next_page h ch) (constructed h ch) live (mk_Tuple RID_default data)).2.
Proof.
  intros Hst Hh Hr. unfold holds, add_values. cbn [tb_schema tb_rows].
  assert (exists pre n a, constructed h ch = pre ++ [(n, a)] /\ heap_rows (pre ++ [(n, a)]) = heap_rows ch) as (pre & n & a & -> & Er).
  { destruct Hst as [Hok|[-> _]]; [|by exists [], (fresh_page h), empty_page].
    destruct (hp_last _ _ Hok) as (pre & a & ->). exists pre, (last_table_heap_data_page_id_ (table_meta_ h)), a.
    split; [by destruct pre|done]. }
  rewrite heap_rows_insert, Er. apply Forall2_app; [exact Hh|]. constructor; [exact Hr|constructor].
Qed.

(** *** INSERT *)
Lemma session_row_added k s T n t oid m ch vs data s1 s' : session_ok (k + 1) s T -> 0 <= k -> T !! n = Some t ->
  table_at s n t oid m ch -> page_room (k + 1) m ->
  (forall rid i v, vs !! i = Some v -> Tuple.GetValue (mk_Tuple rid data) (schema_ m) i = Ok v) ->
  row_added s oid m ch (mk_Tuple RID_default data) s1 ->
  (DB.with_bpm BufferPool.FlushAllPages;; DB.PersistCatalog) s1 = (Ok tt, s') ->
  session_ok k s' (<[n := add_values vs t]> T).
Proof.
  intros Hs Hk HT Hta Hroom Hread Hadd Efin. destruct (table_at_open _ _ _ _ _ _ _ _ Hs Hta) as [Hop Hoid].
  destruct (open_table_names _ _ _ _ _ Hop) as (_ & Eoid & _).
  destruct (row_added_open s n oid m ch _ s1 Hop Hadd) as (m' & Hct & Hok & Hop1 & Hoth).
  destruct Hadd as (h & -> & _ & _ & Hle & Hap). rewrite Eoid in Hap.
  pose proof (ot_entry _ _ _ _ _ Hop1) as He. unfold table_entry in He. rewrite (with_heap_entry s oid h) in He. injection He as <-.
  rewrite with_heap_of in Hok. set (m' := table_meta_ h) in *. set (s1 := with_heap s oid h) in *.
  destruct Hct as (Esch & _ & Eoid' & _).
  assert (size (tables_ (Catalog.set_table oid (table_meta_ h) (catalog_ s))) = size (tables_ (catalog_ s))) as Esize by (apply map_size_insert_Some; by eexists; apply Hta).
  destruct (finish_steps s1 (hp_pool _ _ Hok) (ot_wf _ _ _ _ _ Hop1) (ot_layout _ _ _ _ _ Hop1) (ot_disk _ _ _ _ _ Hop1))
    as (p & fs & E & Ep & Hl & Hd & Hload). rewrite Efin in E. injection E as ->.
  destruct (flush_pool _ _ (hp_pool _ _ Hok) (hp_idle _ _ Hok) Ep) as (Hp & Hi & Et).
  assert (size (indexes_ (catalog_ s1)) <= size (tables_ (catalog_ s1)))%nat as Hix.
  { change (indexes_ (catalog_ s1)) with (indexes_ (catalog_ s)). cbn [catalog_ s1 with_heap]. rewrite Esize. apply Hs. }
  split; cbn [catalog_ db_fs_ db_bpm_]; try done.
  - apply Hop1.
  - exists (catalog_ s1). split; [exact Hload|]. apply behind_refl; [apply Hop1|exact Hix].
  - intros n' t' Hn'. destruct (decide (n' = n)) as [->|Hne].
    + rewrite lookup_insert_eq in Hn'. injection Hn' as <-. eexists oid, m', _. split.
      * split; [apply Hta|apply Hop1|cbn; rewrite Esch; apply Hta|apply Hta| |].
        -- eapply pages_flush; [|exact Ep]. left. unfold m'. destruct h. exact Hok.
        -- apply holds_added; [apply Hop|apply Hta|]. split; [done|]. intros rid i v Hv.
           rewrite <- (ta_schema _ _ _ _ _ _ Hta). by apply Hread.
      * change (last_table_data_page_id_ m' + 1 <= last_table_data_page_id_ m + 1 + 2) in Hle. unfold page_room in *. lia.
    + rewrite lookup_insert_ne in Hn' by done. destruct (so_tables _ _ _ Hs n' t' Hn') as (oid2 & m2 & ch2 & Hta2 & Hr2).
      destruct (table_at_open _ _ _ _ _ _ _ _ Hs Hta2) as [Hop2 _]. destruct (open_table_names _ _ _ _ _ Hop2) as (_ & Eoid2 & _).
      pose proof (other_oid s n n' oid oid2 (so_wf _ _ _ Hs) (ta_name _ _ _ _ _ _ Hta) (ta_name _ _ _ _ _ _ Hta2) Hne) as Hne2.
      exists oid2, m2, ch2. split; [|unfold page_room in *; lia]. destruct Hta2 as [B1 B2 B3 B4 B5 B6]. split; try done.
      * unfold table_entry. cbn [catalog_]. by rewrite Hoth.
      * eapply pages_flush; [|exact Ep]. eapply table_state_apart; [apply B5| |exact Hap|apply Hok|apply Hok]. by rewrite Eoid2.
  - intros n' Hn'. apply (so_names _ _ _ Hs). destruct (decide (n' = n)) as [->|Hne]; [by rewrite lookup_insert_eq in Hn'|].
    by rewrite lookup_insert_ne in Hn' by done.
  - pose proof (so_size _ _ _ Hs). rewrite Esize. lia.
  - pose proof (so_pages _ _ _ Hs). lia.
  - rewrite Esize. intros oid' Ho j. cbn [db_bpm_]. rewrite Et.
    apply (unused_apart _ _ oid oid' Hap); [lia|]. by apply (so_unused _ _ _ Hs).
Qed.

(** What a step of a session may do: fail for want of a frame, or what the specification says. *)
Definition follows k (c : command) T (r : res unit * db D) : Prop :=
  r.1 = Err StdRuntimeError \/ (r.1 = (spec_command c T).1 /\ session_ok k r.2 (spec_command c T).2).

Lemma session_insert j query k s T n vs l : session_ok (k + 1) s T -> 0 <= k -> parse query = Some [insert_values n l] ->
  Forall2 is_literal l vs -> command_ok (InsertInto n vs) ->
  follows k (InsertInto n vs) T (DB.ExecuteQuery parse index_id (S (S (S (S j)))) query s).
Proof.
  intros Hs Hk Hp Hl (Hsh & Hpos & Hfit). unfold follows, spec_command.
  assert (forall s', s' = s -> session_ok k s' T) as Hsame by (intros s' ->; apply (session_less (k + 1)); [done|lia]).
  destruct (T !! n) as [t|] eqn:HT.
  2:{ right. rewrite (query_refused parse index_id _ query _ s Exception Hp); [by split; [|apply Hsame]|].
      cbn [Binder.Bind]. unfold Binder.BindInsert, Binder.BindBaseTableRef, Catalog.GetTableByName, Catalog.table_key.
      cbn [hsql.insert_tableName]. by rewrite (so_names _ _ _ Hs n HT). }
  destruct (so_tables _ _ _ Hs n t HT) as (oid & m & ch & Hta & Hroom).
  destruct (table_at_open _ _ _ _ _ _ _ _ Hs Hta) as [Hop Hoid].
  destruct (open_table_names _ _ _ _ _ Hop) as (_ & Eoid & _ & Hget). pose proof (ta_schema _ _ _ _ _ _ Hta) as Esch.
  destruct (String.prefix "__" n) eqn:Hpre.
  { rewrite decide_False by by intros [? _]. right. rewrite (query_refused parse index_id _ query _ s Exception Hp); [by split; [|apply Hsame]|].
    cbn [Binder.Bind]. unfold Binder.BindInsert, Binder.BindBaseTableRef. cbn [hsql.insert_tableName]. rewrite Hget.
    cbn [mbind res_bind table_]. by rewrite Hpre. }
  destruct (decide (_ /\ _)) as [[_ Htypes]|Hno].
  - pose proof (insert_values_effect parse index_id j query l vs s n oid m ch Hp Hop (table_room _ _ _ _ _ _ _ _ Hs Hk Hta Hroom) Hpre Hl Hsh) as Heff.
    rewrite Esch in Heff at 1. specialize (Heff Htypes Hpos Hfit).
    destruct (DB.ExecuteQuery _ _ _ query s) as [[[]|e] s']; [|left; by destruct Heff as [-> _]].
    destruct Heff as (data & s1 & Hread & Hadd & Efin & _). right. split; [done|]. by eapply session_row_added.
  - assert (~ types_match (schema_ m) vs) as Hty by (rewrite Esch; by intros Ht; apply Hno).
    right. rewrite (query_refused parse index_id _ query _ s Exception Hp); [by split; [|apply Hsame]|].
    unfold row_fits, row_size, PAGE_SIZE, TABLE_PAGE_HEADER_SIZE, TUPLE_INFO_SIZE in Hfit. pose proof (varlen_total_nonneg vs).
    destruct (PlanQuery_insert n (table_oid_ m) (schema_ m) l vs (catalog_ s) Hl ltac:(width)) as (cs & _ & _ & _ & Epl).
    fold (insert_values n l). rewrite (Bind_insert n l vs (catalog_ s) m Hget Hpre Hl). cbn [mbind res_bind]. rewrite Epl. by rewrite decide_False.
Qed.

(** *** CREATE TABLE *)
(** What CREATE TABLE makes of a database, with or without an index: a table [m] without rows. *)
Record extends s n m (c' : Catalog) (p' : BufferPool D) : Prop := {
  ex_wf : catalog_wf c';
  ex_tables : tables_ c' = <[table_oid_ m := Some m]> (tables_ (catalog_ s));
  ex_names : table_names_ c' = <[n := table_oid_ m]> (table_names_ (catalog_ s));
  ex_indexes : (size (indexes_ c') <= S (size (indexes_ (catalog_ s))))%nat;
  ex_oid : table_oid_ m = Z.of_nat (size (tables_ (catalog_ s)));
  ex_last : last_table_heap_data_page_id_ m = INVALID_PAGE_ID /\ -1 <= last_table_data_page_id_ m <= 0;
  ex_pool : pool_ok p';
  ex_idle : idle p';
  ex_apart : apart (table_oid_ m) (db_bpm_ s) p';
  ex_absent k : last_table_data_page_id_ m < k -> page_table_ p' !! mk_PageId (table_oid_ m) k = None;
  ex_stored q : table_id_ q <> table_oid_ m -> ps_storable q -> on_store (db_bpm_ s) q -> on_store p' q
}.

Lemma pages_beside p p' m ch oid : pages_at p m ch -> table_oid_ m <> oid -> apart oid p p' -> pool_ok p' -> idle p' ->
  (forall q, table_id_ q <> oid -> ps_storable q -> on_store p q -> on_store p' q) -> pages_at p' m ch.
Proof.
  intros Hat Hne Hap Hp Hi Hst. split; [by eapply table_state_apart; [apply Hat|..]|]. destruct Hat as [Hs Hon]. intros k a Hka.
  destruct Hs as [Hok|[-> _]]; [|done]. destruct (hp_pages _ _ Hok k a Hka) as (_ & Hq & _).
  by apply Hst; [|exact Hq|apply (Hon k a Hka)].
Qed.

Lemma session_extended k s T n sch m c' fs p' : let c := added n sch (catalog_ s) in session_ok (k + 1) s T -> 0 <= k -> T !! n = None ->
  extends s n m c' p' -> schema_ m = sch -> schema_wf sch -> catalog_wf c -> layout_ok fs -> on_disk c fs ->
  Catalog.make fs = (Ok (catalog_persisted c), fs) -> session_ok k (mk_db c' fs p') (<[n := mk_table sch []]> T).
Proof.
  intros c Hs Hk HT [E1 E2 E3 E4 E5 [E6 E7] E8 E9 E10 E11 E12] Esch Hwf Hc Hl Hd Hload.
  pose proof (so_size _ _ _ Hs) as Hsz. pose proof (so_pages _ _ _ Hs) as Hpg. pose proof (so_indexes _ _ _ Hs) as Hix.
  assert (tables_ (catalog_ s) !! table_oid_ m = None) as Hfresh by (rewrite E5; apply fresh_oid, Hs).
  assert (size (tables_ c') = S (size (tables_ (catalog_ s)))) as Esize by (rewrite E2; by apply map_size_insert_None).
  assert (size (tables_ c) = S (size (tables_ (catalog_ s)))) as Esize0 by (apply map_size_insert_None, fresh_oid, Hs).
  split; cbn [catalog_ db_fs_ db_bpm_]; rewrite ?Esize; try done; try lia.
  - intros n' Hn'. apply Hd. cbn [c added table_names_]. by rewrite E3, E5 in Hn'.
  - exists c. split; [exact Hload|]. split; [exact Hc| | | |].
    + cbn [c added table_names_]. by rewrite E3, E5.
    + by rewrite Esize.
    + rewrite Esize0. cbn [c added indexes_]. lia.
    + cbn [c added tables_]. rewrite E2, E5. intros oid m2 [[<- [= <-]]|[Hne Hm]]%lookup_insert_Some.
      * eexists. split; [apply lookup_insert_eq|]. rewrite <- Esch. split_and!; try done. right. split; [done|]. cbn. unfold INVALID_PAGE_ID. lia.
      * exists m2. rewrite lookup_insert_ne by done. split; [done|]. split_and!; try done. by left.
  - intros n' t' Hn'. destruct (decide (n' = n)) as [->|Hne].
    + rewrite lookup_insert_eq in Hn'. injection Hn' as <-. exists (table_oid_ m), m, []. split; [|unfold page_room; lia].
      split; cbn [catalog_ db_bpm_ tb_schema]; try done.
      * rewrite E3. apply lookup_insert_eq.
      * unfold table_entry. cbn [catalog_]. rewrite E2. apply lookup_insert_eq.
      * split; [|by intros j a]. right. split; [done|]. split; cbn [bpm_ table_meta_]; try done; [|lia].
        rewrite E5. unfold INVALID_TABLE_OID. lia.
      * constructor.
    + rewrite lookup_insert_ne in Hn' by done. destruct (so_tables _ _ _ Hs n' t' Hn') as (oid2 & m2 & ch2 & Hta2 & Hr2).
      destruct (table_at_open _ _ _ _ _ _ _ _ Hs Hta2) as [Hop2 Ho2]. destruct (open_table_names _ _ _ _ _ Hop2) as (_ & Eoid2 & _).
      exists oid2, m2, ch2. split; [|unfold page_room in *; lia]. destruct Hta2 as [B1 B2 B3 B4 B5 B6]. split; cbn [catalog_ db_bpm_]; try done.
      * by rewrite E3, lookup_insert_ne.
      * unfold table_entry. cbn [catalog_]. rewrite E2, lookup_insert_ne by lia. exact B2.
      * eapply pages_beside; [exact B5| |exact E10|exact E8|exact E9|exact E12]. lia.
  - intros n' Hn'. destruct (decide (n' = n)) as [->|Hne]; [by rewrite lookup_insert_eq in Hn'|].
    rewrite lookup_insert_ne in Hn' by done. rewrite E3, lookup_insert_ne by done. by apply (so_names _ _ _ Hs).
  - intros oid' Ho j. cbn [db_bpm_]. apply (unused_apart _ _ _ oid' E10); [lia|]. apply (so_unused _ _ _ Hs). lia.
Qed.

Lemma created_extends k s T n sch pk s' : session_ok (k + 1) s T -> 0 <= k -> table_names_ (catalog_ s) !! n = None ->
  table_name_ok n -> string_valid (n +:+ "_pk") -> Schema.valid sch -> created_with index_id n sch pk s s' ->
  exists m, extends s n m (catalog_ s') (db_bpm_ s') /\ schema_ m = sch /\ catalog_wf (added n sch (catalog_ s)).
Proof.
  intros Hs Hk Hn Hok Hsv Hv Hcr. pose proof (so_size _ _ _ Hs) as Hsz. pose proof (so_indexes _ _ _ Hs) as Hix.
  pose proof (name_valid n Hsv) as Hnv. set (oid := Z.of_nat (size (tables_ (catalog_ s)))).
  assert (oid < 2 ^ 31 - 1) as Hsz' by (unfold oid; lia).
  pose proof (added_wf n sch _ (so_wf _ _ _ Hs) Hn Hok Hnv Hv Hsz') as Hwf.
  assert (forall j, page_table_ (db_bpm_ s) !! mk_PageId oid j = None) as Hun by by apply (so_unused _ _ _ Hs).
  destruct Hcr as [fs|key col fs p -> Hcol oid' m Hp]; cbn [catalog_ db_bpm_].
  - exists (TableMeta.make sch n oid). split; [|done]. split; try done; cbn [catalog_ db_bpm_]; try apply Hs. cbn [added indexes_]. lia.
  - fold oid in oid', m. exists (BTreeInsert.grown m). split; [|done]. destruct Hp as [P1 P2 P3 P4 P5].
    split; try done.
    + apply key_catalog_wf; try done.
      * apply lookup_insert_eq.
      * apply lookup_insert_eq.
      * apply list_elem_of_lookup in Hcol as [j Hj]. by apply (Forall_lookup_1 _ _ j _ (proj1 (proj2 Hv))).
      * cbn [added indexes_]. lia.
    + cbn [key_catalog index_added Catalog.set_table added tables_]. by rewrite insert_insert_eq.
    + apply emplace_size.
    + intros j Hj. apply P4; [exact Hj|]. apply Hun.
Qed.

Lemma session_create fuel query k s T n cols pk st : session_ok (k + 1) s T -> 0 <= k -> parse query = Some [hsql.kStmtCreate st] ->
  Binder.BindCreate st = Ok (mk_CreateStatement n cols pk) -> command_ok (CreateTable n cols pk) ->
  follows k (CreateTable n cols pk) T (DB.ExecuteQuery parse index_id fuel query s).
Proof.
  intros Hs Hk Hp Hb (Hok & Hsv & sch & Emk & Hv & Hwf & _). rewrite (create_steps parse index_id fuel query st _ s Hp Hb).
  unfold follows, spec_command. rewrite Emk. destruct (T !! n) as [t|] eqn:HT.
  - right. destruct (so_tables _ _ _ Hs n t HT) as (oid & m & ch & Hta & _).
    rewrite (bind_err _ _ _ _ _ (create_taken index_id n cols pk sch oid s Emk (so_wf _ _ _ Hs) (ta_name _ _ _ _ _ _ Hta))).
    split; [done|]. apply (session_less (k + 1)); [done|lia].
  - pose proof (so_names _ _ _ Hs n HT) as Hn. pose proof (so_size _ _ _ Hs) as Hsz. pose proof (so_pages _ _ _ Hs) as Hpg.
    pose proof (create_with_key index_id n cols pk sch s Emk (so_wf _ _ _ Hs) (so_layout _ _ _ Hs) (so_disk _ _ _ Hs) Hn Hok (name_valid n Hsv) Hv
      ltac:(lia) (so_pool _ _ _ Hs) (so_idle _ _ _ Hs) (so_unused _ _ _ Hs _ ltac:(done)) ltac:(split; [apply storable; lia|done])) as Hc.
    destruct (DB.HandleCreateStatement _ _ s) as [r s'] eqn:E. destruct Hc as [->|(-> & Hcr & Hl & Hd & Hload)].
    { left. by rewrite (bind_err _ _ _ _ _ E). }
    right. destruct (created_extends k s T n sch pk s' Hs Hk Hn Hok Hsv Hv Hcr) as (m & Hex & Esch & Hc).
    assert (session_ok k s' (<[n := mk_table sch []]> T)) as Hs'.
    { destruct s' as [c' fs p']. by eapply session_extended. }
    destruct (key_answer sch pk) as [[]|e]; [by rewrite (bind_ok _ _ _ _ _ E)|by rewrite (bind_err _ _ _ _ _ E)].
Qed.

(** *** Restarts *)
Lemma persisted_twice c : catalog_persisted (catalog_persisted c) = catalog_persisted c.
Proof using.
  assert (forall sch, Schema.persisted (Schema.persisted sch) = Schema.persisted sch) as Hsch.
  { intros [cols u sz]. unfold Schema.persisted. cbn [columns_ uninlined_columns_ tuple_inline_part_storage_size_]. by rewrite <- list_fmap_compose. }
  unfold catalog_persisted. cbn [tables_ indexes_ index_names_ table_names_]. rewrite <- !map_fmap_compose.
  f_equal; apply map_fmap_ext; intros i [m|] _; cbn; [|done| |done].
  - unfold TableMeta.persisted. cbn. by rewrite Hsch.
  - done.
Qed.

(** The process ends, and another one starts on what it left on disk. *)
Definition restart : M (db D) unit := fun s =>
  match DB.DB (db_fs_ s) (disk_manager_ (db_bpm_ s)) with
  | (Ok s', _) => (Ok tt, s')
  | (Err e, _) => (Err e, s)
  end.

Lemma session_restart k s T : session_ok (k + 1) s T -> 0 <= k -> follows k Reopen T (restart s).
Proof.
  intros Hs Hk. right. unfold restart, DB.DB. destruct (so_saved _ _ _ Hs) as (c0 & Eload & [C1 C2 C3 C4 C5]).
  rewrite Eload. split; [done|]. cbn [snd spec_command].
  destruct (BufferPool_ok DEFAULT_POOL_SIZE (disk_manager_ (db_bpm_ s)) (po_disk _ _ (so_pool _ _ _ Hs)) ltac:(done)) as [Hp _].
  pose proof (so_size _ _ _ Hs) as Hsz. pose proof (so_pages _ _ _ Hs) as Hpg. pose proof (persisted_wf _ C1) as Hwf.
  assert (size (tables_ (catalog_persisted c0)) = size (tables_ (catalog_ s))) as Esize by (rewrite <- C3; apply map_size_fmap).
  assert (size (indexes_ (catalog_persisted c0)) <= size (tables_ (catalog_persisted c0)))%nat as Hix by (cbn; by rewrite !map_size_fmap).
  split; cbn [catalog_ db_fs_ db_bpm_]; try done; rewrite ?Esize; try done; try lia.
  - apply Hs.
  - intros n Hn. apply (so_disk _ _ _ Hs). cbn in Hn. by rewrite C2 in Hn.
  - exists (catalog_persisted c0). rewrite persisted_twice. split; [exact Eload|]. by apply behind_refl.
  - intros n t Ht. apply lookup_fmap_Some in Ht as (t0 & <- & Ht). destruct (so_tables _ _ _ Hs n t0 Ht) as (oid & m & ch & Hta & Hr).
    destruct Hta as [B1 B2 B3 B4 B5 B6]. destruct (C5 oid m B2) as (m0 & Em0 & Hsv).
    exists oid, (TableMeta.persisted m0), ch. split.
    2:{ destruct Hsv as (_ & _ & _ & Hl). unfold page_room in *. cbn. lia. }
    split; cbn [catalog_ db_bpm_]; try done.
    + cbn. by rewrite C2.
    + unfold table_entry. cbn [catalog_ catalog_persisted tables_]. by rewrite lookup_fmap, Em0.
    + cbn. by rewrite (proj1 Hsv), B3.
    + by apply persisted_schema_wf.
    + eapply pages_reopen; [exact B5|exact Hsv|apply Hs|done].
    + by apply holds_reopened.
  - intros n Hn. rewrite lookup_fmap in Hn. destruct (T !! n) eqn:HT; [done|]. cbn. rewrite C2. by apply (so_names _ _ _ Hs).
Qed.

(** ** Sessions *)
Inductive step := Query (query : string) | Restart.
Definition perform (fuel : nat) (x : step) : M (db D) unit :=
  match x with Query query => DB.ExecuteQuery parse index_id fuel query | Restart => restart end.
(** The answers of the steps, until the buffer pool has no frame left. *)
Fixpoint run (fuel : nat) (l : list step) : M (db D) (list (res unit)) := fun s =>
  match l with
  | [] => (Ok [], s)
  | x :: l =>
    match perform fuel x s with
    | (Err StdRuntimeError, s) => (Err StdRuntimeError, s)
    | (r, s) => match run fuel l s with (Ok rs, s) => (Ok (r :: rs), s) | (Err e, s) => (Err e, s) end
    end
  end.

(** The command that a step stands for: a text whose parse tree is bound to it. *)
Definition means (x : step) (c : command) : Prop :=
  match x, c with
  | Query q, CreateTable n cols pk => exists st, parse q = Some [hsql.kStmtCreate st] /\ Binder.BindCreate st = Ok (mk_CreateStatement n cols pk)
  | Query q, InsertInto n vs => exists l, parse q = Some [insert_values n l] /\ Forall2 is_literal l vs
  | Restart, Reopen => True
  | _, _ => False
  end.

Lemma run_ok j l cs s T : session_ok (Z.of_nat (length cs)) s T -> Forall2 means l cs -> Forall command_ok cs ->
  match run (S (S (S (S j)))) l s with
  | (Ok rs, s') => rs = (spec_session cs T).1 /\ session_ok 0 s' (spec_session cs T).2
  | (Err e, _) => e = StdRuntimeError
  end.
Proof.
  intros Hs Hm Hok. revert s T Hs. induction Hm as [|x c l cs Hx Hm IH]; intros s T Hs; [by split|].
  apply Forall_cons in Hok as [Hc Hok]. specialize (IH Hok). set (k := Z.of_nat (length cs)).
  assert (session_ok (k + 1) s T) as Hs1 by (replace (k + 1) with (Z.of_nat (length (c :: cs))) by (cbn [length]; unfold k; lia); exact Hs).
  assert (0 <= k) as Hk by (unfold k; lia).
  assert (follows k c T (perform (S (S (S (S j)))) x s)) as Hf.
  { destruct x as [q|], c as [n cols pk|n vs|]; try done; cbn [perform means] in *.
    - destruct Hx as (st & Hp & Hb). by eapply session_create.
    - destruct Hx as (lits & Hp & Hl). by eapply session_insert.
    - by apply session_restart. }
  cbn [run spec_session]. destruct (perform _ x s) as [r s1]. destruct Hf as [Hf|[Hf Hs2]]; cbn [fst snd] in *; [by rewrite Hf|].
  specialize (IH _ _ Hs2). rewrite <- Hf.
  assert (r <> Err StdRuntimeError) as Hne by (rewrite Hf; by apply spec_not_exhausted).
  destruct r as [[]|[]]; try done; destruct (run _ l s1) as [[rs|e] s2]; try done; destruct IH as [-> IH]; done.
Qed.

(** *** Reading the rows *)
Lemma heap_rows_place ch i r : NoDup ch.*1 -> heap_rows ch !! i = Some r ->
  exists n a (slot : nat), chain_page ch n = Some a /\ tp_rows a !! slot = Some r.
Proof using.
  intros Hnd Hi. apply list_elem_of_lookup_2 in Hi. unfold heap_rows in Hi.
  apply list_elem_of_In, in_concat in Hi as (rows & Hin & Hr). apply list_elem_of_In in Hin, Hr.
  apply list_elem_of_fmap in Hin as ([n a] & -> & Hin). cbn [snd] in Hr. apply list_elem_of_lookup in Hr as [slot Hslot].
  exists n, a, slot. split; [|done]. by apply (chain_page_elem ch n a Hnd).
Qed.

(** Every row of the tables is read, through the catalog and the buffer pool, under a record
    id; no other name is known. *)
Definition readable s T : Prop := forall n,
  match T !! n with
  | None => Catalog.GetTableByName n (catalog_ s) = Err Exception
  | Some t => exists m, Catalog.GetTableByName n (catalog_ s) = Ok m /\ schema_ m = tb_schema t /\
      forall i vs, tb_rows t !! i = Some vs -> exists rid data,
        (TableHeap.GetTuple rid (heap_of s m)).1 ∈ [Ok (Some (live, mk_Tuple rid data)); Err StdRuntimeError] /\
        forall j v, vs !! j = Some v -> Tuple.GetValue (mk_Tuple rid data) (schema_ m) j = Ok v
  end.

Lemma session_readable k s T : session_ok k s T -> readable s T.
Proof.
  intros Hs n. destruct (T !! n) as [t|] eqn:HT.
  2:{ unfold Catalog.GetTableByName, Catalog.table_key. by rewrite (so_names _ _ _ Hs n HT). }
  destruct (so_tables _ _ _ Hs n t HT) as (oid & m & ch & Hta & _). destruct (table_at_open _ _ _ _ _ _ _ _ Hs Hta) as [Hop _].
  destruct (open_table_names _ _ _ _ _ Hop) as (_ & _ & _ & Hget). pose proof (ta_schema _ _ _ _ _ _ Hta) as Esch.
  exists m. split_and!; [exact Hget|exact Esch|]. intros i vs Hvs.
  destruct (Forall2_lookup_l _ _ _ _ _ (ta_rows _ _ _ _ _ _ Hta) Hvs) as ([mt data] & Hr & [Hlive Hread]). cbn [fst snd] in *. subst mt.
  destruct (pa_state _ _ _ (ta_pages _ _ _ _ _ _ Hta)) as [Hok|[-> _]]; [|done].
  destruct (heap_rows_place ch i _ (hp_nodup _ _ Hok) Hr) as (k0 & a & slot & Ha & Hslot).
  exists (mk_RID (page_of_heap (heap_of s m) k0) (Z.of_nat slot)), data. split.
  - pose proof (GetTuple_heap (heap_of s m) ch k0 a (mk_RID (page_of_heap (heap_of s m) k0) (Z.of_nat slot)) Hok eq_refl Ha ltac:(cbn; lia)) as Hg.
    destruct (TableHeap.GetTuple _ (heap_of s m)) as [r s2]. destruct Hg as (Hg & _). unfold spec_get in Hg. cbn [slot_num_] in Hg.
    rewrite Nat2Z.id, Hslot in Hg. destruct Hg as [->|[-> _]]; [left|right; left].
  - intros j v Hv. rewrite Esch. by apply Hread.
Qed.

Lemma first_start fs (d : D) k : layout_ok fs -> files fs !! catalog_path = None -> ps_ok d -> k <= bound -> 2 * k <= pages ->
  exists s0, (DB.DB fs d).1 = Ok s0 /\ session_ok k s0 ∅.
Proof.
  intros Hl Hf Hd Hb Hp. destruct (Catalog_first_start fs Hl Hf) as (fs' & E & Hl' & E').
  unfold DB.DB. rewrite E. eexists. split; [done|].
  destruct (BufferPool_ok DEFAULT_POOL_SIZE d Hd ltac:(done)) as [Hpool _].
  split; cbn [catalog_ db_fs_ db_bpm_]; try done.
  - apply empty_wf.
  - intros n [? ?]. done.
  - exists Catalog.empty. split; [exact E'|]. apply behind_refl; [apply empty_wf|done].
Qed.
End session.

(** ** The theorem *)
Section whole.
Context {D : Type} `{PageStore D} `{!HashOrder Z bool} `{!TupleInfoLayout} `{!LeafLayout}.
Context `{!HashOrder Z (option TableMeta)} `{!HashOrder Z (option IndexMeta)}
  `{!HashOrder string Z} `{!HashOrder string (gmap string Z)}.
Context (parse : string -> option (list hsql.SQLStatement)) (index_id : Z) (index_id_ok : in_s 32 index_id).
#[local] Set Default Proof Using "Type*".

(** C1: from an empty directory on, any sequence of CREATE TABLE, with or without a primary
    key, and INSERT ... VALUES queries and restarts of the program is answered as the
    specification of tables and rows answers it: a taken name, an unknown table and literals
    of other types are refused and change nothing, a key whose type has no order is refused
    with the table made, and at the end every row of every table is read back through catalog
    and buffer pool, whatever other tables and indexes share the pool, and however often the
    program was started again.  The only other end is that the pool has no frame for a page. *)
Theorem sessions_refine k l cs fs (d : D) : let len := Z.of_nat (length cs) in
  layout_ok fs -> files fs !! catalog_path = None -> ps_ok d -> 2 * len <= 2 ^ 31 ->
  (forall t n, 0 <= t < len -> 0 <= n < 2 * len -> ps_storable (mk_PageId t n)) ->
  Forall2 (means parse) l cs -> Forall command_ok cs ->
  exists s0, (DB.DB fs d).1 = Ok s0 /\
    match run parse index_id (S (S (S (S k)))) l s0 with
    | (Ok answers, s') => answers = (spec_session cs ∅).1 /\ readable s' (spec_session cs ∅).2
    | (Err e, _) => e = StdRuntimeError
    end.
Proof.
  intros len Hl Hf Hd Hlen Hst Hm Hok.
  assert (len < 2 ^ 31) as Hb by (unfold len in *; lia).
  destruct (first_start len (2 * len) Hb Hlen Hst fs d len Hl Hf Hd) as (s0 & E & Hs); [lia|lia|].
  exists s0. split; [exact E|].
  pose proof (run_ok parse index_id index_id_ok len (2 * len) Hb Hlen Hst k l cs s0 ∅ Hs Hm Hok) as Hrun.
  destruct (run _ _ _ l s0) as [[answers|e] s']; [|done]. destruct Hrun as [-> Hs']. split; [done|]. by eapply session_readable.
Qed.
End whole.

(** ** A concrete session *)
#[local] Existing Instance any_order.
#[local] Existing Instance memory_store.
#[local] Existing Instance packed_leaf.
#[local] Existing Instance libstdcxx_layout.

(** [CREATE TABLE t (id INT PRIMARY KEY, name VARCHAR(3))] *)
Definition keyed_create : hsql.CreateStatement := hsql.mk_CreateStatement "t" true
  [hsql.mk_ColumnDefinition "id" Type_.DT_INT 0 true; hsql.mk_ColumnDefinition "name" Type_.DT_VARCHAR 3 false].
Definition demo_session : list step :=
  [Query "keyed"; Restart; Query "insert"; Query "create"; Query "insert"; Restart; Query "wrong"].
Definition demo_commands : list command :=
  [CreateTable "t" demo_cols ["id"]; Reopen; InsertInto "t" demo_row; CreateTable "t" demo_cols []; InsertInto "t" demo_row;
   Reopen; InsertInto "u" demo_row].
Definition session_parse (query : string) : option (list hsql.SQLStatement) :=
  if bool_decide (query = "wrong") then Some [insert_values "u" demo_literals]
  else if bool_decide (query = "keyed") then Some [hsql.kStmtCreate keyed_create] else demo_parse query.

Lemma sessions_refine_witness : exists s0 s', (DB.DB no_files (∅ : gmap PageId (list Byte.byte))).1 = Ok s0 /\
  run session_parse 0 4 demo_session s0 =
    (Ok [Ok tt; Ok tt; Ok tt; Err RuntimeException; Ok tt; Ok tt; Err Exception], s') /\
  readable s' {["t" := mk_table (Schema.persisted demo_table) [demo_row; demo_row]]}.
Proof.
  destruct (sessions_refine session_parse 0 ltac:(width) 0 demo_session demo_commands no_files (∅ : gmap PageId (list Byte.byte)))
    as (s0 & E & Hrun).
  - exact no_files_layout.
  - done.
  - done.
  - cbn. lia.
  - done.
  - repeat (constructor; [cbn; first [done | by exists demo_create | by exists keyed_create | exists demo_literals; split; [done|repeat constructor]]|]). constructor.
  - assert (forall pk, key_known demo_table pk -> command_ok (CreateTable "t" demo_cols pk)) as Hc.
    { intros pk Hpk. split; [apply t_name_ok|]. split; [by vm_compute|]. exists demo_table.
      split_and!; [done|apply demo_table_valid|apply demo_table_wf|exact Hpk]. }
    assert (forall n, command_ok (InsertInto n demo_row)) as Hi.
    { intros n. split; [exact demo_row_short|]. split; [cbn; lia|]. unfold row_fits. by vm_compute. }
    repeat (constructor; [first [exact (Hi _)|exact I|apply Hc; first [by left|right; by eexists _, _]]|]). constructor.
  - exists s0. assert (s0 = (match (DB.DB no_files (∅ : gmap PageId (list Byte.byte))).1 with Ok s => s | Err _ => s0 end)) as Es by by rewrite E.
    destruct (run session_parse 0 4 demo_session s0) as [[answers|e] s'] eqn:Er.
    + destruct Hrun as [-> Hr]. exists s'. split_and!; [exact E|reflexivity|exact Hr].
    + exfalso. rewrite Es in Er. vm_compute in Er. discriminate Er.
Defined.
