(* ===== verification/InsertSelect.v ===== *)
(** * INSERT ... SELECT: the rows of one table copied into another, or into the same

    The insert executor draws rows from a sequential scan and puts them at the end of its
    table.  Both work on the same buffer pool, and on the same pages when a table is copied
    into itself: the iterator was made before the first row went in, and stops where the
    table ended then. *)
From S2P Require Import Prelude Bytes Streams Serializer Codec CodecFacts Types Value Schema Tuple Expressions.
From S2P Require Import Files TablePage DiskManager BufferPool BufferPoolProps PageGuard TableMeta.
From S2P Require Import TableHeap TableHeapProps TableHeapThms TableScan Index BtreePage.
From S2P Require Import BtreeThms Transactions BTreeIndex Catalog CatalogFacts CatalogThms.
From S2P Require Import Binder Planner PlannerThms Database DatabaseThms IndexCreation Session.
Open Scope Z_scope.

(** ** A chain that grows at its end *)
(** Only the last page leads nowhere. *)
Definition ends_at (l : Z) (src : chain) : Prop :=
  forall n a, chain_page src n = Some a -> n <> l -> tp_next a <> INVALID_PAGE_ID.

Lemma linked_ends (pre : chain) l b : (forall n a, chain_page (pre ++ [(l, b)]) n = Some a -> 0 <= n) ->
  NoDup (pre ++ [(l, b)]).*1 -> linked (pre ++ [(l, b)]) -> ends_at l (pre ++ [(l, b)]).
Proof.
  intros Hpos Hnd Hli n a Hn Hne. apply chain_page_elem in Hn; [|done].
  apply elem_of_app in Hn as [Hn|Hn]; [|apply list_elem_of_singleton in Hn; congruence].
  apply list_elem_of_split in Hn as (p1 & p2 & ->). rewrite <- app_assoc in *. cbn [app] in *.
  assert (exists n' a' p3, p2 ++ [(l, b)] = (n', a') :: p3) as (n' & a' & p3 & E).
  { destruct p2 as [|[n' a'] p2]; by eexists _, _, _. }
  rewrite E in *. assert (tp_next a = n') as ->.
  { clear -Hli. induction p1 as [|[k c] p1 IH]; cbn [app linked] in Hli; [by destruct Hli|]. apply IH, Hli. }
  assert (0 <= n') by (apply (Hpos n' a'), chain_page_elem; [done|]; apply elem_of_app; right; right; left).
  unfold INVALID_PAGE_ID. lia.
Qed.

(** Rows that go in at the end leave a chain that was read before as it was. *)
Lemma still_insert l src (pre : chain) n a fresh mt t : still l src (pre ++ [(n, a)]) -> ends_at l src ->
  tp_next a = INVALID_PAGE_ID -> NoDup (pre ++ [(n, a)]).*1 ->
  still l src (chain_insert fresh (pre ++ [(n, a)]) mt t).2.
Proof.
  intros Hst Hends Hnext Hnd k c Hk. destruct (Hst k c Hk) as (c' & Hc' & Hpre & Hsame).
  destruct (chain_page_last _ _ _ Hnd) as [Hlast _]. rewrite chain_insert_app.
  destruct (decide (k = n)) as [->|Hne].
  - assert (c' = a) as -> by congruence.
    assert (n = l) as -> by (destruct (decide (n = l)) as [|Hn]; [done|]; exfalso; apply (Hends n c Hk Hn); by rewrite <- (Hsame Hn)).
    assert (chain_page pre l = None) as Hno.
    { destruct (chain_page pre l) as [x|] eqn:Ex; [|done]. by destruct (proj2 (chain_page_last _ _ _ Hnd) _ _ Ex). }
    destruct (room a t); cbn [snd]; rewrite chain_page_app, Hno; cbn [chain_page]; rewrite decide_True by done;
      eexists; (split; [done|]); (split; [|done]); [by apply prefix_app_r|exact Hpre].
  - exists c'. split; [|by split]. rewrite chain_page_app in Hc'.
    assert (chain_page pre k = Some c') as Hp by (destruct (chain_page pre k); [done|]; cbn in Hc'; by rewrite decide_False in Hc').
    destruct (room a t); cbn [snd]; by rewrite chain_page_app, Hp.
Qed.

(** A row of a page goes into any page. *)
Lemma rep_fits `{!TupleInfoLayout} p a (i : nat) mt bs rid : rep p a -> tp_rows a !! i = Some (mt, bs) -> TableHeapProps.fits (mk_Tuple rid bs).
Proof.
  intros Hr Hi. destruct (rep_rows _ _ Hr _ _ _ Hi) as (Hpos & _). destruct (row_bounds _ _ _ _ _ Hr Hi) as (Hlt & H1 & H2 & H3).
  unfold TableHeapProps.fits, TABLE_PAGE_HEADER_SIZE, TUPLE_INFO_SIZE, PAGE_SIZE in *. cbn [Tuple.data_]. lia.
Qed.

(** The rows a scan has before it, as the insert stores them. *)
Definition copies (rows : list (RID * list byte)) : list (TupleMeta * list byte) := (fun r => (live, r.2)) <$> rows.

(** The row the executor answers: how many there were. *)
Lemma inserted_tuple z : exists t, Tuple.make [mk_Value INTEGER (VInt32 z) false] inserted_schema = Ok t.
Proof. eexists. reflexivity. Qed.

(** ** The loop *)
Section copy.
Context {D : Type} `{PageStore D} `{!HashOrder Z bool} `{!TupleInfoLayout}.
(** The target, the source, and the source as it is when the statement starts: its meta
    data, its pages and the last of them. *)
Context (ot ou : Z) (mu : TableMeta) (src : chain) (l : Z) (b : table_page) (cs : Schema).
Context (mu_oid : table_oid_ mu = ou) (src_scan : scannable src l b) (src_ends : ends_at l src).
#[local] Set Default Proof Using "All".
Implicit Types (s : db D) (m : TableMeta) (tgt post pre : chain) (h : table_heap D).

(** Halfway through the statement: the target with its pages, and the source, either the
    same table with rows added, or another one as it was. *)
Record copying s m tgt : Prop := {
  cp_entry : table_entry s ot m;
  cp_oid : table_oid_ m = ot;
  cp_ok : heap_ok (heap_of s m) tgt;
  cp_source : ou = ot /\ still l src tgt \/ ou <> ot /\ table_entry s ou mu /\ heap_ok (heap_of s mu) src
}.

(** The source at that point. *)
Definition source_now m tgt m1 cur : Prop := ou = ot /\ m1 = m /\ cur = tgt \/ ou <> ot /\ m1 = mu /\ cur = src.

Lemma source_of s m tgt : copying s m tgt -> exists m1 cur, source_now m tgt m1 cur /\ table_entry s ou m1 /\
  table_oid_ m1 = ou /\ heap_ok (heap_of s m1) cur /\ still l src cur.
Proof.
  intros [He Ho Hok [[E Hst]|(Hne & He' & Hok')]].
  - exists m, tgt. split_and!; try done; [by left|by rewrite E|congruence].
  - exists mu, src. split_and!; try done; [by right|apply still_refl].
Qed.

(** Looking at the source changes neither table. *)
Lemma copying_look s m tgt m1 cur h : copying s m tgt -> source_now m tgt m1 cur -> table_entry s ou m1 ->
  table_meta_ h = m1 -> heap_ok h cur -> apart ou (db_bpm_ s) (bpm_ h) ->
  copying (with_heap s ou h) m tgt /\ catalog_ (with_heap s ou h) = catalog_ s.
Proof.
  intros [He Ho Hok Hsrc] Hnow He1 Hm Hok1 Hap. destruct h as [p m2]. cbn [table_meta_ bpm_] in *. subst m2.
  assert (catalog_ (with_heap s ou (mk_table_heap p m1)) = catalog_ s) as Ecat.
  { pose proof (with_heap_same s ou m1 He1) as E. apply (f_equal catalog_) in E. exact E. }
  split; [|done]. destruct Hnow as [(E & -> & ->)|(Hne & -> & ->)].
  - split; [unfold table_entry; by rewrite Ecat|done|done|]. destruct Hsrc as [[_ Hst]|(Hne & _)]; [by left|done].
  - split; [unfold table_entry; by rewrite Ecat|done| |right; split_and!; [done|unfold table_entry; by rewrite Ecat|done]].
    eapply heap_ok_apart; [exact Hok| |exact Hap|apply Hok1|apply Hok1]. congruence.
Qed.

(** What some rounds of the loop amount to: rows at the end of the target and two counts for
    each; files, other tables and their pages stay. *)
Definition beside s s' : Prop := forall m' ch', table_oid_ m' <> ot -> table_oid_ m' <> ou ->
  table_state (heap_of s m') ch' -> table_state (heap_of s' m') ch'.
Record copied s m tgt (rows : list (TupleMeta * list byte)) s' m' tgt' : Prop := {
  cd_catalog : catalog_ s' = Catalog.set_table ot m' (catalog_ s);
  cd_fs : db_fs_ s' = db_fs_ s;
  cd_beside : beside s s';
  cd_rows : heap_rows tgt' = heap_rows tgt ++ rows;
  cd_schema : schema_ m' = schema_ m;
  cd_name : name_ m' = name_ m;
  cd_oid : table_oid_ m' = table_oid_ m;
  cd_count : uwrap 64 (tuple_count_ m') = uwrap 64 (tuple_count_ m + 2 * Z.of_nat (length rows));
  cd_range : in_u 64 (tuple_count_ m) -> in_u 64 (tuple_count_ m')
}.

Lemma beside_apart s s' oid : oid = ot \/ oid = ou -> apart oid (db_bpm_ s) (db_bpm_ s') ->
  pool_ok (db_bpm_ s') -> idle (db_bpm_ s') -> beside s s'.
Proof. intros Ho Hap Hp Hi m' ch' Hne1 Hne2 Hs. eapply table_state_apart; [exact Hs| |exact Hap|done|done]. by destruct Ho as [-> | ->]. Qed.

Lemma copied_refl s m tgt : table_entry s ot m -> copied s m tgt [] s m tgt.
Proof.
  intros He. split; try done.
  - pose proof (with_heap_same s ot m He) as E. by apply (f_equal catalog_) in E.
  - by intros m' ch' _ _.
  - by rewrite app_nil_r.
  - cbn. by rewrite Z.add_0_r.
Qed.
Lemma copied_app s m tgt rows s1 m1 tgt1 rows' s2 m2 tgt2 : copied s m tgt rows s1 m1 tgt1 -> copied s1 m1 tgt1 rows' s2 m2 tgt2 ->
  copied s m tgt (rows ++ rows') s2 m2 tgt2.
Proof.
  intros [A1 A2 A3 A4 A5 A6 A7 A8 A9] [B1 B2 B3 B4 B5 B6 B7 B8 B9]. split; try congruence.
  - rewrite B1, A1. unfold Catalog.set_table. cbn. by rewrite insert_insert_eq.
  - intros m' ch' H1 H2 Hs. by apply B3, A3.
  - by rewrite B4, A4, app_assoc.
  - rewrite B8, length_app, Nat2Z.inj_add. unfold uwrap in *. rewrite <- Zplus_mod_idemp_l, A8, Zplus_mod_idemp_l. f_equal. lia.
  - intros Hc. by apply B9, A9.
Qed.

(** A look at the pages. *)
Lemma copied_none s m tgt s' oid : table_entry s ot m -> catalog_ s' = catalog_ s -> db_fs_ s' = db_fs_ s ->
  oid = ot \/ oid = ou -> apart oid (db_bpm_ s) (db_bpm_ s') -> pool_ok (db_bpm_ s') -> idle (db_bpm_ s') ->
  copied s m tgt [] s' m tgt.
Proof.
  intros He Hcat Hfs Ho Hap Hp Hi. split; try done.
  - rewrite Hcat. pose proof (with_heap_same s ot m He) as E. by apply (f_equal catalog_) in E.
  - by eapply beside_apart.
  - by rewrite app_nil_r.
  - cbn. by rewrite Z.add_0_r.
Qed.
Lemma copied_look s m tgt s' oid : copying s m tgt -> copying s' m tgt -> catalog_ s' = catalog_ s -> db_fs_ s' = db_fs_ s ->
  oid = ot \/ oid = ou -> apart oid (db_bpm_ s) (db_bpm_ s') -> copied s m tgt [] s' m tgt.
Proof.
  intros Hcp Hcp' Hcat Hfs Ho Hap. apply (copied_none s m tgt s' oid); try done; [apply Hcp|apply (cp_ok _ _ _ Hcp')..].
Qed.

Lemma scan_next k it t r s : Next (S k) (SeqScanExec cs ou it) t r s =
  (x ← on_heap ou (SeqScanExecutor.Next cs t r it); mret (x.1, SeqScanExec cs ou x.2)) s.
Proof. reflexivity. Qed.

(** One row out of the scan, and its end. *)
Lemma scan_step k s m tgt it r todo t0 r0 : copying s m tgt -> ahead ou src l b cs it (r :: todo) ->
  match Next (S k) (SeqScanExec cs ou it) t0 r0 s with
  | (x, s') => ((exists it', x = Ok (true, mk_Tuple r.1 r.2, r.1, SeqScanExec cs ou it') /\ ahead ou src l b cs it' todo) \/
        x = Err StdRuntimeError) /\
      copying s' m tgt /\ copied s m tgt [] s' m tgt
  end.
Proof.
  intros Hcp Hah. destruct (source_of s m tgt Hcp) as (m1 & cur & Hnow & He & Ho & Hok & Hst).
  pose proof (Next_ahead cs t0 r0 (heap_of s m1) cur src l b it r todo Hok Hst src_scan) as Hx.
  cbn [table_meta_ heap_of bpm_] in Hx. rewrite Ho in Hx. specialize (Hx Hah). rewrite scan_next.
  destruct (SeqScanExecutor.Next cs t0 r0 it (heap_of s m1)) as [x h] eqn:E. destruct Hx as (Hx & Hok' & Hm & Hap).
  pose proof (on_heap_run s ou m1 _ _ _ He E) as Erun.
  destruct (copying_look s m tgt m1 cur h Hcp Hnow He Hm Hok' Hap) as [Hcp' Ecat].
  assert (copied s m tgt [] (with_heap s ou h) m tgt) as Hcd by (by apply (copied_look s m tgt _ ou); [..|right|]).
  destruct Hx as [(it' & -> & Hah')| ->].
  - rewrite (bind_ok _ _ _ _ _ Erun). split_and!; [left; by eexists|done|done].
  - rewrite (bind_err _ _ _ _ _ Erun). split_and!; [by right|done|done].
Qed.
Lemma scan_done k s m tgt it t0 r0 : copying s m tgt -> ahead ou src l b cs it [] ->
  Next (S k) (SeqScanExec cs ou it) t0 r0 s = (Ok (false, t0, r0, SeqScanExec cs ou it), s).
Proof.
  intros Hcp Hah. destruct (source_of s m tgt Hcp) as (m1 & _ & _ & He & _). cbn in Hah. rewrite scan_next, Hah.
  set (stop := mk_RID _ _). assert (SeqScanExecutor.Next cs t0 r0 (at_end ou stop) (heap_of s m1) = (Ok (false, t0, r0, at_end ou stop), heap_of s m1)) as E by done.
  by rewrite (bind_ok _ _ _ _ _ (on_heap_run s ou m1 _ _ _ He E)), with_heap_same.
Qed.
(** It can be stored and printed. *)
Lemma row_in_hand s m tgt it r todo : copying s m tgt -> ahead ou src l b cs it (r :: todo) ->
  TableHeapProps.fits (mk_Tuple r.1 r.2) /\ exists str, Tuple.ToString (mk_Tuple r.1 r.2) cs = Ok str.
Proof.
  intros Hcp Hah. destruct (source_of s m tgt Hcp) as (m1 & cur & _ & _ & _ & Hok & Hst).
  destruct (ahead_row _ _ _ _ _ _ _ _ src_scan Hah) as (pre & n & a & post & i & mt & Hsrc & Hrow & _ & _ & Hpr & _). split.
  - assert (chain_page src n = Some a) as Hn by (apply chain_page_elem; [apply src_scan|]; rewrite Hsrc; apply elem_of_app; right; left).
    destruct (Hst n a Hn) as (a' & Hn' & Hpre & _). destruct (hp_pages _ _ Hok n a' Hn') as (_ & _ & _ & Hrep).
    eapply rep_fits; [exact Hrep|]. by eapply prefix_lookup_Some.
  - apply (Hpr n a mt); [left|]. by eapply list_elem_of_lookup_2.
Qed.

(** The target changed. *)
Lemma copying_put s m tgt h tgt' : copying s m tgt -> heap_ok h tgt' -> table_oid_ (table_meta_ h) = ot ->
  (still l src tgt -> still l src tgt') -> apart ot (db_bpm_ s) (bpm_ h) -> copying (with_heap s ot h) (table_meta_ h) tgt'.
Proof.
  intros [He Ho Hok Hsrc] Hok' Ho' Hst Hap. split; [apply with_heap_entry|done|by rewrite with_heap_of|].
  destruct Hsrc as [[E Hs]|(Hne & He' & Hok2)]; [left; by split; [|apply Hst]|right].
  split_and!; [done|unfold table_entry; cbn; by rewrite lookup_insert_ne by done|].
  eapply heap_ok_apart; [exact Hok2| |exact Hap|apply Hok'|apply Hok']. congruence.
Qed.

(** A row goes into the target. *)
Lemma insert_step s m tgt t count str : copying s m tgt -> TableHeapProps.can_grow (heap_of s m) -> TableHeapProps.fits t ->
  Tuple.ToString t cs = Ok str -> in_s 32 (count + 1) ->
  match insert_row ot cs t count s with
  | (Ok r, s') => r.2 = count + 1 /\ exists m' tgt', copying s' m' tgt' /\ copied s m tgt [(live, Tuple.data_ t)] s' m' tgt' /\
      last_table_data_page_id_ m' <= last_table_data_page_id_ m + 1
  | (Err e, s') => e = StdRuntimeError /\ copying s' m tgt /\ copied s m tgt [] s' m tgt
  end.
Proof.
  intros Hcp Hgr Hf Hstr Hc. pose proof Hcp as [He Ho Hok _].
  pose proof (insert_row_spec s ot m tgt cs t count str He Hok Hgr Hf Hstr Hc) as Hi. rewrite Ho in Hi.
  destruct (insert_row ot cs t count s) as [[r|e] s'].
  - destruct Hi as (h & -> & Hr & Hok' & (E1 & E2 & E3 & E4) & Hfr & Hap). split; [done|].
    destruct (hp_last _ _ Hok) as (pre & a & Etgt). exists (table_meta_ h). eexists. split.
    + apply (copying_put s m tgt h _ Hcp Hok'); [congruence| |exact Hap]. rewrite Etgt in Hok |- *. intros Hst.
      apply still_insert; [done..| |apply Hok]. apply (linked_next_last _ _ _ (hp_linked _ _ Hok)).
    + split; [|unfold fresh_page, heap_of in Hfr; cbn [table_meta_] in Hfr; lia]. split; try done.
      * eapply (beside_apart s (with_heap s ot h) ot); [by left|exact Hap|apply Hok'|apply Hok'].
      * rewrite Etgt. apply heap_rows_insert.
      * rewrite E4. cbn. unfold uwrap. by rewrite Zmod_mod.
      * intros _. rewrite E4. by apply uwrap_range.
  - destruct Hi as (-> & h & -> & Hok' & Hmeta & Hap). split; [done|].
    assert (copying (with_heap s ot h) m tgt) as Hcp'.
    { rewrite <- Hmeta. apply (copying_put s m tgt h tgt Hcp Hok'); [congruence|done|exact Hap]. }
    split; [done|]. apply (copied_look s m tgt _ ot Hcp Hcp'); [|done|by left|exact Hap].
    cbn. rewrite Hmeta. pose proof (with_heap_same s ot m He) as E. by apply (f_equal catalog_) in E.
Qed.

(** The target can take [k] more rows. *)
Definition room_for (k : nat) m : Prop := forall x, 0 <= x <= last_table_data_page_id_ m + Z.of_nat k ->
  x < 2 ^ 31 /\ ps_storable (mk_PageId ot x).
Lemma room_left k k' m m' : room_for k m -> last_table_data_page_id_ m' + Z.of_nat k' <= last_table_data_page_id_ m + Z.of_nat k ->
  room_for k' m'.
Proof. intros Hr Hk x Hx. apply Hr. lia. Qed.
Lemma room_one k s m tgt : room_for (S k) m -> copying s m tgt -> TableHeapProps.can_grow (heap_of s m).
Proof.
  intros Hr Hcp. pose proof (hp_range _ _ (cp_ok _ _ _ Hcp)) as Hrg. unfold TableHeapProps.can_grow, page_of_heap, fresh_page.
  unfold heap_of in *. cbn [table_meta_] in *. rewrite (cp_oid _ _ _ Hcp). apply Hr. lia.
Qed.

(** The outcome of the loop: some of the rows [todo] went in, all of them when it answers. *)
Definition copy_result s m tgt todo (n : Z) (x : res (AbstractExecutor * RID * Z)) s' : Prop :=
  exists k m' tgt', copying s' m' tgt' /\ copied s m tgt (take k (copies todo)) s' m' tgt' /\
    match x with Ok x => x.2 = n /\ (length todo <= k)%nat | Err e => e = StdRuntimeError end.

Lemma copy_result_cons s m tgt s1 m1 tgt1 r todo n x s' : copied s m tgt [(live, r.2)] s1 m1 tgt1 ->
  copy_result s1 m1 tgt1 todo n x s' -> copy_result s m tgt (r :: todo) n x s'.
Proof.
  intros H1 (k & m2 & tgt2 & Hcp & H2 & Hx). exists (S k), m2, tgt2. split; [done|]. split.
  - exact (copied_app _ _ _ _ _ _ _ _ _ _ _ H1 H2).
  - destruct x as [x|e]; [|done]. destruct Hx. split; [done|]. cbn. lia.
Qed.

Lemma copy_rows todo : forall s m tgt it fuel count t r rid, copying s m tgt -> ahead ou src l b cs it todo ->
  room_for (length todo) m -> 0 <= count -> count + Z.of_nat (length todo) < 2 ^ 31 -> (S (length todo) < fuel)%nat ->
  match insert_rows fuel ot (SeqScanExec cs ou it) t r rid count s with
  | (x, s') => copy_result s m tgt todo (count + Z.of_nat (length todo)) x s'
  end.
Proof.
  induction todo as [|row todo IH]; intros s m tgt it fuel count t r rid Hcp Hah Hroom Hc0 Hc Hfuel;
    (destruct fuel as [|[|fuel]]; [cbn in Hfuel; lia..|]); rewrite insert_rows_unfold.
  - rewrite (bind_ok _ _ _ _ _ (scan_done fuel s m tgt it t r Hcp Hah)). cbn.
    exists 0%nat, m, tgt. rewrite Z.add_0_r. split_and!; try done. by apply (copied_look s m tgt s ot); [..|left|].
  - cbn [length] in *. pose proof (scan_step fuel s m tgt it row todo t r Hcp Hah) as Hx.
    destruct (Next _ _ _ _ s) as [x s1] eqn:E1. destruct Hx as ([(it' & -> & Hah')| ->] & Hcp1 & Hcd1).
    2:{ rewrite (bind_err _ _ _ _ _ E1). exists 0%nat, m, tgt. by split_and!. }
    rewrite (bind_ok _ _ _ _ _ E1). cbn [AbstractExecutor.GetOutputSchema].
    destruct (row_in_hand s m tgt it row todo Hcp Hah) as [Hf [str Hstr]].
    pose proof (insert_step s1 m tgt _ count str Hcp1 (room_one _ _ _ _ Hroom Hcp1) Hf Hstr ltac:(width)) as Hi.
    destruct (insert_row ot cs _ count s1) as [[ret|e] s2] eqn:E2.
    2:{ rewrite (bind_err _ _ _ _ _ E2). destruct Hi as (-> & Hcp2 & Hcd2). exists 0%nat, m, tgt.
        split_and!; try done. exact (copied_app _ _ _ _ _ _ _ _ _ _ _ Hcd1 Hcd2). }
    rewrite (bind_ok _ _ _ _ _ E2). destruct Hi as (Hret & m2 & tgt2 & Hcp2 & Hcd2 & Hlast).
    pose proof (room_left _ (length todo) _ m2 Hroom ltac:(lia)) as Hroom2.
    specialize (IH s2 m2 tgt2 it' (S fuel) ret.2 (mk_Tuple row.1 row.2) row.1 ret.1 Hcp2 Hah' Hroom2 ltac:(lia) ltac:(lia) ltac:(lia)).
    destruct (insert_rows _ _ _ _ _ _ _ s2) as [x s3]. rewrite Hret in IH.
    replace (count + Z.of_nat (S (length todo))) with (count + 1 + Z.of_nat (length todo)) by lia.
    exact (copy_result_cons _ _ _ _ _ _ row _ _ _ _ (copied_app _ _ _ _ _ _ _ _ _ _ _ Hcd1 Hcd2) IH).
Qed.

(** Before the loop: the target may have no pages yet. *)
Record starting s m ch : Prop := {
  sg_entry : table_entry s ot m;
  sg_oid : table_oid_ m = ot;
  sg_state : table_state (heap_of s m) ch;
  sg_source : table_entry s ou mu;
  sg_source_ok : heap_ok (heap_of s mu) src;
  sg_same : ou = ot -> ch = src
}.

(** The scan is opened. *)
Lemma open_scan s m ch pre a post : starting s m ch -> src = pre ++ (1, a) :: post -> printable cs ((1, a) :: post) ->
  match on_heap ou SeqScanExecutor.make s with
  | (x, s') => ((exists it, x = Ok it /\ ahead ou src l b cs it (chain_rows ou ((1, a) :: post))) \/ x = Err StdRuntimeError) /\
      starting s' m ch /\ copied s m ch [] s' m ch
  end.
Proof.
  intros [He Ho Hst Hes Hoks Hsame] Hsrc Hpr.
  pose proof (scan_made cs (heap_of s mu) src pre a post l b Hoks src_scan Hsrc Hpr) as Hx. cbn zeta in Hx.
  cbn [table_meta_ heap_of bpm_] in Hx. rewrite mu_oid in Hx.
  destruct (SeqScanExecutor.make (heap_of s mu)) as [x h] eqn:E. destruct Hx as (Hx & Hok' & Hm & Hap).
  rewrite (on_heap_run s ou mu _ _ _ Hes E). split; [exact Hx|]. destruct h as [p m2]. cbn [table_meta_ bpm_] in *. subst m2.
  assert (catalog_ (with_heap s ou (mk_table_heap p mu)) = catalog_ s) as Ecat.
  { pose proof (with_heap_same s ou mu Hes) as E1. by apply (f_equal catalog_) in E1. }
  split; [split; try done|].
  - unfold table_entry. by rewrite Ecat.
  - destruct (decide (ou = ot)) as [Eo|Hne].
    + assert (mu = m) as <- by (unfold table_entry in *; congruence). rewrite (Hsame Eo). by left.
    + eapply table_state_apart; [exact Hst| |exact Hap|apply Hok'|apply Hok']. congruence.
  - unfold table_entry. by rewrite Ecat.
  - eapply (copied_none s m ch _ ou); [done..|by right|exact Hap|apply Hok'|apply Hok'].
Qed.

(** The target's heap is made. *)
Lemma open_target s m ch : starting s m ch -> room_for 2 m ->
  match on_heap ot TableHeap.TableHeap s with
  | (Ok _, s') => exists m' tgt, copying s' m' tgt /\ copied s m ch [] s' m' tgt /\
      last_table_data_page_id_ m' <= last_table_data_page_id_ m + 1
  | (Err e, s') => e = StdRuntimeError /\ s' = s
  end.
Proof.
  intros [He Ho Hst Hes Hoks Hsame] Hroom.
  assert (-1 <= last_table_data_page_id_ m) as Hrg by (destruct Hst as [Hok|[_ Hf]]; [apply (hp_range _ _ Hok)|apply (fr_range _ Hf)]).
  assert (has_room (heap_of s m)) as Hr.
  { intros x Hx. unfold page_of_heap, fresh_page, heap_of in *. cbn [table_meta_] in *. rewrite Ho. apply Hroom. lia. }
  pose proof (construct_table (heap_of s m) ch Hst Hr) as Hc.
  destruct (TableHeap.TableHeap (heap_of s m)) as [[[]|e] h] eqn:E.
  2:{ destruct Hc as [-> ->]. rewrite (on_heap_run s ot m _ _ _ He E). split; [done|]. by apply with_heap_same. }
  rewrite (on_heap_run s ot m _ _ _ He E). destruct Hc as (Hok & (E1 & E2 & E3 & E4) & Hfp & _ & Hap).
  cbn [table_meta_ heap_of bpm_] in E1, E2, E3, E4, Hap. rewrite Ho in Hap.
  exists (table_meta_ h), (constructed (heap_of s m) ch). split_and!.
  - split; [apply with_heap_entry|congruence|by rewrite with_heap_of|].
    destruct (decide (ou = ot)) as [Eo|Hne]; [left|right].
    + split; [done|]. rewrite (Hsame Eo). destruct (sc_last _ _ _ src_scan) as [p Ep].
      assert (constructed (heap_of s m) src = src) as -> by (rewrite Ep; by destruct p). apply still_refl.
    + split_and!; [done|unfold table_entry; cbn; by rewrite lookup_insert_ne by done|].
      eapply heap_ok_apart; [exact Hoks| |exact Hap|apply Hok|apply Hok]. congruence.
  - split; try done.
    + eapply (beside_apart s (with_heap s ot h) ot); [by left|exact Hap|apply Hok|apply Hok].
    + rewrite app_nil_r. by destruct ch.
    + rewrite E4. cbn. by rewrite Z.add_0_r.
    + by rewrite E4.
  - unfold fresh_page, heap_of, next_page, fresh_page in Hfp. cbn [table_meta_] in Hfp. destruct ch; lia.
Qed.

(** The tables after the statement: the target, and the source as it was. *)
Record holding s m tgt : Prop := {
  hd_entry : table_entry s ot m;
  hd_oid : table_oid_ m = ot;
  hd_state : table_state (heap_of s m) tgt;
  hd_source : ou <> ot -> table_entry s ou mu /\ heap_ok (heap_of s mu) src
}.
Lemma copying_holding s m tgt : copying s m tgt -> holding s m tgt.
Proof. intros [He Ho Hok Hs]. split; [done|done|by left|]. destruct Hs as [[? _]|(_ & ? & ?)]; [congruence|done]. Qed.
Lemma starting_holding s m ch : starting s m ch -> holding s m ch.
Proof. by intros []. Qed.

(** What is left of it: all of the rows [todo] are in the target, or some of them. *)
Definition all_copied s m ch todo s' : Prop := exists m' tgt, heap_ok (heap_of s' m') tgt /\ holding s' m' tgt /\
  copied s m ch (copies todo) s' m' tgt.
Definition some_copied s m ch todo s' : Prop := exists k m' tgt, holding s' m' tgt /\
  copied s m ch (take k (copies todo)) s' m' tgt.

Lemma insert_exec_rows s m ch it todo k t rid : starting s m ch -> table_names_ (catalog_ s) !! name_ m = Some ot ->
  ahead ou src l b cs it todo -> room_for (S (S (length todo))) m -> Z.of_nat (length todo) < 2 ^ 31 -> (S (length todo) < k)%nat ->
  match Next (S k) (InsertExec (SeqScanExec cs ou it) inserted_schema ot false) t rid s with
  | (Ok n, s') => (exists tuple rid child, n = (true, tuple, rid, InsertExec child inserted_schema ot true)) /\
      all_copied s m ch todo s'
  | (Err e, s') => e = StdRuntimeError /\ some_copied s m ch todo s'
  end.
Proof.
  intros Hsg Hnm Hah Hroom Hlen Hk. pose proof Hsg as [He Ho _ _ _ _].
  rewrite insert_next_unfold, (bind_ok _ _ _ _ _ (GetTable_ref_ok s ot m He Hnm)).
  pose proof (open_target s m ch Hsg (room_left (S (S (length todo))) 2 m m Hroom ltac:(lia))) as Hop.
  destruct (on_heap ot TableHeap.TableHeap s) as [[[]|e] s1] eqn:E1.
  2:{ rewrite (bind_err _ _ _ _ _ E1). destruct Hop as [-> ->]. split; [done|]. exists 0%nat, m, ch.
      split; [by apply starting_holding|]. by apply copied_refl. }
  rewrite (bind_ok _ _ _ _ _ E1). destruct Hop as (m1 & tgt1 & Hcp1 & Hcd1 & Hlast).
  pose proof (copy_rows todo s1 m1 tgt1 it k 0 Tuple.dummy RID_default rid Hcp1 Hah
    (room_left (S (S (length todo))) (length todo) m m1 Hroom ltac:(lia)) ltac:(lia) ltac:(lia) Hk) as Hx.
  destruct (insert_rows k ot _ _ _ rid 0 s1) as [[x|e] s2] eqn:E2; destruct Hx as (j & m2 & tgt2 & Hcp2 & Hcd2 & Hx);
    pose proof (copied_app _ _ _ _ _ _ _ _ _ _ _ Hcd1 Hcd2) as Hcd; pose proof (copying_holding _ _ _ Hcp2) as Hh.
  - rewrite (bind_ok _ _ _ _ _ E2). destruct Hx as [-> Hj].
    rewrite take_ge in Hcd by (unfold copies; rewrite length_fmap; lia).
    assert (in_s 32 (0 + Z.of_nat (length todo))) as Hr by width.
    change (x ← Value.make INTEGER (Arg_int32 (0 + Z.of_nat (length todo))); Ok [x]) with
      (Ok [mk_Value INTEGER (VInt32 (0 + Z.of_nat (length todo))) false] : res (list Value)).
    destruct (inserted_tuple (0 + Z.of_nat (length todo))) as [tuple Et].
    rewrite (bind_ok (lift _) _ s2 _ s2 eq_refl), Et, (bind_ok (lift _) _ s2 tuple s2 eq_refl).
    split; [by eexists _, _, _|]. exists m2, tgt2. split; [apply Hcp2|]. by split.
  - rewrite (bind_err _ _ _ _ _ E2). split; [done|]. by exists j, m2, tgt2.
Qed.

Lemma all_copied_after s s1 m ch todo s' : copied s m ch [] s1 m ch -> all_copied s1 m ch todo s' -> all_copied s m ch todo s'.
Proof. intros H1 (m' & tgt & Hok & Hh & H2). exists m', tgt. split_and!; [done..|]. exact (copied_app _ _ _ _ _ _ _ _ _ _ _ H1 H2). Qed.
Lemma some_copied_after s s1 m ch todo s' : copied s m ch [] s1 m ch -> some_copied s1 m ch todo s' -> some_copied s m ch todo s'.
Proof. intros H1 (k & m' & tgt & Hh & H2). exists k, m', tgt. split; [done|]. exact (copied_app _ _ _ _ _ _ _ _ _ _ _ H1 H2). Qed.

(** The plan of INSERT ... SELECT. *)
Lemma execute_copy s m ch name pre a post k : let todo := chain_rows ou ((1, a) :: post) in
  starting s m ch -> table_names_ (catalog_ s) !! name_ m = Some ot -> table_names_ (catalog_ s) !! name_ mu = Some ou ->
  src = pre ++ (1, a) :: post -> printable cs ((1, a) :: post) ->
  room_for (S (S (length todo))) m -> Z.of_nat (length todo) < 2 ^ 31 -> (S (length todo) < k)%nat ->
  match Execute (S k) (InsertPlanNode inserted_schema (SeqScanPlanNode cs ou name None) ot) s with
  | (Ok rows, s') => length rows = 1%nat /\ all_copied s m ch todo s'
  | (Err e, s') => e = StdRuntimeError /\ some_copied s m ch todo s'
  end.
Proof.
  intros todo Hsg Hnm Hnu Hsrc Hpr Hroom Hlen Hk. pose proof (open_scan s m ch pre a post Hsg Hsrc Hpr) as Hop.
  assert (CreateExecutor (InsertPlanNode inserted_schema (SeqScanPlanNode cs ou name None) ot) s =
    (child ← (table_iter ← on_heap ou SeqScanExecutor.make; mret (SeqScanExec cs ou table_iter));
     mret (InsertExec child inserted_schema ot false)) s) as Ec.
  { cbn [CreateExecutor]. unfold mbind at 1 2 4, M_bind at 1 2 4.
    by rewrite (GetTable_ref_ok s ou mu (sg_source _ _ _ Hsg) Hnu). }
  unfold Execute. destruct (on_heap ou SeqScanExecutor.make s) as [x s1] eqn:E1. destruct Hop as (Hx & Hsg1 & Hcd1).
  destruct Hx as [(it & -> & Hah)| ->].
  2:{ erewrite (bind_err (CreateExecutor _)); [|rewrite Ec; apply bind_err, bind_err, E1].
      split; [done|]. exists 0%nat, m, ch. by split; [apply starting_holding|]. }
  erewrite (bind_ok (CreateExecutor _)).
  2:{ rewrite Ec. erewrite bind_ok; [reflexivity|]. rewrite (bind_ok _ _ _ _ _ E1). reflexivity. }
  rewrite poll_unfold.
  assert (table_names_ (catalog_ s1) !! name_ m = Some ot) as Hnm1 by by rewrite (cd_catalog _ _ _ _ _ _ _ Hcd1).
  pose proof (insert_exec_rows s1 m ch it todo k Tuple.dummy RID_default Hsg1 Hnm1 Hah Hroom Hlen Hk) as Hx.
  destruct (Next _ (InsertExec _ _ _ false) _ _ s1) as [[n|e] s2] eqn:E2.
  - destruct Hx as [(tuple & rid & child & ->) Hall]. rewrite (bind_ok _ _ _ _ _ E2). destruct k as [|k]; [lia|].
    rewrite poll_unfold. rewrite (bind_ok _ _ s2 (false, tuple, rid, InsertExec child inserted_schema ot true) s2) by done.
    split; [done|]. by eapply all_copied_after.
  - rewrite (bind_err _ _ _ _ _ E2). destruct Hx as [-> Hsome]. split; [done|]. by eapply some_copied_after.
Qed.
End copy.

(** ** The statement *)
Lemma copies_rows oid ch : copies (chain_rows oid ch) = (fun r => (live, r.2)) <$> heap_rows ch.
Proof.
  unfold copies. induction ch as [|[n a] ch IH]; [done|]. cbn [chain_rows]. unfold heap_rows in *. cbn [fmap list_fmap concat snd].
  rewrite !fmap_app, IH. f_equal. unfold rows_from. rewrite fmap_imap. generalize 0%nat at 1.
  induction (tp_rows a) as [|r rows IHr]; intros i; [done|]. cbn. f_equal. exact (IHr (S i)).
Qed.

(** The schema of a scan is made anew from the table's columns: it has the same layout. *)
Lemma laid_out_total cols o e : laid_out cols o e -> e = o + inline_total cols.
Proof.
  revert o. induction cols as [|c cols IH]; intros o; [cbn; lia|]. intros [_ Hl]. rewrite inline_total_cons.
  specialize (IH _ Hl). lia.
Qed.
Lemma schema_remade sch : schema_wf sch -> in_u 32 (tuple_inline_part_storage_size_ sch) ->
  Z.of_nat (length (columns_ sch)) < 2 ^ 32 ->
  exists cs, Schema.make (columns_ sch) = Ok cs /\ Forall2 same_cell (columns_ cs) (columns_ sch).
Proof.
  intros [Hwf Hlay Hun] Hr Hlen. pose proof (laid_out_total _ _ _ Hlay) as Ht.
  destruct (build_ok (columns_ sch) 0 0 Hwf) as (cols & unin & Eb & Hl & Hlay' & Hwf' & Hlk & _); [lia|lia|lia|width|].
  exists (mk_Schema cols unin (0 + inline_total (columns_ sch))). split.
  - unfold Schema.make. rewrite Eb. cbn [mbind res_bind]. by rewrite bool_decide_true.
  - cbn [columns_]. eapply same_layout; [exact Hwf'|exact Hwf| |exact Hlay'|exact Hlay].
    apply Forall2_same_length_lookup_2; [done|]. intros i c c' Hc Hc'. destruct (Hlk i c Hc) as (c0 & Hc0 & _ & Ht0 & _).
    congruence.
Qed.
Lemma ToString_same t cs sch : Forall2 same_cell (columns_ cs) (columns_ sch) -> Tuple.ToString t cs = Tuple.ToString t sch.
Proof.
  intros Hc. unfold Tuple.ToString. assert (Tuple.to_strings t (columns_ cs) = Tuple.to_strings t (columns_ sch)) as ->; [|done].
  induction Hc as [|c c' l l' Hc _ IH]; [done|]. cbn [Tuple.to_strings]. by rewrite (GetValue_col_same t c c' Hc), IH.
Qed.

(** [INSERT INTO n SELECT sel FROM u] *)
Definition insert_select (n u : string) (sel : list hsql.Expr) : hsql.SQLStatement :=
  hsql.kStmtInsert (hsql.mk_InsertStatement n None (Some (hsql.mk_SelectStatement (Some (Some u)) (Some sel)))).

Lemma Bind_insert_select n u sel bound c m mu : Catalog.GetTableByName n c = Ok m -> Catalog.GetTableByName u c = Ok mu ->
  String.prefix "__" n = false ->
  Binder.BindExpressionList (Some (mk_BoundBaseTableRef u (table_oid_ mu) (schema_ mu))) sel = Ok bound ->
  Binder.Bind (insert_select n u sel) c = Ok (INSERT_STATEMENT (mk_InsertStatement
    (mk_BoundBaseTableRef n (table_oid_ m) (schema_ m))
    (mk_SelectStatement (BaseTableRef (mk_BoundBaseTableRef u (table_oid_ mu) (schema_ mu))) bound))).
Proof.
  intros Hn Hu Hp Hb. cbn [Binder.Bind insert_select]. unfold Binder.BindInsert, Binder.BindBaseTableRef.
  cbn [hsql.insert_tableName hsql.values hsql.select]. rewrite Hn. cbn [mbind res_bind table_]. rewrite Hp.
  unfold Binder.BindSelect, Binder.BindBaseTableRef. cbn [hsql.fromTable hsql.selectList Binder.c_string mbind res_bind].
  rewrite Hu. cbn [mbind res_bind]. by rewrite Hb.
Qed.

(** The list of the SELECT is not looked at: every column goes across. *)
Lemma PlanQuery_insert_select n ot sch u bound c mu cs : Catalog.GetTableByName u c = Ok mu ->
  Schema.make (columns_ (schema_ mu)) = Ok cs ->
  Planner.PlanQuery (INSERT_STATEMENT (mk_InsertStatement (mk_BoundBaseTableRef n ot sch)
    (mk_SelectStatement (BaseTableRef (mk_BoundBaseTableRef u (table_oid_ mu) (schema_ mu))) bound))) c =
    if Schema.TypeMatch sch cs
    then Ok (InsertPlanNode inserted_schema (SeqScanPlanNode cs (table_oid_ mu) (name_ mu) None) ot) else Err Exception.
Proof.
  intros Hu Hcs. unfold Planner.PlanQuery, Planner.PlanInsert, Planner.PlanSelect, Planner.PlanTableRef.
  cbn [insert_select_ select_table_ table_ref_type Planner.table_ref_ToString mbind res_bind insert_table_ base_schema_ oid_ table_].
  rewrite Hu. unfold Schema.GetColumns. cbn [mbind res_bind]. rewrite Hcs. cbn [mbind res_bind AbstractPlanNode.OutputSchema].
  destruct (Schema.TypeMatch sch cs); [|done]. cbn [negb].
  change (Column.fixed "inserted_rows" INTEGER) with (Ok inserted_rows). cbn [mbind res_bind].
  change (Schema.make [inserted_rows]) with (Ok inserted_schema). done.
Qed.

Section statement.
Context {D : Type} `{PageStore D} `{!HashOrder Z bool} `{!TupleInfoLayout} `{!LeafLayout}.
Context `{!HashOrder Z (option TableMeta)} `{!HashOrder Z (option IndexMeta)}
  `{!HashOrder string Z} `{!HashOrder string (gmap string Z)}.
Context (parse : string -> option (list hsql.SQLStatement)) (index_id : Z).
#[local] Set Default Proof Using "Type*".
Implicit Types (s : db D) (m : TableMeta) (ch : chain).

(** The tables have columns of the same types. *)
Definition same_types m mu : Prop :=
  Forall2 (fun col col' => column_type_ col = column_type_ col') (columns_ (schema_ m)) (columns_ (schema_ mu)).
#[export] Instance same_types_dec m mu : Decision (same_types m mu).
Proof. unfold same_types. apply _. Defined.

Lemma scan_schema mu : schema_wf (schema_ mu) -> TableMeta.valid mu ->
  exists cs, Schema.make (columns_ (schema_ mu)) = Ok cs /\ Forall2 same_cell (columns_ cs) (columns_ (schema_ mu)).
Proof.
  intros Hwf ((_ & _ & _ & _ & Hr) & _). apply schema_remade; [done|done|]. destruct Hwf as [Hc Hl _].
  pose proof (laid_out_length _ _ _ Hc Hl). width.
Qed.
Lemma types_through m mu cs : Forall2 same_cell (columns_ cs) (columns_ (schema_ mu)) ->
  Schema.TypeMatch (schema_ m) cs = bool_decide (same_types m mu).
Proof.
  intros Hc. apply eq_true_iff_eq. rewrite bool_decide_eq_true. unfold Schema.TypeMatch. rewrite type_match_spec. unfold same_types.
  rewrite !Forall2_same_length_lookup, (Forall2_length _ _ _ Hc). split; intros [Hl Ht]; (split; [done|]); intros i c c' Hi Hi'.
  - destruct (Forall2_lookup_r _ _ _ _ _ Hc Hi') as (c0 & Hc0 & E & _). rewrite <- E. by eapply Ht.
  - destruct (Forall2_lookup_l _ _ _ _ _ Hc Hi') as (c0 & Hc0 & E & _). rewrite E. by eapply Ht.
Qed.

(** The tables the statement is about. *)
Lemma open_starting s n u ot ou m mu ch src : open_table s n ot m ch -> open_table s u ou mu src -> heap_ok (heap_of s mu) src ->
  (n = u -> ch = src) -> starting ot ou mu src s m ch.
Proof.
  intros Hn Hu Hok Hsame. destruct (open_table_names _ _ _ _ _ Hn) as (En & Eot & _), (open_table_names _ _ _ _ _ Hu) as (Eu & _).
  split; [apply Hn|done|apply Hn|apply Hu|done|]. intros ->. apply Hsame. pose proof (ot_entry _ _ _ _ _ Hn) as E1.
  pose proof (ot_entry _ _ _ _ _ Hu) as E2. unfold table_entry in *. congruence.
Qed.

(** The target is still open after rows were copied, and so is the source. *)
Lemma copied_open s n ot ou m ch rows s' m' tgt : open_table s n ot m ch -> copied ot ou s m ch rows s' m' tgt ->
  heap_ok (heap_of s' m') tgt -> open_table s' n ot m' tgt.
Proof.
  intros Hop [C1 C2 _ _ C4 C5 C6 _ C7] Hok. destruct (open_table_names _ _ _ _ _ Hop) as (_ & _ & (V1 & V2 & V3 & V4 & V5 & V6) & _).
  destruct Hop as [Hwf Hl Hd Hn Hm Hs _]. split; rewrite ?C1, ?C2; cbn [Catalog.set_table table_names_]; try done.
  - eapply set_table_wf; [exact Hwf|exact Hm|done|done|]. pose proof (heap_meta_valid _ _ Hok) as Hv. cbn [table_meta_ heap_of] in Hv.
    apply Hv; rewrite ?C4, ?C5, ?C6; first [done|by apply C7].
  - unfold table_entry. rewrite C1. apply lookup_insert_eq.
  - by rewrite C4.
  - by left.
Qed.

(** The end of the statement leaves every table as it is. *)
Lemma finish_others s n ot m tgt : open_table s n ot m tgt -> heap_ok (heap_of s m) tgt ->
  exists s', (DB.with_bpm BufferPool.FlushAllPages;; DB.PersistCatalog) s = (Ok tt, s') /\
    catalog_ s' = catalog_ s /\ open_table s' n ot m tgt /\ heap_ok (heap_of s' m) tgt /\
    (forall m' ch', table_state (heap_of s m') ch' -> table_state (heap_of s' m') ch') /\
    exists s0, (DB.DB (db_fs_ s') (disk_manager_ (db_bpm_ s'))).1 = Ok s0 /\
      table_entry s0 ot (TableMeta.persisted m) /\ heap_ok (heap_of s0 (TableMeta.persisted m)) tgt.
Proof.
  intros Hop Hok. destruct (finish_spec s n ot m tgt Hop Hok) as (s' & E & Hcat & Hop' & Hok' & Hre). exists s'.
  split_and!; try done. destruct (finish_steps s (hp_pool _ _ Hok) (ot_wf _ _ _ _ _ Hop) (ot_layout _ _ _ _ _ Hop)
    (ot_disk _ _ _ _ _ Hop)) as (p & fs' & E' & Ep & _). rewrite E in E'. injection E' as ->.
  intros m' ch' Hs. exact (proj1 (table_state_flush _ _ _ _ Hs Ep)).
Qed.

(** Two open tables with different names. *)
Lemma open_apart s n u ot ou m mu ch src : open_table s n ot m ch -> open_table s u ou mu src -> n <> u -> ou <> ot.
Proof.
  intros Hn Hu Hne ->. destruct (open_table_names _ _ _ _ _ Hn) as (En & _), (open_table_names _ _ _ _ _ Hu) as (Eu & _).
  pose proof (ot_entry _ _ _ _ _ Hn) as E1. pose proof (ot_entry _ _ _ _ _ Hu) as E2. unfold table_entry in *. congruence.
Qed.
Lemma source_open s n ot m tgt s1 u ou mu src : open_table s1 n ot m tgt -> open_table s u ou mu src ->
  table_names_ (catalog_ s1) = table_names_ (catalog_ s) -> table_entry s1 ou mu -> table_state (heap_of s1 mu) src ->
  open_table s1 u ou mu src.
Proof. intros [Hwf Hl Hd _ _ _ _] [_ _ _ Hn _ Hs _] Hnames He Hst. split; try done. by rewrite Hnames. Qed.

(** The statement once it is planned and executed, and its end. *)
Lemma insert_select_effect j query n u sel bound s (ot ou : Z) m mu ch src (pre pre' : chain) a post (l : Z) b :
  let todo := chain_rows ou ((1, a) :: post) in
  parse query = Some [insert_select n u sel] -> open_table s n ot m ch -> open_table s u ou mu src -> (n = u -> ch = src) ->
  String.prefix "__" n = false ->
  Binder.BindExpressionList (Some (mk_BoundBaseTableRef u ou (schema_ mu))) sel = Ok bound ->
  in_order src -> src = pre ++ (1, a) :: post -> src = pre' ++ [(l, b)] -> (0 < length (tp_rows b))%nat ->
  printable (schema_ mu) ((1, a) :: post) -> room_for ot (S (S (length todo))) m -> Z.of_nat (length todo) < 2 ^ 31 ->
  if decide (same_types m mu) then
    exists (x : res unit) s1, match x with
      | Ok _ => all_copied ot ou mu src s m ch todo s1
      | Err e => e = StdRuntimeError /\ some_copied ot ou mu src s m ch todo s1
      end /\
      DB.ExecuteQuery parse index_id (S (S (S (length todo + j)))) query s =
        match x with Ok _ => ((DB.with_bpm BufferPool.FlushAllPages;; DB.PersistCatalog);; mret tt) s1 | Err e => (Err e, s1) end
  else DB.ExecuteQuery parse index_id (S (S (S (length todo + j)))) query s = (Err Exception, s).
Proof.
  intros todo Hparse Hn Hu Hsame Hpre Hsel Hord Hsrc Hl Hb Hpr Hroom Hlen.
  destruct (open_table_names _ _ _ _ _ Hn) as (En & Eot & _ & Hgetn), (open_table_names _ _ _ _ _ Hu) as (Eu & Eou & Hvu & Hgetu).
  assert (heap_ok (heap_of s mu) src) as Hok.
  { destruct (ot_pages _ _ _ _ _ Hu) as [|[-> _]]; [done|]. by destruct pre'. }
  destruct (scan_schema mu (ot_schema _ _ _ _ _ Hu) Hvu) as (cs & Hcs & Hcells).
  rewrite <- Eou in Hsel. pose proof (Bind_insert_select n u sel bound (catalog_ s) m mu Hgetn Hgetu Hpre Hsel) as Eb.
  pose proof (PlanQuery_insert_select n (table_oid_ m) (schema_ m) u bound (catalog_ s) mu cs Hgetu Hcs) as Epl.
  rewrite (types_through m mu cs Hcells) in Epl.
  destruct (decide (same_types m mu)) as [Hty|Hty].
  2:{ rewrite bool_decide_false in Epl by done.
      by rewrite (query_refused parse index_id _ query _ s Exception Hparse) by (unfold insert_select in Eb; rewrite Eb; exact Epl). }
  rewrite bool_decide_true in Epl by done. rewrite (query_steps parse index_id _ query _ _ _ s Hparse Eb Epl), Eot, Eou, Eu.
  assert (printable cs ((1, a) :: post)) as Hpr'.
  { intros k c mt bs rid Hk Hr. rewrite (ToString_same _ _ _ Hcells). by eapply Hpr. }
  assert (ends_at l src) as Hends.
  { rewrite Hl in Hok |- *. apply linked_ends; [|apply Hok..]. intros k c Hk. apply (hp_pages _ _ Hok k c Hk). }
  pose proof (execute_copy ot ou mu src l b cs Eou (heap_scannable _ _ _ _ _ Hok Hord Hl Hb) Hends s m ch u pre a post
    (S (S (length todo + j))) (open_starting s n u ot ou m mu ch src Hn Hu Hok Hsame)) as Hx.
  cbn zeta in Hx. rewrite En, Eu in Hx. fold todo in Hx.
  specialize (Hx (ot_name _ _ _ _ _ Hn) (ot_name _ _ _ _ _ Hu) Hsrc Hpr' Hroom Hlen ltac:(lia)).
  destruct (Execute _ _ s) as [x s1] eqn:E1. exists (match x with Ok _ => Ok tt | Err e => Err e end), s1. destruct x as [x|e].
  - split; [apply Hx|]. unfold mbind at 1 2, M_bind at 1 2. by rewrite E1.
  - split; [exact Hx|]. rewrite (bind_err (_;; _) _ s e s1); [done|]. by rewrite (bind_err _ _ _ _ _ E1).
Qed.

(** C4: the query [INSERT INTO n SELECT ... FROM u], for tables with columns of the same
    types, puts a copy of every row of [u] from page 1 on, with all of its columns whatever
    the SELECT lists, at the end of [n]: also when both are the same table, whose rows are
    then doubled and not copied for ever.  The tuple count grows by two for each row, no
    other table changes, and a database opened afterwards finds the table so.  When the pool
    has no frame left the statement throws with some of the rows in the table and the files
    as they were.  Tables of other types are refused and nothing changes. *)
Theorem insert_select_executed j query n u sel bound s (ot ou : Z) m mu ch src (pre pre' : chain) a post (l : Z) b :
  let rows := (fun r => (live, r.2)) <$> heap_rows ((1, a) :: post) in
  parse query = Some [insert_select n u sel] -> open_table s n ot m ch -> open_table s u ou mu src -> (n = u -> ch = src) ->
  String.prefix "__" n = false ->
  Binder.BindExpressionList (Some (mk_BoundBaseTableRef u ou (schema_ mu))) sel = Ok bound ->
  in_order src -> src = pre ++ (1, a) :: post -> src = pre' ++ [(l, b)] -> (0 < length (tp_rows b))%nat ->
  printable (schema_ mu) ((1, a) :: post) -> room_for ot (S (S (length rows))) m -> Z.of_nat (length rows) < 2 ^ 31 ->
  match DB.ExecuteQuery parse index_id (S (S (S (length rows + j)))) query s with
  | (Ok _, s') => same_types m mu /\ exists m' tgt, heap_rows tgt = heap_rows ch ++ rows /\
      schema_ m' = schema_ m /\ tuple_count_ m' = uwrap 64 (tuple_count_ m + 2 * Z.of_nat (length rows)) /\
      open_table s' n ot m' tgt /\ heap_ok (heap_of s' m') tgt /\ (n <> u -> open_table s' u ou mu src) /\
      catalog_ s' = Catalog.set_table ot m' (catalog_ s) /\ beside ot ou s s' /\
      exists s0, (DB.DB (db_fs_ s') (disk_manager_ (db_bpm_ s'))).1 = Ok s0 /\
        table_entry s0 ot (TableMeta.persisted m') /\ heap_ok (heap_of s0 (TableMeta.persisted m')) tgt
  | (Err e, s') => if decide (same_types m mu) then
      e = StdRuntimeError /\ db_fs_ s' = db_fs_ s /\ exists k m' tgt, heap_rows tgt = heap_rows ch ++ take k rows /\
        table_entry s' ot m' /\ table_state (heap_of s' m') tgt /\ beside ot ou s s' /\
        (n <> u -> table_entry s' ou mu /\ heap_ok (heap_of s' mu) src)
      else e = Exception /\ s' = s
  end.
Proof.
  intros rows Hparse Hn Hu Hsame Hpre Hsel Hord Hsrc Hl Hb Hpr Hroom Hlen.
  assert (rows = copies (chain_rows ou ((1, a) :: post))) as Erows by by rewrite copies_rows.
  assert (length rows = length (chain_rows ou ((1, a) :: post))) as Elen by (rewrite Erows; unfold copies; by rewrite length_fmap).
  pose proof (insert_select_effect j query n u sel bound s ot ou m mu ch src pre pre' a post l b Hparse Hn Hu Hsame Hpre Hsel
    Hord Hsrc Hl Hb Hpr) as Hx. cbn zeta in Hx. rewrite <- Elen in Hx. specialize (Hx Hroom Hlen).
  destruct (decide (same_types m mu)) as [Hty|Hty]; [|by rewrite Hx].
  destruct Hx as ([[]|e] & s1 & Hx & ->).
  - destruct Hx as (m1 & tgt & Hok1 & Hh & Hcd). rewrite <- Erows in Hcd.
    pose proof (copied_open s n ot ou m ch rows s1 m1 tgt Hn Hcd Hok1) as Hn1.
    destruct (finish_others s1 n ot m1 tgt Hn1 Hok1) as (s2 & E2 & Hcat & Hn2 & Hok2 & Hpages & Hre).
    rewrite (bind_ok _ _ _ _ _ E2). split; [done|]. exists m1, tgt. split_and!; try done.
    + apply Hcd.
    + apply Hcd.
    + destruct (open_table_names _ _ _ _ _ Hn) as (_ & _ & (_ & _ & _ & _ & _ & Hc) & _).
      destruct (cd_range _ _ _ _ _ _ _ _ _ Hcd Hc) as [Hc0 Hc1]. rewrite <- (cd_count _ _ _ _ _ _ _ _ _ Hcd). symmetry. by apply uwrap_id.
    + intros Hne. destruct (hd_source _ _ _ _ _ _ _ Hh (open_apart _ _ _ _ _ _ _ _ _ Hn Hu Hne)) as [He Hok'].
      apply (source_open s n ot m1 tgt s2 u ou mu src Hn2 Hu); [|unfold table_entry; by rewrite Hcat|by apply Hpages; left].
      by rewrite Hcat, (cd_catalog _ _ _ _ _ _ _ _ _ Hcd).
    + by rewrite Hcat, (cd_catalog _ _ _ _ _ _ _ _ _ Hcd).
    + intros m' ch' Hm1 Hm2 Hs. by apply Hpages, (cd_beside _ _ _ _ _ _ _ _ _ Hcd).
  - destruct Hx as (-> & k & m1 & tgt & [Hh1 Hh2 Hh3 Hh4] & Hcd). rewrite <- Erows in Hcd. split_and!; [done|apply Hcd|].
    exists k, m1, tgt. split_and!; try done; [apply Hcd..|]. intros Hne. apply Hh4. by eapply open_apart.
Qed.
End statement.

(** ** A concrete copy *)
#[local] Existing Instance any_order.
#[local] Existing Instance memory_store.
#[local] Existing Instance packed_leaf.
#[local] Existing Instance libstdcxx_layout.

(** A table with a primary key, a row in it, and [INSERT INTO t SELECT * FROM t]. *)
Definition star : list hsql.Expr := [hsql.mk_Expr hsql.kExprStar 0 None hsql.kOpOther None None].
Definition copy_parse (query : string) : option (list hsql.SQLStatement) :=
  if bool_decide (query = "copy") then Some [insert_select "t" "t" star] else session_parse query.
Definition started_db : db (gmap PageId (list Byte.byte)) :=
  match (DB.DB no_files ∅).1 with Ok s => s | Err _ => empty_db end.
Definition keyed_db : db (gmap PageId (list Byte.byte)) := (DB.ExecuteQuery copy_parse 0 4 "keyed" started_db).2.
Definition one_row_db : db (gmap PageId (list Byte.byte)) := (DB.ExecuteQuery copy_parse 0 4 "insert" keyed_db).2.

Definition entry_pages (e : option (option TableMeta)) : option (Z * Z) :=
  match e with Some (Some m) => Some (last_table_heap_data_page_id_ m, last_table_data_page_id_ m) | _ => None end.
Lemma entry_pages_ok e m l1 l2 : e = Some (Some m) -> entry_pages e = Some (l1, l2) ->
  last_table_heap_data_page_id_ m = l1 /\ last_table_data_page_id_ m = l2.
Proof. intros -> [= <- <-]. done. Qed.
Lemma keyed_pages : entry_pages (tables_ (catalog_ keyed_db) !! 0) = Some (INVALID_PAGE_ID, 0).
Proof. vm_compute. reflexivity. Qed.

Lemma keyed_opens : exists m, open_table keyed_db "t" 0 m [] /\ schema_ m = demo_table /\ last_table_data_page_id_ m = 0.
Proof.
  destruct (first_start (D:=gmap PageId (list Byte.byte)) (H:=memory_store) 4 4 ltac:(lia) ltac:(lia) ltac:(done) no_files ∅ 2 no_files_layout eq_refl
    ltac:(done) ltac:(lia) ltac:(lia)) as (s0 & E & Hs).
  assert (s0 = started_db) as -> by (unfold started_db; by rewrite E).
  assert (command_ok (CreateTable "t" demo_cols ["id"])) as Hok.
  { split; [apply t_name_ok|]. split; [by vm_compute|]. exists demo_table.
    split_and!; [done|apply demo_table_valid|apply demo_table_wf|]. right. by eexists _, _. }
  pose proof (session_create (D:=gmap PageId (list Byte.byte)) (H:=memory_store) copy_parse 0 ltac:(width) 4 4 ltac:(lia) ltac:(lia) ltac:(done) 4 "keyed" 1 started_db ∅ "t" demo_cols ["id"]
    keyed_create Hs ltac:(lia) eq_refl eq_refl Hok) as Hf.
  fold keyed_db in Hf. destruct Hf as [Hf|[_ Hf]]; [exfalso; vm_compute in Hf; discriminate Hf|]. fold keyed_db in Hf.
  destruct (so_tables _ _ _ _ _ Hf "t" (mk_table demo_table []) eq_refl) as (oid & m & ch & Hta & _).
  pose proof Hta as [Hn He Hsch _ [Hst _] Hrows]. cbn [tb_schema] in Hsch.
  assert (oid = 0) as -> by (vm_compute in Hn; by injection Hn as <-).
  assert (open_table keyed_db "t" 0 m ch) as Hop.
  { split; [apply Hf|apply Hf|apply Hf|exact Hn|exact He|rewrite Hsch; apply demo_table_wf|exact Hst]. }
  assert (last_table_heap_data_page_id_ m = INVALID_PAGE_ID /\ last_table_data_page_id_ m = 0) as [Hl1 Hl2].
  { apply (entry_pages_ok _ m _ _ He keyed_pages). }
  destruct Hst as [Hok'|[-> _]]; [|exists m; exact (conj Hop (conj Hsch Hl2))].
  destruct (hp_last _ _ Hok') as (pre & a & ->).
  destruct (chain_page_last _ _ _ (hp_nodup _ _ Hok')) as [Hl _]. destruct (hp_pages _ _ Hok' _ _ Hl) as (Hr & _).
  cbn [table_meta_] in Hr. rewrite Hl1 in Hr. unfold INVALID_PAGE_ID in Hr. lia.
Qed.

(** A row that reads as the values of literals can be printed. *)
Lemma reads_print rid data sch vs : length (columns_ sch) = length vs -> Forall short_literal vs ->
  (forall rid i v, vs !! i = Some v -> Tuple.GetValue (mk_Tuple rid data) sch i = Ok v) ->
  exists str, Tuple.ToString (mk_Tuple rid data) sch = Ok str.
Proof.
  intros Hl Hs Hget. destruct (row_prints (mk_Tuple rid data) (columns_ sch) vs Hs Hl) as [l El].
  - intros i c v Hc Hv. specialize (Hget rid i v Hv). unfold Tuple.GetValue, Schema.GetColumn in Hget. by rewrite Hc in Hget.
  - unfold Tuple.ToString. rewrite El. by eexists.
Qed.

(** The table then has one page, with number 1 and the row. *)
Lemma one_row_opens : exists m a, open_table one_row_db "t" 0 m [(1, a)] /\ schema_ m = demo_table /\ length (tp_rows a) = 1%nat /\
  last_table_data_page_id_ m <= 2 /\ printable demo_table [(1, a)].
Proof.
  destruct keyed_opens as (m & Hop & Hsch & Hlast).
  pose proof (insert_values_effect copy_parse 0 0 "insert" demo_literals demo_row keyed_db "t" 0 m [] eq_refl Hop) as Hi.
  unfold one_row_db. destruct (DB.ExecuteQuery copy_parse 0 4 "insert" keyed_db) as [[[]|e] s'] eqn:E;
    [|exfalso; vm_compute in E; discriminate E]. cbn [snd]. clear E.
  destruct Hi as (data & s1 & Hread & Hadd & Efin & Hfit).
  - intros k Hk. unfold fresh_page, heap_of in Hk. cbn [table_meta_] in Hk. rewrite Hlast in Hk. split; [lia|exact I].
  - reflexivity.
  - repeat constructor.
  - exact demo_row_short.
  - rewrite Hsch. repeat constructor.
  - cbn; lia.
  - unfold row_fits. vm_compute. congruence.
  - set (row := mk_Tuple RID_default data) in *.
    assert ((chain_insert (next_page (heap_of keyed_db m) []) (constructed (heap_of keyed_db m) []) live row).2 =
      [(1, add_row empty_page live row)]) as Ech.
    { unfold constructed, next_page, fresh_page, heap_of. cbn [table_meta_ chain_insert]. rewrite Hlast.
      by rewrite (fits_empty row empty_page Hfit eq_refl). }
    destruct (row_added_open keyed_db "t" 0 m [] row s1 Hop Hadd) as (m' & (Esch & _) & Hok & Hop1 & _).
    rewrite Ech in Hok, Hop1. destruct (finish_spec s1 "t" 0 m' _ Hop1 Hok) as (s2 & E2 & _ & Hop2 & _).
    rewrite Efin in E2. injection E2 as <-. exists m', (add_row empty_page live row).
    split; [exact Hop2|]. split; [by rewrite Esch|]. split; [reflexivity|]. split.
    + destruct Hadd as (h & -> & _ & _ & Hfr & _). pose proof (ot_entry _ _ _ _ _ Hop1) as He.
      pose proof (with_heap_entry keyed_db 0 h) as He'. unfold table_entry in He, He'. rewrite He in He'. injection He' as ->.
      unfold fresh_page, heap_of in Hfr. cbn [table_meta_] in Hfr. rewrite Hlast in Hfr. lia.
    + intros k c mt bs rid Hk Hr. apply list_elem_of_singleton in Hk as [= -> ->].
      apply list_elem_of_singleton in Hr as [= -> ->]. apply (reads_print rid data demo_table demo_row eq_refl demo_row_short).
      by rewrite <- Hsch.
Qed.

Lemma insert_select_executed_witness : exists s' m' tgt row,
  DB.ExecuteQuery copy_parse 0 4 "copy" one_row_db = (Ok tt, s') /\ open_table s' "t" 0 m' tgt /\ heap_rows tgt = [row; (live, row.2)].
Proof.
  destruct one_row_opens as (m & a & Hop & Hsch & Hlen & Hlast & Hpr).
  pose proof (insert_select_executed copy_parse 0 0 "copy" "t" "t" star
    (Binder.star_columns (mk_BoundBaseTableRef "t" 0 demo_table)) one_row_db 0 0 m m [(1, a)] [(1, a)] [] [] a [] 1 a) as Hx.
  cbn zeta in Hx. unfold heap_rows in Hx. cbn [fmap list_fmap concat snd] in Hx. rewrite app_nil_r in Hx.
  destruct (tp_rows a) as [|row [|]] eqn:Er; try discriminate Hlen. cbn [fmap list_fmap length plus app] in Hx.
  destruct (DB.ExecuteQuery copy_parse 0 4 "copy" one_row_db) as [[[]|e] s'] eqn:E; [|exfalso; vm_compute in E; discriminate E].
  clear E. destruct Hx as (_ & m' & tgt & Hrows & _ & _ & Hop' & _).
  - reflexivity.
  - exact Hop.
  - exact Hop.
  - reflexivity.
  - reflexivity.
  - rewrite Hsch. reflexivity.
  - split; exact I.
  - reflexivity.
  - reflexivity.
  - cbn. lia.
  - rewrite Hsch. exact Hpr.
  - intros x Hx. split; [cbn in Hx; lia|exact I].
  - cbn. lia.
  - exists s', m', tgt, row. split; [reflexivity|]. split; [exact Hop'|exact Hrows].
Defined.
